(* ===== verification/_CoqProject ===== *)
-Q . S2P
Prelude.v
CInt.v
KState.v
KString.v
Riscv.v
Spinlock.v
Kalloc.v
Vm.v
VmSpec.v
VmMap.v
Proc.v
Sched.v
Ring.v
Uart.v
Printf.v
Console.v
Virtio.v
VirtioSpec.v
Bio.v
Bcache.v
Log.v
LogSpec.v
Fs.v
FsSpec.v
FsFile.v
FsWrite.v
Writei.v
Dir.v
Mkfs.v
Pipe.v
PipeSpec.v
File.v
ProcLife.v
Exec.v
Syscall.v
Args.v
Trap.v
Asm.v
Switch.v
Trampoline.v
Start.v
Initcode.v
Ulib.v
Usys.v
Programs.v
Umalloc.v
Grep.v
Grind.v
Sh.v
