(* ===== verification/Prelude.v ===== *)
(** * xv6 for RISC-V: a model of the kernel and its user programs

    The program is the xv6 kernel (src/kernel), the user library, shell and
    small programs that run on it (src/user), and the tool that makes the first
    file system (src/mkfs).

    ** The parts and how they interact

    A user program traps into the kernel (trap.c), which dispatches the system
    call (syscall.c) to its handler (sysproc.c, sysfile.c).  Handlers work on
    the process table (proc.c, exec.c), on address spaces (vm.c, from the pages
    of kalloc.c), and on open files (file.c), which are pipes (pipe.c), devices
    (console.c, over uart.c) or inodes (fs.c).  The file system changes disk
    blocks inside of transactions (log.c), through the buffer cache (bio.c),
    which calls the disk driver (virtio_disk.c).  Everything is protected by
    spin locks (spinlock.c) and sleep-locks (sleeplock.c).  Below the C code are
    the assembly files: the way into the kernel and back (trampoline.S,
    kernelvec.S), the context switch (swtch.S) and the boot (entry.S, start.c).

    ** Files

    - Prelude.v (this file): tactics, notations and lemmas on lists that
      several files share.
    - CInt.v: machine integers at their width, little-endian words in arrays and
      in byte-addressed memory.
    - KState.v: the record [K] of the kernel's global variables, the monad [M]
      of kernel code (a result, a panic, or a wait without end), the class
      [Platform] of what the machine provides, and the structures of the headers
      (param.h, proc.h, buf.h, file.h, fs.h, stat.h, fcntl.h).
    - KString.v: string.c.  Riscv.v: riscv.h, memlayout.h.
    - Spinlock.v: spinlock.c, one access to a lock at a time, on any number of
      CPUs; push_off() and pop_off(), which use the CPU's own data, are one step.
    - Kalloc.v: kalloc.c.  Vm.v: vm.c; VmSpec.v and VmMap.v are its theorems.
    - Proc.v, ProcLife.v: proc.c, sleeplock.c; Sched.v: the scheduler.  Exec.v:
      exec.c, elf.h.
    - Uart.v, Console.v, Printf.v: uart.c, console.c, printf.c.
    - Virtio.v: virtio_disk.c and virtio.h, as trees of single memory accesses,
      and the device as a step relation.  VirtioSpec.v: the two interleaved.
    - Bio.v: bio.c; Bcache.v: its interface to clients.
    - Log.v: log.c; LogSpec.v: crash safety.
    - Fs.v: fs.c.  FsSpec.v: blocks in a transaction, and the block allocator;
      FsFile.v: the bytes of a file, and readi(); FsWrite.v: bmap(), and files
      that own their blocks; Writei.v: writei() and iupdate(); Dir.v: directories
      as lists of entries.
    - Mkfs.v: mkfs/mkfs.c.
    - Pipe.v, File.v: pipe.c, file.c.  PipeSpec.v: a pipe is a queue of bytes,
      with the ring buffers of Ring.v.
    - Syscall.v: syscall.c, sysproc.c, sysfile.c.  Args.v: how sys_exec() gets its
      arguments out of user memory.  Trap.v: trap.c, plic.c, main.c.
    - Asm.v: a RISC-V hart with its registers, control registers, modes, traps
      and Sv39 translation, and the instructions that the assembly uses.
      Switch.v: swtch.S, kernelvec.S.  Trampoline.v: trampoline.S.  Start.v:
      entry.S, start.c and the register accessors of riscv.h.  Initcode.v:
      user/initcode.S and the bytes of it in proc.c.
    - Ulib.v: user/ulib.c, user/printf.c.  Usys.v: programs as trees of system
      calls.  Programs.v: the small programs (cat, echo,
      wc, ls, find, xargs, primes, init and the like).  Umalloc.v:
      user/umalloc.c.  Grep.v: user/grep.c.  Grind.v: user/grind.c.
      Sh.v: user/sh.c.

    A function of the source is a definition of the same name, as far as Rocq
    allows it.  A kernel function is a computation in [M] on the whole state
    [K]: the fields of [K] are the global variables, a pointer into a table is
    an index, a page is an address of [k_mem].  A loop of the source is a
    [Fixpoint] on fuel where its recursion is not structural; running out of
    fuel is [Stuck] (a wait without end), an error that no theorem hides: the
    theorems say that the code returns.  The fuel of a loop is a bound on its
    turns that comes from the code: the size of the table it walks, the pages of
    the range, the length of the input.

    ** What the theorems show

    - The log (LogSpec.v): commit() is atomic for a crash after any of its disk
      writes, recovery installs exactly a committed transaction, end_op() makes
      it durable, log_write() absorbs.  These are proved against the interface
      [BlockCache] of Bcache.v, which Bcache.v shows bio.c to implement; the
      buffer cache theorems also say that the LRU list stays in order of use.
    - Files (FsSpec.v, FsFile.v, FsWrite.v, Writei.v): balloc() gives the first
      free block, zeroed, and bfree() gives it back; readi() copies the bytes
      of the file, and writei() replaces them, growing the file by blocks that
      were free, with the inode on disk up to date and all other files as they
      were.  Both are proved with the interface [BlockCache] and the
      specification of log_write(), so that they hold inside any transaction.
    - Directories (Dir.v): dirlookup() finds the inode of the first entry with
      the name, or none, and says where the entry is; dirlink() adds one entry
      that dirlookup() then finds, at the first free place or at the end, and
      keeps the others.
    - Traps and switches (Trampoline.v, Switch.v): from usertrapret() through
      userret to user code, and through uservec back into usertrap(), all user
      registers survive; kernelvec and timervec change nothing that the
      interrupted code sees; swtch() into a context that swtch() saved returns
      there with the registers it had.
    - Boot (Start.v, Initcode.v): each hart reaches main() in supervisor mode
      with paging off, its own stack, the traps delegated and its timer set; the
      bytes of initcode[] decode to the program of initcode.S, up to the address
      of argv, and it calls exec() with /init.
    - System calls (Args.v): sys_exec() calls exec() with exactly the path and the
      strings that are in user memory, or fails, for each way in which they can
      be bad, and gives back all pages that it took.
    - The scheduler (Sched.v): a pass ends and gives the CPU to every process
      that is ready in its turn, as the current process and with its lock held,
      if processes give it up at some time; a process that is ready when the pass
      starts is ready in its turn, unless another CPU takes it before.
    - mkfs (Mkfs.v): the image has the layout that the kernel expects, an empty
      log, the host's files with their bytes, no block in two files, and a free
      map that marks what is in use.
    - Pipes (PipeSpec.v): pipewrite() appends to a queue and piperead() takes
      from it, whatever the other end does while one sleeps.
    - Spin locks (Spinlock.v): in every interleaving a lock has one holder, and
      acquire() and release() take effect at one step each, at which the lock
      word changes, so that the rest of the kernel may be modelled with atomic
      locks.  push_off() and pop_off()
      restore the interrupt state.
    - The disk driver (VirtioSpec.v): through any interleaving of the memory
      accesses of requests and interrupts with the steps of the device, which
      serves requests in any order and may report errors, the descriptors and
      rings stay consistent, the device sees complete requests only, the driver
      panics on nothing but a reported error, and no completion is lost.  A
      request is the atomic transfer of a block.
    - Virtual memory (VmSpec.v, VmMap.v): copyin(), copyout() and copyinstr()
      are loads and stores through the page table, mappages(), uvmalloc() and
      uvmcopy() add exactly the translations they should or fail and give
      everything back.  The page allocator (Kalloc.v) neither loses nor
      shares a page.
    - malloc() and free() (Umalloc.v): both return, keep the free list in order,
      and never give out overlapping blocks, for any use by a program.
    - The shell (Sh.v): the parser ends on every line, its words are strings
      after nulterminate(), and the tree of a printed command is the command.
    - grep (Grep.v): the matcher decides the language of the pattern, and grep()
      prints the matching lines however read() divides the file.
    - wc (Programs.v): the counts are those of the file.
    - grind (Grind.v): a turn of the loop leaves open what was open, up to the
      one descriptor it keeps, and the random numbers are those of the
      minimal-standard generator, with no overflow on the way.
    - The user library (Ulib.v): memmove() on overlapping areas, strcmp() as the
      lexicographic order, printf() and atoi() as inverses.

    ** Parameters

    The class [Platform] (KState.v) holds what is not in src/: the linker's
    addresses, the hart, the other threads that run at a context switch, and the
    contents of binaries.  The disk device is the relation [dstep] (Virtio.v), all
    that the virtio specification allows a block device to do with the driver's
    queue; the set of the statuses that it may report is a parameter.  sbrk() is an argument
    of malloc(), and the files of the host one of mkfs.
    The class [Delegation] (Asm.v) holds which traps a hart lets software
    delegate, [Image] (Start.v) the addresses of the linked kernel.  Each theorem
    about a parameter has a witness with a concrete one.

    ** Not modelled

    - Of the processor: instruction fetch, the accessed and dirty bits of page
      table entries, large pages, physical memory protection, and the TLB
      (sfence.vma does nothing).  Of start(): its stack frame, since the compiler
      chooses it.
    - ramdisk.c, which is not built.
    - Theorems on writei() and balloc() when the disk is full, and on paths of more
      than one element: the code is modelled (Fs.v), its properties are not
      stated.
    - The output of mkfs, and errors of the host when it writes the image.
    - The tests usertests.c: they only exercise the system.
    - Interleaving of kernel threads outside of Spinlock.v and VirtioSpec.v: a
      context switch hands the state to the other threads, which are a parameter
      and return any state they can reach.  In particular the model of bio.c
      (Bio.v) transfers a block in one step, as VirtioSpec.v shows the driver to
      do, and sched() leaves out the intena flag of the CPU, which it saves and
      restores around the switch. *)
From Stdlib Require Export ZArith Lia.
From stdpp Require Export base gmap list strings numbers.

#[global] Open Scope Z_scope.

(** * Notations *)

Declare Scope xv6_scope.
Delimit Scope xv6_scope with xv6.
#[global] Open Scope xv6_scope.

(** C array indexing and C array update by an integer index.  Both take the
    length of the array from the list; what the code does out of range is
    written at the place where it can happen. *)
Notation "l .[ i ]" := (nth (Z.to_nat i) l 0) (at level 1, left associativity, format "l .[ i ]") : xv6_scope.
Notation "l .[ i <- v ]" := (<[Z.to_nat i := v]> l) (at level 1, left associativity, format "l .[ i  <-  v ]") : xv6_scope.

(** * Tactics *)

Ltac invc H := inversion H; subst; clear H.

(** Turn boolean comparisons on [Z] and [nat] into propositions. *)
Ltac b2p :=
  repeat match goal with
  | H : (_ && _)%bool = true |- _ => apply andb_prop in H; destruct H
  | H : (_ || _)%bool = false |- _ => apply orb_false_elim in H; destruct H
  | H : negb _ = true |- _ => apply negb_true_iff in H
  | H : negb _ = false |- _ => apply negb_false_iff in H
  | H : (_ =? _) = true |- _ => apply Z.eqb_eq in H
  | H : (_ =? _) = false |- _ => apply Z.eqb_neq in H
  | H : (_ <? _) = true |- _ => apply Z.ltb_lt in H
  | H : (_ <? _) = false |- _ => apply Z.ltb_ge in H
  | H : (_ <=? _) = true |- _ => apply Z.leb_le in H
  | H : (_ <=? _) = false |- _ => apply Z.leb_gt in H
  | H : (_ =? _)%nat = true |- _ => apply Nat.eqb_eq in H
  | H : (_ =? _)%nat = false |- _ => apply Nat.eqb_neq in H
  | H : (_ <? _)%nat = true |- _ => apply Nat.ltb_lt in H
  | H : (_ <? _)%nat = false |- _ => apply Nat.ltb_ge in H
  | H : (_ <=? _)%nat = true |- _ => apply Nat.leb_le in H
  | H : (_ <=? _)%nat = false |- _ => apply Nat.leb_gt in H
  end.

(** [lia] with [Z.div] and [Z.modulo] expanded into their defining equations. *)
Ltac zdm := Z.to_euclidean_division_equations; lia.

(** Case split on the boolean test of the first [if] of the goal. *)
Ltac case_if :=
  match goal with
  | |- context [if ?b then _ else _] =>
      match type of b with bool => destruct b eqn:? end
  end; b2p.

Create HintDb xv6.

(** * Lists *)

Lemma alter_same {A} (f : A -> A) (l : list A) i :
  (forall x, l !! i = Some x -> f x = x) -> alter f i l = l.
Proof.
  intros H. apply list_eq. intros j. rewrite list_lookup_alter. case_decide; [subst|done].
  destruct (l !! j) eqn:E; [|done]. cbn. by rewrite H.
Qed.

Lemma alter_alter {A} (f g : A -> A) (l : list A) i :
  alter f i (alter g i l) = alter (fun x => f (g x)) i l.
Proof.
  apply list_eq. intros j. rewrite !list_lookup_alter. repeat case_decide; try done.
  by destruct (l !! i).
Qed.

(** Updating the elements one after the other is mapping over the list. *)
Lemma foldl_alter_imap {A} (f : nat -> A -> A) (l : list A) :
  foldl (fun l i => alter (f i) i l) l (seq 0 (length l)) = imap f l.
Proof.
  assert (forall (n : nat) l', (n <= length l)%nat -> length l' = length l ->
    (forall i, l' !! i = if decide (i < n)%nat then f i <$> l !! i else l !! i) ->
    foldl (fun l i => alter (f i) i l) l' (seq n (length l - n)) = imap f l) as H.
  { intros n l' Hn. remember (length l - n)%nat as m. revert n l' Heqm Hn.
    induction m as [|m IH]; intros n l' Hm Hn Hlen Hl'; cbn.
    - apply list_eq. intros i. rewrite list_lookup_imap, Hl'. case_decide; [done|].
      by rewrite lookup_ge_None_2 by lia.
    - apply IH; [lia|lia|by rewrite length_alter|]. intros i.
      destruct (decide (i = n)) as [->|Hne].
      + rewrite list_lookup_alter, Hl'. by repeat case_decide; try lia.
      + rewrite list_lookup_alter_ne, Hl' by done. by repeat case_decide; try lia. }
  specialize (H 0%nat l). rewrite Nat.sub_0_r in H. apply H; [lia|done|].
  intros i. by rewrite decide_False by lia.
Qed.

(** * Integers *)

(** A property of a few integers can be checked one by one. *)
Lemma small_cases (n : nat) (P : Z -> Prop) :
  Forall P (map Z.of_nat (seq 0 n)) -> forall d, 0 <= d < Z.of_nat n -> P d.
Proof.
  intros H d Hd. rewrite list.Forall_forall in H. apply H. apply list_elem_of_fmap.
  exists (Z.to_nat d). split; [lia|]. apply elem_of_seq. lia.
Qed.
