(* ===== verification/CInt.v ===== *)
(** Machine integers, little-endian bytes and byte-addressed memory.

    The kernel is compiled for RV64: [uint] is 32 bits, [uint64] 64 bits,
    [int] a signed 32 bits, [short] a signed 16 bits, all little-endian.  An
    integer is a [Z] and every place where C wraps around applies the wrapping
    function of the type. *)
From S2P Require Import Prelude.

(** * Wrapping, kernel/types.h *)

Definition u8 (z : Z) : Z := z mod 2 ^ 8.
Definition u16 (z : Z) : Z := z mod 2 ^ 16.
Definition u32 (z : Z) : Z := z mod 2 ^ 32.
Definition u64 (z : Z) : Z := z mod 2 ^ 64.
Definition i8 (z : Z) : Z := (z + 2 ^ 7) mod 2 ^ 8 - 2 ^ 7.
Definition i16 (z : Z) : Z := (z + 2 ^ 15) mod 2 ^ 16 - 2 ^ 15.
Definition i32 (z : Z) : Z := (z + 2 ^ 31) mod 2 ^ 32 - 2 ^ 31.

(** * Little-endian encodings *)

Fixpoint le_bytes (n : nat) (v : Z) : list Z :=
  match n with
  | O => []
  | S n' => v mod 256 :: le_bytes n' (v / 256)
  end.

Fixpoint le_val (bs : list Z) : Z :=
  match bs with
  | [] => 0
  | b :: bs' => b + 256 * le_val bs'
  end.

(** * Memory *)

(** A byte-addressed memory; bytes never written read as 0. *)
Abbreviation mem := (gmap Z Z).

Definition ld8 (m : mem) (a : Z) : Z := default 0 (m !! a).
Definition st8 (m : mem) (a v : Z) : mem := <[a := v]> m.

Fixpoint ldbytes (m : mem) (a : Z) (n : nat) : list Z :=
  match n with
  | O => []
  | S n' => ld8 m a :: ldbytes m (a + 1) n'
  end.

Fixpoint stbytes (m : mem) (a : Z) (bs : list Z) : mem :=
  match bs with
  | [] => m
  | b :: bs' => stbytes (st8 m a b) (a + 1) bs'
  end.

Definition ld32 (m : mem) (a : Z) : Z := le_val (ldbytes m a 4).
Definition ld64 (m : mem) (a : Z) : Z := le_val (ldbytes m a 8).
Definition st32 (m : mem) (a v : Z) : mem := stbytes m a (le_bytes 4 v).
Definition st64 (m : mem) (a v : Z) : mem := stbytes m a (le_bytes 8 v).

(** The same in an array of bytes. *)
Definition ldl (d : list Z) (off n : Z) : list Z := take (Z.to_nat n) (drop (Z.to_nat off) d).
Definition stl (d : list Z) (off : Z) (bs : list Z) : list Z := list_inserts (Z.to_nat off) bs d.
Definition ldl16 (d : list Z) (off : Z) : Z := le_val (ldl d off 2).
Definition ldl32 (d : list Z) (off : Z) : Z := le_val (ldl d off 4).
Definition stl32 (d : list Z) (off v : Z) : list Z := stl d off (le_bytes 4 v).

(** * Lemmas *)

Lemma u8_range z : 0 <= u8 z < 256.
Proof. apply Z.mod_pos_bound; lia. Qed.

Lemma u16_range z : 0 <= u16 z < 65536.
Proof. apply Z.mod_pos_bound; lia. Qed.

Lemma u32_range z : 0 <= u32 z < 2 ^ 32.
Proof. apply Z.mod_pos_bound; lia. Qed.

Lemma u64_range z : 0 <= u64 z < 2 ^ 64.
Proof. apply Z.mod_pos_bound; lia. Qed.

Lemma u8_small z : 0 <= z < 256 -> u8 z = z.
Proof. apply Z.mod_small. Qed.

Lemma u32_small z : 0 <= z < 2 ^ 32 -> u32 z = z.
Proof. apply Z.mod_small. Qed.

Lemma u64_small z : 0 <= z < 2 ^ 64 -> u64 z = z.
Proof. apply Z.mod_small. Qed.

Lemma i32_small z : - 2 ^ 31 <= z < 2 ^ 31 -> i32 z = z.
Proof. unfold i32; intros; rewrite Z.mod_small; lia. Qed.

Lemma i16_small z : - 2 ^ 15 <= z < 2 ^ 15 -> i16 z = z.
Proof. unfold i16; intros; rewrite Z.mod_small; lia. Qed.

Lemma length_le_bytes n v : length (le_bytes n v) = n.
Proof. revert v; induction n; simpl; auto. Qed.

Lemma le_val_bytes n v : le_val (le_bytes n v) = v mod 256 ^ Z.of_nat n.
Proof.
  revert v; induction n; intros v; cbn [le_bytes le_val].
  - by rewrite Z.mod_1_r.
  - rewrite IHn, Nat2Z.inj_succ, Z.pow_succ_r by lia.
    rewrite Z.rem_mul_r by lia. lia.
Qed.

Definition bytes_ok (bs : list Z) : Prop := Forall (fun b => 0 <= b < 256) bs.

Lemma le_bytes_ok n v : bytes_ok (le_bytes n v).
Proof.
  revert v; induction n; intros v; cbn; constructor.
  - apply Z.mod_pos_bound; lia.
  - apply IHn.
Qed.

Lemma le_val_range bs : bytes_ok bs -> 0 <= le_val bs < 256 ^ Z.of_nat (length bs).
Proof.
  induction 1 as [|b bs Hb Hbs IH]; cbn [le_val length]; [lia|].
  rewrite Nat2Z.inj_succ, Z.pow_succ_r by lia. lia.
Qed.

Lemma le_bytes_val bs : bytes_ok bs -> le_bytes (length bs) (le_val bs) = bs.
Proof.
  induction 1 as [|b bs Hb Hbs IH]; cbn [le_val length le_bytes]; [done|].
  replace ((b + 256 * le_val bs) mod 256) with b by zdm.
  replace ((b + 256 * le_val bs) / 256) with (le_val bs) by zdm.
  by rewrite IH.
Qed.

Lemma length_ldbytes m a n : length (ldbytes m a n) = n.
Proof. revert a; induction n; simpl; auto. Qed.

Lemma ld8_st8_eq m a v : ld8 (st8 m a v) a = v.
Proof. unfold ld8, st8. by rewrite lookup_insert_eq. Qed.

Lemma ld8_st8_ne m a b v : a <> b -> ld8 (st8 m a v) b = ld8 m b.
Proof. intros. unfold ld8, st8. by rewrite lookup_insert_ne. Qed.

Lemma ld8_stbytes_out m a bs x :
  (x < a \/ a + Z.of_nat (length bs) <= x) -> ld8 (stbytes m a bs) x = ld8 m x.
Proof.
  revert m a; induction bs as [|b bs IH]; intros m a Hx; cbn [stbytes length] in *; [done|].
  rewrite IH by lia. apply ld8_st8_ne; lia.
Qed.

Lemma ld8_stbytes_in m a bs (i : nat) b :
  bs !! i = Some b -> ld8 (stbytes m a bs) (a + Z.of_nat i) = b.
Proof.
  revert m a i; induction bs as [|c bs IH]; intros m a i Hi; [done|].
  cbn [stbytes]. destruct i; cbn in Hi.
  - invc Hi. rewrite ld8_stbytes_out by lia. rewrite Z.add_0_r. apply ld8_st8_eq.
  - replace (a + Z.of_nat (S i)) with (a + 1 + Z.of_nat i) by lia. by apply IH.
Qed.

Lemma ldbytes_ext m m' a n :
  (forall x, a <= x < a + Z.of_nat n -> ld8 m x = ld8 m' x) ->
  ldbytes m a n = ldbytes m' a n.
Proof.
  revert a; induction n; intros a H; cbn [ldbytes]; [done|].
  rewrite H by lia. f_equal. apply IHn. intros; apply H; lia.
Qed.

Lemma ldbytes_lookup m a n (i : nat) :
  (i < n)%nat -> ldbytes m a n !! i = Some (ld8 m (a + Z.of_nat i)).
Proof.
  revert a i; induction n; intros a i Hi; [lia|]. cbn [ldbytes].
  destruct i; cbn.
  - by rewrite Z.add_0_r.
  - rewrite IHn by lia. do 2 f_equal; lia.
Qed.

Lemma ldbytes_stbytes m a bs : ldbytes (stbytes m a bs) a (length bs) = bs.
Proof.
  apply list_eq; intros i. destruct (decide (i < length bs)%nat) as [Hi|Hi].
  - rewrite ldbytes_lookup by done.
    destruct (lookup_lt_is_Some_2 bs i Hi) as [b Hb].
    by rewrite Hb, (ld8_stbytes_in _ _ _ _ _ Hb).
  - rewrite !lookup_ge_None_2; rewrite ?length_ldbytes; auto with lia.
Qed.

(** Two memory intervals are apart. *)
Definition apart (a n b m : Z) : Prop := a + n <= b \/ b + m <= a.

Lemma ldbytes_stbytes_apart m a bs b n :
  apart a (Z.of_nat (length bs)) b (Z.of_nat n) ->
  ldbytes (stbytes m a bs) b n = ldbytes m b n.
Proof.
  unfold apart; intros H. apply ldbytes_ext; intros x Hx.
  apply ld8_stbytes_out; lia.
Qed.

Lemma ldbytes_app m a n1 n2 :
  ldbytes m a (n1 + n2) = ldbytes m a n1 ++ ldbytes m (a + Z.of_nat n1) n2.
Proof.
  revert a; induction n1; intros a; cbn [Nat.add ldbytes app].
  - by rewrite Z.add_0_r.
  - rewrite IHn1. do 3 f_equal; lia.
Qed.

Lemma stbytes_app m a bs1 bs2 :
  stbytes m a (bs1 ++ bs2) = stbytes (stbytes m a bs1) (a + Z.of_nat (length bs1)) bs2.
Proof.
  revert m a; induction bs1 as [|b bs1 IH]; intros m a; cbn [app stbytes length].
  - by rewrite Z.add_0_r.
  - rewrite IH. f_equal; lia.
Qed.

Lemma ld64_st64_eq m a v : 0 <= v < 2 ^ 64 -> ld64 (st64 m a v) a = v.
Proof.
  intros. unfold ld64, st64.
  rewrite <- (length_le_bytes 8 v) at 2. rewrite ldbytes_stbytes, le_val_bytes.
  apply Z.mod_small; simpl; lia.
Qed.

Lemma ld64_st64_ne m a b v : apart a 8 b 8 -> ld64 (st64 m a v) b = ld64 m b.
Proof.
  intros. unfold ld64, st64. rewrite ldbytes_stbytes_apart; [done|].
  by rewrite length_le_bytes.
Qed.

Lemma ld64_ext m m' a :
  (forall x, a <= x < a + 8 -> ld8 m x = ld8 m' x) -> ld64 m a = ld64 m' a.
Proof. intros H. unfold ld64. by rewrite (ldbytes_ext m m' a 8). Qed.

Lemma ld64_zero m a : (forall x, a <= x < a + 8 -> ld8 m x = 0) -> ld64 m a = 0.
Proof. intros H. by rewrite (ld64_ext m ∅ a). Qed.

Lemma st64_out m a v x : (x < a \/ a + 8 <= x) -> ld8 (st64 m a v) x = ld8 m x.
Proof. intros. unfold st64. apply ld8_stbytes_out. rewrite length_le_bytes. lia. Qed.

(** Every stored byte is a byte. *)
Definition mem_ok (m : mem) : Prop := forall a, 0 <= ld8 m a < 256.

Lemma mem_ok_st8 m a v : mem_ok m -> 0 <= v < 256 -> mem_ok (st8 m a v).
Proof.
  intros H Hv x. destruct (decide (a = x)) as [->|].
  - by rewrite ld8_st8_eq.
  - by rewrite ld8_st8_ne.
Qed.

Lemma mem_ok_stbytes m a bs : mem_ok m -> bytes_ok bs -> mem_ok (stbytes m a bs).
Proof.
  intros Hm Hbs. revert m a Hm. induction Hbs; intros m a Hm; cbn [stbytes]; auto.
  apply IHHbs. by apply mem_ok_st8.
Qed.

Lemma mem_ok_st64 m a v : mem_ok m -> mem_ok (st64 m a v).
Proof. intros H. apply mem_ok_stbytes; [done|apply le_bytes_ok]. Qed.

Lemma bytes_ok_ldbytes m a n : mem_ok m -> bytes_ok (ldbytes m a n).
Proof.
  intros H. revert a; induction n; intros a; cbn; constructor; [apply H|apply IHn].
Qed.

Lemma ld64_range m a : mem_ok m -> 0 <= ld64 m a < 2 ^ 64.
Proof.
  intros H. unfold ld64. pose proof (le_val_range _ (bytes_ok_ldbytes m a 8 H)) as R.
  rewrite length_ldbytes in R. exact R.
Qed.

(** [m'] is [m] but for the [len] bytes at [p]. *)
Definition same_but (p len : Z) (m m' : mem) : Prop :=
  forall x, x < p \/ p + len <= x -> ld8 m' x = ld8 m x.

Lemma same_but_refl p len m : same_but p len m m.
Proof. done. Qed.

Lemma same_but_trans p len m1 m2 m3 :
  same_but p len m1 m2 -> same_but p len m2 m3 -> same_but p len m1 m3.
Proof. intros H1 H2 x Hx. by rewrite H2, H1. Qed.

Lemma same_but_st64 p len m off v :
  0 <= off -> off + 8 <= len -> same_but p len m (st64 m (p + off) v).
Proof. intros Ho Hl x Hx. apply st64_out. lia. Qed.

Lemma same_but_ld64 p len m m' a :
  same_but p len m m' -> a + 8 <= p \/ p + len <= a -> ld64 m' a = ld64 m a.
Proof. intros H Ha. apply ld64_ext. intros x Hx. apply H. lia. Qed.

#[export] Hint Resolve u8_range u16_range u32_range u64_range le_bytes_ok : xv6.

#[global] Arguments ld8 : simpl never.
#[global] Arguments st8 : simpl never.
#[global] Arguments ld32 : simpl never.
#[global] Arguments ld64 : simpl never.
#[global] Arguments st32 : simpl never.
#[global] Arguments st64 : simpl never.
#[global] Arguments u8 : simpl never.
#[global] Arguments u16 : simpl never.
#[global] Arguments u32 : simpl never.
#[global] Arguments u64 : simpl never.
#[global] Arguments i16 : simpl never.
#[global] Arguments i32 : simpl never.

#[global] Opaque ld64 st64.

(** * Arrays of bytes *)

Lemma lookup_ldl d off n j :
  ldl d off n !! j = if decide (j < Z.to_nat n)%nat then d !! (Z.to_nat off + j)%nat else None.
Proof. unfold ldl. rewrite lookup_take, lookup_drop. done. Qed.

Lemma length_stl d off bs : length (stl d off bs) = length d.
Proof. apply length_inserts. Qed.

Lemma ldl_stl_eq d off bs n :
  (Z.to_nat off + length bs <= length d)%nat -> Z.to_nat n = length bs -> ldl (stl d off bs) off n = bs.
Proof.
  intros Hlen Hn. apply list_eq. intros j. rewrite lookup_ldl. case_decide.
  - unfold stl. rewrite list_lookup_inserts by lia. f_equal. lia.
  - symmetry. apply lookup_ge_None. lia.
Qed.

Lemma ldl_stl_ne d off bs off' n :
  0 <= off' -> 0 <= off -> off + Z.of_nat (length bs) <= off' \/ off' + n <= off ->
  ldl (stl d off bs) off' n = ldl d off' n.
Proof.
  intros H1 H2 H. apply list_eq. intros j. rewrite !lookup_ldl. case_decide; [|done]. unfold stl.
  destruct H; [rewrite list_lookup_inserts_ge by lia|rewrite list_lookup_inserts_lt by lia]; done.
Qed.

Lemma ldl32_stl32_eq d off v :
  0 <= off -> off + 4 <= Z.of_nat (length d) -> ldl32 (stl32 d off v) off = u32 v.
Proof.
  intros. unfold ldl32, stl32. rewrite ldl_stl_eq by (rewrite ?length_le_bytes; lia).
  by rewrite le_val_bytes.
Qed.

Lemma ldl32_stl32_ne d off v off' :
  0 <= off -> 0 <= off' -> off + 4 <= off' \/ off' + 4 <= off ->
  ldl32 (stl32 d off v) off' = ldl32 d off'.
Proof. intros. unfold ldl32, stl32. rewrite ldl_stl_ne by (rewrite ?length_le_bytes; lia). done. Qed.

Lemma u32_i32 z : u32 (i32 z) = u32 z.
Proof. unfold u32, i32. zdm. Qed.

Lemma i32_u32 z : i32 (u32 z) = i32 z.
Proof. unfold u32, i32. zdm. Qed.
