(* ===== verification/KState.v ===== *)
(** The kernel's state and the monad its code runs in.

    One record [K] holds the kernel's global variables (kernel/proc.c,
    kernel/kalloc.c, kernel/bio.c, kernel/log.c, kernel/fs.c, kernel/file.c,
    kernel/console.c, kernel/uart.c, kernel/trap.c), together with the memory
    the kernel addresses, the disk behind virtio_disk_rw and the UART's
    registers.  A kernel function is a computation [M A]: it returns, calls
    panic(), or waits for something that does not happen.

    Pointers into a statically allocated table (proc[], ftable, itable,
    bcache.buf) are indexes into the list that models the table, [None] being
    the null pointer.  Pages obtained from kalloc() are addresses of [k_mem].

    The state is the one a thread sees while it runs: between two points where
    the thread gives up the CPU no other thread is inside a critical section
    that this thread can observe, because spinlocks exclude them (Spinlock.v).
    Where the thread does give up the CPU, in sched(), the other threads are
    the parameter [others] of the platform. *)
From S2P Require Import Prelude CInt.

(** * Constants, kernel/param.h *)

Definition NPROC : Z := 64.
Definition NOFILE : Z := 16.
Definition NFILE : Z := 100.
Definition NINODE : Z := 50.
Definition NDEV : Z := 10.
Definition ROOTDEV : Z := 1.
Definition MAXARG : Z := 32.
Definition MAXOPBLOCKS : Z := 10.
Definition LOGSIZE : Z := MAXOPBLOCKS * 3.
Definition NBUF : Z := MAXOPBLOCKS * 3.
Definition FSSIZE : Z := 2000.
Definition MAXPATH : Z := 128.

(** * Constants, kernel/fs.h *)

Definition ROOTINO : Z := 1.
Definition BSIZE : Z := 1024.
Definition FSMAGIC : Z := 0x10203040.
Definition NDIRECT : Z := 12.
Definition NINDIRECT : Z := BSIZE / 4.
Definition MAXFILE : Z := NDIRECT + NINDIRECT.
Definition DIRSIZ : Z := 14.

(** * Constants, kernel/stat.h *)

Definition T_DIR : Z := 1.
Definition T_FILE : Z := 2.
Definition T_DEVICE : Z := 3.

(** * Constants, kernel/fcntl.h *)

Definition O_RDONLY : Z := 0x000.
Definition O_WRONLY : Z := 0x001.
Definition O_RDWR : Z := 0x002.
Definition O_CREATE : Z := 0x200.
Definition O_TRUNC : Z := 0x400.

(** * Locks, channels *)

(** The sleep-locks of the kernel: bcache.buf[i].lock and itable.inode[i].lock. *)
Inductive sleeplock_id := SL_buf (i : nat) | SL_inode (i : nat).

(** The spinlocks of the kernel; a sleep-lock has one inside. *)
Inductive lock :=
| L_kmem | L_pid | L_wait | L_proc (p : nat) | L_ftable | L_itable | L_bcache
| L_log | L_sleep (s : sleeplock_id) | L_pipe (pi : Z) | L_cons | L_uart_tx
| L_ticks | L_pr.

(** What sleep() and wakeup() are called on, where the C code passes an address. *)
Inductive chan :=
| Ch_null | Ch_proc (p : nat) | Ch_log | Ch_sleeplock (s : sleeplock_id)
| Ch_pipe_nread (pi : Z) | Ch_pipe_nwrite (pi : Z) | Ch_ticks | Ch_cons_r
| Ch_uart_tx_r.

#[export] Instance sleeplock_id_eq_dec : EqDecision sleeplock_id.
Proof. solve_decision. Defined.
#[export] Instance lock_eq_dec : EqDecision lock.
Proof. solve_decision. Defined.
#[export] Instance chan_eq_dec : EqDecision chan.
Proof. solve_decision. Defined.

#[export] Instance sleeplock_id_countable : Countable sleeplock_id.
Proof.
  refine (inj_countable'
    (fun s => match s with SL_buf i => inl i | SL_inode i => inr i end)
    (fun x => match x with inl i => SL_buf i | inr i => SL_inode i end) _).
  by intros [].
Defined.

#[export] Instance lock_countable : Countable lock.
Proof.
  refine (inj_countable'
    (fun l => match l with
     | L_kmem => inl 0%nat | L_pid => inl 1%nat | L_wait => inl 2%nat | L_ftable => inl 3%nat
     | L_itable => inl 4%nat | L_bcache => inl 5%nat | L_log => inl 6%nat | L_cons => inl 7%nat
     | L_uart_tx => inl 8%nat | L_ticks => inl 9%nat | L_pr => inl 10%nat
     | L_proc p => inr (inl p) | L_sleep s => inr (inr (inl s)) | L_pipe a => inr (inr (inr a))
     end)
    (fun x => match x with
     | inl 0%nat => L_kmem | inl 1%nat => L_pid | inl 2%nat => L_wait | inl 3%nat => L_ftable
     | inl 4%nat => L_itable | inl 5%nat => L_bcache | inl 6%nat => L_log | inl 7%nat => L_cons
     | inl 8%nat => L_uart_tx | inl 9%nat => L_ticks | inl _ => L_pr
     | inr (inl p) => L_proc p | inr (inr (inl s)) => L_sleep s | inr (inr (inr a)) => L_pipe a
     end) _).
  by intros [].
Defined.

(** * Data structures *)

#[local] Set Primitive Projections.

(** kernel/sleeplock.h; the spinlock inside it is [L_sleep]. *)
Record sleeplock := mk_sleeplock {
  sl_locked : Z (* is the lock held? *);
  sl_pid : Z (* process holding lock *)
}.

Definition set_sl_locked (v : Z) (l : sleeplock) : sleeplock :=
  mk_sleeplock v (sl_pid l).
Definition set_sl_pid (v : Z) (l : sleeplock) : sleeplock :=
  mk_sleeplock (sl_locked l) v.

(** kernel/buf.h; [b_prev] and [b_next] are indexes of [k_bufs], whose last
    element is bcache.head. *)
Record buf := mk_buf {
  b_valid : Z (* has data been read from disk? *);
  b_disk : Z (* does disk own buf? *);
  b_dev : Z;
  b_blockno : Z;
  b_lock : sleeplock;
  b_refcnt : Z;
  b_prev : nat (* LRU cache list *);
  b_next : nat;
  b_data : list Z
}.

Definition set_b_valid (v : Z) (b : buf) : buf :=
  mk_buf v (b_disk b) (b_dev b) (b_blockno b) (b_lock b) (b_refcnt b) (b_prev b) (b_next b)
    (b_data b).
Definition set_b_disk (v : Z) (b : buf) : buf :=
  mk_buf (b_valid b) v (b_dev b) (b_blockno b) (b_lock b) (b_refcnt b) (b_prev b) (b_next b)
    (b_data b).
Definition set_b_dev (v : Z) (b : buf) : buf :=
  mk_buf (b_valid b) (b_disk b) v (b_blockno b) (b_lock b) (b_refcnt b) (b_prev b) (b_next b)
    (b_data b).
Definition set_b_blockno (v : Z) (b : buf) : buf :=
  mk_buf (b_valid b) (b_disk b) (b_dev b) v (b_lock b) (b_refcnt b) (b_prev b) (b_next b)
    (b_data b).
Definition set_b_lock (v : sleeplock) (b : buf) : buf :=
  mk_buf (b_valid b) (b_disk b) (b_dev b) (b_blockno b) v (b_refcnt b) (b_prev b) (b_next b)
    (b_data b).
Definition set_b_refcnt (v : Z) (b : buf) : buf :=
  mk_buf (b_valid b) (b_disk b) (b_dev b) (b_blockno b) (b_lock b) v (b_prev b) (b_next b)
    (b_data b).
Definition set_b_prev (v : nat) (b : buf) : buf :=
  mk_buf (b_valid b) (b_disk b) (b_dev b) (b_blockno b) (b_lock b) (b_refcnt b) v (b_next b)
    (b_data b).
Definition set_b_next (v : nat) (b : buf) : buf :=
  mk_buf (b_valid b) (b_disk b) (b_dev b) (b_blockno b) (b_lock b) (b_refcnt b) (b_prev b) v
    (b_data b).
Definition set_b_data (v : list Z) (b : buf) : buf :=
  mk_buf (b_valid b) (b_disk b) (b_dev b) (b_blockno b) (b_lock b) (b_refcnt b) (b_prev b)
    (b_next b) v.

(** kernel/fs.h *)
Record superblock := mk_superblock {
  sb_magic : Z;
  sb_size : Z;
  sb_nblocks : Z;
  sb_ninodes : Z;
  sb_nlog : Z;
  sb_logstart : Z;
  sb_inodestart : Z;
  sb_bmapstart : Z
}.

Definition set_sb_magic (v : Z) (s : superblock) : superblock :=
  mk_superblock v (sb_size s) (sb_nblocks s) (sb_ninodes s) (sb_nlog s) (sb_logstart s)
    (sb_inodestart s) (sb_bmapstart s).
Definition set_sb_size (v : Z) (s : superblock) : superblock :=
  mk_superblock (sb_magic s) v (sb_nblocks s) (sb_ninodes s) (sb_nlog s) (sb_logstart s)
    (sb_inodestart s) (sb_bmapstart s).
Definition set_sb_nblocks (v : Z) (s : superblock) : superblock :=
  mk_superblock (sb_magic s) (sb_size s) v (sb_ninodes s) (sb_nlog s) (sb_logstart s)
    (sb_inodestart s) (sb_bmapstart s).
Definition set_sb_ninodes (v : Z) (s : superblock) : superblock :=
  mk_superblock (sb_magic s) (sb_size s) (sb_nblocks s) v (sb_nlog s) (sb_logstart s)
    (sb_inodestart s) (sb_bmapstart s).
Definition set_sb_nlog (v : Z) (s : superblock) : superblock :=
  mk_superblock (sb_magic s) (sb_size s) (sb_nblocks s) (sb_ninodes s) v (sb_logstart s)
    (sb_inodestart s) (sb_bmapstart s).
Definition set_sb_logstart (v : Z) (s : superblock) : superblock :=
  mk_superblock (sb_magic s) (sb_size s) (sb_nblocks s) (sb_ninodes s) (sb_nlog s) v
    (sb_inodestart s) (sb_bmapstart s).
Definition set_sb_inodestart (v : Z) (s : superblock) : superblock :=
  mk_superblock (sb_magic s) (sb_size s) (sb_nblocks s) (sb_ninodes s) (sb_nlog s)
    (sb_logstart s) v (sb_bmapstart s).
Definition set_sb_bmapstart (v : Z) (s : superblock) : superblock :=
  mk_superblock (sb_magic s) (sb_size s) (sb_nblocks s) (sb_ninodes s) (sb_nlog s)
    (sb_logstart s) (sb_inodestart s) v.

(** kernel/fs.h: the on-disk inode *)
Record dinode := mk_dinode {
  d_type : Z;
  d_major : Z;
  d_minor : Z;
  d_nlink : Z;
  d_size : Z;
  d_addrs : list Z
}.

Definition set_d_type (v : Z) (d : dinode) : dinode :=
  mk_dinode v (d_major d) (d_minor d) (d_nlink d) (d_size d) (d_addrs d).
Definition set_d_major (v : Z) (d : dinode) : dinode :=
  mk_dinode (d_type d) v (d_minor d) (d_nlink d) (d_size d) (d_addrs d).
Definition set_d_minor (v : Z) (d : dinode) : dinode :=
  mk_dinode (d_type d) (d_major d) v (d_nlink d) (d_size d) (d_addrs d).
Definition set_d_nlink (v : Z) (d : dinode) : dinode :=
  mk_dinode (d_type d) (d_major d) (d_minor d) v (d_size d) (d_addrs d).
Definition set_d_size (v : Z) (d : dinode) : dinode :=
  mk_dinode (d_type d) (d_major d) (d_minor d) (d_nlink d) v (d_addrs d).
Definition set_d_addrs (v : list Z) (d : dinode) : dinode :=
  mk_dinode (d_type d) (d_major d) (d_minor d) (d_nlink d) (d_size d) v.

(** kernel/fs.h *)
Record dirent := mk_dirent {
  de_inum : Z;
  de_name : list Z
}.

Definition set_de_inum (v : Z) (d : dirent) : dirent :=
  mk_dirent v (de_name d).
Definition set_de_name (v : list Z) (d : dirent) : dirent :=
  mk_dirent (de_inum d) v.

(** kernel/file.h: the in-memory copy of an inode *)
Record inode := mk_inode {
  i_dev : Z;
  i_inum : Z;
  i_ref : Z;
  i_lock : sleeplock;
  i_valid : Z;
  i_type : Z;
  i_major : Z;
  i_minor : Z;
  i_nlink : Z;
  i_size : Z;
  i_addrs : list Z
}.

Definition set_i_dev (v : Z) (i : inode) : inode :=
  mk_inode v (i_inum i) (i_ref i) (i_lock i) (i_valid i) (i_type i) (i_major i) (i_minor i)
    (i_nlink i) (i_size i) (i_addrs i).
Definition set_i_inum (v : Z) (i : inode) : inode :=
  mk_inode (i_dev i) v (i_ref i) (i_lock i) (i_valid i) (i_type i) (i_major i) (i_minor i)
    (i_nlink i) (i_size i) (i_addrs i).
Definition set_i_ref (v : Z) (i : inode) : inode :=
  mk_inode (i_dev i) (i_inum i) v (i_lock i) (i_valid i) (i_type i) (i_major i) (i_minor i)
    (i_nlink i) (i_size i) (i_addrs i).
Definition set_i_lock (v : sleeplock) (i : inode) : inode :=
  mk_inode (i_dev i) (i_inum i) (i_ref i) v (i_valid i) (i_type i) (i_major i) (i_minor i)
    (i_nlink i) (i_size i) (i_addrs i).
Definition set_i_valid (v : Z) (i : inode) : inode :=
  mk_inode (i_dev i) (i_inum i) (i_ref i) (i_lock i) v (i_type i) (i_major i) (i_minor i)
    (i_nlink i) (i_size i) (i_addrs i).
Definition set_i_type (v : Z) (i : inode) : inode :=
  mk_inode (i_dev i) (i_inum i) (i_ref i) (i_lock i) (i_valid i) v (i_major i) (i_minor i)
    (i_nlink i) (i_size i) (i_addrs i).
Definition set_i_major (v : Z) (i : inode) : inode :=
  mk_inode (i_dev i) (i_inum i) (i_ref i) (i_lock i) (i_valid i) (i_type i) v (i_minor i)
    (i_nlink i) (i_size i) (i_addrs i).
Definition set_i_minor (v : Z) (i : inode) : inode :=
  mk_inode (i_dev i) (i_inum i) (i_ref i) (i_lock i) (i_valid i) (i_type i) (i_major i) v
    (i_nlink i) (i_size i) (i_addrs i).
Definition set_i_nlink (v : Z) (i : inode) : inode :=
  mk_inode (i_dev i) (i_inum i) (i_ref i) (i_lock i) (i_valid i) (i_type i) (i_major i)
    (i_minor i) v (i_size i) (i_addrs i).
Definition set_i_size (v : Z) (i : inode) : inode :=
  mk_inode (i_dev i) (i_inum i) (i_ref i) (i_lock i) (i_valid i) (i_type i) (i_major i)
    (i_minor i) (i_nlink i) v (i_addrs i).
Definition set_i_addrs (v : list Z) (i : inode) : inode :=
  mk_inode (i_dev i) (i_inum i) (i_ref i) (i_lock i) (i_valid i) (i_type i) (i_major i)
    (i_minor i) (i_nlink i) (i_size i) v.

(** kernel/log.c: struct logheader *)
Record logheader := mk_logheader {
  lh_n : Z;
  lh_block : list Z
}.

Definition set_lh_n (v : Z) (h : logheader) : logheader :=
  mk_logheader v (lh_block h).
Definition set_lh_block (v : list Z) (h : logheader) : logheader :=
  mk_logheader (lh_n h) v.

(** kernel/log.c: struct log *)
Record logst := mk_logst {
  log_start : Z;
  log_size : Z;
  log_outstanding : Z (* how many FS sys calls are executing *);
  log_committing : Z (* in commit(), please wait *);
  log_dev : Z;
  log_lh : logheader
}.

Definition set_log_start (v : Z) (l : logst) : logst :=
  mk_logst v (log_size l) (log_outstanding l) (log_committing l) (log_dev l) (log_lh l).
Definition set_log_size (v : Z) (l : logst) : logst :=
  mk_logst (log_start l) v (log_outstanding l) (log_committing l) (log_dev l) (log_lh l).
Definition set_log_outstanding (v : Z) (l : logst) : logst :=
  mk_logst (log_start l) (log_size l) v (log_committing l) (log_dev l) (log_lh l).
Definition set_log_committing (v : Z) (l : logst) : logst :=
  mk_logst (log_start l) (log_size l) (log_outstanding l) v (log_dev l) (log_lh l).
Definition set_log_dev (v : Z) (l : logst) : logst :=
  mk_logst (log_start l) (log_size l) (log_outstanding l) (log_committing l) v (log_lh l).
Definition set_log_lh (v : logheader) (l : logst) : logst :=
  mk_logst (log_start l) (log_size l) (log_outstanding l) (log_committing l) (log_dev l) v.

Inductive fdtype := FD_NONE | FD_PIPE | FD_INODE | FD_DEVICE.

#[export] Instance fdtype_eq_dec : EqDecision fdtype.
Proof. solve_decision. Defined.

(** kernel/file.h: struct file; [f_pipe] is the address of the pipe's page *)
Record file := mk_file {
  f_type : fdtype;
  f_ref : Z;
  f_readable : Z;
  f_writable : Z;
  f_pipe : Z;
  f_ip : option nat;
  f_off : Z;
  f_major : Z
}.

Definition set_f_type (v : fdtype) (f : file) : file :=
  mk_file v (f_ref f) (f_readable f) (f_writable f) (f_pipe f) (f_ip f) (f_off f) (f_major f).
Definition set_f_ref (v : Z) (f : file) : file :=
  mk_file (f_type f) v (f_readable f) (f_writable f) (f_pipe f) (f_ip f) (f_off f) (f_major f).
Definition set_f_readable (v : Z) (f : file) : file :=
  mk_file (f_type f) (f_ref f) v (f_writable f) (f_pipe f) (f_ip f) (f_off f) (f_major f).
Definition set_f_writable (v : Z) (f : file) : file :=
  mk_file (f_type f) (f_ref f) (f_readable f) v (f_pipe f) (f_ip f) (f_off f) (f_major f).
Definition set_f_pipe (v : Z) (f : file) : file :=
  mk_file (f_type f) (f_ref f) (f_readable f) (f_writable f) v (f_ip f) (f_off f) (f_major f).
Definition set_f_ip (v : option nat) (f : file) : file :=
  mk_file (f_type f) (f_ref f) (f_readable f) (f_writable f) (f_pipe f) v (f_off f) (f_major f).
Definition set_f_off (v : Z) (f : file) : file :=
  mk_file (f_type f) (f_ref f) (f_readable f) (f_writable f) (f_pipe f) (f_ip f) v (f_major f).
Definition set_f_major (v : Z) (f : file) : file :=
  mk_file (f_type f) (f_ref f) (f_readable f) (f_writable f) (f_pipe f) (f_ip f) (f_off f) v.

(** kernel/pipe.c: struct pipe *)
Record pipe := mk_pipe {
  pi_data : list Z;
  pi_nread : Z (* number of bytes read *);
  pi_nwrite : Z (* number of bytes written *);
  pi_readopen : Z (* read fd is still open *);
  pi_writeopen : Z (* write fd is still open *)
}.

Definition set_pi_data (v : list Z) (p : pipe) : pipe :=
  mk_pipe v (pi_nread p) (pi_nwrite p) (pi_readopen p) (pi_writeopen p).
Definition set_pi_nread (v : Z) (p : pipe) : pipe :=
  mk_pipe (pi_data p) v (pi_nwrite p) (pi_readopen p) (pi_writeopen p).
Definition set_pi_nwrite (v : Z) (p : pipe) : pipe :=
  mk_pipe (pi_data p) (pi_nread p) v (pi_readopen p) (pi_writeopen p).
Definition set_pi_readopen (v : Z) (p : pipe) : pipe :=
  mk_pipe (pi_data p) (pi_nread p) (pi_nwrite p) v (pi_writeopen p).
Definition set_pi_writeopen (v : Z) (p : pipe) : pipe :=
  mk_pipe (pi_data p) (pi_nread p) (pi_nwrite p) (pi_readopen p) v.

(** kernel/proc.h: struct context; [c_s] holds s0 to s11 *)
Record context := mk_context {
  c_ra : Z;
  c_sp : Z;
  c_s : list Z
}.

Definition set_c_ra (v : Z) (c : context) : context :=
  mk_context v (c_sp c) (c_s c).
Definition set_c_sp (v : Z) (c : context) : context :=
  mk_context (c_ra c) v (c_s c).
Definition set_c_s (v : list Z) (c : context) : context :=
  mk_context (c_ra c) (c_sp c) v.

Inductive procstate := UNUSED | USED | SLEEPING | RUNNABLE | RUNNING | ZOMBIE.

#[export] Instance procstate_eq_dec : EqDecision procstate.
Proof. solve_decision. Defined.

(** kernel/proc.h: struct proc; [p_pagetable] and [p_trapframe] are addresses *)
Record proc := mk_proc {
  p_state : procstate;
  p_chan : chan (* if non-zero, sleeping on chan *);
  p_killed : Z;
  p_xstate : Z;
  p_pid : Z;
  p_parent : option nat;
  p_kstack : Z;
  p_sz : Z;
  p_pagetable : Z;
  p_trapframe : Z;
  p_context : context;
  p_ofile : list (option nat);
  p_cwd : option nat;
  p_name : list Z
}.

Definition set_p_state (v : procstate) (p : proc) : proc :=
  mk_proc v (p_chan p) (p_killed p) (p_xstate p) (p_pid p) (p_parent p) (p_kstack p) (p_sz p)
    (p_pagetable p) (p_trapframe p) (p_context p) (p_ofile p) (p_cwd p) (p_name p).
Definition set_p_chan (v : chan) (p : proc) : proc :=
  mk_proc (p_state p) v (p_killed p) (p_xstate p) (p_pid p) (p_parent p) (p_kstack p) (p_sz p)
    (p_pagetable p) (p_trapframe p) (p_context p) (p_ofile p) (p_cwd p) (p_name p).
Definition set_p_killed (v : Z) (p : proc) : proc :=
  mk_proc (p_state p) (p_chan p) v (p_xstate p) (p_pid p) (p_parent p) (p_kstack p) (p_sz p)
    (p_pagetable p) (p_trapframe p) (p_context p) (p_ofile p) (p_cwd p) (p_name p).
Definition set_p_xstate (v : Z) (p : proc) : proc :=
  mk_proc (p_state p) (p_chan p) (p_killed p) v (p_pid p) (p_parent p) (p_kstack p) (p_sz p)
    (p_pagetable p) (p_trapframe p) (p_context p) (p_ofile p) (p_cwd p) (p_name p).
Definition set_p_pid (v : Z) (p : proc) : proc :=
  mk_proc (p_state p) (p_chan p) (p_killed p) (p_xstate p) v (p_parent p) (p_kstack p) (p_sz p)
    (p_pagetable p) (p_trapframe p) (p_context p) (p_ofile p) (p_cwd p) (p_name p).
Definition set_p_parent (v : option nat) (p : proc) : proc :=
  mk_proc (p_state p) (p_chan p) (p_killed p) (p_xstate p) (p_pid p) v (p_kstack p) (p_sz p)
    (p_pagetable p) (p_trapframe p) (p_context p) (p_ofile p) (p_cwd p) (p_name p).
Definition set_p_kstack (v : Z) (p : proc) : proc :=
  mk_proc (p_state p) (p_chan p) (p_killed p) (p_xstate p) (p_pid p) (p_parent p) v (p_sz p)
    (p_pagetable p) (p_trapframe p) (p_context p) (p_ofile p) (p_cwd p) (p_name p).
Definition set_p_sz (v : Z) (p : proc) : proc :=
  mk_proc (p_state p) (p_chan p) (p_killed p) (p_xstate p) (p_pid p) (p_parent p) (p_kstack p) v
    (p_pagetable p) (p_trapframe p) (p_context p) (p_ofile p) (p_cwd p) (p_name p).
Definition set_p_pagetable (v : Z) (p : proc) : proc :=
  mk_proc (p_state p) (p_chan p) (p_killed p) (p_xstate p) (p_pid p) (p_parent p) (p_kstack p)
    (p_sz p) v (p_trapframe p) (p_context p) (p_ofile p) (p_cwd p) (p_name p).
Definition set_p_trapframe (v : Z) (p : proc) : proc :=
  mk_proc (p_state p) (p_chan p) (p_killed p) (p_xstate p) (p_pid p) (p_parent p) (p_kstack p)
    (p_sz p) (p_pagetable p) v (p_context p) (p_ofile p) (p_cwd p) (p_name p).
Definition set_p_context (v : context) (p : proc) : proc :=
  mk_proc (p_state p) (p_chan p) (p_killed p) (p_xstate p) (p_pid p) (p_parent p) (p_kstack p)
    (p_sz p) (p_pagetable p) (p_trapframe p) v (p_ofile p) (p_cwd p) (p_name p).
Definition set_p_ofile (v : list (option nat)) (p : proc) : proc :=
  mk_proc (p_state p) (p_chan p) (p_killed p) (p_xstate p) (p_pid p) (p_parent p) (p_kstack p)
    (p_sz p) (p_pagetable p) (p_trapframe p) (p_context p) v (p_cwd p) (p_name p).
Definition set_p_cwd (v : option nat) (p : proc) : proc :=
  mk_proc (p_state p) (p_chan p) (p_killed p) (p_xstate p) (p_pid p) (p_parent p) (p_kstack p)
    (p_sz p) (p_pagetable p) (p_trapframe p) (p_context p) (p_ofile p) v (p_name p).
Definition set_p_name (v : list Z) (p : proc) : proc :=
  mk_proc (p_state p) (p_chan p) (p_killed p) (p_xstate p) (p_pid p) (p_parent p) (p_kstack p)
    (p_sz p) (p_pagetable p) (p_trapframe p) (p_context p) (p_ofile p) (p_cwd p) v.

(** kernel/console.c: struct cons *)
Record console := mk_console {
  cons_buf : list Z;
  cons_r : Z (* Read index *);
  cons_w : Z (* Write index *);
  cons_e : Z (* Edit index *)
}.

Definition set_cons_buf (v : list Z) (c : console) : console :=
  mk_console v (cons_r c) (cons_w c) (cons_e c).
Definition set_cons_r (v : Z) (c : console) : console :=
  mk_console (cons_buf c) v (cons_w c) (cons_e c).
Definition set_cons_w (v : Z) (c : console) : console :=
  mk_console (cons_buf c) (cons_r c) v (cons_e c).
Definition set_cons_e (v : Z) (c : console) : console :=
  mk_console (cons_buf c) (cons_r c) (cons_w c) v.

(** kernel/uart.c: the transmit ring, and the device behind the registers: the
    values the next reads of LSR give (once the list is used up: ready to send,
    and input waiting if there is any), the bytes the receiver holds, the bytes
    written to THR, latest first, and the configuration *)
Record uart := mk_uart {
  tx_buf : list Z;
  tx_w : Z;
  tx_r : Z;
  u_lsr : list Z;
  u_rhr : list Z;
  u_thr : list Z;
  u_ier : Z (* interrupt enable register *);
  u_fcr : Z (* FIFO control register *);
  u_lcr : Z (* line control register *);
  u_dll : Z (* divisor latch, low byte *);
  u_dlm : Z (* divisor latch, high byte *)
}.

Definition set_tx_buf (v : list Z) (u : uart) : uart :=
  mk_uart v (tx_w u) (tx_r u) (u_lsr u) (u_rhr u) (u_thr u) (u_ier u) (u_fcr u) (u_lcr u)
    (u_dll u) (u_dlm u).
Definition set_tx_w (v : Z) (u : uart) : uart :=
  mk_uart (tx_buf u) v (tx_r u) (u_lsr u) (u_rhr u) (u_thr u) (u_ier u) (u_fcr u) (u_lcr u)
    (u_dll u) (u_dlm u).
Definition set_tx_r (v : Z) (u : uart) : uart :=
  mk_uart (tx_buf u) (tx_w u) v (u_lsr u) (u_rhr u) (u_thr u) (u_ier u) (u_fcr u) (u_lcr u)
    (u_dll u) (u_dlm u).
Definition set_u_lsr (v : list Z) (u : uart) : uart :=
  mk_uart (tx_buf u) (tx_w u) (tx_r u) v (u_rhr u) (u_thr u) (u_ier u) (u_fcr u) (u_lcr u)
    (u_dll u) (u_dlm u).
Definition set_u_rhr (v : list Z) (u : uart) : uart :=
  mk_uart (tx_buf u) (tx_w u) (tx_r u) (u_lsr u) v (u_thr u) (u_ier u) (u_fcr u) (u_lcr u)
    (u_dll u) (u_dlm u).
Definition set_u_thr (v : list Z) (u : uart) : uart :=
  mk_uart (tx_buf u) (tx_w u) (tx_r u) (u_lsr u) (u_rhr u) v (u_ier u) (u_fcr u) (u_lcr u)
    (u_dll u) (u_dlm u).
Definition set_u_ier (v : Z) (u : uart) : uart :=
  mk_uart (tx_buf u) (tx_w u) (tx_r u) (u_lsr u) (u_rhr u) (u_thr u) v (u_fcr u) (u_lcr u)
    (u_dll u) (u_dlm u).
Definition set_u_fcr (v : Z) (u : uart) : uart :=
  mk_uart (tx_buf u) (tx_w u) (tx_r u) (u_lsr u) (u_rhr u) (u_thr u) (u_ier u) v (u_lcr u)
    (u_dll u) (u_dlm u).
Definition set_u_lcr (v : Z) (u : uart) : uart :=
  mk_uart (tx_buf u) (tx_w u) (tx_r u) (u_lsr u) (u_rhr u) (u_thr u) (u_ier u) (u_fcr u) v
    (u_dll u) (u_dlm u).
Definition set_u_dll (v : Z) (u : uart) : uart :=
  mk_uart (tx_buf u) (tx_w u) (tx_r u) (u_lsr u) (u_rhr u) (u_thr u) (u_ier u) (u_fcr u)
    (u_lcr u) v (u_dlm u).
Definition set_u_dlm (v : Z) (u : uart) : uart :=
  mk_uart (tx_buf u) (tx_w u) (tx_r u) (u_lsr u) (u_rhr u) (u_thr u) (u_ier u) (u_fcr u)
    (u_lcr u) (u_dll u) v.

(** The supervisor registers kernel/trap.c works with, and the interrupt
    controller: the interrupts it will report, the ones it was told are done *)
Record csr := mk_csr {
  c_sstatus : Z;
  c_scause : Z;
  c_sepc : Z;
  c_stval : Z;
  c_stvec : Z;
  c_satp : Z;
  c_sip : Z;
  c_tp : Z (* the hart id *);
  plic_pending : list Z;
  plic_done : list Z (* latest first *);
  plic_regs : gmap Z Z (* its other registers *)
}.

Definition set_c_sstatus (v : Z) (c : csr) : csr :=
  mk_csr v (c_scause c) (c_sepc c) (c_stval c) (c_stvec c) (c_satp c) (c_sip c) (c_tp c)
    (plic_pending c) (plic_done c) (plic_regs c).
Definition set_c_scause (v : Z) (c : csr) : csr :=
  mk_csr (c_sstatus c) v (c_sepc c) (c_stval c) (c_stvec c) (c_satp c) (c_sip c) (c_tp c)
    (plic_pending c) (plic_done c) (plic_regs c).
Definition set_c_sepc (v : Z) (c : csr) : csr :=
  mk_csr (c_sstatus c) (c_scause c) v (c_stval c) (c_stvec c) (c_satp c) (c_sip c) (c_tp c)
    (plic_pending c) (plic_done c) (plic_regs c).
Definition set_c_stval (v : Z) (c : csr) : csr :=
  mk_csr (c_sstatus c) (c_scause c) (c_sepc c) v (c_stvec c) (c_satp c) (c_sip c) (c_tp c)
    (plic_pending c) (plic_done c) (plic_regs c).
Definition set_c_stvec (v : Z) (c : csr) : csr :=
  mk_csr (c_sstatus c) (c_scause c) (c_sepc c) (c_stval c) v (c_satp c) (c_sip c) (c_tp c)
    (plic_pending c) (plic_done c) (plic_regs c).
Definition set_c_satp (v : Z) (c : csr) : csr :=
  mk_csr (c_sstatus c) (c_scause c) (c_sepc c) (c_stval c) (c_stvec c) v (c_sip c) (c_tp c)
    (plic_pending c) (plic_done c) (plic_regs c).
Definition set_c_sip (v : Z) (c : csr) : csr :=
  mk_csr (c_sstatus c) (c_scause c) (c_sepc c) (c_stval c) (c_stvec c) (c_satp c) v (c_tp c)
    (plic_pending c) (plic_done c) (plic_regs c).
Definition set_c_tp (v : Z) (c : csr) : csr :=
  mk_csr (c_sstatus c) (c_scause c) (c_sepc c) (c_stval c) (c_stvec c) (c_satp c) (c_sip c) v
    (plic_pending c) (plic_done c) (plic_regs c).
Definition set_plic_pending (v : list Z) (c : csr) : csr :=
  mk_csr (c_sstatus c) (c_scause c) (c_sepc c) (c_stval c) (c_stvec c) (c_satp c) (c_sip c)
    (c_tp c) v (plic_done c) (plic_regs c).
Definition set_plic_done (v : list Z) (c : csr) : csr :=
  mk_csr (c_sstatus c) (c_scause c) (c_sepc c) (c_stval c) (c_stvec c) (c_satp c) (c_sip c)
    (c_tp c) (plic_pending c) v (plic_regs c).
Definition set_plic_regs (v : gmap Z Z) (c : csr) : csr :=
  mk_csr (c_sstatus c) (c_scause c) (c_sepc c) (c_stval c) (c_stvec c) (c_satp c) (c_sip c)
    (c_tp c) (plic_pending c) (plic_done c) v.

(** The functions of a devsw[] entry (kernel/file.h). *)
Inductive devfn := Dev_none | Dev_console.

Record K := mk_K {
  k_proc : option nat (* mycpu()->proc *);
  k_held : gset lock (* the spinlocks this CPU holds *);
  k_yields : nat (* how often this thread gave up the CPU *);
  k_sp : Z (* kernel stack pointer *);
  k_mem : mem (* memory as the kernel addresses it *);
  k_freelist : Z (* kmem.freelist *);
  k_procs : list proc (* proc[NPROC] *);
  k_initproc : option nat;
  k_nextpid : Z;
  k_files : list file (* ftable.file[NFILE] *);
  k_pipes : gmap Z pipe (* the pages that hold a struct pipe *);
  k_devsw : list devfn;
  k_inodes : list inode (* itable.inode[NINODE] *);
  k_sb : superblock;
  k_bufs : list buf (* bcache.buf[NBUF], then bcache.head *);
  k_log : logst;
  k_disk : gmap Z (list Z) (* the blocks of the disk *);
  k_writes : list (Z * list Z) (* the disk writes so far, latest first *);
  k_ticks : Z;
  k_cons : console;
  k_uart : uart;
  k_locking : Z (* pr.locking *);
  k_panicked : Z (* panicked *);
  k_first : Z (* forkret()'s first *);
  k_csr : csr;
  k_kpgtbl : Z (* kernel_pagetable *)
}.

Definition set_k_proc (v : option nat) (k : K) : K :=
  mk_K v (k_held k) (k_yields k) (k_sp k) (k_mem k) (k_freelist k) (k_procs k) (k_initproc k)
    (k_nextpid k) (k_files k) (k_pipes k) (k_devsw k) (k_inodes k) (k_sb k) (k_bufs k) (k_log k)
    (k_disk k) (k_writes k) (k_ticks k) (k_cons k) (k_uart k) (k_locking k) (k_panicked k)
    (k_first k) (k_csr k) (k_kpgtbl k).
Definition set_k_held (v : gset lock) (k : K) : K :=
  mk_K (k_proc k) v (k_yields k) (k_sp k) (k_mem k) (k_freelist k) (k_procs k) (k_initproc k)
    (k_nextpid k) (k_files k) (k_pipes k) (k_devsw k) (k_inodes k) (k_sb k) (k_bufs k) (k_log k)
    (k_disk k) (k_writes k) (k_ticks k) (k_cons k) (k_uart k) (k_locking k) (k_panicked k)
    (k_first k) (k_csr k) (k_kpgtbl k).
Definition set_k_yields (v : nat) (k : K) : K :=
  mk_K (k_proc k) (k_held k) v (k_sp k) (k_mem k) (k_freelist k) (k_procs k) (k_initproc k)
    (k_nextpid k) (k_files k) (k_pipes k) (k_devsw k) (k_inodes k) (k_sb k) (k_bufs k) (k_log k)
    (k_disk k) (k_writes k) (k_ticks k) (k_cons k) (k_uart k) (k_locking k) (k_panicked k)
    (k_first k) (k_csr k) (k_kpgtbl k).
Definition set_k_sp (v : Z) (k : K) : K :=
  mk_K (k_proc k) (k_held k) (k_yields k) v (k_mem k) (k_freelist k) (k_procs k) (k_initproc k)
    (k_nextpid k) (k_files k) (k_pipes k) (k_devsw k) (k_inodes k) (k_sb k) (k_bufs k) (k_log k)
    (k_disk k) (k_writes k) (k_ticks k) (k_cons k) (k_uart k) (k_locking k) (k_panicked k)
    (k_first k) (k_csr k) (k_kpgtbl k).
Definition set_k_mem (v : mem) (k : K) : K :=
  mk_K (k_proc k) (k_held k) (k_yields k) (k_sp k) v (k_freelist k) (k_procs k) (k_initproc k)
    (k_nextpid k) (k_files k) (k_pipes k) (k_devsw k) (k_inodes k) (k_sb k) (k_bufs k) (k_log k)
    (k_disk k) (k_writes k) (k_ticks k) (k_cons k) (k_uart k) (k_locking k) (k_panicked k)
    (k_first k) (k_csr k) (k_kpgtbl k).
Definition set_k_freelist (v : Z) (k : K) : K :=
  mk_K (k_proc k) (k_held k) (k_yields k) (k_sp k) (k_mem k) v (k_procs k) (k_initproc k)
    (k_nextpid k) (k_files k) (k_pipes k) (k_devsw k) (k_inodes k) (k_sb k) (k_bufs k) (k_log k)
    (k_disk k) (k_writes k) (k_ticks k) (k_cons k) (k_uart k) (k_locking k) (k_panicked k)
    (k_first k) (k_csr k) (k_kpgtbl k).
Definition set_k_procs (v : list proc) (k : K) : K :=
  mk_K (k_proc k) (k_held k) (k_yields k) (k_sp k) (k_mem k) (k_freelist k) v (k_initproc k)
    (k_nextpid k) (k_files k) (k_pipes k) (k_devsw k) (k_inodes k) (k_sb k) (k_bufs k) (k_log k)
    (k_disk k) (k_writes k) (k_ticks k) (k_cons k) (k_uart k) (k_locking k) (k_panicked k)
    (k_first k) (k_csr k) (k_kpgtbl k).
Definition set_k_initproc (v : option nat) (k : K) : K :=
  mk_K (k_proc k) (k_held k) (k_yields k) (k_sp k) (k_mem k) (k_freelist k) (k_procs k) v
    (k_nextpid k) (k_files k) (k_pipes k) (k_devsw k) (k_inodes k) (k_sb k) (k_bufs k) (k_log k)
    (k_disk k) (k_writes k) (k_ticks k) (k_cons k) (k_uart k) (k_locking k) (k_panicked k)
    (k_first k) (k_csr k) (k_kpgtbl k).
Definition set_k_nextpid (v : Z) (k : K) : K :=
  mk_K (k_proc k) (k_held k) (k_yields k) (k_sp k) (k_mem k) (k_freelist k) (k_procs k)
    (k_initproc k) v (k_files k) (k_pipes k) (k_devsw k) (k_inodes k) (k_sb k) (k_bufs k)
    (k_log k) (k_disk k) (k_writes k) (k_ticks k) (k_cons k) (k_uart k) (k_locking k)
    (k_panicked k) (k_first k) (k_csr k) (k_kpgtbl k).
Definition set_k_files (v : list file) (k : K) : K :=
  mk_K (k_proc k) (k_held k) (k_yields k) (k_sp k) (k_mem k) (k_freelist k) (k_procs k)
    (k_initproc k) (k_nextpid k) v (k_pipes k) (k_devsw k) (k_inodes k) (k_sb k) (k_bufs k)
    (k_log k) (k_disk k) (k_writes k) (k_ticks k) (k_cons k) (k_uart k) (k_locking k)
    (k_panicked k) (k_first k) (k_csr k) (k_kpgtbl k).
Definition set_k_pipes (v : gmap Z pipe) (k : K) : K :=
  mk_K (k_proc k) (k_held k) (k_yields k) (k_sp k) (k_mem k) (k_freelist k) (k_procs k)
    (k_initproc k) (k_nextpid k) (k_files k) v (k_devsw k) (k_inodes k) (k_sb k) (k_bufs k)
    (k_log k) (k_disk k) (k_writes k) (k_ticks k) (k_cons k) (k_uart k) (k_locking k)
    (k_panicked k) (k_first k) (k_csr k) (k_kpgtbl k).
Definition set_k_devsw (v : list devfn) (k : K) : K :=
  mk_K (k_proc k) (k_held k) (k_yields k) (k_sp k) (k_mem k) (k_freelist k) (k_procs k)
    (k_initproc k) (k_nextpid k) (k_files k) (k_pipes k) v (k_inodes k) (k_sb k) (k_bufs k)
    (k_log k) (k_disk k) (k_writes k) (k_ticks k) (k_cons k) (k_uart k) (k_locking k)
    (k_panicked k) (k_first k) (k_csr k) (k_kpgtbl k).
Definition set_k_inodes (v : list inode) (k : K) : K :=
  mk_K (k_proc k) (k_held k) (k_yields k) (k_sp k) (k_mem k) (k_freelist k) (k_procs k)
    (k_initproc k) (k_nextpid k) (k_files k) (k_pipes k) (k_devsw k) v (k_sb k) (k_bufs k)
    (k_log k) (k_disk k) (k_writes k) (k_ticks k) (k_cons k) (k_uart k) (k_locking k)
    (k_panicked k) (k_first k) (k_csr k) (k_kpgtbl k).
Definition set_k_sb (v : superblock) (k : K) : K :=
  mk_K (k_proc k) (k_held k) (k_yields k) (k_sp k) (k_mem k) (k_freelist k) (k_procs k)
    (k_initproc k) (k_nextpid k) (k_files k) (k_pipes k) (k_devsw k) (k_inodes k) v (k_bufs k)
    (k_log k) (k_disk k) (k_writes k) (k_ticks k) (k_cons k) (k_uart k) (k_locking k)
    (k_panicked k) (k_first k) (k_csr k) (k_kpgtbl k).
Definition set_k_bufs (v : list buf) (k : K) : K :=
  mk_K (k_proc k) (k_held k) (k_yields k) (k_sp k) (k_mem k) (k_freelist k) (k_procs k)
    (k_initproc k) (k_nextpid k) (k_files k) (k_pipes k) (k_devsw k) (k_inodes k) (k_sb k) v
    (k_log k) (k_disk k) (k_writes k) (k_ticks k) (k_cons k) (k_uart k) (k_locking k)
    (k_panicked k) (k_first k) (k_csr k) (k_kpgtbl k).
Definition set_k_log (v : logst) (k : K) : K :=
  mk_K (k_proc k) (k_held k) (k_yields k) (k_sp k) (k_mem k) (k_freelist k) (k_procs k)
    (k_initproc k) (k_nextpid k) (k_files k) (k_pipes k) (k_devsw k) (k_inodes k) (k_sb k)
    (k_bufs k) v (k_disk k) (k_writes k) (k_ticks k) (k_cons k) (k_uart k) (k_locking k)
    (k_panicked k) (k_first k) (k_csr k) (k_kpgtbl k).
Definition set_k_disk (v : gmap Z (list Z)) (k : K) : K :=
  mk_K (k_proc k) (k_held k) (k_yields k) (k_sp k) (k_mem k) (k_freelist k) (k_procs k)
    (k_initproc k) (k_nextpid k) (k_files k) (k_pipes k) (k_devsw k) (k_inodes k) (k_sb k)
    (k_bufs k) (k_log k) v (k_writes k) (k_ticks k) (k_cons k) (k_uart k) (k_locking k)
    (k_panicked k) (k_first k) (k_csr k) (k_kpgtbl k).
Definition set_k_writes (v : list (Z * list Z)) (k : K) : K :=
  mk_K (k_proc k) (k_held k) (k_yields k) (k_sp k) (k_mem k) (k_freelist k) (k_procs k)
    (k_initproc k) (k_nextpid k) (k_files k) (k_pipes k) (k_devsw k) (k_inodes k) (k_sb k)
    (k_bufs k) (k_log k) (k_disk k) v (k_ticks k) (k_cons k) (k_uart k) (k_locking k)
    (k_panicked k) (k_first k) (k_csr k) (k_kpgtbl k).
Definition set_k_ticks (v : Z) (k : K) : K :=
  mk_K (k_proc k) (k_held k) (k_yields k) (k_sp k) (k_mem k) (k_freelist k) (k_procs k)
    (k_initproc k) (k_nextpid k) (k_files k) (k_pipes k) (k_devsw k) (k_inodes k) (k_sb k)
    (k_bufs k) (k_log k) (k_disk k) (k_writes k) v (k_cons k) (k_uart k) (k_locking k)
    (k_panicked k) (k_first k) (k_csr k) (k_kpgtbl k).
Definition set_k_cons (v : console) (k : K) : K :=
  mk_K (k_proc k) (k_held k) (k_yields k) (k_sp k) (k_mem k) (k_freelist k) (k_procs k)
    (k_initproc k) (k_nextpid k) (k_files k) (k_pipes k) (k_devsw k) (k_inodes k) (k_sb k)
    (k_bufs k) (k_log k) (k_disk k) (k_writes k) (k_ticks k) v (k_uart k) (k_locking k)
    (k_panicked k) (k_first k) (k_csr k) (k_kpgtbl k).
Definition set_k_uart (v : uart) (k : K) : K :=
  mk_K (k_proc k) (k_held k) (k_yields k) (k_sp k) (k_mem k) (k_freelist k) (k_procs k)
    (k_initproc k) (k_nextpid k) (k_files k) (k_pipes k) (k_devsw k) (k_inodes k) (k_sb k)
    (k_bufs k) (k_log k) (k_disk k) (k_writes k) (k_ticks k) (k_cons k) v (k_locking k)
    (k_panicked k) (k_first k) (k_csr k) (k_kpgtbl k).
Definition set_k_locking (v : Z) (k : K) : K :=
  mk_K (k_proc k) (k_held k) (k_yields k) (k_sp k) (k_mem k) (k_freelist k) (k_procs k)
    (k_initproc k) (k_nextpid k) (k_files k) (k_pipes k) (k_devsw k) (k_inodes k) (k_sb k)
    (k_bufs k) (k_log k) (k_disk k) (k_writes k) (k_ticks k) (k_cons k) (k_uart k) v
    (k_panicked k) (k_first k) (k_csr k) (k_kpgtbl k).
Definition set_k_panicked (v : Z) (k : K) : K :=
  mk_K (k_proc k) (k_held k) (k_yields k) (k_sp k) (k_mem k) (k_freelist k) (k_procs k)
    (k_initproc k) (k_nextpid k) (k_files k) (k_pipes k) (k_devsw k) (k_inodes k) (k_sb k)
    (k_bufs k) (k_log k) (k_disk k) (k_writes k) (k_ticks k) (k_cons k) (k_uart k) (k_locking k)
    v (k_first k) (k_csr k) (k_kpgtbl k).
Definition set_k_first (v : Z) (k : K) : K :=
  mk_K (k_proc k) (k_held k) (k_yields k) (k_sp k) (k_mem k) (k_freelist k) (k_procs k)
    (k_initproc k) (k_nextpid k) (k_files k) (k_pipes k) (k_devsw k) (k_inodes k) (k_sb k)
    (k_bufs k) (k_log k) (k_disk k) (k_writes k) (k_ticks k) (k_cons k) (k_uart k) (k_locking k)
    (k_panicked k) v (k_csr k) (k_kpgtbl k).
Definition set_k_csr (v : csr) (k : K) : K :=
  mk_K (k_proc k) (k_held k) (k_yields k) (k_sp k) (k_mem k) (k_freelist k) (k_procs k)
    (k_initproc k) (k_nextpid k) (k_files k) (k_pipes k) (k_devsw k) (k_inodes k) (k_sb k)
    (k_bufs k) (k_log k) (k_disk k) (k_writes k) (k_ticks k) (k_cons k) (k_uart k) (k_locking k)
    (k_panicked k) (k_first k) v (k_kpgtbl k).
Definition set_k_kpgtbl (v : Z) (k : K) : K :=
  mk_K (k_proc k) (k_held k) (k_yields k) (k_sp k) (k_mem k) (k_freelist k) (k_procs k)
    (k_initproc k) (k_nextpid k) (k_files k) (k_pipes k) (k_devsw k) (k_inodes k) (k_sb k)
    (k_bufs k) (k_log k) (k_disk k) (k_writes k) (k_ticks k) (k_cons k) (k_uart k) (k_locking k)
    (k_panicked k) (k_first k) (k_csr k) v.


#[export] Instance sleeplock_inhabited : Inhabited sleeplock := populate (mk_sleeplock 0 0).
#[export] Instance buf_inhabited : Inhabited buf :=
  populate (mk_buf 0 0 0 0 inhabitant 0 0 0 []).
#[export] Instance inode_inhabited : Inhabited inode :=
  populate (mk_inode 0 0 0 inhabitant 0 0 0 0 0 0 []).
#[export] Instance file_inhabited : Inhabited file := populate (mk_file FD_NONE 0 0 0 0 None 0 0).
#[export] Instance pipe_inhabited : Inhabited pipe := populate (mk_pipe [] 0 0 0 0).
#[export] Instance proc_inhabited : Inhabited proc :=
  populate (mk_proc UNUSED Ch_null 0 0 0 None 0 0 0 0 (mk_context 0 0 []) [] None []).

(** The kernel's static variables as the loader leaves them: zero, but for
    nextpid and forkret()'s first. *)
Definition bss_buf : buf := mk_buf 0 0 0 0 inhabitant 0 0 0 (replicate 1024 0).
Definition bss_inode : inode := mk_inode 0 0 0 inhabitant 0 0 0 0 0 0 (replicate 13 0).
Definition bss_proc : proc :=
  mk_proc UNUSED Ch_null 0 0 0 None 0 0 0 0 (mk_context 0 0 (replicate 12 0))
    (replicate 16 None) None (replicate 16 0).

Definition bss : K :=
  mk_K None ∅ 0 0 ∅ 0 (replicate 64 bss_proc) None 1 (replicate 100 inhabitant) ∅
    (replicate 10 Dev_none) (replicate 50 bss_inode) (mk_superblock 0 0 0 0 0 0 0 0)
    (replicate 31 bss_buf) (mk_logst 0 0 0 0 0 (mk_logheader 0 (replicate 30 0))) ∅ [] 0
    (mk_console (replicate 128 0) 0 0 0) (mk_uart (replicate 32 0) 0 0 [] [] [] 0 0 0 0 0)
    0 0 1 (mk_csr 0 0 0 0 0 0 0 0 [] [] ∅) 0.

(** * The monad *)

(** [Panic]: panic() was called.  [Stuck]: the run stops making progress (it
    waits for something that does not happen) or does something the C language
    leaves undefined, such as an access outside an array. *)
Inductive res (A : Type) : Type :=
| Ok (a : A) (k : K)
| Panic (msg : string) (k : K)
| Stuck (k : K).
Arguments Ok {A}.
Arguments Panic {A}.
Arguments Stuck {A}.

Definition M (A : Type) : Type := K -> res A.

Definition ret {A} (a : A) : M A := fun k => Ok a k.

Definition bind {A B} (m : M A) (f : A -> M B) : M B := fun k =>
  match m k with
  | Ok a k' => f a k'
  | Panic s k' => Panic s k'
  | Stuck k' => Stuck k'
  end.

Definition panic {A} (msg : string) : M A := fun k => Panic msg k.
Definition stuck {A} : M A := fun k => Stuck k.
Definition gets {A} (f : K -> A) : M A := fun k => Ok (f k) k.
Definition modify (f : K -> K) : M unit := fun k => Ok tt (f k).

Notation "'let*' x := m 'in' f" := (bind m (fun x => f))
  (at level 10, x name, m at level 100, f at level 200) : xv6_scope.
Notation "'let*' ' p := m 'in' f" := (bind m (fun x => match x with p => f end))
  (at level 10, p pattern, m at level 100, f at level 200) : xv6_scope.
Notation "m ;;; f" := (bind m (fun _ => f)) (at level 100, right associativity) : xv6_scope.

Definition when (b : bool) (m : M unit) : M unit := if b then m else ret tt.

(** [for_ l f]: run [f] on every element, in order. *)
Fixpoint for_ {A} (l : list A) (f : A -> M unit) : M unit :=
  match l with
  | [] => ret tt
  | a :: l' => f a ;;; for_ l' f
  end.

(** [first_ l f]: run [f] on the elements until one gives a result: a loop
    with an early exit. *)
Fixpoint first_ {A B} (l : list A) (f : A -> M (option B)) : M (option B) :=
  match l with
  | [] => ret None
  | a :: l' =>
      let* r := f a in
      match r with
      | Some b => ret (Some b)
      | None => first_ l' f
      end
  end.

(** * The platform *)

(** What the kernel's C code is linked with and runs beside: the addresses of
    linker and assembly symbols, and the other threads. [others n k] is the
    state in which this thread runs again after giving up the CPU for the n-th
    time in state [k], [None] when it never does. [patience] bounds how often
    a loop that sleeps is followed. *)
Class Platform := {
  others : nat -> K -> option K;
  patience : nat;
  sym_end : Z;
  sym_etext : Z;
  sym_trampoline : Z;
  sym_uservec : Z;
  sym_userret : Z;
  sym_forkret : Z;
  sym_usertrap : Z;
  sym_kernelvec : Z;
}.

(** * Spinlocks, as the rest of the kernel uses them

    [acquire] and [release] are the operations of kernel/spinlock.c as one
    thread sees them; Spinlock.v models that file and proves that its functions
    implement these. *)

Definition holding (l : lock) : M bool := gets (fun k => bool_decide (l ∈ k_held k)).

Definition acquire (l : lock) : M unit :=
  let* h := holding l in
  if h : bool then panic "acquire"
  else modify (fun k => set_k_held ({[l]} ∪ k_held k) k).

Definition release (l : lock) : M unit :=
  let* h := holding l in
  if h : bool then modify (fun k => set_k_held (k_held k ∖ {[l]}) k)
  else panic "release".

(** initlock() leaves the lock free. *)
Definition initlock (l : lock) : M unit := modify (fun k => set_k_held (k_held k ∖ {[l]}) k).

(** * Accessors *)

Definition get_proc (p : nat) : M proc := gets (fun k => k_procs k !!! p).
Definition upd_proc (p : nat) (f : proc -> proc) : M unit :=
  modify (fun k => set_k_procs (alter f p (k_procs k)) k).

Definition get_buf (b : nat) : M buf := gets (fun k => k_bufs k !!! b).
Definition upd_buf (b : nat) (f : buf -> buf) : M unit :=
  modify (fun k => set_k_bufs (alter f b (k_bufs k)) k).

Definition get_inode (ip : nat) : M inode := gets (fun k => k_inodes k !!! ip).
Definition upd_inode (ip : nat) (f : inode -> inode) : M unit :=
  modify (fun k => set_k_inodes (alter f ip (k_inodes k)) k).

Definition get_file (f : nat) : M file := gets (fun k => k_files k !!! f).
Definition upd_file (f : nat) (g : file -> file) : M unit :=
  modify (fun k => set_k_files (alter g f (k_files k)) k).

Definition get_pipe (pi : Z) : M pipe := gets (fun k => default inhabitant (k_pipes k !! pi)).
Definition upd_pipe (pi : Z) (f : pipe -> pipe) : M unit :=
  modify (fun k => set_k_pipes (alter f pi (k_pipes k)) k).

Definition upd_log (f : logst -> logst) : M unit :=
  modify (fun k => set_k_log (f (k_log k)) k).
Definition upd_mem (f : mem -> mem) : M unit :=
  modify (fun k => set_k_mem (f (k_mem k)) k).

(** A local variable of [n] bytes on the kernel stack. *)
Definition local {A} (n : Z) (f : Z -> M A) : M A :=
  let* sp := gets (fun k => k_sp k) in
  modify (set_k_sp (sp - n)) ;;;
  let* a := f (sp - n) in
  modify (set_k_sp sp) ;;;
  ret a.

(** * Reasoning about computations *)

(** [wp m Q k]: started in [k], [m] returns, and the result and the final
    state satisfy [Q]. *)
Definition wp {A} (m : M A) (Q : A -> K -> Prop) (k : K) : Prop :=
  match m k with
  | Ok a k' => Q a k'
  | _ => False
  end.

Lemma wp_ret {A} (a : A) Q k : wp (ret a) Q k <-> Q a k.
Proof. done. Qed.

Lemma wp_bind {A B} (m : M A) (f : A -> M B) Q k :
  wp (bind m f) Q k <-> wp m (fun a => wp (f a) Q) k.
Proof. unfold wp, bind. destruct (m k); done. Qed.

Lemma wp_mono {A} (m : M A) (Q Q' : A -> K -> Prop) k :
  (forall a k', Q a k' -> Q' a k') -> wp m Q k -> wp m Q' k.
Proof. unfold wp. destruct (m k); auto. Qed.

Lemma wp_ok {A} (m : M A) Q k a k' : m k = Ok a k' -> Q a k' -> wp m Q k.
Proof. unfold wp. intros ->; done. Qed.

Lemma wp_inv {A} (m : M A) Q k :
  wp m Q k -> exists a k', m k = Ok a k' /\ Q a k'.
Proof. unfold wp. destruct (m k); try done. eauto. Qed.

Lemma wp_gets {A} (f : K -> A) Q k : wp (gets f) Q k <-> Q (f k) k.
Proof. done. Qed.

Lemma wp_modify f Q k : wp (modify f) Q k <-> Q tt (f k).
Proof. done. Qed.

Lemma bind_ok {A B} (m : M A) (f : A -> M B) k a k' :
  m k = Ok a k' -> bind m f k = f a k'.
Proof. unfold bind. by intros ->. Qed.

Lemma bind_ret {A B} (a : A) (f : A -> M B) k : bind (ret a) f k = f a k.
Proof. done. Qed.

Lemma bind_assoc {A B C} (m : M A) (f : A -> M B) (g : B -> M C) k :
  bind (bind m f) g k = bind m (fun a => bind (f a) g) k.
Proof. unfold bind. by destruct (m k). Qed.

Lemma acquire_ok l k :
  l ∉ k_held k -> acquire l k = Ok tt (set_k_held ({[l]} ∪ k_held k) k).
Proof. intros H. unfold acquire, holding, bind, gets. by rewrite bool_decide_eq_false_2. Qed.

Lemma release_ok l k :
  l ∈ k_held k -> release l k = Ok tt (set_k_held (k_held k ∖ {[l]}) k).
Proof. intros H. unfold release, holding, bind, gets. by rewrite bool_decide_eq_true_2. Qed.

Lemma wp_acquire l Q k :
  l ∉ k_held k -> Q tt (set_k_held ({[l]} ∪ k_held k) k) -> wp (acquire l) Q k.
Proof. intros H. unfold wp. by rewrite acquire_ok. Qed.

Lemma wp_release l Q k :
  l ∈ k_held k -> Q tt (set_k_held (k_held k ∖ {[l]}) k) -> wp (release l) Q k.
Proof. intros H. unfold wp. by rewrite release_ok. Qed.

Lemma held_add_del (l : lock) (X : gset lock) : l ∉ X -> ({[l]} ∪ X) ∖ {[l]} = X.
Proof. set_solver. Qed.

(** Symbolic execution of a computation on a known state: the goal is
    [m k = r]. *)
Lemma bind_eq {A B} (m : M A) (f : A -> M B) k a k' r :
  m k = Ok a k' -> f a k' = r -> bind m f k = r.
Proof. intros H <-. by apply bind_ok. Qed.

Lemma bind_panic {A B} (m : M A) (f : A -> M B) k msg k' :
  m k = Panic msg k' -> bind m f k = Panic msg k'.
Proof. unfold bind. by intros ->. Qed.

Lemma bind_ok_inv {A B} (m : M A) (f : A -> M B) k b k' :
  bind m f k = Ok b k' -> exists a k1, m k = Ok a k1 /\ f a k1 = Ok b k'.
Proof. unfold bind. destruct (m k); try done. eauto. Qed.

(** [kstep]: one step; [acquire] and [release] leave the state of the lock as
    a side condition that [set_solver] proves. *)
Ltac kstep :=
  lazymatch goal with
  | |- bind (bind _ _) _ _ = _ => rewrite bind_assoc
  | |- bind (acquire _) _ _ = _ => eapply bind_eq; [apply acquire_ok; try set_solver|]
  | |- bind (release _) _ _ = _ => eapply bind_eq; [apply release_ok; try set_solver|]
  | |- acquire _ _ = _ => rewrite acquire_ok; [|try set_solver]
  | |- release _ _ = _ => rewrite release_ok; [|try set_solver]
  | |- bind (ret _) _ _ = _ => eapply bind_eq; [reflexivity|]
  | |- bind (gets _) _ _ = _ => eapply bind_eq; [reflexivity|]
  | |- bind (modify _) _ _ = _ => eapply bind_eq; [reflexivity|]
  | |- bind (upd_mem _) _ _ = _ => eapply bind_eq; [reflexivity|]
  | |- bind (upd_buf _ _) _ _ = _ => eapply bind_eq; [reflexivity|]
  | |- bind (upd_inode _ _) _ _ = _ => eapply bind_eq; [reflexivity|]
  | |- bind (upd_file _ _) _ _ = _ => eapply bind_eq; [reflexivity|]
  | |- bind (upd_proc _ _) _ _ = _ => eapply bind_eq; [reflexivity|]
  | |- bind (upd_pipe _ _) _ _ = _ => eapply bind_eq; [reflexivity|]
  | |- bind (upd_log _) _ _ = _ => eapply bind_eq; [reflexivity|]
  | |- bind (get_buf _) _ _ = _ => eapply bind_eq; [reflexivity|]
  | |- bind (get_inode _) _ _ = _ => eapply bind_eq; [reflexivity|]
  | |- bind (get_file _) _ _ = _ => eapply bind_eq; [reflexivity|]
  | |- bind (get_proc _) _ _ = _ => eapply bind_eq; [reflexivity|]
  | |- bind (get_pipe _) _ _ = _ => eapply bind_eq; [reflexivity|]
  | |- bind (when true _) _ _ = _ => cbn [when]
  | |- bind (when false _) _ _ = _ => cbn [when]
  end; cbv beta.
Ltac ksteps := repeat kstep.

(** A loop whose body always returns, as a function on states. *)
Lemma for_run {A} (l : list A) (body : A -> M unit) (g : A -> K -> K) (I : K -> Prop) k :
  (forall a k', a ∈ l -> I k' -> body a k' = Ok tt (g a k') /\ I (g a k')) ->
  I k -> for_ l body k = Ok tt (foldl (fun k a => g a k) k l).
Proof.
  revert k. induction l as [|a l IH]; intros k Hb Hk; cbn [for_ foldl]; [done|].
  destruct (Hb a k ltac:(set_solver) Hk) as [E HI].
  eapply bind_eq; [exact E|]. apply IH; [|done]. intros; apply Hb; [set_solver|done].
Qed.

(** The same for goals [wp m Q k]. *)
Lemma wp_bind_ok {A B} (m : M A) (f : A -> M B) Q k a k' :
  m k = Ok a k' -> wp (f a) Q k' -> wp (bind m f) Q k.
Proof. intros E. rewrite wp_bind. unfold wp at 2. by rewrite E. Qed.

Lemma wp_assoc {A B C} (m : M A) (f : A -> M B) (g : B -> M C) Q k :
  wp (bind m (fun a => bind (f a) g)) Q k -> wp (bind (bind m f) g) Q k.
Proof. unfold wp. by rewrite bind_assoc. Qed.

Ltac wstep :=
  lazymatch goal with
  | |- wp (bind (bind _ _) _) _ _ => apply wp_assoc
  | |- wp (bind (acquire _) _) _ _ => eapply wp_bind_ok; [apply acquire_ok; try set_solver|]
  | |- wp (bind (release _) _) _ _ => eapply wp_bind_ok; [apply release_ok; try set_solver|]
  | |- wp (bind (ret _) _) _ _ => eapply wp_bind_ok; [reflexivity|]
  | |- wp (bind (gets _) _) _ _ => eapply wp_bind_ok; [reflexivity|]
  | |- wp (bind (modify _) _) _ _ => eapply wp_bind_ok; [reflexivity|]
  | |- wp (bind (upd_mem _) _) _ _ => eapply wp_bind_ok; [reflexivity|]
  | |- wp (bind (upd_buf _ _) _) _ _ => eapply wp_bind_ok; [reflexivity|]
  | |- wp (bind (upd_inode _ _) _) _ _ => eapply wp_bind_ok; [reflexivity|]
  | |- wp (bind (upd_file _ _) _) _ _ => eapply wp_bind_ok; [reflexivity|]
  | |- wp (bind (upd_proc _ _) _) _ _ => eapply wp_bind_ok; [reflexivity|]
  | |- wp (bind (upd_pipe _ _) _) _ _ => eapply wp_bind_ok; [reflexivity|]
  | |- wp (bind (upd_log _) _) _ _ => eapply wp_bind_ok; [reflexivity|]
  | |- wp (bind (get_buf _) _) _ _ => eapply wp_bind_ok; [reflexivity|]
  | |- wp (bind (get_inode _) _) _ _ => eapply wp_bind_ok; [reflexivity|]
  | |- wp (bind (get_file _) _) _ _ => eapply wp_bind_ok; [reflexivity|]
  | |- wp (bind (get_proc _) _) _ _ => eapply wp_bind_ok; [reflexivity|]
  | |- wp (bind (get_pipe _) _) _ _ => eapply wp_bind_ok; [reflexivity|]
  | |- wp (bind (when true _) _) _ _ => cbn [when]
  | |- wp (bind (when false _) _) _ _ => cbn [when]
  end; cbv beta.
Ltac wsteps := repeat wstep.
