(* ===== verification/KString.v ===== *)
(** kernel/string.c.

    A [char] is unsigned on RISC-V, so a byte is a [Z] between 0 and 255.  The
    functions that only read through a pointer take the pointer as the function
    that gives the byte at each offset from it ([at_mem m a] for an address,
    [at_arr l] for an array); the ones that write through a pointer either
    change a memory, or, where all they do is store consecutive bytes, give the
    bytes they store. *)
From S2P Require Import Prelude CInt.

(** The bytes of a string literal, without its NUL. *)
Fixpoint bstr (s : string) : list Z :=
  match s with
  | EmptyString => []
  | String a s' => Z.of_N (Ascii.N_of_ascii a) :: bstr s'
  end.

Definition at_mem (m : mem) (a : Z) : Z -> Z := fun i => ld8 m (a + i).
Definition at_arr (l : list Z) : Z -> Z := fun i => l.[i].

(** * The code *)

Fixpoint memset_loop (n : nat) (m : mem) (cdst c : Z) : mem :=
  match n with
  | O => m
  | S n' => memset_loop n' (st8 m cdst (u8 c)) (cdst + 1) c
  end.

Definition memset (m : mem) (dst c n : Z) : mem := memset_loop (Z.to_nat n) m dst c.

Fixpoint memcmp_loop (n : nat) (s1 s2 : Z -> Z) (i : Z) : Z :=
  match n with
  | O => 0
  | S n' => if negb (s1 i =? s2 i) then s1 i - s2 i else memcmp_loop n' s1 s2 (i + 1)
  end.

Definition memcmp (s1 s2 : Z -> Z) (n : Z) : Z := memcmp_loop (Z.to_nat n) s1 s2 0.

(** [while(n-- > 0) *d++ = *s++] *)
Fixpoint copy_up (n : nat) (m : mem) (d s : Z) : mem :=
  match n with
  | O => m
  | S n' => copy_up n' (st8 m d (ld8 m s)) (d + 1) (s + 1)
  end.

(** [while(n-- > 0) *--d = *--s] *)
Fixpoint copy_down (n : nat) (m : mem) (d s : Z) : mem :=
  match n with
  | O => m
  | S n' => copy_down n' (st8 m (d - 1) (ld8 m (s - 1))) (d - 1) (s - 1)
  end.

Definition memmove (m : mem) (dst src n : Z) : mem :=
  if n =? 0 then m
  else if (src <? dst) && (dst <? src + n)
  then copy_down (Z.to_nat n) m (dst + n) (src + n)
  else copy_up (Z.to_nat n) m dst src.

Definition memcpy (m : mem) (dst src n : Z) : mem := memmove m dst src n.

Fixpoint strncmp_loop (n : nat) (p q : Z -> Z) (i : Z) : Z :=
  match n with
  | O => 0
  | S n' => if negb (p i =? 0) && (p i =? q i)
            then strncmp_loop n' p q (i + 1)
            else u8 (p i) - u8 (q i)
  end.

Definition strncmp (p q : Z -> Z) (n : Z) : Z := strncmp_loop (Z.to_nat n) p q 0.

(** The bytes stored at s, s+1, ...: [strncpy_copy] is the first loop, which
    leaves the rest of the count to the second one. *)
Fixpoint strncpy_copy (n : nat) (t : Z -> Z) (i : Z) : list Z :=
  match n with
  | O => []
  | S n' => t i :: (if negb (t i =? 0) then strncpy_copy n' t (i + 1) else replicate n' 0)
  end.

Definition strncpy (t : Z -> Z) (n : Z) : list Z := strncpy_copy (Z.to_nat n) t 0.

(** The bytes stored at s, s+1, ...: the loop runs while [--n > 0] and stops
    after storing a NUL; the store after the loop follows. *)
Fixpoint safestrcpy_loop (n : nat) (t : Z -> Z) (i : Z) : list Z :=
  match n with
  | O => [0]
  | S n' => t i :: (if negb (t i =? 0) then safestrcpy_loop n' t (i + 1) else [0])
  end.

Definition safestrcpy (t : Z -> Z) (n : Z) : list Z :=
  if n <=? 0 then [] else safestrcpy_loop (Z.to_nat (n - 1)) t 0.

(** [for(n = 0; s[n]; n++)]; [None] when none of the first [fuel] bytes is NUL. *)
Fixpoint strlen_loop (fuel : nat) (s : Z -> Z) (n : Z) : option Z :=
  match fuel with
  | O => None
  | S fuel' => if s n =? 0 then Some n else strlen_loop fuel' s (n + 1)
  end.

(** Every string whose length the kernel takes lies in a buffer of at most a
    page (fetchstr() is called with MAXPATH or PGSIZE). *)
Definition strlen (s : Z -> Z) : option Z := strlen_loop 4096 s 0.

#[global] Arguments memset : simpl never.
#[global] Arguments memmove : simpl never.
#[global] Arguments strncmp : simpl never.
#[global] Arguments strncpy : simpl never.
#[global] Arguments safestrcpy : simpl never.

(** * memset and memmove *)

Lemma memset_stbytes m dst c n :
  memset m dst c n = stbytes m dst (replicate (Z.to_nat n) (u8 c)).
Proof.
  unfold memset. generalize (Z.to_nat n) as k. intros k; revert m dst.
  induction k; intros m dst; simpl; auto.
Qed.

Lemma ld8_copy_up_out n m d s x :
  (x < d \/ d + Z.of_nat n <= x) -> ld8 (copy_up n m d s) x = ld8 m x.
Proof.
  revert m d s; induction n; intros m d s H; cbn [copy_up]; [done|].
  rewrite IHn by lia. apply ld8_st8_ne; lia.
Qed.

Lemma stbytes_insert_out m a bs x v :
  (x < a \/ a + Z.of_nat (length bs) <= x) ->
  st8 (stbytes m a bs) x v = stbytes (st8 m x v) a bs.
Proof.
  revert m a; induction bs as [|b bs IH]; intros m a H; cbn [stbytes length] in *; [done|].
  rewrite IH by lia. f_equal. unfold st8. apply insert_insert_ne. lia.
Qed.

(** Copying upwards is right when the destination does not start inside the source. *)
Lemma copy_up_spec n m d s :
  (d <= s \/ s + Z.of_nat n <= d) -> copy_up n m d s = stbytes m d (ldbytes m s n).
Proof.
  revert m d s; induction n; intros m d s H; cbn [copy_up ldbytes stbytes]; [done|].
  rewrite IHn by lia. f_equal. apply ldbytes_ext; intros x Hx. apply ld8_st8_ne; lia.
Qed.

(** Copying downwards is right when the source does not start inside the destination. *)
Lemma copy_down_spec n m d s :
  (s <= d \/ d + Z.of_nat n <= s) ->
  copy_down n m (d + Z.of_nat n) (s + Z.of_nat n) = stbytes m d (ldbytes m s n).
Proof.
  revert m d s; induction n; intros m d s H; cbn [copy_down]; [done|].
  replace (d + Z.of_nat (S n) - 1) with (d + Z.of_nat n) by lia.
  replace (s + Z.of_nat (S n) - 1) with (s + Z.of_nat n) by lia.
  rewrite IHn by lia.
  replace (S n) with (n + 1)%nat by lia.
  rewrite ldbytes_app, stbytes_app, length_ldbytes. cbn [ldbytes stbytes].
  rewrite stbytes_insert_out by (rewrite length_ldbytes; lia).
  f_equal. apply ldbytes_ext; intros x Hx. apply ld8_st8_ne; lia.
Qed.

Lemma memmove_stbytes m dst src n :
  0 <= n -> memmove m dst src n = stbytes m dst (ldbytes m src (Z.to_nat n)).
Proof.
  intros Hn. unfold memmove. case_if; [subst; done|].
  destruct ((src <? dst) && (dst <? src + n)) eqn:E; b2p.
  - rewrite <- (Z2Nat.id n Hn) at 2 3. apply copy_down_spec. lia.
  - apply copy_up_spec. rewrite Z2Nat.id by done.
    apply andb_false_iff in E as [?|?]; b2p; lia.
Qed.

(** * Strings *)

(** [cstr p s]: the bytes at [p] are the string [s] and its terminating NUL. *)
Definition cstr (p : Z -> Z) (s : list Z) : Prop :=
  (forall i, 0 <= i < Z.of_nat (length s) -> p i = s.[i] /\ p i <> 0) /\
  p (Z.of_nat (length s)) = 0.

Lemma strlen_loop_spec s (p : Z -> Z) (fuel : nat) j :
  cstr p s -> 0 <= j <= Z.of_nat (length s) ->
  Z.of_nat (length s) < j + Z.of_nat fuel ->
  strlen_loop fuel p j = Some (Z.of_nat (length s)).
Proof.
  intros [Hin Hend]. revert j; induction fuel; intros j Hj Hf; [lia|]. cbn [strlen_loop].
  destruct (decide (j = Z.of_nat (length s))) as [->|Hne].
  - by rewrite Hend.
  - destruct (Hin j ltac:(lia)) as [_ Hnz]. apply Z.eqb_neq in Hnz. rewrite Hnz.
    apply IHfuel; lia.
Qed.

#[global] Opaque memset memmove.
