(* ===== verification/Riscv.v ===== *)
(** kernel/riscv.h and kernel/memlayout.h: page-table arithmetic and the
    memory map. *)
From S2P Require Import Prelude CInt.

(** * kernel/riscv.h *)

Definition PGSIZE : Z := 4096.
Definition PGSHIFT : Z := 12.

Definition PGROUNDUP (sz : Z) : Z := Z.land (u64 (sz + PGSIZE - 1)) (Z.lnot (PGSIZE - 1)).
Definition PGROUNDDOWN (a : Z) : Z := Z.land a (Z.lnot (PGSIZE - 1)).

Definition PTE_V : Z := Z.shiftl 1 0.
Definition PTE_R : Z := Z.shiftl 1 1.
Definition PTE_W : Z := Z.shiftl 1 2.
Definition PTE_X : Z := Z.shiftl 1 3.
Definition PTE_U : Z := Z.shiftl 1 4.

Definition PA2PTE (pa : Z) : Z := u64 (Z.shiftl (Z.shiftr pa 12) 10).
Definition PTE2PA (pte : Z) : Z := u64 (Z.shiftl (Z.shiftr pte 10) 12).
Definition PTE_FLAGS (pte : Z) : Z := Z.land pte 0x3FF.

Definition PXMASK : Z := 0x1FF.
Definition PXSHIFT (level : Z) : Z := PGSHIFT + 9 * level.
Definition PX (level va : Z) : Z := Z.land (Z.shiftr va (PXSHIFT level)) PXMASK.

Definition MAXVA : Z := Z.shiftl 1 (9 + 9 + 9 + 12 - 1).

Definition SATP_SV39 : Z := Z.shiftl 8 60.
Definition MAKE_SATP (pagetable : Z) : Z := Z.lor SATP_SV39 (Z.shiftr pagetable 12).

Definition SSTATUS_SPP : Z := Z.shiftl 1 8.
Definition SSTATUS_SPIE : Z := Z.shiftl 1 5.
Definition SSTATUS_SIE : Z := Z.shiftl 1 1.

(** * kernel/memlayout.h *)

Definition UART0 : Z := 0x10000000.
Definition UART0_IRQ : Z := 10.
Definition VIRTIO0 : Z := 0x10001000.
Definition VIRTIO0_IRQ : Z := 1.
Definition PLIC : Z := 0x0c000000.
Definition KERNBASE : Z := 0x80000000.
Definition PHYSTOP : Z := KERNBASE + 128 * 1024 * 1024.
Definition TRAMPOLINE : Z := MAXVA - PGSIZE.
Definition KSTACK (p : Z) : Z := TRAMPOLINE - (p + 1) * 2 * PGSIZE.
Definition TRAPFRAME : Z := TRAMPOLINE - PGSIZE.

(** * Arithmetic *)

Lemma land_lnot_pgmask a : Z.land a (Z.lnot (PGSIZE - 1)) = a / PGSIZE * PGSIZE.
Proof.
  change (PGSIZE - 1) with (Z.ones 12). change PGSIZE with (2 ^ 12).
  rewrite <- Z.ldiff_land, Z.ldiff_ones_r, Z.shiftl_mul_pow2, Z.shiftr_div_pow2 by lia. done.
Qed.

Lemma PGROUNDDOWN_div a : PGROUNDDOWN a = a / PGSIZE * PGSIZE.
Proof. apply land_lnot_pgmask. Qed.

Lemma PGROUNDUP_div sz :
  0 <= sz -> sz + PGSIZE - 1 < 2 ^ 64 -> PGROUNDUP sz = (sz + PGSIZE - 1) / PGSIZE * PGSIZE.
Proof.
  intros. unfold PGROUNDUP. rewrite land_lnot_pgmask, u64_small; [done|unfold PGSIZE in *; lia].
Qed.

Lemma PGROUNDDOWN_aligned a : a mod PGSIZE = 0 -> PGROUNDDOWN a = a.
Proof. rewrite PGROUNDDOWN_div. unfold PGSIZE. intros; zdm. Qed.

Lemma PGROUNDDOWN_bounds a : PGROUNDDOWN a <= a < PGROUNDDOWN a + PGSIZE.
Proof. rewrite PGROUNDDOWN_div. unfold PGSIZE. zdm. Qed.

Lemma PGROUNDDOWN_mod a : PGROUNDDOWN a mod PGSIZE = 0.
Proof. rewrite PGROUNDDOWN_div. unfold PGSIZE. zdm. Qed.

Lemma PX_div level va :
  0 <= level -> PX level va = (va / 2 ^ (12 + 9 * level)) mod 512.
Proof.
  intros. unfold PX, PXSHIFT, PGSHIFT, PXMASK.
  change 0x1FF with (Z.ones 9).
  rewrite Z.land_ones, Z.shiftr_div_pow2 by lia. done.
Qed.

Lemma PX_range level va : 0 <= level -> 0 <= PX level va < 512.
Proof. intros. rewrite PX_div by done. apply Z.mod_pos_bound; lia. Qed.

(** A page number and flags survive the packing into a PTE. *)
Lemma PTE2PA_PA2PTE pa flags :
  0 <= pa < 2 ^ 56 -> pa mod PGSIZE = 0 -> 0 <= flags < 1024 ->
  PTE2PA (Z.lor (PA2PTE pa) flags) = pa.
Proof.
  intros Hpa Hal Hf. unfold PGSIZE in Hal. unfold PTE2PA, PA2PTE.
  rewrite (u64_small (Z.shiftl (Z.shiftr pa 12) 10)).
  2:{ rewrite Z.shiftl_mul_pow2, Z.shiftr_div_pow2 by lia. zdm. }
  rewrite Z.shiftr_lor, Z.shiftr_shiftl_l by lia.
  replace (Z.shiftr flags 10) with 0 by (rewrite Z.shiftr_div_pow2 by lia; zdm).
  rewrite Z.lor_0_r, Z.shiftl_0_r, Z.shiftl_mul_pow2, Z.shiftr_div_pow2 by lia.
  rewrite u64_small; zdm.
Qed.

Lemma PA2PTE_mul pa : 0 <= pa < 2 ^ 56 -> PA2PTE pa = pa / 4096 * 1024.
Proof.
  intros. unfold PA2PTE. rewrite Z.shiftl_mul_pow2, Z.shiftr_div_pow2 by lia.
  rewrite u64_small; zdm.
Qed.

Lemma PTE_FLAGS_PA2PTE pa flags :
  0 <= pa < 2 ^ 56 -> 0 <= flags < 1024 -> PTE_FLAGS (Z.lor (PA2PTE pa) flags) = flags.
Proof.
  intros Hpa Hf. unfold PTE_FLAGS. change 0x3FF with (Z.ones 10).
  rewrite Z.land_lor_distr_l, !Z.land_ones by lia.
  rewrite PA2PTE_mul by done.
  replace (pa / 4096 * 1024) with (pa / 4096 * 2 ^ 10) by lia.
  rewrite Z.mod_mul, Z.lor_0_l by lia. apply Z.mod_small; lia.
Qed.

(** Or-ing flags into the zero low bits is adding them. *)
Lemma lor_low_add x n f : 0 <= n -> 0 <= f < 2 ^ n -> Z.lor (x * 2 ^ n) f = x * 2 ^ n + f.
Proof.
  intros Hn Hf. symmetry. rewrite <- Z.shiftl_mul_pow2 by done.
  rewrite Z.add_nocarry_lor; [done|].
  apply Z.bits_inj'. intros i Hi. rewrite Z.land_spec, Z.bits_0.
  destruct (decide (i < n)).
  - rewrite Z.shiftl_spec_low by done. done.
  - rewrite <- (Z.mod_small f (2 ^ n)) by done.
    rewrite Z.mod_pow2_bits_high by lia. apply andb_false_r.
Qed.

(** Flags are closed under or. *)
Lemma lor_flags x y : 0 <= x < 1024 -> 0 <= y < 1024 -> 0 <= Z.lor x y < 1024.
Proof.
  intros Hx Hy. assert (0 <= Z.lor x y) as H by (apply Z.lor_nonneg; lia). split; [done|].
  destruct (decide (Z.lor x y = 0)) as [->|Hn]; [done|].
  change 1024 with (2 ^ 10) in *. apply Z.log2_lt_pow2; [lia|].
  rewrite Z.log2_lor by lia. apply Z.max_lub_lt.
  - destruct (decide (x = 0)) as [->|]; [done|]. apply Z.log2_lt_pow2; lia.
  - destruct (decide (y = 0)) as [->|]; [done|]. apply Z.log2_lt_pow2; lia.
Qed.

Lemma PTE_add pa flags :
  0 <= pa < 2 ^ 56 -> 0 <= flags < 1024 ->
  Z.lor (PA2PTE pa) flags = pa / 4096 * 1024 + flags.
Proof.
  intros. rewrite PA2PTE_mul by done. change 1024 with (2 ^ 10). apply lor_low_add; lia.
Qed.

Lemma PTE_range pa flags :
  0 <= pa < 2 ^ 56 -> 0 <= flags < 1024 -> 0 <= Z.lor (PA2PTE pa) flags < 2 ^ 64.
Proof. intros. rewrite PTE_add by done. zdm. Qed.

(** The indexes depend on the page only. *)
Lemma PX_page va va' :
  va / PGSIZE = va' / PGSIZE -> PX 0 va = PX 0 va' /\ PX 1 va = PX 1 va' /\ PX 2 va = PX 2 va'.
Proof.
  intros H. rewrite !PX_div by lia.
  change (2 ^ (12 + 9 * 2)) with (PGSIZE * (512 * 512)).
  change (2 ^ (12 + 9 * 1)) with (PGSIZE * 512). change (2 ^ (12 + 9 * 0)) with PGSIZE.
  rewrite <- !Z.div_div by (unfold PGSIZE; lia). by rewrite H.
Qed.

(** The three indexes and the offset determine a virtual address below MAXVA. *)
Lemma PX_inj va va' :
  0 <= va < MAXVA -> 0 <= va' < MAXVA ->
  PX 2 va = PX 2 va' -> PX 1 va = PX 1 va' -> PX 0 va = PX 0 va' ->
  va / PGSIZE = va' / PGSIZE.
Proof.
  intros Hva Hva'. rewrite !PX_div by lia. unfold PGSIZE.
  change MAXVA with (2 ^ 38) in *.
  change (2 ^ (12 + 9 * 2)) with (4096 * 512 * 512).
  change (2 ^ (12 + 9 * 1)) with (4096 * 512).
  change (2 ^ (12 + 9 * 0)) with 4096.
  intros H2 H1 H0. zdm.
Qed.
