(* ===== verification/Spinlock.v ===== *)
(** kernel/spinlock.c on a machine with any number of CPUs, one memory access
    of acquire() and release() at a time.

    The rest of the kernel model runs one thread and keeps the set of locks it
    holds ([k_held]).  This file justifies that: it gives the interleavings of
    spinlock.c, shows that a lock has one holder, and that each acquire() and
    release() takes effect at a single step, as the atomic lock does. *)
From S2P Require Import Prelude CInt KState Riscv.

(** * Data *)

(** kernel/spinlock.h: struct spinlock; [lk_cpu] is the index into cpus[], or
    [None] for the null pointer. *)
Record spinlock := mk_spinlock {
  lk_locked : Z;
  lk_cpu : option nat;
}.

(** The part of struct cpu that spinlock.c uses, with the hart's sstatus.SIE.
    [noff] is a C int; it counts nested critical sections of one CPU, and is kept
    as an integer without a bound. *)
Record cpu := mk_cpu {
  noff : Z;
  intena : bool;
  sie : bool;
}.

#[export] Instance spinlock_inhabited : Inhabited spinlock := populate (mk_spinlock 0 None).
#[export] Instance cpu_inhabited : Inhabited cpu := populate (mk_cpu 0 false false).

Definition initlock_c : spinlock := mk_spinlock 0 None.

(** * Interrupt nesting *)

Definition push_off (c : cpu) : cpu :=
  let old := sie c in
  mk_cpu (noff c + 1) (if noff c =? 0 then old else intena c) false.

(** [inl] is a panic. *)
Definition pop_off (c : cpu) : string + cpu :=
  if sie c then inl "pop_off - interruptible"%string
  else if noff c <? 1 then inl "pop_off"%string
  else
    let n := noff c - 1 in
    inr (mk_cpu n (intena c) ((n =? 0) && intena c)).

(** holding(), where nothing changes the lock between its two loads. *)
Definition holding_c (lk : spinlock) (me : nat) : bool :=
  negb (lk_locked lk =? 0) && bool_decide (lk_cpu lk = Some me).

(** * Interleavings *)

(** Where a CPU is: outside of spinlock.c, or before the next memory access of
    acquire(lk) or release(lk). *)
Inductive pc :=
| Idle
| Acq_check (lk : nat)   (* if(holding(lk)): lk->locked *)
| Acq_holder (lk : nat)  (* if(holding(lk)): lk->cpu == mycpu() *)
| Acq_swap (lk : nat)    (* __sync_lock_test_and_set(&lk->locked, 1) *)
| Acq_cpu (lk : nat)     (* lk->cpu = mycpu() *)
| Rel_check (lk : nat)   (* if(!holding(lk)): lk->locked *)
| Rel_holder (lk : nat)  (* if(!holding(lk)): lk->cpu == mycpu() *)
| Rel_cpu (lk : nat)     (* lk->cpu = 0 *)
| Rel_unlock (lk : nat)  (* __sync_lock_release(&lk->locked) *)
| Rel_pop                (* pop_off() *)
| Dead (msg : string).   (* panic() *)

(** [m_pushes i] counts the push_off() calls of CPU [i] outside of spinlock.c
    (myproc(), uartputc_sync()) that it has not matched yet. *)
Record mach := mk_mach {
  m_locks : nat -> spinlock;
  m_cpus : nat -> cpu;
  m_pcs : nat -> pc;
  m_pushes : nat -> nat;
}.

Definition upd {A} (f : nat -> A) (i : nat) (v : A) : nat -> A :=
  fun j => if decide (j = i) then v else f j.

Definition set_lock (l : nat) (v : spinlock) (m : mach) : mach :=
  mk_mach (upd (m_locks m) l v) (m_cpus m) (m_pcs m) (m_pushes m).
Definition set_cpu (i : nat) (v : cpu) (m : mach) : mach :=
  mk_mach (m_locks m) (upd (m_cpus m) i v) (m_pcs m) (m_pushes m).
Definition goto (i : nat) (p : pc) (m : mach) : mach :=
  mk_mach (m_locks m) (m_cpus m) (upd (m_pcs m) i p) (m_pushes m).

Definition set_pushes (i : nat) (n : nat) (m : mach) : mach :=
  mk_mach (m_locks m) (m_cpus m) (m_pcs m) (upd (m_pushes m) i n).

(** The next access of CPU [i] in acquire() or release(). *)
Definition lock_step (i : nat) (m : mach) : mach :=
  match m_pcs m i with
  | Idle | Dead _ => m
  | Acq_check l =>
      if lk_locked (m_locks m l) =? 0 then goto i (Acq_swap l) m else goto i (Acq_holder l) m
  | Acq_holder l =>
      if decide (lk_cpu (m_locks m l) = Some i) then goto i (Dead "acquire") m
      else goto i (Acq_swap l) m
  | Acq_swap l =>
      let lk := m_locks m l in
      let m' := set_lock l (mk_spinlock 1 (lk_cpu lk)) m in
      if lk_locked lk =? 0 then goto i (Acq_cpu l) m' else m'
  | Acq_cpu l =>
      goto i Idle (set_lock l (mk_spinlock (lk_locked (m_locks m l)) (Some i)) m)
  | Rel_check l =>
      if lk_locked (m_locks m l) =? 0 then goto i (Dead "release") m else goto i (Rel_holder l) m
  | Rel_holder l =>
      if decide (lk_cpu (m_locks m l) = Some i) then goto i (Rel_cpu l) m
      else goto i (Dead "release") m
  | Rel_cpu l =>
      goto i (Rel_unlock l) (set_lock l (mk_spinlock (lk_locked (m_locks m l)) None) m)
  | Rel_unlock l =>
      goto i Rel_pop (set_lock l (mk_spinlock 0 (lk_cpu (m_locks m l))) m)
  | Rel_pop =>
      match pop_off (m_cpus m i) with
      | inl msg => goto i (Dead msg) m
      | inr c => goto i Idle (set_cpu i c m)
      end
  end.

(** acquire() begins with push_off(), release() with the test of holding(). *)
Definition acquire_call (i l : nat) (m : mach) : mach :=
  goto i (Acq_check l) (set_cpu i (push_off (m_cpus m i)) m).

Definition release_call (i l : nat) (m : mach) : mach := goto i (Rel_check l) m.

Definition pop_off_call (i : nat) (m : mach) : mach :=
  match pop_off (m_cpus m i) with
  | inl msg => goto i (Dead msg) m
  | inr c => set_cpu i c m
  end.

(** A CPU that is not in spinlock.c may call it, and may turn interrupts on and
    off; intr_on() is only called by a CPU that is not inside push_off() (the
    scheduler, usertrap(), usertrapret()'s caller). *)
Inductive step : mach -> mach -> Prop :=
| step_lock i m : step m (lock_step i m)
| step_acquire i l m : m_pcs m i = Idle -> step m (acquire_call i l m)
| step_release i l m : m_pcs m i = Idle -> step m (release_call i l m)
| step_push i m : m_pcs m i = Idle ->
    step m (set_pushes i (S (m_pushes m i)) (set_cpu i (push_off (m_cpus m i)) m))
| step_pop i n m : m_pcs m i = Idle -> m_pushes m i = S n ->
    step m (set_pushes i n (pop_off_call i m))
| step_intr i b m : m_pcs m i = Idle -> noff (m_cpus m i) = 0 ->
    step m (set_cpu i (mk_cpu 0 (intena (m_cpus m i)) b) m).

Definition boot : mach :=
  mk_mach (fun _ => initlock_c) (fun _ => mk_cpu 0 false false) (fun _ => Idle) (fun _ => 0%nat).

Inductive reachable : mach -> Prop :=
| reach_boot : reachable boot
| reach_step m m' : reachable m -> step m m' -> reachable m'.

(** * The invariant *)

(** CPU [i] has lock [l]: from the swap that took it to the store that frees it. *)
Definition owns (m : mach) (i l : nat) : Prop :=
  lk_cpu (m_locks m l) = Some i \/ m_pcs m i = Acq_cpu l \/ m_pcs m i = Rel_unlock l.

(** push_off() calls of acquire() and release() without a lock to show for. *)
Definition pending (p : pc) : Z :=
  match p with
  | Acq_check _ | Acq_holder _ | Acq_swap _ | Acq_cpu _ | Rel_unlock _ | Rel_pop => 1
  | Idle | Rel_check _ | Rel_holder _ | Rel_cpu _ | Dead _ => 0
  end.

Record lock_ok (m : mach) (l : nat) : Prop := mk_lock_ok {
  lo_bit : lk_locked (m_locks m l) = 0 \/ lk_locked (m_locks m l) = 1;
  lo_taken : forall i, owns m i l -> lk_locked (m_locks m l) = 1;
  lo_owner : lk_locked (m_locks m l) = 1 -> exists i, owns m i l;
  lo_uniq : forall i j, owns m i l -> owns m j l -> i = j;
  lo_pc : forall i, m_pcs m i = Acq_swap l \/ m_pcs m i = Acq_cpu l \/ m_pcs m i = Rel_unlock l ->
    lk_cpu (m_locks m l) <> Some i;
  lo_rel : forall i, m_pcs m i = Rel_cpu l -> lk_cpu (m_locks m l) = Some i;
}.

Record cpu_ok (m : mach) (i : nat) : Prop := mk_cpu_ok {
  co_noff : (forall msg, m_pcs m i <> Dead msg) ->
    exists S : gset nat, (forall l, l ∈ S <-> lk_cpu (m_locks m l) = Some i) /\
      noff (m_cpus m i) = Z.of_nat (size S) + pending (m_pcs m i) + Z.of_nat (m_pushes m i);
  co_sie : 0 < noff (m_cpus m i) -> sie (m_cpus m i) = false;
}.

Definition inv (m : mach) : Prop := (forall l, lock_ok m l) /\ (forall i, cpu_ok m i).

Lemma upd_eq {A} (f : nat -> A) i v : upd f i v i = v.
Proof. unfold upd. by rewrite decide_True. Qed.

Lemma upd_ne {A} (f : nat -> A) i j v : j <> i -> upd f i v j = f j.
Proof. intros. unfold upd. by rewrite decide_False. Qed.

Lemma inv_boot : inv boot.
Proof.
  split.
  - intros l. split; unfold owns; cbn; try naive_solver lia.
  - intros i. split; cbn; [|lia]. intros _. exists ∅. split; [set_solver|]. by rewrite size_empty.
Qed.

Lemma push_off_ok c : 0 <= noff c -> noff (push_off c) = noff c + 1 /\ sie (push_off c) = false.
Proof. done. Qed.

(** In a CPU whose push_off() calls are not all matched, pop_off() matches one. *)
Lemma pop_off_ok c :
  0 < noff c -> (0 < noff c -> sie c = false) ->
  exists c', pop_off c = inr c' /\ noff c' = noff c - 1 /\ (0 < noff c' -> sie c' = false).
Proof.
  intros H Hs. unfold pop_off. rewrite Hs by done. replace (noff c <? 1) with false by lia.
  eexists. split; [done|]. split; [done|]. cbn. intros. by replace (noff c - 1 =? 0) with false by lia.
Qed.

(** The lock a CPU is in the middle of taking or freeing. *)
Definition pc_lock (p : pc) : option nat :=
  match p with
  | Acq_swap l | Acq_cpu l | Rel_cpu l | Rel_unlock l => Some l
  | _ => None
  end.

(** A step of CPU [i] elsewhere leaves lock [l] as it is. *)
Lemma lock_ok_frame m m' i l :
  lock_ok m l -> m_locks m' l = m_locks m l -> (forall j, j <> i -> m_pcs m' j = m_pcs m j) ->
  pc_lock (m_pcs m i) <> Some l -> pc_lock (m_pcs m' i) <> Some l -> lock_ok m' l.
Proof.
  intros [H1 H2 H3 H4 H5 H6] El Ep Hi Hi'.
  assert (forall j p, pc_lock p = Some l -> m_pcs m' j = p <-> m_pcs m j = p) as Hp.
  { intros j p E. destruct (decide (j = i)) as [->|Hne]; [|by rewrite Ep].
    split; intros; subst; done. }
  assert (forall j, owns m' j l <-> owns m j l) as Ho.
  { intros j. unfold owns. rewrite El. rewrite !Hp by done. done. }
  split; rewrite ?El; try done.
  - intros j. rewrite Ho. apply H2.
  - intros Hl. destruct (H3 Hl) as [j Hj]. exists j. by rewrite Ho.
  - intros j j'. rewrite !Ho. apply H4.
  - intros j. rewrite !Hp by done. apply H5.
  - intros j. rewrite !Hp by done. apply H6.
Qed.

Lemma cpu_ok_frame m m' j :
  cpu_ok m j -> m_pcs m' j = m_pcs m j -> m_cpus m' j = m_cpus m j -> m_pushes m' j = m_pushes m j ->
  (forall l, lk_cpu (m_locks m' l) = Some j <-> lk_cpu (m_locks m l) = Some j) -> cpu_ok m' j.
Proof.
  intros [H1 H2] Ep Ec Eu El. split; rewrite ?Ep, ?Ec, ?Eu; [|done].
  intros Hd. destruct (H1 Hd) as (S & HS & Hn). exists S. split; [|done].
  intros l. by rewrite HS, El.
Qed.

(** CPU [i] changes its pc and, for the lock it is at, the lock word. *)
Lemma inv_lock_step m i l lk p' :
  inv m -> lock_ok (goto i p' (set_lock l lk m)) l ->
  (pc_lock (m_pcs m i) = Some l \/ pc_lock (m_pcs m i) = None) ->
  (pc_lock p' = Some l \/ pc_lock p' = None) ->
  (forall j, j <> i -> lk_cpu lk = Some j <-> lk_cpu (m_locks m l) = Some j) ->
  cpu_ok (goto i p' (set_lock l lk m)) i -> inv (goto i p' (set_lock l lk m)).
Proof.
  intros [HL HC] Hl Hp Hp' Hj Hi. split.
  - intros l'. destruct (decide (l' = l)) as [->|Hne]; [done|].
    apply (lock_ok_frame m _ i); cbn; [done| | | |].
    + by rewrite upd_ne.
    + intros j Hji. by rewrite upd_ne.
    + destruct Hp as [-> | ->]; congruence.
    + rewrite upd_eq. destruct Hp' as [-> | ->]; congruence.
  - intros j. destruct (decide (j = i)) as [->|Hne]; [done|].
    apply (cpu_ok_frame m); cbn; rewrite ?upd_ne by done; try done.
    intros l'. destruct (decide (l' = l)) as [->|Hl']; [rewrite upd_eq; auto|by rewrite upd_ne].
Qed.

Ltac upd_solver :=
  unfold owns in *; cbn in *; unfold upd in *; repeat case_decide; subst; cbn in *; naive_solver.

Lemma lock_ok_swap m i l :
  inv m -> m_pcs m i = Acq_swap l -> lk_locked (m_locks m l) = 0 ->
  lock_ok (goto i (Acq_cpu l) (set_lock l (mk_spinlock 1 (lk_cpu (m_locks m l))) m)) l.
Proof.
  intros [HL _] Hp H0. destruct (HL l) as [H1 H2 H3 H4 H5 H6].
  assert (forall j, ~ owns m j l) as Hno by (intros j Hj; apply H2 in Hj; lia).
  assert (forall j, owns (goto i (Acq_cpu l) (set_lock l (mk_spinlock 1 (lk_cpu (m_locks m l))) m)) j l -> j = i) as Ho.
  { intros j. specialize (Hno j). upd_solver. }
  split.
  - right. cbn. by rewrite upd_eq.
  - intros. cbn. by rewrite upd_eq.
  - intros _. exists i. right. left. cbn. apply upd_eq.
  - intros j j' Hj Hj'. by rewrite (Ho _ Hj), (Ho _ Hj').
  - intros j _. cbn. rewrite upd_eq. cbn. intros E. by apply (Hno j); left.
  - intros j. cbn. unfold upd. case_decide; [done|]. rewrite decide_True by done. apply H6.
Qed.

Lemma lock_ok_cpu m i l :
  inv m -> m_pcs m i = Acq_cpu l ->
  lock_ok (goto i Idle (set_lock l (mk_spinlock (lk_locked (m_locks m l)) (Some i)) m)) l.
Proof.
  intros [HL _] Hp. destruct (HL l) as [H1 H2 H3 H4 H5 H6].
  assert (owns m i l) as Hi by (right; by left).
  set (m' := goto _ _ _).
  assert (forall j, owns m' j l <-> j = i) as Ho.
  { intros j. split.
    - intros Hj. apply H4; [|done]. unfold m' in Hj. upd_solver.
    - intros ->. left. cbn. by rewrite upd_eq. }
  assert (lk_locked (m_locks m' l) = 1) as E by (cbn; rewrite upd_eq; by apply (H2 i)).
  split; [by right|done|intros _; exists i; by apply Ho|intros j j'; rewrite !Ho; congruence| |].
  - intros j Hj. cbn. rewrite upd_eq. cbn. intros [= ->]. cbn in Hj. rewrite upd_eq in Hj. naive_solver.
  - intros j Hj. cbn in *. rewrite upd_eq. unfold upd in Hj. case_decide; [done|].
    specialize (H6 j Hj). cbn. f_equal. apply H4; [done|by left].
Qed.

Lemma lock_ok_rel m i l :
  inv m -> m_pcs m i = Rel_cpu l ->
  lock_ok (goto i (Rel_unlock l) (set_lock l (mk_spinlock (lk_locked (m_locks m l)) None) m)) l.
Proof.
  intros [HL _] Hp. destruct (HL l) as [H1 H2 H3 H4 H5 H6].
  assert (owns m i l) as Hi by (left; by apply H6).
  set (m' := goto _ _ _).
  assert (forall j, owns m' j l <-> j = i) as Ho.
  { intros j. split.
    - intros Hj. apply H4; [|done]. unfold m' in Hj. upd_solver.
    - intros ->. right. right. cbn. apply upd_eq. }
  assert (lk_locked (m_locks m' l) = 1) as E by (cbn; rewrite upd_eq; by apply (H2 i)).
  split; [by right|done|intros _; exists i; by apply Ho|intros j j'; rewrite !Ho; congruence| |].
  - intros j _. cbn. by rewrite upd_eq.
  - intros j Hj. cbn in Hj. unfold upd in Hj. case_decide; [done|].
    specialize (H6 j Hj). assert (j = i); [|done]. apply H4; [by left|done].
Qed.

Lemma lock_ok_unlock m i l :
  inv m -> m_pcs m i = Rel_unlock l ->
  lock_ok (goto i Rel_pop (set_lock l (mk_spinlock 0 (lk_cpu (m_locks m l))) m)) l.
Proof.
  intros [HL _] Hp. destruct (HL l) as [H1 H2 H3 H4 H5 H6].
  assert (owns m i l) as Hi by (right; by right).
  assert (lk_cpu (m_locks m l) = None) as Hn.
  { destruct (lk_cpu (m_locks m l)) as [j|] eqn:E; [|done].
    assert (j = i) as -> by (apply H4; [by left|done]). by destruct (H5 i ltac:(auto)). }
  set (m' := goto _ _ _).
  assert (forall j, ~ owns m' j l) as Ho.
  { intros j Hj. assert (j = i) as -> by (apply H4; [unfold m' in Hj; upd_solver|done]).
    unfold m', owns in Hj. cbn in Hj. rewrite !upd_eq in Hj. cbn in Hj. naive_solver. }
  split; try (intros; exfalso; eapply Ho; done).
  - left. cbn. by rewrite upd_eq.
  - cbn. rewrite upd_eq. done.
  - intros j _. cbn. rewrite upd_eq. cbn. congruence.
  - intros j Hj. cbn in Hj. unfold upd in Hj. case_decide; [done|].
    specialize (H6 j Hj). congruence.
Qed.

(** CPU [i], at no lock, changes its own state only. *)
Lemma inv_local m m' i :
  inv m -> m_locks m' = m_locks m ->
  (forall j, j <> i -> m_pcs m' j = m_pcs m j /\ m_cpus m' j = m_cpus m j /\ m_pushes m' j = m_pushes m j) ->
  pc_lock (m_pcs m i) = None -> (forall l, pc_lock (m_pcs m' i) = Some l -> lock_ok m' l) ->
  cpu_ok m' i -> inv m'.
Proof.
  intros [HL HC] El Ej Hp Hp' Hi. split.
  - intros l. destruct (decide (pc_lock (m_pcs m' i) = Some l)) as [E|E]; [by apply Hp'|].
    apply (lock_ok_frame m _ i); [done|by rewrite El|intros j Hj; by apply Ej|by rewrite Hp|done].
  - intros j. destruct (decide (j = i)) as [->|Hne]; [done|].
    destruct (Ej j Hne) as (E1 & E2 & E3). apply (cpu_ok_frame m); try done. by rewrite El.
Qed.

(** A lock word that changes only for the CPU it is at: the holder's set of
    locks and its count of push_off() calls go together. *)
Lemma cpu_ok_taken m i l :
  inv m -> m_pcs m i = Acq_cpu l ->
  cpu_ok (goto i Idle (set_lock l (mk_spinlock (lk_locked (m_locks m l)) (Some i)) m)) i.
Proof.
  intros [HL HC] Hp. destruct (HC i) as [Hn Hs]. split; [|done]. intros _. rewrite Hp in Hn.
  destruct (Hn ltac:(done)) as (S & HS & En). exists ({[l]} ∪ S). cbn. rewrite upd_eq. cbn.
  assert (l ∉ S) as Hl by (rewrite HS; apply (HL l); auto). split.
  - intros l'. unfold upd. case_decide; subst; cbn; rewrite <- ?HS; set_solver.
  - rewrite En, size_union, size_singleton by set_solver. cbn. lia.
Qed.

Lemma cpu_ok_freed m i l :
  inv m -> m_pcs m i = Rel_cpu l ->
  cpu_ok (goto i (Rel_unlock l) (set_lock l (mk_spinlock (lk_locked (m_locks m l)) None) m)) i.
Proof.
  intros [HL HC] Hp. destruct (HC i) as [Hn Hs]. split; [|done]. intros _. rewrite Hp in Hn.
  destruct (Hn ltac:(done)) as (S & HS & En). exists (S ∖ {[l]}). cbn. rewrite upd_eq. cbn.
  assert (l ∈ S) as Hl by (rewrite HS; by apply (HL l)). split.
  - intros l'. unfold upd. case_decide; subst; cbn; rewrite <- ?HS; set_solver.
  - rewrite En, size_difference, size_singleton by set_solver. cbn.
    assert (size S <> 0%nat) by (intros E; apply size_empty_inv in E; set_solver). lia.
Qed.

(** ... and one that keeps its cpu field. *)
Lemma cpu_ok_word m i l v p' :
  inv m -> pending p' = pending (m_pcs m i) -> (forall msg, m_pcs m i <> Dead msg) ->
  cpu_ok (goto i p' (set_lock l (mk_spinlock v (lk_cpu (m_locks m l))) m)) i.
Proof.
  intros [_ HC] Hp Hd. destruct (HC i) as [Hn Hs]. split; [|done]. intros _.
  destruct (Hn Hd) as (S & HS & En). exists S. cbn. rewrite upd_eq, Hp. split; [|done].
  intros l'. unfold upd. case_decide; subst; cbn; apply HS.
Qed.

Lemma inv_dead m i msg : inv m -> pc_lock (m_pcs m i) = None -> inv (goto i (Dead msg) m).
Proof.
  intros I Hp. apply (inv_local m _ i); cbn; try done.
  - intros j Hj. by rewrite upd_ne.
  - rewrite upd_eq. done.
  - split; cbn; [|apply I]. intros H. specialize (H msg). by rewrite upd_eq in H.
Qed.

(** The test of holding(): CPU [i] at no lock moves on, to no lock, ... *)
Lemma inv_move m i p' :
  inv m -> pc_lock (m_pcs m i) = None -> pc_lock p' = None -> pending p' = pending (m_pcs m i) ->
  (forall msg, m_pcs m i <> Dead msg) -> inv (goto i p' m).
Proof.
  intros I Hp Hp' Hn Hd. apply (inv_local m _ i); cbn; try done.
  - intros j Hj. by rewrite upd_ne.
  - rewrite upd_eq, Hp'. done.
  - destruct I as [_ HC]. destruct (HC i) as [H1 H2]. split; cbn; [|done]. rewrite upd_eq, Hn. intros _. by apply H1.
Qed.

(** ... or to [p'] at lock [l], which asks for no change of owner. *)
Lemma inv_enter m i l p' :
  inv m -> pc_lock (m_pcs m i) = None -> pending p' = pending (m_pcs m i) -> (forall msg, m_pcs m i <> Dead msg) ->
  p' = Acq_swap l /\ lk_cpu (m_locks m l) <> Some i \/ p' = Rel_cpu l /\ lk_cpu (m_locks m l) = Some i ->
  inv (goto i p' m).
Proof.
  intros I Hp Hn Hd Hp'. pose proof I as [HL HC]. apply (inv_local m _ i); cbn; try done.
  - intros j Hj. by rewrite upd_ne.
  - rewrite upd_eq. intros l' El'. assert (l' = l) as -> by (destruct Hp' as [[-> _]|[-> _]]; cbn in El'; congruence).
    destruct (HL l) as [H1 H2 H3 H4 H5 H6]. assert (forall j, owns (goto i p' m) j l <-> owns m j l) as Ho.
    { intros j. unfold owns. cbn. destruct (decide (j = i)) as [->|Hne]; [rewrite upd_eq|by rewrite upd_ne].
      clear -Hp Hp'. destruct (m_pcs m i), Hp' as [[-> _]|[-> _]]; intuition discriminate. }
    split; cbn; try done.
    + intros j. rewrite Ho. apply H2.
    + intros Hl. destruct (H3 Hl) as [j Hj]. exists j. by apply Ho.
    + intros j j'. rewrite !Ho. apply H4.
    + intros j. unfold upd. case_decide; subst; [|auto]. destruct Hp' as [[-> H]|[-> H]]; [done|intuition discriminate].
    + intros j. unfold upd. case_decide; subst; [|auto]. destruct Hp' as [[-> H]|[-> H]]; [discriminate|done].
  - destruct (HC i) as [H1 H2]. split; cbn; [|done]. rewrite upd_eq, Hn. intros _. by apply H1.
Qed.

Lemma inv_pop m i :
  inv m -> m_pcs m i = Rel_pop ->
  exists c, pop_off (m_cpus m i) = inr c /\ inv (goto i Idle (set_cpu i c m)).
Proof.
  intros I Hp. pose proof I as [HL HC]. destruct (HC i) as [Hn Hs]. rewrite Hp in Hn.
  destruct (Hn ltac:(done)) as (S & HS & En). cbn in En.
  destruct (pop_off_ok (m_cpus m i)) as (c & Ec & Ecn & Ecs); [lia|done|].
  exists c. split; [done|]. apply (inv_local m _ i); cbn; try done.
  - intros j Hj. by rewrite !upd_ne.
  - by rewrite Hp.
  - by rewrite upd_eq.
  - split; cbn; rewrite !upd_eq; [|done]. intros _. exists S. split; [done|]. cbn. lia.
Qed.

(** A swap that finds the lock taken changes nothing. *)
Lemma inv_spin m i l :
  inv m -> m_pcs m i = Acq_swap l -> lk_locked (m_locks m l) <> 0 ->
  inv (set_lock l (mk_spinlock 1 (lk_cpu (m_locks m l))) m).
Proof.
  intros [HL HC] Hp H0. pose proof (HL l) as [H1 _ _ _ _ _].
  assert (forall l', m_locks (set_lock l (mk_spinlock 1 (lk_cpu (m_locks m l))) m) l' = m_locks m l') as E.
  { intros l'. cbn. unfold upd. case_decide; [subst|done]. destruct (m_locks m l); cbn in *.
    f_equal. lia. }
  split.
  - intros l'. destruct (HL l') as [A1 A2 A3 A4 A5 A6].
    split; unfold owns; rewrite ?E; cbn [m_pcs set_lock]; assumption.
  - intros j. apply (cpu_ok_frame m); try done. intros l'. by rewrite E.
Qed.

Lemma inv_lock_step_all m i : inv m -> inv (lock_step i m).
Proof.
  intros I. unfold lock_step. destruct (m_pcs m i) as [|l|l|l|l|l|l|l|l| |msg] eqn:Hp; try done.
  - destruct (lk_locked (m_locks m l) =? 0) eqn:E; b2p; [|by apply inv_move; rewrite ?Hp].
    apply (inv_enter _ _ l); rewrite ?Hp; try done. left. split; [done|]. intros Hc.
    assert (owns m i l) as Ho by (by left). apply (lo_taken _ _ (proj1 I l)) in Ho. lia.
  - case_decide; [by apply inv_dead; rewrite ?Hp|]. apply (inv_enter _ _ l); rewrite ?Hp; try done. by left.
  - destruct (lk_locked (m_locks m l) =? 0) eqn:E; b2p; [|by apply (inv_spin m i)].
    apply inv_lock_step; try done; [by apply lock_ok_swap|rewrite Hp; by left|by left|].
    apply cpu_ok_word; [done|by rewrite Hp|by rewrite Hp].
  - apply inv_lock_step; try done; [by apply lock_ok_cpu|rewrite Hp; by left|by right| |by apply cpu_ok_taken].
    intros j Hj. cbn. split; [congruence|]. intros E. destruct I as [HL _].
    assert (j = i); [|done]. apply (lo_uniq _ _ (HL l)); [by left|right; by left].
  - destruct (_ =? 0); [by apply inv_dead; rewrite ?Hp|by apply inv_move; rewrite ?Hp].
  - case_decide; [|by apply inv_dead; rewrite ?Hp]. apply (inv_enter _ _ l); rewrite ?Hp; try done. by right.
  - apply inv_lock_step; try done; [by apply lock_ok_rel|rewrite Hp; by left|by left| |by apply cpu_ok_freed].
    intros j Hj. cbn. split; [done|]. intros E. destruct I as [HL _].
    rewrite (lo_rel _ _ (HL l) i Hp) in E. congruence.
  - apply inv_lock_step; try done; [by apply lock_ok_unlock|rewrite Hp; by left|by right|].
    apply cpu_ok_word; [done|by rewrite Hp|by rewrite Hp].
  - destruct (inv_pop m i I Hp) as (c & -> & I'). done.
Qed.

(** push_off() and pop_off() outside of spinlock.c, and interrupts. *)
Lemma inv_client m m' i :
  inv m -> m_pcs m i = Idle -> m_locks m' = m_locks m -> m_pcs m' = m_pcs m ->
  (forall j, j <> i -> m_cpus m' j = m_cpus m j /\ m_pushes m' j = m_pushes m j) ->
  (0 < noff (m_cpus m' i) -> sie (m_cpus m' i) = false) ->
  noff (m_cpus m' i) - Z.of_nat (m_pushes m' i) = noff (m_cpus m i) - Z.of_nat (m_pushes m i) ->
  inv m'.
Proof.
  intros I Hp El Ep Ej Hs Hn. apply (inv_local m _ i); try done.
  - intros j Hj. rewrite Ep. split; [done|]. by apply Ej.
  - by rewrite Hp.
  - by rewrite Ep, Hp.
  - destruct I as [_ HC]. destruct (HC i) as [H1 H2]. split; [|done]. rewrite Ep, El.
    intros Hd. destruct (H1 Hd) as (S & HS & En). exists S. split; [done|]. lia.
Qed.

Lemma noff_pos m i : inv m -> m_pcs m i = Idle -> Z.of_nat (m_pushes m i) <= noff (m_cpus m i).
Proof.
  intros [_ HC] Hp. destruct (co_noff _ _ (HC i)) as (S & _ & ->); [by rewrite Hp|]. rewrite Hp. cbn. lia.
Qed.

Lemma inv_acquire_call m i l : inv m -> m_pcs m i = Idle -> inv (acquire_call i l m).
Proof.
  intros I Hp. apply (inv_local m _ i); cbn; try done.
  - intros j Hj. by rewrite !upd_ne.
  - by rewrite Hp.
  - by rewrite upd_eq.
  - destruct I as [_ HC]. destruct (HC i) as [H1 H2]. split; cbn; rewrite !upd_eq; [|done].
    intros _. destruct H1 as (S & HS & En); [by rewrite Hp|]. exists S. split; [done|].
    rewrite Hp in En. cbn in *. lia.
Qed.

Lemma inv_release_call m i l : inv m -> m_pcs m i = Idle -> inv (release_call i l m).
Proof. intros I Hp. by apply inv_move; rewrite ?Hp. Qed.

Lemma inv_step m m' : inv m -> step m m' -> inv m'.
Proof.
  intros I. destruct 1 as [i m|i l m Hp|i l m Hp|i m Hp|i n m Hp Hn|i b m Hp H0].
  - by apply inv_lock_step_all.
  - by apply inv_acquire_call.
  - by apply inv_release_call.
  - apply (inv_client m _ i); cbn; try done; [|by rewrite upd_eq|rewrite !upd_eq; cbn; lia].
    intros j Hj. by rewrite !upd_ne.
  - pose proof (noff_pos m i I Hp). pose proof I as [_ HC].
    destruct (pop_off_ok (m_cpus m i)) as (c & Ec & Ecn & Ecs); [lia|apply HC|].
    unfold pop_off_call. rewrite Ec.
    apply (inv_client m _ i); cbn; try done; [|by rewrite upd_eq|rewrite !upd_eq; lia].
    intros j Hj. by rewrite !upd_ne.
  - apply (inv_client m _ i); cbn; try done; [|rewrite upd_eq; cbn; lia|rewrite upd_eq; cbn; lia].
    intros j Hj. by rewrite !upd_ne.
Qed.

Lemma reachable_inv m : reachable m -> inv m.
Proof. induction 1; [apply inv_boot|by eapply inv_step]. Qed.

Lemma owns_sie m i l :
  inv m -> owns m i l -> (forall msg, m_pcs m i <> Dead msg) -> sie (m_cpus m i) = false.
Proof.
  intros [HL HC] Ho Hd. destruct (HC i) as [Hn Hs]. apply Hs.
  destruct (Hn Hd) as (S & HS & ->). destruct Ho as [Hc|[->| ->]]; cbn; [|lia|lia].
  apply HS in Hc. assert (size S <> 0%nat) by (intros E; apply size_empty_inv in E; set_solver).
  assert (0 <= pending (m_pcs m i)) by (destruct (m_pcs m i); cbn; lia). lia.
Qed.

(** * What spinlock.c guarantees *)

(** C15: a spin lock excludes.  In every state that the CPUs can reach by
    calling acquire() and release() in any order and interleaving, a lock has
    at most one owner; while it has one its word is 1, so that no test-and-set
    of another CPU succeeds; holding() is true on no CPU but the owner; and the
    owner runs with interrupts off. *)
Theorem spinlock_excludes m i j l :
  reachable m -> owns m i l ->
  lk_locked (m_locks m l) = 1 /\ (owns m j l -> j = i) /\
  (holding_c (m_locks m l) j = true -> j = i) /\
  ((forall msg, m_pcs m i <> Dead msg) -> sie (m_cpus m i) = false).
Proof.
  intros R Ho. apply reachable_inv in R as I. pose proof I as [HL _]. split_and!.
  - by apply (lo_taken _ _ (HL l) i).
  - intros Hj. by apply (lo_uniq _ _ (HL l)).
  - unfold holding_c. intros Hh. b2p. apply bool_decide_eq_true in H0.
    apply (lo_uniq _ _ (HL l)); [by left|done].
  - by apply (owns_sie m i l).
Qed.

(** The lock as the rest of the kernel uses it: taken and freed in one step. *)
Inductive atomic_step (o : nat -> option nat) : (nat -> option nat) -> Prop :=
| at_stutter o' : (forall l, o' l = o l) -> atomic_step o o'
| at_acquire i l : o l = None -> atomic_step o (upd o l (Some i))
| at_release i l : o l = Some i -> atomic_step o (upd o l None).

Definition abs (m : mach) (o : nat -> option nat) : Prop := forall l i, o l = Some i <-> owns m i l.

Lemma owns_stutter m m' o :
  abs m o -> (forall j l, owns m' j l <-> owns m j l) -> exists o', atomic_step o o' /\ abs m' o'.
Proof.
  intros A H. exists o. split; [by apply at_stutter|]. intros l i. by rewrite H.
Qed.

(** Moving CPU [i] between places where it owns nothing in passing. *)
Lemma owns_goto m m' i :
  m_locks m' = m_locks m -> (forall j, j <> i -> m_pcs m' j = m_pcs m j) ->
  (forall l, m_pcs m i <> Acq_cpu l /\ m_pcs m i <> Rel_unlock l) ->
  (forall l, m_pcs m' i <> Acq_cpu l /\ m_pcs m' i <> Rel_unlock l) ->
  forall j l, owns m' j l <-> owns m j l.
Proof.
  intros El Ej H H' j l. unfold owns. rewrite El. destruct (decide (j = i)) as [->|Hne]; [|by rewrite Ej].
  specialize (H l). specialize (H' l). tauto.
Qed.

Ltac pcs_solver :=
  cbn; intros; rewrite ?upd_eq, ?upd_ne by done; match goal with H : m_pcs _ _ = _ |- _ => rewrite ?H end; done.

Lemma abs_lock_step m o i :
  inv m -> abs m o -> exists o', atomic_step o o' /\ abs (lock_step i m) o'.
Proof.
  intros I A. unfold lock_step. destruct (m_pcs m i) as [|l|l|l|l|l|l|l|l| |msg] eqn:Hp.
  - by apply (owns_stutter m).
  - apply (owns_stutter m); [done|]. destruct (_ =? 0); by apply (owns_goto _ _ i); try done; pcs_solver.
  - apply (owns_stutter m); [done|]. case_decide; by apply (owns_goto _ _ i); try done; pcs_solver.
  - destruct (lk_locked (m_locks m l) =? 0) eqn:E; b2p.
    + exists (upd o l (Some i)). pose proof I as [HL _]. assert (forall j, ~ owns m j l) as Hno.
      { intros j Hj. apply (lo_taken _ _ (HL l)) in Hj. lia. }
      split; [apply at_acquire; destruct (o l) as [j|] eqn:Eo; [by apply A, Hno in Eo|done]|].
      intros l' j. specialize (Hno j). pose proof (A l' j) as Hj. clear A I HL E. unfold owns in *. cbn. unfold upd.
      repeat case_decide; subst; cbn; rewrite ?Hp in *; naive_solver.
    + apply (owns_stutter m); [done|]. intros j l'. unfold owns. cbn. unfold upd. by case_decide; subst.
  - apply (owns_stutter m); [done|]. pose proof I as [HL _]. intros j l'.
    assert (owns m i l) as Hi by (right; by left).
    pose proof (fun H => lo_uniq _ _ (HL l) j i H Hi) as Hu. clear A I HL. unfold owns in *. cbn. unfold upd.
    repeat case_decide; subst; cbn; rewrite ?Hp in *; naive_solver.
  - apply (owns_stutter m); [done|]. destruct (_ =? 0); by apply (owns_goto _ _ i); try done; pcs_solver.
  - apply (owns_stutter m); [done|]. case_decide; by apply (owns_goto _ _ i); try done; pcs_solver.
  - apply (owns_stutter m); [done|]. pose proof I as [HL _]. intros j l'.
    pose proof (lo_rel _ _ (HL l) i Hp) as Hc. clear A I HL. unfold owns in *. cbn. unfold upd.
    repeat case_decide; subst; cbn; rewrite ?Hp in *; naive_solver.
  - exists (upd o l None). assert (owns m i l) as Hi by (right; by right). pose proof I as [HL _].
    split; [apply (at_release _ i); by apply A|].
    intros l' j. pose proof (A l' j) as Hj. pose proof (fun H => lo_uniq _ _ (HL l) j i H Hi) as Hu.
    pose proof (lo_pc _ _ (HL l) i ltac:(auto)) as Hc. clear A I HL. unfold owns in *. cbn. unfold upd.
    repeat case_decide; subst; cbn; rewrite ?Hp in *; naive_solver.
  - apply (owns_stutter m); [done|]. destruct (inv_pop m i I Hp) as (c & -> & _).
    by apply (owns_goto _ _ i); try done; pcs_solver.
  - by apply (owns_stutter m).
Qed.

Lemma abs_step m m' o :
  inv m -> step m m' -> abs m o -> exists o', atomic_step o o' /\ abs m' o'.
Proof.
  intros I Hs A. destruct Hs as [i m|i l m Hp|i l m Hp|i m Hp|i n m Hp Hn|i b m Hp H0];
    [by apply abs_lock_step|apply (owns_stutter m); try done..].
  - by apply (owns_goto _ _ i); try done; pcs_solver.
  - by apply (owns_goto _ _ i); try done; pcs_solver.
  - pose proof (noff_pos m i I Hp). pose proof I as [_ HC].
    destruct (pop_off_ok (m_cpus m i)) as (c & Ec & _ & _); [lia|apply HC|].
    unfold pop_off_call. by rewrite Ec.
Qed.

(** C16: spinlock.c implements an atomic lock.  Every step of the CPUs through
    acquire() and release() either leaves the owners of all locks as they are,
    or gives one free lock to one CPU (the test-and-set that finds 0), or frees
    one lock that the CPU owns; a lock is free exactly when its word is 0; so the
    code that runs between acquire() and release() may take the lock to be a set
    of owners. *)
Theorem spinlock_atomic m m' o :
  reachable m -> step m m' -> abs m o ->
  exists o', atomic_step o o' /\ abs m' o' /\ forall l, o' l = None <-> lk_locked (m_locks m' l) = 0.
Proof.
  intros R Hs A. apply reachable_inv in R as I. destruct (abs_step m m' o I Hs A) as (o' & Ha & A').
  exists o'. split_and!; [done..|]. intros l. destruct (inv_step _ _ I Hs) as [HL _].
  destruct (HL l) as [Hb Ht Ho _ _ _]. split.
  - intros E. destruct Hb as [Hb|Hb]; [done|]. destruct (Ho Hb) as [i Hi%A']. congruence.
  - intros E. destruct (o' l) as [i|] eqn:Ei; [|done]. apply A', Ht in Ei. lia.
Qed.

(** [n] pop_off()s, unless one panics. *)
Fixpoint pop_offs (n : nat) (c : cpu) : string + cpu :=
  match n with
  | O => inr c
  | S n' => match pop_off c with inl msg => inl msg | inr c' => pop_offs n' c' end
  end.

Lemma pop_offs_nested n : forall c,
  sie c = false -> noff c = Z.of_nat (S n) ->
  pop_offs (S n) c = inr (mk_cpu 0 (intena c) (intena c)).
Proof.
  induction n as [|n IH]; intros c Hs Hn.
  - cbn. unfold pop_off. rewrite Hs, Hn. done.
  - change (pop_offs (S (S n)) c)
      with (match pop_off c with inl msg => inl msg | inr c' => pop_offs (S n) c' end).
    unfold pop_off. rewrite Hs, Hn. destruct (Z.ltb_spec (Z.of_nat (S (S n))) 1); [lia|].
    destruct (Z.eqb_spec (Z.of_nat (S (S n)) - 1) 0); [lia|]. cbn [andb].
    rewrite IH; [done|done|cbn; lia].
Qed.

Lemma push_offs_nested n c :
  noff c = 0 ->
  let c' := Nat.iter (S n) push_off c in
  sie c' = false /\ noff c' = Z.of_nat (S n) /\ intena c' = sie c.
Proof.
  intros H0. cbv zeta. induction n as [|n IH].
  - cbn. rewrite H0. done.
  - change (Nat.iter (S (S n)) push_off c) with (push_off (Nat.iter (S n) push_off c)).
    revert IH. generalize (Nat.iter (S n) push_off c). intros c1 (IH1 & IH2 & IH3).
    unfold push_off. cbn [sie noff intena]. rewrite IH2.
    destruct (Z.eqb_spec (Z.of_nat (S n)) 0); [lia|]. split_and!; [done|lia|done].
Qed.

(** push_off() and pop_off() are matched.  On a CPU outside of any of them,
    however deep the nesting, interrupts are off inside, no pop_off() panics,
    and the last pop_off() leaves interrupts as they were before the first
    push_off(): it takes as many pop_off()s to undo, and interrupts that were
    off stay off. *)
Theorem push_pop_matched n c :
  noff c = 0 ->
  sie (Nat.iter (S n) push_off c) = false /\
  exists c', pop_offs (S n) (Nat.iter (S n) push_off c) = inr c' /\
    noff c' = noff c /\ sie c' = sie c.
Proof.
  intros H0. destruct (push_offs_nested n c H0) as (H1 & H2 & H3). split; [done|].
  eexists. split; [by apply pop_offs_nested|]. split; [symmetry; exact H0|exact H3].
Qed.

Lemma push_pop_matched_witness : exists c',
  pop_offs 3 (Nat.iter 3 push_off (mk_cpu 0 false true)) = inr c' /\ noff c' = 0 /\ sie c' = true.
Proof. apply (push_pop_matched 2 (mk_cpu 0 false true)). reflexivity. Defined.

(** CPU 0 has taken lock 5, and CPU 1 spins on it. *)
Definition contended : mach :=
  lock_step 1 (lock_step 1 (lock_step 1 (acquire_call 1 5
    (lock_step 0 (lock_step 0 (lock_step 0 (acquire_call 0 5 boot))))))).

Lemma contended_reachable : reachable contended.
Proof.
  repeat (eapply reach_step; [|constructor; reflexivity]). apply reach_boot.
Qed.

Lemma spinlock_excludes_witness :
  owns contended 0 5 /\ m_pcs contended 1 = Acq_swap 5 /\ (owns contended 1 5 -> 1%nat = 0%nat).
Proof.
  split; [left; reflexivity|]. split; [reflexivity|].
  apply (spinlock_excludes contended 0 1 5 contended_reachable). left. reflexivity.
Defined.

(** CPU 0 is about to swap. *)
Definition swapping : mach := lock_step 0 (acquire_call 0 5 boot).

Lemma spinlock_atomic_witness : exists o',
  atomic_step (fun _ => None) o' /\ abs (lock_step 0 swapping) o' /\ o' 5%nat = Some 0%nat.
Proof.
  destruct (spinlock_atomic swapping (lock_step 0 swapping) (fun _ => None)) as (o' & Hs & A & _).
  - eapply reach_step; [|constructor]. eapply reach_step; [|constructor; reflexivity]. apply reach_boot.
  - constructor.
  - intros l i. split; [discriminate|]. unfold owns.
    change (m_locks swapping l) with initlock_c.
    change (m_pcs swapping i) with (upd (upd (fun _ => Idle) 0 (Acq_check 5)) 0 (Acq_swap 5) i).
    unfold upd. repeat case_decide; intros [H'|[H'|H']]; discriminate H'.
  - exists o'. split; [exact Hs|]. split; [exact A|]. apply A. right. left. reflexivity.
Defined.
