(* ===== verification/Kalloc.v ===== *)
(** kernel/kalloc.c: the physical page allocator.

    The free list is threaded through the free pages themselves: the first
    eight bytes of a free page are [r->next].  The pages between the linker's
    [end] and PHYSTOP are the allocator's. *)
From S2P Require Import Prelude CInt KState KString Riscv.

Section kalloc.
Context {P : Platform}.

(** * The code *)

Definition kfree (pa : Z) : M unit :=
  if negb (pa mod PGSIZE =? 0) || (pa <? sym_end) || (PHYSTOP <=? pa) then panic "kfree"
  else
    (* Fill with junk to catch dangling refs. *)
    upd_mem (fun m => memset m pa 1 PGSIZE) ;;;
    acquire L_kmem ;;;
    let* freelist := gets (fun k => k_freelist k) in
    upd_mem (fun m => st64 m pa freelist) ;;; (* r->next = kmem.freelist *)
    modify (set_k_freelist pa) ;;;
    release L_kmem.

Definition kalloc : M Z :=
  acquire L_kmem ;;;
  let* r := gets (fun k => k_freelist k) in
  when (negb (r =? 0))
    (modify (fun k => set_k_freelist (ld64 (k_mem k) r) k)) ;;;
  release L_kmem ;;;
  when (negb (r =? 0)) (upd_mem (fun m => memset m r 5 PGSIZE)) ;;; (* fill with junk *)
  ret r.

(** [for(; p + PGSIZE <= pa_end; p += PGSIZE)]; the loop ends before [n] runs
    out, see [freerange]. *)
Fixpoint freerange_loop (n : nat) (p pa_end : Z) : M unit :=
  match n with
  | O => stuck
  | S n' =>
      if p + PGSIZE <=? pa_end
      then kfree p ;;; freerange_loop n' (p + PGSIZE) pa_end
      else ret tt
  end.

Definition freerange (pa_start pa_end : Z) : M unit :=
  let p := PGROUNDUP pa_start in
  freerange_loop (Z.to_nat ((pa_end - p) / PGSIZE + 1)) p pa_end.

Definition kinit : M unit :=
  initlock L_kmem ;;;
  freerange sym_end PHYSTOP.

(** * The free list *)

(** A page the allocator may hand out. *)
Definition page_ok (pa : Z) : Prop := pa mod PGSIZE = 0 /\ sym_end <= pa < PHYSTOP.

(** [free_chain m p l]: from [p], following [r->next], the pages are [l]. *)
Fixpoint free_chain (m : mem) (p : Z) (l : list Z) : Prop :=
  match l with
  | [] => p = 0
  | a :: l' => p = a /\ page_ok a /\ free_chain m (ld64 m a) l'
  end.

(** The allocator's invariant: its free pages are [l]. *)
Definition kmem_inv (l : list Z) (k : K) : Prop :=
  0 < sym_end /\ free_chain (k_mem k) (k_freelist k) l /\ NoDup l.

(** * Lemmas *)

Lemma page_apart a b :
  a mod PGSIZE = 0 -> b mod PGSIZE = 0 -> a <> b -> a + PGSIZE <= b \/ b + PGSIZE <= a.
Proof. unfold PGSIZE. intros. zdm. Qed.

Lemma ld8_memset_out m dst c n x :
  0 <= n -> (x < dst \/ dst + n <= x) -> ld8 (memset m dst c n) x = ld8 m x.
Proof.
  intros. rewrite memset_stbytes. apply ld8_stbytes_out. rewrite length_replicate. lia.
Qed.

Lemma ld8_memset_in m dst c n x : dst <= x < dst + n -> ld8 (memset m dst c n) x = u8 c.
Proof.
  intros. rewrite memset_stbytes. replace x with (dst + Z.of_nat (Z.to_nat (x - dst))) by lia.
  apply ld8_stbytes_in. apply lookup_replicate. split; [done|lia].
Qed.

(** The chain only depends on the first words of its pages. *)
Lemma free_chain_ext m m' p l :
  (forall a x, a ∈ l -> a <= x < a + PGSIZE -> ld8 m x = ld8 m' x) ->
  free_chain m p l -> free_chain m' p l.
Proof.
  revert p; induction l as [|a l IH]; intros p H; cbn [free_chain]; [done|].
  intros (-> & Hok & Hc). split_and!; [done..|].
  rewrite <- (ld64_ext m m'); [apply IH; [|done]|].
  - intros b x Hb. apply H. set_solver.
  - intros x Hx. apply (H a); [set_solver|unfold PGSIZE; lia].
Qed.

Lemma free_chain_page_ok m p l a : free_chain m p l -> a ∈ l -> page_ok a.
Proof.
  revert p; induction l as [|b l IH]; intros p; cbn [free_chain]; [set_solver|].
  intros (-> & Hok & Hc) [->|Ha]%elem_of_cons; eauto.
Qed.

Lemma kfree_run pa k :
  page_ok pa -> L_kmem ∉ k_held k ->
  kfree pa k = Ok tt (set_k_freelist pa
    (set_k_mem (st64 (memset (k_mem k) pa 1 PGSIZE) pa (k_freelist k)) k)).
Proof.
  intros [Hal [Hlo Hhi]] Hlk. unfold kfree.
  rewrite Hal, (proj2 (Z.ltb_ge _ _) Hlo), (proj2 (Z.leb_gt _ _) Hhi). cbn [negb orb Z.eqb].
  ksteps. cbn. by rewrite held_add_del.
Qed.

Lemma kalloc_empty_run k :
  k_freelist k = 0 -> L_kmem ∉ k_held k -> kalloc k = Ok 0 k.
Proof.
  intros Hf Hlk. unfold kalloc. kstep. kstep. cbn [k_freelist set_k_held]. rewrite Hf. cbn [Z.eqb negb].
  ksteps. cbn. by rewrite held_add_del.
Qed.

Lemma kalloc_run k :
  k_freelist k <> 0 -> L_kmem ∉ k_held k ->
  kalloc k = Ok (k_freelist k)
    (set_k_freelist (ld64 (k_mem k) (k_freelist k))
      (set_k_mem (memset (k_mem k) (k_freelist k) 5 PGSIZE) k)).
Proof.
  intros Hf Hlk. unfold kalloc. kstep. kstep. cbn [k_freelist set_k_held].
  apply Z.eqb_neq in Hf. rewrite Hf. cbn [negb].
  ksteps. cbn. by rewrite held_add_del.
Qed.

Lemma free_chain_head m p l :
  0 < sym_end -> free_chain m p l -> p = 0 <-> l = [].
Proof.
  intros He. destruct l; cbn [free_chain]; [naive_solver|].
  intros (-> & [_ Hok] & _). split; [lia|done].
Qed.

(** The free list after a page is pushed on it. *)
Lemma kfree_inv pa l k :
  kmem_inv l k -> page_ok pa -> pa ∉ l ->
  kmem_inv (pa :: l) (set_k_freelist pa
    (set_k_mem (st64 (memset (k_mem k) pa 1 PGSIZE) pa (k_freelist k)) k)).
Proof.
  intros (He & Hc & Hnd) Hok Hni. split_and!; [done| |by constructor].
  cbn. split_and!; [done..|].
  assert (Hr : 0 <= k_freelist k < 2 ^ 64).
  { destruct l as [|a l']; cbn [free_chain] in Hc.
    - rewrite Hc. lia.
    - destruct Hc as (-> & [_ Ha] & _). unfold PHYSTOP, KERNBASE in Ha. lia. }
  rewrite ld64_st64_eq by done.
  eapply free_chain_ext; [|done]. intros a x Ha Hx.
  assert (Hne : a <> pa) by (intros ->; done).
  pose proof (free_chain_page_ok _ _ _ _ Hc Ha) as [Haa _]. destruct Hok as [Hpa _].
  pose proof (page_apart a pa Haa Hpa Hne). unfold PGSIZE in *.
  rewrite st64_out by lia. rewrite ld8_memset_out by lia. done.
Qed.

Lemma kalloc_inv pa l k :
  kmem_inv (pa :: l) k ->
  k_freelist k = pa /\
  kmem_inv l (set_k_freelist (ld64 (k_mem k) pa) (set_k_mem (memset (k_mem k) pa 5 PGSIZE) k)).
Proof.
  intros (He & Hc & Hnd). cbn [free_chain] in Hc. destruct Hc as (Hp & Hok & Hc).
  apply list.NoDup_cons in Hnd as [Hni Hnd]. split; [done|]. split_and!; [done| |done].
  cbn. eapply free_chain_ext; [|done]. intros a x Ha Hx.
  assert (Hne : a <> pa) by (intros ->; done).
  pose proof (free_chain_page_ok _ _ _ _ Hc Ha) as [Haa _]. destruct Hok as [Hpa _].
  pose proof (page_apart a pa Haa Hpa Hne). unfold PGSIZE in *.
  rewrite ld8_memset_out by lia. done.
Qed.

(** The loop of freerange() pushes the pages from [p] on. *)
Lemma freerange_loop_spec n p l k :
  kmem_inv l k -> L_kmem ∉ k_held k -> p mod PGSIZE = 0 -> sym_end <= p <= PHYSTOP ->
  (forall pa, pa ∈ l <-> page_ok pa /\ pa < p) ->
  (PHYSTOP - p) / PGSIZE + 1 <= Z.of_nat n ->
  exists l' k', freerange_loop n p PHYSTOP k = Ok tt k' /\ kmem_inv l' k' /\
    (forall pa, pa ∈ l' <-> page_ok pa) /\
    k' = set_k_freelist (k_freelist k') (set_k_mem (k_mem k') k).
Proof.
  assert (Hps : PHYSTOP mod PGSIZE = 0) by done.
  assert (Hpv : PGSIZE = 4096) by done.
  revert p l k; induction n; intros p l k Hinv Hlk Hal Hlo Hl Hn.
  { exfalso. zdm. }
  cbn [freerange_loop]. case_if.
  - assert (Hok : page_ok p) by (split; [done|lia]).
    eassert (Hni : p ∉ l) by (rewrite Hl; intros [_ ?]; lia).
    edestruct (IHn (p + PGSIZE) (p :: l)) as (l' & k' & Hrun & Hinv' & Hl' & Hk').
    + apply (kfree_inv p l k); done.
    + done.
    + rewrite Hpv in *. zdm.
    + lia.
    + intros pa. rewrite elem_of_cons, Hl. split.
      * intros [->|[? ?]]; split; (done || lia).
      * intros [[Hpal Hpr] Hlt].
        destruct (decide (pa = p)) as [->|Hne]; [by left|right].
        split; [done|]. destruct (page_apart pa p Hpal Hal Hne); lia.
    + rewrite Hpv in *. zdm.
    + exists l', k'. split_and!; [|done..].
      eapply bind_eq; [by apply kfree_run|]. done.
  - exists l, k. split_and!; [done..| |done].
    intros pa. rewrite Hl. split; [naive_solver|]. intros [Hpal Hpr]. split; [done|].
    destruct (decide (pa < p)); [done|]. rewrite Hpv in *. zdm.
Qed.

(** * Properties *)

(** C28: kalloc() takes the first page of the free list: the page was free, is
    not free any more, is filled with the byte 5, and no byte of any other page
    and no other part of the state changes; with no free page it returns 0 and
    changes nothing. *)
Theorem kalloc_correct l k :
  kmem_inv l k -> L_kmem ∉ k_held k ->
  match l with
  | [] => kalloc k = Ok 0 k
  | pa :: l' => exists k',
      kalloc k = Ok pa k' /\ kmem_inv l' k' /\ page_ok pa /\ pa ∉ l' /\
      (forall x, pa <= x < pa + PGSIZE -> ld8 (k_mem k') x = 5) /\
      (forall x, x < pa \/ pa + PGSIZE <= x -> ld8 (k_mem k') x = ld8 (k_mem k) x) /\
      k' = set_k_freelist (k_freelist k') (set_k_mem (k_mem k') k)
  end.
Proof.
  intros Hinv Hlk. destruct l as [|pa l'].
  - destruct Hinv as (_ & Hc & _). by apply kalloc_empty_run.
  - destruct (kalloc_inv pa l' k Hinv) as [Hf Hinv'].
    destruct Hinv as (He & (_ & Hok & _) & [Hni _]%list.NoDup_cons).
    eexists. rewrite kalloc_run by (rewrite ?Hf; destruct Hok; lia || done).
    rewrite Hf. split_and!; [done..| | |done].
    + intros x Hx. cbn. by rewrite ld8_memset_in.
    + intros x Hx. cbn. by rewrite ld8_memset_out.
Qed.

(** C29: kfree() panics exactly when it is not given a page of the allocator's
    range; otherwise it puts the page in front of the free list and changes no
    byte outside the page and no other part of the state. *)
Theorem kfree_correct pa l k :
  kmem_inv l k -> L_kmem ∉ k_held k -> pa ∉ l ->
  if decide (page_ok pa) then exists k',
    kfree pa k = Ok tt k' /\ kmem_inv (pa :: l) k' /\
    (forall x, x < pa \/ pa + PGSIZE <= x -> ld8 (k_mem k') x = ld8 (k_mem k) x) /\
    k' = set_k_freelist pa (set_k_mem (k_mem k') k)
  else kfree pa k = Panic "kfree" k.
Proof.
  intros Hinv Hlk Hni. destruct (decide (page_ok pa)) as [Hok|Hok].
  - eexists. rewrite kfree_run by done. split_and!; [done|by apply kfree_inv| |done].
    intros x Hx. cbn. rewrite st64_out by (unfold PGSIZE in *; lia). by rewrite ld8_memset_out.
  - unfold kfree. replace (negb (pa mod PGSIZE =? 0) || (pa <? sym_end) || (PHYSTOP <=? pa)) with true;
      [done|]. unfold page_ok in Hok. lia.
Qed.

(** after kinit() the free list holds every page between [end] and PHYSTOP
    exactly once, so that all of the memory the kernel owns can be allocated
    and none of the kernel's own; kinit() does not run past PHYSTOP. *)
Theorem kinit_correct k :
  0 < sym_end <= PHYSTOP -> k_freelist k = 0 ->
  exists l k', kinit k = Ok tt k' /\ kmem_inv l k' /\ forall pa, pa ∈ l <-> page_ok pa.
Proof.
  intros He Hf. unfold kinit, initlock, freerange.
  assert (Hb : sym_end <= PGROUNDUP sym_end <= PHYSTOP /\ PGROUNDUP sym_end mod PGSIZE = 0 /\
               (forall pa, page_ok pa -> PGROUNDUP sym_end <= pa)).
  { unfold page_ok. rewrite PGROUNDUP_div by (unfold PHYSTOP, KERNBASE, PGSIZE in *; lia).
    assert (PHYSTOP mod PGSIZE = 0) by done. unfold PGSIZE in *.
    split_and!; [zdm|zdm|zdm|]. intros pa. zdm. }
  destruct Hb as (Hb & Hm & Hlow).
  edestruct (freerange_loop_spec (Z.to_nat ((PHYSTOP - PGROUNDUP sym_end) / PGSIZE + 1))
    (PGROUNDUP sym_end) [] (set_k_held (k_held k ∖ {[L_kmem]}) k)) as (l & k' & Hrun & Hinv & Hl & _).
  - split_and!; [lia|done|constructor].
  - cbn. set_solver.
  - done.
  - done.
  - intros pa. split; [set_solver|]. intros [Hok Hlt]. specialize (Hlow pa Hok). lia.
  - rewrite Z2Nat.id; [lia|]. unfold PGSIZE in *. zdm.
  - exists l, k'. split; [by kstep|done].
Qed.

End kalloc.

(** A platform with two pages of allocatable memory, on which no other thread
    runs. *)
Definition two_pages : Platform := {|
  others := fun _ _ => None; patience := 0;
  sym_end := PHYSTOP - 2 * PGSIZE; sym_etext := KERNBASE + PGSIZE;
  sym_trampoline := KERNBASE; sym_uservec := KERNBASE; sym_userret := KERNBASE + 144;
  sym_forkret := 0; sym_usertrap := 0; sym_kernelvec := 0 |}.

Lemma kinit_correct_witness :
  exists l k', kinit (P := two_pages) bss = Ok tt k' /\ kmem_inv (P := two_pages) l k' /\
    forall pa, pa ∈ l <-> page_ok (P := two_pages) pa.
Proof. apply (kinit_correct (P := two_pages) bss); vm_compute; done. Defined.

(** One free page, whose first word ends the list. *)
Definition one_free_K : K := set_k_freelist (PHYSTOP - PGSIZE) bss.

Lemma one_free_inv : kmem_inv (P := two_pages) [PHYSTOP - PGSIZE] one_free_K.
Proof.
  split_and!; [done| |repeat constructor; set_solver].
  vm_compute; repeat split; discriminate.
Qed.

Lemma kalloc_correct_witness : exists k',
  kalloc one_free_K = Ok (PHYSTOP - PGSIZE) k' /\ kmem_inv (P := two_pages) [] k'.
Proof.
  destruct (kalloc_correct (P := two_pages) [PHYSTOP - PGSIZE] one_free_K one_free_inv)
    as (k' & H1 & H2 & _); [set_solver|]. exists k'. done.
Defined.

Lemma kfree_correct_witness : exists k',
  kfree (P := two_pages) (PHYSTOP - 2 * PGSIZE) one_free_K = Ok tt k' /\
  kmem_inv (P := two_pages) [PHYSTOP - 2 * PGSIZE; PHYSTOP - PGSIZE] k'.
Proof.
  pose proof (kfree_correct (P := two_pages) (PHYSTOP - 2 * PGSIZE) [PHYSTOP - PGSIZE] one_free_K
    one_free_inv) as H.
  rewrite decide_True in H.
  - destruct H as (k' & H1 & H2 & _); [set_solver|..|exists k'; done].
    apply not_elem_of_cons; split; [discriminate|set_solver].
  - split; [done|vm_compute; split; [discriminate|done]].
Defined.
