(* ===== verification/Vm.v ===== *)
(** kernel/vm.c: page tables and copying between user and kernel memory.

    A page table is a page of [k_mem] holding 512 little-endian 64-bit PTEs, as
    the hardware walks it; [pagetable] is its address and 0 the null pointer. *)
From S2P Require Import Prelude CInt KState KString Riscv Kalloc.

Section vm.
Context {P : Platform}.

(** * The code *)

(** One turn of the loop of walk(): the page table of the next level, or
    [None] when walk() returns 0. *)
Definition walk_level (level pagetable va : Z) (alloc : bool) : M (option Z) :=
  let pte := pagetable + 8 * PX level va in
  let* v := gets (fun k => ld64 (k_mem k) pte) in
  if negb (Z.land v PTE_V =? 0) then ret (Some (PTE2PA v))
  else if negb alloc then ret None
  else
    let* pagetable' := kalloc in
    if pagetable' =? 0 then ret None
    else
      upd_mem (fun m => memset m pagetable' 0 PGSIZE) ;;;
      upd_mem (fun m => st64 m pte (Z.lor (PA2PTE pagetable') PTE_V)) ;;;
      ret (Some pagetable').

Definition walk (pagetable va : Z) (alloc : bool) : M Z :=
  if MAXVA <=? va then panic "walk"
  else
    let* r2 := walk_level 2 pagetable va alloc in
    match r2 with
    | None => ret 0
    | Some pagetable1 =>
        let* r1 := walk_level 1 pagetable1 va alloc in
        match r1 with
        | None => ret 0
        | Some pagetable0 => ret (pagetable0 + 8 * PX 0 va)
        end
    end.

Definition ldpte (pte : Z) : M Z := gets (fun k => ld64 (k_mem k) pte).
Definition stpte (pte v : Z) : M unit := upd_mem (fun m => st64 m pte v).

Definition walkaddr (pagetable va : Z) : M Z :=
  if MAXVA <=? va then ret 0
  else
    let* pte := walk pagetable va false in
    if pte =? 0 then ret 0
    else
      let* v := ldpte pte in
      if Z.land v PTE_V =? 0 then ret 0
      else if Z.land v PTE_U =? 0 then ret 0
      else ret (PTE2PA v).

(** The loop of mappages(). It ends when [a] reaches [last], or when walk()
    panics at MAXVA; [n] turns are enough for either, see [mappages]. *)
Fixpoint mappages_loop (n : nat) (pagetable a last pa perm : Z) : M Z :=
  match n with
  | O => stuck
  | S n' =>
      let* pte := walk pagetable a true in
      if pte =? 0 then ret (-1)
      else
        let* v := ldpte pte in
        if negb (Z.land v PTE_V =? 0) then panic "mappages: remap"
        else
          stpte pte (Z.lor (Z.lor (PA2PTE pa) perm) PTE_V) ;;;
          if a =? last then ret 0
          else mappages_loop n' pagetable (u64 (a + PGSIZE)) last (u64 (pa + PGSIZE)) perm
  end.

Definition mappages (pagetable va size pa perm : Z) : M Z :=
  if size =? 0 then panic "mappages: size"
  else
    let a := PGROUNDDOWN va in
    let last := PGROUNDDOWN (u64 (va + size - 1)) in
    let turns := if a <=? last then (last - a) / PGSIZE + 1 else MAXVA / PGSIZE + 1 in
    mappages_loop (Z.to_nat turns) pagetable a last pa perm.

Definition kvmmap (kpgtbl va pa sz perm : Z) : M unit :=
  let* r := mappages kpgtbl va sz pa perm in
  when (negb (r =? 0)) (panic "kvmmap").

Fixpoint uvmunmap_loop (n : nat) (pagetable a stop : Z) (do_free : bool) : M unit :=
  match n with
  | O => stuck
  | S n' =>
      if a <? stop then
        let* pte := walk pagetable a false in
        if pte =? 0 then panic "uvmunmap: walk"
        else
          let* v := ldpte pte in
          if Z.land v PTE_V =? 0 then panic "uvmunmap: not mapped"
          else if PTE_FLAGS v =? PTE_V then panic "uvmunmap: not a leaf"
          else
            when do_free (kfree (PTE2PA v)) ;;;
            stpte pte 0 ;;;
            uvmunmap_loop n' pagetable (u64 (a + PGSIZE)) stop do_free
      else ret tt
  end.

Definition uvmunmap (pagetable va npages : Z) (do_free : bool) : M unit :=
  if negb (va mod PGSIZE =? 0) then panic "uvmunmap: not aligned"
  else uvmunmap_loop (Z.to_nat npages + 1) pagetable va (u64 (va + npages * PGSIZE)) do_free.

Definition uvmcreate : M Z :=
  let* pagetable := kalloc in
  if pagetable =? 0 then ret 0
  else
    upd_mem (fun m => memset m pagetable 0 PGSIZE) ;;;
    ret pagetable.

(** [src] are the [sz] bytes the pointer points to. *)
Definition uvmfirst (pagetable : Z) (src : list Z) (sz : Z) : M unit :=
  if PGSIZE <=? sz then panic "uvmfirst: more than a page"
  else
    let* m := kalloc in
    upd_mem (fun mm => memset mm m 0 PGSIZE) ;;;
    mappages pagetable 0 PGSIZE m (Z.lor (Z.lor (Z.lor PTE_W PTE_R) PTE_X) PTE_U) ;;;
    upd_mem (fun mm => stbytes mm m (take (Z.to_nat sz) src)).

Definition uvmdealloc (pagetable oldsz newsz : Z) : M Z :=
  if oldsz <=? newsz then ret oldsz
  else
    when (PGROUNDUP newsz <? PGROUNDUP oldsz)
      (let npages := i32 ((PGROUNDUP oldsz - PGROUNDUP newsz) / PGSIZE) in
       uvmunmap pagetable (PGROUNDUP newsz) (u64 npages) true) ;;;
    ret newsz.

Fixpoint uvmalloc_loop (n : nat) (pagetable oldsz a newsz xperm : Z) : M Z :=
  match n with
  | O => stuck
  | S n' =>
      if a <? newsz then
        let* m := kalloc in
        if m =? 0 then
          uvmdealloc pagetable a oldsz ;;;
          ret 0
        else
          upd_mem (fun mm => memset mm m 0 PGSIZE) ;;;
          let* r := mappages pagetable a PGSIZE m (Z.lor (Z.lor PTE_R PTE_U) xperm) in
          if negb (r =? 0) then
            kfree m ;;;
            uvmdealloc pagetable a oldsz ;;;
            ret 0
          else uvmalloc_loop n' pagetable oldsz (u64 (a + PGSIZE)) newsz xperm
      else ret newsz
  end.

Definition uvmalloc (pagetable oldsz newsz xperm : Z) : M Z :=
  if newsz <? oldsz then ret oldsz
  else
    let oldsz := PGROUNDUP oldsz in
    uvmalloc_loop (Z.to_nat ((newsz - oldsz) / PGSIZE + 2)) pagetable oldsz oldsz newsz xperm.

(** The recursion follows non-leaf PTEs: a page table has three levels. *)
Fixpoint freewalk (depth : nat) (pagetable : Z) : M unit :=
  match depth with
  | O => stuck
  | S depth' =>
      for_ (seq 0 512) (fun i =>
        let pte := pagetable + 8 * Z.of_nat i in
        let* v := ldpte pte in
        if negb (Z.land v PTE_V =? 0) && (Z.land v (Z.lor (Z.lor PTE_R PTE_W) PTE_X) =? 0) then
          (* this PTE points to a lower-level page table. *)
          freewalk depth' (PTE2PA v) ;;;
          stpte pte 0
        else if negb (Z.land v PTE_V =? 0) then panic "freewalk: leaf"
        else ret tt) ;;;
      kfree pagetable
  end.

Definition uvmfree (pagetable sz : Z) : M unit :=
  when (0 <? sz) (uvmunmap pagetable 0 (PGROUNDUP sz / PGSIZE) true) ;;;
  freewalk 3 pagetable.

Fixpoint uvmcopy_loop (n : nat) (old new i sz : Z) : M Z :=
  match n with
  | O => stuck
  | S n' =>
      let err := uvmunmap new 0 (i / PGSIZE) true ;;; ret (-1) in
      if i <? sz then
        let* pte := walk old i false in
        if pte =? 0 then panic "uvmcopy: pte should exist"
        else
          let* v := ldpte pte in
          if Z.land v PTE_V =? 0 then panic "uvmcopy: page not present"
          else
            let pa := PTE2PA v in
            let flags := PTE_FLAGS v in
            let* m := kalloc in
            if m =? 0 then err
            else
              upd_mem (fun mm => memmove mm m pa PGSIZE) ;;;
              let* r := mappages new i PGSIZE m flags in
              if negb (r =? 0) then kfree m ;;; err
              else uvmcopy_loop n' old new (u64 (i + PGSIZE)) sz
      else ret 0
  end.

Definition uvmcopy (old new sz : Z) : M Z :=
  uvmcopy_loop (Z.to_nat (sz / PGSIZE + 2)) old new 0 sz.

Definition uvmclear (pagetable va : Z) : M unit :=
  let* pte := walk pagetable va false in
  if pte =? 0 then panic "uvmclear"
  else
    let* v := ldpte pte in
    stpte pte (Z.land v (Z.lnot PTE_U)).

(** copyout(): [src] are the [len] bytes to copy; every turn copies at least one. *)
Fixpoint copyout_loop (n : nat) (pagetable dstva : Z) (src : list Z) : M Z :=
  match n with
  | O => stuck
  | S n' =>
      match src with
      | [] => ret 0
      | _ =>
          let va0 := PGROUNDDOWN dstva in
          let* pa0 := walkaddr pagetable va0 in
          if pa0 =? 0 then ret (-1)
          else
            let len := Z.of_nat (length src) in
            let c := if PGSIZE - (dstva - va0) >? len then len else PGSIZE - (dstva - va0) in
            upd_mem (fun m => stbytes m (pa0 + (dstva - va0)) (take (Z.to_nat c) src)) ;;;
            copyout_loop n' pagetable (u64 (va0 + PGSIZE)) (drop (Z.to_nat c) src)
      end
  end.

Definition copyout (pagetable dstva : Z) (src : list Z) : M Z :=
  copyout_loop (S (length src)) pagetable dstva src.

(** copyin(): the result is what it returns and the bytes it stored at dst. *)
Fixpoint copyin_loop (n : nat) (pagetable srcva len : Z) : M (Z * list Z) :=
  match n with
  | O => stuck
  | S n' =>
      if 0 <? len then
        let va0 := PGROUNDDOWN srcva in
        let* pa0 := walkaddr pagetable va0 in
        if pa0 =? 0 then ret (-1, [])
        else
          let c := if PGSIZE - (srcva - va0) >? len then len else PGSIZE - (srcva - va0) in
          let* bs := gets (fun k => ldbytes (k_mem k) (pa0 + (srcva - va0)) (Z.to_nat c)) in
          let* '(r, bs') := copyin_loop n' pagetable (u64 (va0 + PGSIZE)) (len - c) in
          ret (r, bs ++ bs')
      else ret (0, [])
  end.

Definition copyin (pagetable srcva len : Z) : M (Z * list Z) :=
  copyin_loop (S (Z.to_nat len)) pagetable srcva len.

(** The inner loop of copyinstr(): the bytes stored at dst, the new [max] and
    [got_null]. *)
Fixpoint copyinstr_page (c : nat) (m : mem) (p max : Z) : list Z * Z * bool :=
  match c with
  | O => ([], max, false)
  | S c' =>
      if ld8 m p =? 0 then ([0], max, true)
      else
        let '(bs, max', got_null) := copyinstr_page c' m (p + 1) (max - 1) in
        (ld8 m p :: bs, max', got_null)
  end.

Fixpoint copyinstr_loop (n : nat) (pagetable srcva max : Z) : M (Z * list Z) :=
  match n with
  | O => stuck
  | S n' =>
      if 0 <? max then
        let va0 := PGROUNDDOWN srcva in
        let* pa0 := walkaddr pagetable va0 in
        if pa0 =? 0 then ret (-1, [])
        else
          let c := if PGSIZE - (srcva - va0) >? max then max else PGSIZE - (srcva - va0) in
          let* '(bs, max', got_null) :=
            gets (fun k => copyinstr_page (Z.to_nat c) (k_mem k) (pa0 + (srcva - va0)) max) in
          if got_null : bool then ret (0, bs)
          else
            let* '(r, bs') := copyinstr_loop n' pagetable (u64 (va0 + PGSIZE)) max' in
            ret (r, bs ++ bs')
      else ret (-1, [])
  end.

Definition copyinstr (pagetable srcva max : Z) : M (Z * list Z) :=
  copyinstr_loop (S (Z.to_nat max)) pagetable srcva max.

(** kernel/proc.c: proc_mapstacks() *)
Definition proc_mapstacks (kpgtbl : Z) : M unit :=
  for_ (seq 0 (Z.to_nat NPROC)) (fun p =>
    let* pa := kalloc in
    if pa =? 0 then panic "kalloc"
    else kvmmap kpgtbl (KSTACK (Z.of_nat p)) pa PGSIZE (Z.lor PTE_R PTE_W)).

Definition kvmmake : M Z :=
  let* kpgtbl := kalloc in
  upd_mem (fun m => memset m kpgtbl 0 PGSIZE) ;;;
  (* uart registers *)
  kvmmap kpgtbl UART0 UART0 PGSIZE (Z.lor PTE_R PTE_W) ;;;
  (* virtio mmio disk interface *)
  kvmmap kpgtbl VIRTIO0 VIRTIO0 PGSIZE (Z.lor PTE_R PTE_W) ;;;
  (* PLIC *)
  kvmmap kpgtbl PLIC PLIC 0x400000 (Z.lor PTE_R PTE_W) ;;;
  (* map kernel text executable and read-only. *)
  kvmmap kpgtbl KERNBASE KERNBASE (sym_etext - KERNBASE) (Z.lor PTE_R PTE_X) ;;;
  (* map kernel data and the physical RAM we'll make use of. *)
  kvmmap kpgtbl sym_etext sym_etext (PHYSTOP - sym_etext) (Z.lor PTE_R PTE_W) ;;;
  (* map the trampoline for trap entry/exit to the highest virtual address *)
  kvmmap kpgtbl TRAMPOLINE sym_trampoline PGSIZE (Z.lor PTE_R PTE_X) ;;;
  (* allocate and map a kernel stack for each process. *)
  proc_mapstacks kpgtbl ;;;
  ret kpgtbl.

Definition kvminit : M unit :=
  let* kpgtbl := kvmmake in
  modify (set_k_kpgtbl kpgtbl).

(** The fences around the write order it after the stores to the page table. *)
Definition kvminithart : M unit :=
  let* kpgtbl := gets (fun k => k_kpgtbl k) in
  modify (fun k => set_k_csr (set_c_satp (MAKE_SATP kpgtbl) (k_csr k)) k).

End vm.
