(* ===== verification/VmSpec.v ===== *)
(** What kernel/vm.c guarantees: walk() and walkaddr() translate as the
    hardware does, the copies between kernel and user space are byte-by-byte
    loads and stores through that translation, and mappages() adds one
    translation and keeps all others. *)
From S2P Require Import Prelude CInt KState KString Riscv Kalloc Vm.

(** * Translation *)

Definition pte_valid (v : Z) : bool := negb (Z.land v PTE_V =? 0).

(** The address of the last-level PTE of [va], as the hardware finds it. *)
Definition leaf_addr (m : mem) (pt va : Z) : option Z :=
  let v2 := ld64 m (pt + 8 * PX 2 va) in
  if pte_valid v2 then
    let v1 := ld64 m (PTE2PA v2 + 8 * PX 1 va) in
    if pte_valid v1 then Some (PTE2PA v1 + 8 * PX 0 va) else None
  else None.

(** The physical page of a user page, 0 if there is none. *)
Definition upage (m : mem) (pt va : Z) : Z :=
  if MAXVA <=? va then 0
  else
    let a := default 0 (leaf_addr m pt va) in
    if a =? 0 then 0
    else
      let v := ld64 m a in
      if pte_valid v && negb (Z.land v PTE_U =? 0) then PTE2PA v else 0.

(** The bytes of memory that the translation through [pt] reads. *)
Definition in_tables (m : mem) (pt x : Z) : Prop :=
  exists va,
    let v2 := ld64 m (pt + 8 * PX 2 va) in
    let v1 := ld64 m (PTE2PA v2 + 8 * PX 1 va) in
    pt + 8 * PX 2 va <= x < pt + 8 * PX 2 va + 8 \/
    (pte_valid v2 = true /\ PTE2PA v2 + 8 * PX 1 va <= x < PTE2PA v2 + 8 * PX 1 va + 8) \/
    (pte_valid v2 = true /\ pte_valid v1 = true /\ PTE2PA v1 + 8 * PX 0 va <= x < PTE2PA v1 + 8 * PX 0 va + 8).

(** The address of a byte of user memory. *)
Definition uaddr (m : mem) (pt va : Z) : Z := upage m pt (PGROUNDDOWN va) + va mod PGSIZE.

(** * Byte-by-byte access to user memory *)

Definition user_ld (m : mem) (pt va : Z) : option Z :=
  if upage m pt (PGROUNDDOWN va) =? 0 then None else Some (ld8 m (uaddr m pt va)).

Fixpoint user_read (m : mem) (pt va : Z) (n : nat) : Z * list Z :=
  match n with
  | O => (0, [])
  | S n' =>
      match user_ld m pt va with
      | None => (-1, [])
      | Some b => let '(r, bs) := user_read m pt (u64 (va + 1)) n' in (r, b :: bs)
      end
  end.

(** A string of at most [max] bytes, its NUL included. *)
Fixpoint user_str (m : mem) (pt va : Z) (max : nat) : Z * list Z :=
  match max with
  | O => (-1, [])
  | S n =>
      match user_ld m pt va with
      | None => (-1, [])
      | Some b =>
          if b =? 0 then (0, [0])
          else let '(r, bs) := user_str m pt (u64 (va + 1)) n in (r, b :: bs)
      end
  end.

(** [m0] is the memory that holds the page table. *)
Fixpoint user_write (m0 m : mem) (pt va : Z) (bs : list Z) : Z * mem :=
  match bs with
  | [] => (0, m)
  | b :: bs' =>
      if upage m0 pt (PGROUNDDOWN va) =? 0 then (-1, m)
      else user_write m0 (st8 m (uaddr m0 pt va) b) pt (u64 (va + 1)) bs'
  end.

Section vmspec.
Context {P : Platform}.

Lemma walk_level_run level pt va k :
  walk_level level pt va false k =
    let v := ld64 (k_mem k) (pt + 8 * PX level va) in
    Ok (if pte_valid v then Some (PTE2PA v) else None) k.
Proof. unfold walk_level, pte_valid. kstep. by destruct (negb _). Qed.

Lemma walk_run pt va k : va < MAXVA ->
  walk pt va false k = Ok (default 0 (leaf_addr (k_mem k) pt va)) k.
Proof.
  intros Hva. unfold walk. rewrite (proj2 (Z.leb_gt _ _)) by done. unfold leaf_addr. cbv zeta.
  eapply bind_eq; [apply walk_level_run|]. destruct (pte_valid _); [|done].
  eapply bind_eq; [apply walk_level_run|]. by destruct (pte_valid _).
Qed.

Lemma walkaddr_run pt va k : walkaddr pt va k = Ok (upage (k_mem k) pt va) k.
Proof.
  unfold walkaddr, upage. destruct (MAXVA <=? va) eqn:E; [done|]. b2p.
  eapply bind_eq; [by apply walk_run|]. case_if; [done|]. unfold ldpte. kstep. unfold pte_valid.
  destruct (Z.land _ PTE_V =? 0); cbn [negb andb]; [done|]. by destruct (Z.land _ PTE_U =? 0).
Qed.

(** ** Pages *)

Lemma pgdown_split va : va = PGROUNDDOWN va + va mod PGSIZE.
Proof. rewrite PGROUNDDOWN_div. unfold PGSIZE. zdm. Qed.

(** [va + i] is on the page of [va]. *)
Lemma same_page va i :
  0 <= va < 2 ^ 64 -> 0 <= i < PGSIZE - va mod PGSIZE ->
  u64 (va + i) = va + i /\ PGROUNDDOWN (va + i) = PGROUNDDOWN va /\ (va + i) mod PGSIZE = va mod PGSIZE + i.
Proof.
  intros Hva Hi. rewrite !PGROUNDDOWN_div. unfold u64, PGSIZE in *. split_and!; zdm.
Qed.

(** The first byte of the next page. *)
Lemma next_page va :
  0 <= va < 2 ^ 64 -> u64 (va + (PGSIZE - va mod PGSIZE)) = u64 (PGROUNDDOWN va + PGSIZE).
Proof. intros. f_equal. pose proof (pgdown_split va). lia. Qed.

Lemma user_ld_page m pt va i :
  0 <= va < 2 ^ 64 -> 0 <= i < PGSIZE - va mod PGSIZE -> upage m pt (PGROUNDDOWN va) <> 0 ->
  user_ld m pt (u64 (va + i)) = Some (ld8 m (uaddr m pt va + i)).
Proof.
  intros Hva Hi Hp. destruct (same_page va i Hva Hi) as (E1 & E2 & E3).
  unfold user_ld, uaddr. rewrite E1, E2, E3. rewrite (proj2 (Z.eqb_neq _ _)) by done. do 2 f_equal. lia.
Qed.

Lemma u64_step va i : u64 (u64 (va + i) + 1) = u64 (va + (i + 1)).
Proof. unfold u64. zdm. Qed.

(** ** copyin() *)

(** Reading [c] bytes of one page. *)
Lemma user_read_page m pt va n (c : nat) : forall (i : nat),
  0 <= va < 2 ^ 64 -> Z.of_nat (i + c) <= PGSIZE - va mod PGSIZE -> upage m pt (PGROUNDDOWN va) <> 0 ->
  user_read m pt (u64 (va + Z.of_nat i)) (c + n) =
    let '(r, bs) := user_read m pt (u64 (va + Z.of_nat (i + c))) n in
    (r, ldbytes m (uaddr m pt va + Z.of_nat i) c ++ bs).
Proof.
  induction c as [|c IH]; intros i Hva Hi Hp; cbn [Nat.add user_read ldbytes].
  - rewrite Nat.add_0_r. by destruct (user_read _ _ _ n).
  - rewrite user_ld_page by (done || lia). rewrite u64_step.
    replace (Z.of_nat i + 1) with (Z.of_nat (S i)) by lia. rewrite IH by (done || lia).
    replace (S i + c)%nat with (i + S c)%nat by lia.
    destruct (user_read m pt (u64 (va + Z.of_nat (i + S c))) n) as [r bs]. cbn [app].
    do 3 f_equal. f_equal. lia.
Qed.

Lemma u64_idem va : 0 <= va < 2 ^ 64 -> u64 (va + Z.of_nat 0) = va.
Proof. intros. rewrite Z.add_0_r. by apply u64_small. Qed.

Lemma user_read_chunk m pt va n (c : nat) :
  0 <= va < 2 ^ 64 -> Z.of_nat c <= PGSIZE - va mod PGSIZE -> upage m pt (PGROUNDDOWN va) <> 0 ->
  user_read m pt va (c + n) =
    let '(r, bs) := user_read m pt (u64 (va + Z.of_nat c)) n in (r, ldbytes m (uaddr m pt va) c ++ bs).
Proof.
  intros Hva Hc Hp. pose proof (user_read_page m pt va n c 0 Hva Hc Hp) as H.
  rewrite u64_idem in H by done. by rewrite Z.add_0_r in H.
Qed.

(** How much of [len] bytes at [va] the page of [va] holds. *)
Lemma chunk va len :
  0 <= va < 2 ^ 64 -> 0 < len ->
  let c := if PGSIZE - (va - PGROUNDDOWN va) >? len then len else PGSIZE - (va - PGROUNDDOWN va) in
  0 < c <= len /\ c <= PGSIZE - va mod PGSIZE /\ (c < len -> c = PGSIZE - va mod PGSIZE).
Proof.
  intros Hva Hlen. pose proof (pgdown_split va) as E. cbv zeta.
  replace (va - PGROUNDDOWN va) with (va mod PGSIZE) by lia.
  assert (0 <= va mod PGSIZE < PGSIZE) by (apply Z.mod_pos_bound; done).
  rewrite Z.gtb_ltb. destruct (Z.ltb_spec len (PGSIZE - va mod PGSIZE)); lia.
Qed.

Lemma copyin_loop_run n pt : forall va len k,
  0 <= va < 2 ^ 64 -> 0 <= len -> len < Z.of_nat n ->
  copyin_loop n pt va len k = Ok (user_read (k_mem k) pt va (Z.to_nat len)) k.
Proof.
  induction n as [|n IH]; intros va len k Hva Hlen Hn; [lia|]. cbn [copyin_loop].
  destruct (0 <? len) eqn:E; b2p; [|by replace (Z.to_nat len) with 0%nat by lia].
  eapply bind_eq; [apply walkaddr_run|].
  destruct (upage (k_mem k) pt (PGROUNDDOWN va) =? 0) eqn:Ep; b2p.
  - replace (Z.to_nat len) with (S (Z.to_nat (len - 1))) by lia. cbn [user_read]. unfold user_ld.
    by rewrite Ep.
  - destruct (chunk va len Hva E) as (Hc & Hc2 & Hc3). set (c := if _ >? _ then _ else _) in *. kstep.
    eapply bind_eq.
    { apply (IH (u64 (PGROUNDDOWN va + PGSIZE)) (len - c)); [apply u64_range|lia|lia]. }
    replace (Z.to_nat len) with (Z.to_nat c + Z.to_nat (len - c))%nat by lia.
    rewrite user_read_chunk by (done || lia).
    replace (u64 (va + Z.of_nat (Z.to_nat c))) with (u64 (va + c)) by (f_equal; lia).
    assert (user_read (k_mem k) pt (u64 (PGROUNDDOWN va + PGSIZE)) (Z.to_nat (len - c)) =
            user_read (k_mem k) pt (u64 (va + c)) (Z.to_nat (len - c))) as ->.
    { destruct (decide (c < len)) as [Hl|Hl]; [|by replace (len - c) with 0 by lia].
      rewrite (Hc3 Hl). by rewrite next_page. }
    destruct (user_read _ _ (u64 (va + c)) _) as [r bs]. unfold ret. do 4 f_equal. unfold uaddr.
    pose proof (pgdown_split va). lia.
Qed.

(** copyin() is a loop over single bytes.  Whatever the address, the length
    and the page table, copyin() leaves the state as it is and returns what
    loading one byte after the other through the translation of user pages
    gives: the bytes, if all of them are on pages that the user may access, and
    -1 otherwise. *)
Theorem copyin_bytewise pt va len k :
  0 <= va < 2 ^ 64 -> 0 <= len ->
  copyin pt va len k = Ok (user_read (k_mem k) pt va (Z.to_nat len)) k.
Proof. intros. unfold copyin. apply copyin_loop_run; [done|done|lia]. Qed.

(** ** copyinstr() *)

Lemma user_str_page m pt va n (c : nat) : forall (i : nat) max,
  0 <= va < 2 ^ 64 -> Z.of_nat (i + c) <= PGSIZE - va mod PGSIZE -> upage m pt (PGROUNDDOWN va) <> 0 ->
  match copyinstr_page c m (uaddr m pt va + Z.of_nat i) max with
  | (bs, max', true) => user_str m pt (u64 (va + Z.of_nat i)) (c + n) = (0, bs)
  | (bs, max', false) => max' = max - Z.of_nat c /\
      user_str m pt (u64 (va + Z.of_nat i)) (c + n) =
        let '(r, bs') := user_str m pt (u64 (va + Z.of_nat (i + c))) n in (r, bs ++ bs')
  end.
Proof.
  induction c as [|c IH]; intros i max Hva Hi Hp; cbn [Nat.add user_str copyinstr_page].
  - rewrite Nat.add_0_r. split; [lia|]. by destruct (user_str _ _ _ n).
  - rewrite user_ld_page by (done || lia). destruct (ld8 m _ =? 0) eqn:E; [done|].
    specialize (IH (S i) (max - 1) Hva ltac:(lia) Hp). rewrite u64_step.
    replace (Z.of_nat i + 1) with (Z.of_nat (S i)) by lia.
    replace (uaddr m pt va + Z.of_nat (S i)) with (uaddr m pt va + Z.of_nat i + 1) in IH by lia.
    replace (S i + c)%nat with (i + S c)%nat in IH by lia.
    destruct (copyinstr_page c m _ (max - 1)) as [[bs max'] []].
    + by rewrite IH.
    + destruct IH as [-> ->]. split; [lia|]. by destruct (user_str m pt _ n).
Qed.

Lemma copyinstr_loop_run n pt : forall va max k,
  0 <= va < 2 ^ 64 -> 0 <= max -> max < Z.of_nat n ->
  copyinstr_loop n pt va max k = Ok (user_str (k_mem k) pt va (Z.to_nat max)) k.
Proof.
  induction n as [|n IH]; intros va max k Hva Hmax Hn; [lia|]. cbn [copyinstr_loop].
  destruct (0 <? max) eqn:E; b2p; [|by replace (Z.to_nat max) with 0%nat by lia].
  eapply bind_eq; [apply walkaddr_run|].
  destruct (upage (k_mem k) pt (PGROUNDDOWN va) =? 0) eqn:Ep; b2p.
  - replace (Z.to_nat max) with (S (Z.to_nat (max - 1))) by lia. cbn [user_str]. unfold user_ld.
    by rewrite Ep.
  - destruct (chunk va max Hva E) as (Hc & Hc2 & Hc3). set (c := if _ >? _ then _ else _) in *. kstep.
    pose proof (user_str_page (k_mem k) pt va (Z.to_nat (max - c)) (Z.to_nat c) 0 max Hva ltac:(lia) Ep) as H.
    rewrite u64_idem, Z.add_0_r in H by done.
    replace (upage (k_mem k) pt (PGROUNDDOWN va) + (va - PGROUNDDOWN va)) with (uaddr (k_mem k) pt va)
      by (unfold uaddr; pose proof (pgdown_split va); lia).
    replace (Z.to_nat c + Z.to_nat (max - c))%nat with (Z.to_nat max) in H by lia.
    destruct (copyinstr_page _ _ _ max) as [[bs max'] []]; [by rewrite H|].
    destruct H as [-> ->]. replace (max - Z.of_nat (Z.to_nat c)) with (max - c) by lia.
    eapply bind_eq; [apply IH; [apply u64_range|lia|lia]|].
    replace (va + Z.of_nat (0 + Z.to_nat c)) with (va + c) by lia.
    assert (user_str (k_mem k) pt (u64 (PGROUNDDOWN va + PGSIZE)) (Z.to_nat (max - c)) =
            user_str (k_mem k) pt (u64 (va + c)) (Z.to_nat (max - c))) as ->.
    { destruct (decide (c < max)) as [Hl|Hl]; [|by replace (max - c) with 0 by lia].
      rewrite (Hc3 Hl). by rewrite next_page. }
    by destruct (user_str _ _ (u64 (va + c)) _) as [r bs'].
Qed.

(** copyinstr() stops at the NUL.  It leaves the state as it is and returns
    what loading byte after byte through the translation gives: the string with
    its NUL if one is among the first [max] bytes and all bytes up to it are
    accessible to the user, and -1 otherwise. *)
Theorem copyinstr_bytewise pt va max k :
  0 <= va < 2 ^ 64 -> 0 <= max ->
  copyinstr pt va max k = Ok (user_str (k_mem k) pt va (Z.to_nat max)) k.
Proof. intros. unfold copyinstr. apply copyinstr_loop_run; [done|done|lia]. Qed.

(** ** copyout() *)

Lemma upage_ext m m' pt va :
  (forall x, in_tables m pt x -> ld8 m' x = ld8 m x) -> upage m' pt va = upage m pt va.
Proof.
  intros H. unfold upage. destruct (MAXVA <=? va); [done|].
  assert (ld64 m' (pt + 8 * PX 2 va) = ld64 m (pt + 8 * PX 2 va)) as E2.
  { apply ld64_ext. intros x Hx. apply H. exists va. by left. }
  unfold leaf_addr. rewrite E2. cbv zeta. destruct (pte_valid (ld64 m (pt + 8 * PX 2 va))) eqn:V2; [|done].
  set (t1 := PTE2PA (ld64 m (pt + 8 * PX 2 va))) in *.
  assert (ld64 m' (t1 + 8 * PX 1 va) = ld64 m (t1 + 8 * PX 1 va)) as E1.
  { apply ld64_ext. intros x Hx. apply H. exists va. right. by left. }
  rewrite E1. destruct (pte_valid (ld64 m (t1 + 8 * PX 1 va))) eqn:V1; [|done].
  set (a := PTE2PA (ld64 m (t1 + 8 * PX 1 va)) + 8 * PX 0 va) in *.
  change (default 0 (Some a)) with a.
  assert (ld64 m' a = ld64 m a) as ->; [|done].
  apply ld64_ext. intros x Hx. apply H. exists va. right. by right.
Qed.

(** Writing the bytes of one page. *)
Lemma user_write_page m0 pt va bs2 bs1 : forall (i : nat) m,
  0 <= va < 2 ^ 64 -> Z.of_nat (i + length bs1) <= PGSIZE - va mod PGSIZE ->
  upage m0 pt (PGROUNDDOWN va) <> 0 ->
  user_write m0 m pt (u64 (va + Z.of_nat i)) (bs1 ++ bs2) =
    user_write m0 (stbytes m (uaddr m0 pt va + Z.of_nat i) bs1) pt (u64 (va + Z.of_nat (i + length bs1))) bs2.
Proof.
  induction bs1 as [|b bs1 IH]; intros i m Hva Hi Hp; cbn [app user_write stbytes length] in *.
  - by rewrite Nat.add_0_r.
  - destruct (same_page va (Z.of_nat i) Hva ltac:(lia)) as (E1 & E2 & E3).
    rewrite E1, E2. rewrite (proj2 (Z.eqb_neq _ _)) by done.
    replace (u64 (va + Z.of_nat i + 1)) with (u64 (va + Z.of_nat (S i))) by (f_equal; lia).
    rewrite IH by (done || lia). replace (S i + length bs1)%nat with (i + S (length bs1))%nat by lia.
    do 2 f_equal; [|lia]. unfold uaddr. rewrite E2, E3. f_equal. lia.
Qed.

(** The bytes that a write of [n] bytes at [va] stores to are not the page
    table's. *)
Definition clear_of_tables (m : mem) (pt va : Z) (n : nat) : Prop :=
  forall i, (i < n)%nat -> upage m pt (PGROUNDDOWN (u64 (va + Z.of_nat i))) <> 0 ->
    ~ in_tables m pt (uaddr m pt (u64 (va + Z.of_nat i))).

Lemma copyout_loop_run n pt m0 : forall va bs k,
  0 <= va < 2 ^ 64 -> (length bs < n)%nat -> clear_of_tables m0 pt va (length bs) ->
  (forall x, in_tables m0 pt x -> ld8 (k_mem k) x = ld8 m0 x) ->
  copyout_loop n pt va bs k =
    let '(r, m') := user_write m0 (k_mem k) pt va bs in Ok r (set_k_mem m' k).
Proof.
  induction n as [|n IH]; intros va bs k Hva Hn Hc Hm; [lia|]. cbn [copyout_loop].
  destruct bs as [|b bs]; [done|]. set (src := b :: bs) in *.
  assert (0 < length src)%nat as Hpos by (cbn; lia).
  eapply bind_eq; [apply walkaddr_run|]. rewrite (upage_ext m0) by done.
  destruct (upage m0 pt (PGROUNDDOWN va) =? 0) eqn:Ep.
  { unfold src. cbn [user_write]. by rewrite Ep. }
  b2p. destruct (chunk va (Z.of_nat (length src)) Hva ltac:(lia)) as (Hc1 & Hc2 & Hc3).
  set (c := if _ >? _ then _ else _) in *. kstep.
  set (bs1 := take (Z.to_nat c) src). set (bs2 := drop (Z.to_nat c) src).
  assert (length bs1 = Z.to_nat c) as L1 by (unfold bs1; rewrite length_take; lia).
  assert (length bs2 = (length src - Z.to_nat c)%nat) as L2 by (unfold bs2; by rewrite length_drop).
  replace (upage m0 pt (PGROUNDDOWN va) + (va - PGROUNDDOWN va)) with (uaddr m0 pt va)
    by (unfold uaddr; pose proof (pgdown_split va); lia).
  set (k1 := set_k_mem _ k).
  pose proof (user_write_page m0 pt va bs2 bs1 0 (k_mem k) Hva ltac:(lia) Ep) as Hw.
  rewrite u64_idem, Z.add_0_r in Hw by done. assert (bs1 ++ bs2 = src) as Esrc by apply take_drop.
  rewrite Esrc in Hw. rewrite Hw.
  rewrite L1. cbn [Nat.add]. replace (Z.of_nat (Z.to_nat c)) with c by lia.
  assert (forall x, in_tables m0 pt x -> ld8 (k_mem k1) x = ld8 m0 x) as Hm1.
  { intros x Hx. rewrite <- Hm by done. cbn. apply ld8_stbytes_out. rewrite L1.
    destruct (decide (x < uaddr m0 pt va \/ uaddr m0 pt va + Z.of_nat (Z.to_nat c) <= x)); [done|].
    exfalso. set (i := x - uaddr m0 pt va). destruct (same_page va i Hva ltac:(lia)) as (E1 & E2 & E3).
    apply (Hc (Z.to_nat i)); [lia|..]; replace (Z.of_nat (Z.to_nat i)) with i by lia; rewrite E1.
    - by rewrite E2.
    - replace (uaddr m0 pt (va + i)) with x; [done|]. unfold uaddr in *. rewrite E2, E3. lia. }
  destruct (decide (bs2 = [])) as [E|Hne].
  { rewrite E. destruct n; [lia|]. done. }
  assert (u64 (PGROUNDDOWN va + PGSIZE) = u64 (va + c)) as Hu.
  { assert (length bs2 <> 0)%nat by (intros E; by apply nil_length_inv in E).
    rewrite Hc3, next_page; [done|done|lia]. }
  rewrite Hu. rewrite (IH (u64 (va + c)) bs2 k1); [done|apply u64_range|lia| |done].
  intros i Hi. specialize (Hc (Z.to_nat c + i)%nat ltac:(lia)).
  replace (u64 (u64 (va + c) + Z.of_nat i)) with (u64 (va + Z.of_nat (Z.to_nat c + i))) by (unfold u64; zdm).
  exact Hc.
Qed.

(** What a write leaves in memory. *)
Lemma user_write_run m0 pt bs : forall va m,
  0 <= va < 2 ^ 64 ->
  (forall i, (i < length bs)%nat -> upage m0 pt (PGROUNDDOWN (u64 (va + Z.of_nat i))) <> 0) ->
  (forall i j, (i < length bs)%nat -> (j < length bs)%nat ->
     uaddr m0 pt (u64 (va + Z.of_nat i)) = uaddr m0 pt (u64 (va + Z.of_nat j)) -> i = j) ->
  exists m', user_write m0 m pt va bs = (0, m') /\
    (forall i b, bs !! i = Some b -> ld8 m' (uaddr m0 pt (u64 (va + Z.of_nat i))) = b) /\
    (forall x, (forall i, (i < length bs)%nat -> x <> uaddr m0 pt (u64 (va + Z.of_nat i))) -> ld8 m' x = ld8 m x).
Proof.
  induction bs as [|b bs IH]; intros va m Hva Hp Hinj; cbn [user_write length] in *.
  { exists m. split_and!; done. }
  pose proof (Hp 0%nat ltac:(lia)) as Hp0. rewrite u64_idem in Hp0 by done.
  rewrite (proj2 (Z.eqb_neq _ _)) by done.
  assert (forall i, u64 (u64 (va + 1) + Z.of_nat i) = u64 (va + Z.of_nat (S i))) as Eu
    by (intros i; unfold u64; zdm).
  destruct (IH (u64 (va + 1)) (st8 m (uaddr m0 pt va) b)) as (m' & E & Hin & Hout).
  - apply u64_range.
  - intros i Hi. rewrite Eu. apply Hp. lia.
  - intros i j Hi Hj. rewrite !Eu. intros H. apply Hinj in H; lia.
  - exists m'. split; [done|]. split.
    + intros [|i] b' Hb'; cbn in Hb'.
      * injection Hb' as ->. rewrite u64_idem by done. rewrite Hout; [apply ld8_st8_eq|].
        intros i Hi. rewrite Eu. rewrite <- (u64_idem va) at 1 by done.
        intros H. apply Hinj in H; lia.
      * rewrite <- Eu. by apply Hin.
    + intros x Hx. rewrite Hout.
      * apply ld8_st8_ne. intros H. apply (Hx 0%nat); [lia|]. by rewrite u64_idem.
      * intros i Hi. rewrite Eu. apply Hx. lia.
Qed.

Lemma user_read_all m pt bs : forall va,
  0 <= va < 2 ^ 64 ->
  (forall i b, bs !! i = Some b -> user_ld m pt (u64 (va + Z.of_nat i)) = Some b) ->
  user_read m pt va (length bs) = (0, bs).
Proof.
  induction bs as [|b bs IH]; intros va Hva H; cbn [length user_read]; [done|].
  pose proof (H 0%nat b eq_refl) as H0. rewrite u64_idem in H0 by done. rewrite H0, IH; [done|apply u64_range|].
  intros i b' Hb'. replace (u64 (u64 (va + 1) + Z.of_nat i)) with (u64 (va + Z.of_nat (S i))) by (unfold u64; zdm).
  by apply H.
Qed.

(** C25: what copyout() writes, copyin() reads.  If all the bytes of the
    destination are on user pages, no two of them at the same place in memory
    and none in the page table itself, then copyout() returns 0, changes just
    those bytes of memory, and a copyin() from the same place returns the
    bytes; on the way the translation of no user address changes. *)
Theorem copyout_copyin pt va bs k :
  0 <= va < 2 ^ 64 ->
  (forall i, (i < length bs)%nat -> upage (k_mem k) pt (PGROUNDDOWN (u64 (va + Z.of_nat i))) <> 0) ->
  (forall i j, (i < length bs)%nat -> (j < length bs)%nat ->
     uaddr (k_mem k) pt (u64 (va + Z.of_nat i)) = uaddr (k_mem k) pt (u64 (va + Z.of_nat j)) -> i = j) ->
  clear_of_tables (k_mem k) pt va (length bs) ->
  exists k', copyout pt va bs k = Ok 0 k' /\
    copyin pt va (Z.of_nat (length bs)) k' = Ok (0, bs) k' /\
    (forall a, upage (k_mem k') pt a = upage (k_mem k) pt a) /\
    (forall x, (forall i, (i < length bs)%nat -> x <> uaddr (k_mem k) pt (u64 (va + Z.of_nat i))) ->
       ld8 (k_mem k') x = ld8 (k_mem k) x) /\
    k' = set_k_mem (k_mem k') k.
Proof.
  intros Hva Hp Hinj Hc.
  destruct (user_write_run (k_mem k) pt bs va (k_mem k) Hva Hp Hinj) as (m' & E & Hin & Hout).
  exists (set_k_mem m' k). cbn [k_mem set_k_mem].
  assert (forall a, upage m' pt a = upage (k_mem k) pt a) as Hu.
  { intros a. apply upage_ext. intros x Hx. apply Hout. intros i Hi ->.
    apply (Hc i Hi); [by apply Hp|done]. }
  split_and!; [| |done|done|done].
  - unfold copyout. rewrite (copyout_loop_run _ _ (k_mem k)) by (done || lia). by rewrite E.
  - unfold copyin. rewrite copyin_loop_run by (done || lia). cbn [k_mem set_k_mem]. rewrite Nat2Z.id.
    rewrite user_read_all; [done|done|]. intros i b Hb. pose proof (lookup_lt_Some _ _ _ Hb) as Hi.
    unfold user_ld. rewrite Hu. rewrite (proj2 (Z.eqb_neq _ _)) by (by apply Hp).
    unfold uaddr at 1. rewrite Hu. f_equal. by apply Hin.
Qed.

End vmspec.
