(* ===== verification/VmMap.v ===== *)
(** What the operations of kernel/vm.c that build page tables do to an address
    space.  The pages of a page table form a tree in memory; [vm] says that the
    tree shares no page with itself or with the free list.  mappages(),
    uvmunmap(), uvmalloc() and uvmcopy() are then described by the PTE that
    they leave for every virtual address, and by where every page of memory
    goes. *)
From S2P Require Import Prelude CInt KState KString Riscv Kalloc Vm VmSpec.

(** * The tree of tables *)

Definition sub (m : mem) (t i : Z) : option Z :=
  let v := ld64 m (t + 8 * i) in
  if pte_valid v then Some (PTE2PA v) else None.

(** The table reached from the root by the indexes of [p], the last one first. *)
Fixpoint tbl (m : mem) (pt : Z) (p : list Z) : option Z :=
  match p with
  | [] => Some pt
  | i :: q =>
      if (0 <=? i) && (i <? 512) && (length q <? 2)%nat then (t ← tbl m pt q; sub m t i) else None
  end.

(** The last-level PTE of a virtual address; 0, which is not valid, if there is
    no last-level table. *)
Definition pte_of (m : mem) (pt va : Z) : Z :=
  match tbl m pt [PX 1 va; PX 2 va] with
  | Some t => ld64 m (t + 8 * PX 0 va)
  | None => 0
  end.

(** The states differ in the pages of [S] and in the free list only. *)
Definition same_outside (S : list Z) (k k' : K) : Prop :=
  (forall x, (forall a, a ∈ S -> x < a \/ a + PGSIZE <= x) -> ld8 (k_mem k') x = ld8 (k_mem k) x) /\
  k' = set_k_freelist (k_freelist k') (set_k_mem (k_mem k') k).

Section vmmap.
Context {P : Platform}.

(** The tables of [pt] are the pages of [T], the free pages those of [l]. *)
Record vm (pt : Z) (T l : list Z) (k : K) : Prop := {
  vm_kmem : kmem_inv l k;
  vm_lock : L_kmem ∉ k_held k;
  vm_in : forall p a, tbl (k_mem k) pt p = Some a -> a ∈ T;
  vm_inj : forall p q a, tbl (k_mem k) pt p = Some a -> tbl (k_mem k) pt q = Some a -> p = q;
  vm_ok : Forall page_ok T;
  vm_nodup : NoDup (T ++ l)
}.

(** ** Pages and PTEs *)

Lemma page_ok_range a : 0 < sym_end -> page_ok a -> 0 < a < 2 ^ 56 /\ a mod PGSIZE = 0.
Proof. intros H [? ?]. unfold PHYSTOP, KERNBASE in *. split; [lia|done]. Qed.

Lemma pte_valid_lor x : pte_valid (Z.lor x PTE_V) = true.
Proof.
  unfold pte_valid. apply negb_true_iff, Z.eqb_neq. rewrite Z.land_lor_distr_l.
  change (Z.land PTE_V PTE_V) with 1. rewrite Z.lor_eq_0_iff. lia.
Qed.

Lemma flags_valid v : pte_valid v = true -> Z.lor (PTE_FLAGS v) PTE_V = PTE_FLAGS v.
Proof.
  unfold pte_valid. intros Hv%negb_true_iff%Z.eqb_neq. change PTE_V with (Z.ones 1) in *.
  rewrite Z.land_ones, <- Z.bit0_mod in Hv by lia.
  apply Z.bits_inj'. intros n Hn. rewrite Z.lor_spec. destruct (decide (n = 0)) as [->|Hn0].
  - unfold PTE_FLAGS. rewrite Z.land_spec. by destruct (Z.testbit v 0).
  - rewrite Z.ones_spec_high by lia. apply orb_false_r.
Qed.

Lemma entry_in_page i t : 0 <= i < 512 -> t <= t + 8 * i /\ t + 8 * i + 8 <= t + PGSIZE.
Proof. unfold PGSIZE. lia. Qed.

Lemma same_outside_refl S k : same_outside S k k.
Proof. split; [done|by destruct k]. Qed.

Lemma same_outside_trans S k1 k2 k3 :
  same_outside S k1 k2 -> same_outside S k2 k3 -> same_outside S k1 k3.
Proof.
  intros [H1 E1] [H2 E2]. split.
  - intros x Hx. by rewrite H2, H1.
  - rewrite E2, E1. done.
Qed.

Lemma same_outside_mono S S' k k' : S ⊆ S' -> same_outside S k k' -> same_outside S' k k'.
Proof. intros HS [H E]. split; [|done]. intros x Hx. apply H. intros a Ha. by apply Hx, HS. Qed.

Lemma same_outside_held S k k' : same_outside S k k' -> k_held k' = k_held k.
Proof. intros [_ ->]. done. Qed.

Lemma ld64_page_ext m m' t i :
  0 <= i < 512 -> (forall x, t <= x < t + PGSIZE -> ld8 m' x = ld8 m x) ->
  ld64 m' (t + 8 * i) = ld64 m (t + 8 * i).
Proof. intros Hi H. apply ld64_ext. intros x Hx. apply H. unfold PGSIZE. lia. Qed.

(** ** Tables *)

Lemma tbl_cons m pt i q t :
  0 <= i < 512 -> (length q < 2)%nat -> tbl m pt q = Some t -> tbl m pt (i :: q) = sub m t i.
Proof.
  intros Hi Hq%Nat.ltb_lt Ht. cbn [tbl]. rewrite Hq, Ht.
  by rewrite (proj2 (Z.leb_le _ _)), (proj2 (Z.ltb_lt _ _)) by lia.
Qed.

(** Writing a last-level entry changes no table. *)
Lemma tbl_leaf m m' pt :
  (forall q t' i, tbl m pt q = Some t' -> (length q < 2)%nat -> 0 <= i < 512 ->
     ld64 m' (t' + 8 * i) = ld64 m (t' + 8 * i)) ->
  forall q, tbl m' pt q = tbl m pt q.
Proof.
  intros H. induction q as [|j q IH]; cbn [tbl]; [done|].
  destruct ((0 <=? j) && (j <? 512) && (length q <? 2)%nat) eqn:E; [|done]. b2p. rewrite IH.
  destruct (tbl m pt q) as [t'|] eqn:Et; cbn [mbind option_bind]; [|done].
  unfold sub. by rewrite (H q).
Qed.

(** ** Steps of the allocator and of a page table *)

(** From [k] to [k'] the page table may have taken pages from the free list. *)
Record grows (pt : Z) (T l : list Z) (k : K) (T' l' : list Z) (k' : K) : Prop := {
  gr_vm : vm pt T' l' k';
  gr_pages : T ++ l ≡ₚ T' ++ l';
  gr_mem : same_outside (T ++ l) k k'
}.

Lemma grows_refl pt T l k : vm pt T l k -> grows pt T l k T l k.
Proof. intros V. split; [done|done|apply same_outside_refl]. Qed.

Lemma grows_trans pt T1 l1 k1 T2 l2 k2 T3 l3 k3 :
  grows pt T1 l1 k1 T2 l2 k2 -> grows pt T2 l2 k2 T3 l3 k3 -> grows pt T1 l1 k1 T3 l3 k3.
Proof.
  intros [V1 P1 M1] [V2 P2 M2]. split; [done|by rewrite P1|].
  apply (same_outside_trans _ _ k2); [done|].
  eapply same_outside_mono, M2. intros a. by rewrite P1.
Qed.

Lemma vm_page pt T l k p t : vm pt T l k -> tbl (k_mem k) pt p = Some t -> page_ok t.
Proof. intros V H. pose proof (vm_ok _ _ _ _ V) as F. rewrite list.Forall_forall in F. eapply F, vm_in; done. Qed.

Lemma vm_aligned pt T l k p t : vm pt T l k -> tbl (k_mem k) pt p = Some t -> 0 < t < 2 ^ 56 /\ t mod PGSIZE = 0.
Proof. intros V H. apply page_ok_range; [apply (vm_kmem _ _ _ _ V)|by eapply vm_page]. Qed.

(** The memory after walk() has made a page into a table. *)
Definition new_table (m : mem) (pte a : Z) : mem :=
  st64 (memset (memset m a 5 PGSIZE) a 0 PGSIZE) pte (Z.lor (PA2PTE a) PTE_V).

Lemma new_table_out m pte a x :
  (x < a \/ a + PGSIZE <= x) -> (x < pte \/ pte + 8 <= x) -> ld8 (new_table m pte a) x = ld8 m x.
Proof.
  intros. unfold new_table. rewrite st64_out by done. by rewrite !ld8_memset_out by (done || unfold PGSIZE; lia).
Qed.

Lemma new_table_in m pte a x :
  a <= x < a + PGSIZE -> (x < pte \/ pte + 8 <= x) -> ld8 (new_table m pte a) x = 0.
Proof. intros. unfold new_table. rewrite st64_out by done. by rewrite ld8_memset_in. Qed.

Lemma new_table_sub m t i a :
  0 <= a < 2 ^ 56 -> a mod PGSIZE = 0 -> sub (new_table m (t + 8 * i) a) t i = Some a.
Proof.
  intros Ha Hal. unfold sub, new_table.
  rewrite ld64_st64_eq by (apply PTE_range; [done|by compute]).
  rewrite pte_valid_lor, PTE2PA_PA2PTE; [done..|by compute].
Qed.

Lemma walk_level_run_alloc level t va a l k :
  kmem_inv (a :: l) k -> L_kmem ∉ k_held k -> sub (k_mem k) t (PX level va) = None ->
  walk_level level t va true k =
    Ok (Some a) (set_k_freelist (ld64 (k_mem k) a) (set_k_mem (new_table (k_mem k) (t + 8 * PX level va) a) k)).
Proof.
  intros Hk Hh Hs. destruct (kalloc_inv a l k Hk) as [Hf _].
  destruct Hk as (He & (_ & Hok & _) & _). apply page_ok_range in Hok as [Hok _]; [|done].
  unfold walk_level. kstep. unfold sub, pte_valid in Hs. destruct (negb _); [done|]. cbn [negb].
  eapply bind_eq; [apply kalloc_run; [lia|done]|]. rewrite Hf. rewrite (proj2 (Z.eqb_neq _ _)) by lia.
  by ksteps.
Qed.

(** A table and a free page are different pages. *)
Lemma vm_free_page pt T l k a : vm pt T l k -> a ∈ l -> 0 < a < 2 ^ 56 /\ a mod PGSIZE = 0.
Proof.
  intros V Ha. destruct (vm_kmem _ _ _ _ V) as (He & Hc & _).
  apply page_ok_range; [done|]. by eapply free_chain_page_ok.
Qed.

Lemma vm_disjoint pt T l k q t a :
  vm pt T l k -> tbl (k_mem k) pt q = Some t -> a ∈ l -> t + PGSIZE <= a \/ a + PGSIZE <= t.
Proof.
  intros V Hq Ha. apply page_apart; [by eapply vm_aligned|by eapply vm_free_page|].
  intros ->. pose proof (vm_nodup _ _ _ _ V) as (_ & Hd & _)%list.NoDup_app.
  by apply (Hd a); [eapply vm_in|].
Qed.

Lemma vm_apart pt T l k q q' t t' :
  vm pt T l k -> tbl (k_mem k) pt q = Some t -> tbl (k_mem k) pt q' = Some t' -> q <> q' ->
  t + PGSIZE <= t' \/ t' + PGSIZE <= t.
Proof.
  intros V H H' Hne. apply page_apart; [by eapply vm_aligned..|]. intros ->. by apply Hne, (vm_inj _ _ _ _ V _ _ t').
Qed.

Section new_table.
Context (pt : Z) (T : list Z) (a : Z) (l : list Z) (k : K) (p : list Z) (t i : Z).
Hypothesis V : vm pt T (a :: l) k.
Hypothesis Ht : tbl (k_mem k) pt p = Some t.
Hypothesis Hp : (length p < 2)%nat.
Hypothesis Hi : 0 <= i < 512.
Hypothesis Hs : sub (k_mem k) t i = None.

Let m' := new_table (k_mem k) (t + 8 * i) a.
Let k' := set_k_freelist (ld64 (k_mem k) a) (set_k_mem m' k).

Lemma new_table_same x :
  (x < a \/ a + PGSIZE <= x) -> (x < t \/ t + PGSIZE <= x) -> ld8 m' x = ld8 (k_mem k) x.
Proof. intros. pose proof (entry_in_page i t Hi). apply new_table_out; lia. Qed.

Lemma new_table_zero j : 0 <= j < 512 -> ld64 m' (a + 8 * j) = 0.
Proof.
  intros Hj. apply ld64_zero. intros x Hx. pose proof (entry_in_page i t Hi).
  pose proof (vm_disjoint _ _ _ _ _ _ a V Ht ltac:(set_solver)).
  apply new_table_in; unfold PGSIZE in *; lia.
Qed.

Lemma new_table_entry q t' j :
  tbl (k_mem k) pt q = Some t' -> (q, j) <> (p, i) -> 0 <= j < 512 ->
  ld64 m' (t' + 8 * j) = ld64 (k_mem k) (t' + 8 * j).
Proof.
  intros Hq Hne Hj. apply ld64_ext. intros x Hx. pose proof (entry_in_page i t Hi).
  pose proof (vm_disjoint _ _ _ _ _ _ a V Hq ltac:(set_solver)) as Hd. unfold PGSIZE in Hd.
  apply new_table_out; [unfold PGSIZE; lia|]. destruct (decide (q = p)) as [->|Hqp].
  - rewrite Ht in Hq. injection Hq as <-. assert (i <> j) by congruence. lia.
  - pose proof (vm_apart _ _ _ _ _ _ _ _ V Hq Ht Hqp). unfold PGSIZE in *. lia.
Qed.

Lemma new_table_tbl q : tbl m' pt q = if decide (q = i :: p) then Some a else tbl (k_mem k) pt q.
Proof.
  destruct (vm_free_page _ _ _ _ a V ltac:(set_solver)) as [Har Haa].
  induction q as [|j q IH]; cbn [tbl]; [done|].
  destruct ((0 <=? j) && (j <? 512) && (length q <? 2)%nat) eqn:E.
  2:{ rewrite decide_False; [done|]. injection 1 as -> ->. apply Nat.ltb_lt in Hp. rewrite Hp in E. lia. }
  b2p. rewrite IH. destruct (decide (q = i :: p)) as [->|Hq].
  - rewrite decide_False by (intros [= _ Hc]; apply (f_equal length) in Hc; cbn in Hc; lia).
    cbn [mbind option_bind tbl]. unfold sub at 1. rewrite new_table_zero by lia. rewrite Ht. cbn [mbind option_bind].
    rewrite Hs. by match goal with |- context [if ?b then None else None] => destruct b end.
  - destruct (tbl (k_mem k) pt q) as [t'|] eqn:Et; cbn [mbind option_bind].
    2:{ rewrite decide_False; [done|]. injection 1 as -> ->. congruence. }
    destruct (decide (j :: q = i :: p)) as [[= -> ->]|Hne].
    { rewrite Ht in Et. injection Et as <-. apply new_table_sub; [lia|done]. }
    unfold sub. rewrite (new_table_entry q); [done|done|congruence|lia].
Qed.

Lemma new_table_kmem : kmem_inv l k'.
Proof.
  destruct (kalloc_inv a l k (vm_kmem _ _ _ _ V)) as [_ (He & Hc & Hnl)].
  split_and!; [done| |done]. cbn [k_freelist k_mem k' set_k_freelist set_k_mem].
  eapply free_chain_ext; [|exact Hc]. intros b x Hb Hxb.
  assert (b <> a) as Hba.
  { intros ->. by pose proof (vm_nodup _ _ _ _ V) as (_ & _ & [? _]%list.NoDup_cons)%list.NoDup_app. }
  pose proof (vm_disjoint _ _ _ _ _ _ b V Ht ltac:(set_solver)).
  destruct (vm_free_page _ _ _ _ a V ltac:(set_solver)) as [_ Haa].
  destruct (vm_free_page _ _ _ _ b V ltac:(set_solver)) as [_ Hbb].
  pose proof (page_apart b a Hbb Haa Hba).
  rewrite new_table_same by lia. cbn [k_mem set_k_mem set_k_freelist]. by rewrite ld8_memset_out by lia.
Qed.

Lemma new_table_grows : grows pt T (a :: l) k (a :: T) l k'.
Proof.
  assert (forall q, tbl (k_mem k) pt q <> Some a) as Hna.
  { intros q Hq. pose proof (vm_disjoint _ _ _ _ _ _ a V Hq ltac:(set_solver)). unfold PGSIZE in *. lia. }
  split; [split| |].
  - exact new_table_kmem.
  - exact (vm_lock _ _ _ _ V).
  - intros q b. change (k_mem k') with m'. rewrite new_table_tbl. case_decide; [intros [= <-]; set_solver|].
    intros Hq. apply elem_of_cons. right. by eapply vm_in.
  - intros q q' b. change (k_mem k') with m'. rewrite !new_table_tbl. do 2 case_decide; subst; [done|..].
    + intros [= <-] Hq. by apply Hna in Hq.
    + intros Hq [= <-]. by apply Hna in Hq.
    + apply (vm_inj _ _ _ _ V).
  - constructor; [|apply (vm_ok _ _ _ _ V)]. by destruct (vm_kmem _ _ _ _ V) as (_ & (_ & ? & _) & _).
  - cbn. rewrite Permutation_middle. apply (vm_nodup _ _ _ _ V).
  - cbn. by rewrite Permutation_middle.
  - split; [|done]. intros x H. apply new_table_same; apply H; [set_solver|].
    apply elem_of_app. left. by eapply vm_in.
Qed.

(** No PTE changes: those of the new table were not there before. *)
Lemma new_table_pte va : pte_of m' pt va = pte_of (k_mem k) pt va.
Proof.
  unfold pte_of. rewrite new_table_tbl. pose proof (PX_range 0 va ltac:(lia)).
  case_decide as E.
  - rewrite new_table_zero by done. rewrite E. cbn [tbl]. rewrite Ht. cbn [mbind option_bind]. rewrite Hs.
    by match goal with |- context [if ?b then None else None] => destruct b end.
  - destruct (tbl (k_mem k) pt [PX 1 va; PX 2 va]) as [t'|] eqn:Et; [|done]. apply new_table_entry with (1 := Et); [|done].
    intros [= Hc _]. apply (f_equal length) in Hc. cbn in Hc. lia.
Qed.
End new_table.

Lemma walk_level_alloc level pt T l k p t va :
  vm pt T l k -> tbl (k_mem k) pt p = Some t -> (length p < 2)%nat -> 0 <= level ->
  exists r k' T' l', walk_level level t va true k = Ok r k' /\ grows pt T l k T' l' k' /\
    (forall va', pte_of (k_mem k') pt va' = pte_of (k_mem k) pt va') /\
    match r with
    | None => l' = []
    | Some t' => tbl (k_mem k') pt (PX level va :: p) = Some t'
    end.
Proof.
  intros V Ht Hp Hl. pose proof (PX_range level va Hl) as Hi.
  destruct (sub (k_mem k) t (PX level va)) as [t'|] eqn:Es.
  - exists (Some t'), k, T, l. split_and!; [|by apply grows_refl|done|].
    + unfold walk_level. kstep. unfold sub, pte_valid in Es. destruct (negb _); [|done]. by injection Es as <-.
    + by rewrite (tbl_cons _ _ _ _ t).
  - destruct l as [|a l].
    + exists None, k, T, []. split_and!; [|by apply grows_refl|done|done].
      destruct (vm_kmem _ _ _ _ V) as (_ & Hf & _).
      unfold walk_level. kstep. unfold sub, pte_valid in Es. destruct (negb _); [done|]. cbn [negb].
      eapply bind_eq; [apply kalloc_empty_run; [done|apply (vm_lock _ _ _ _ V)]|]. done.
    + eexists (Some a), _, (a :: T), l. split_and!.
      * apply (walk_level_run_alloc _ _ _ a l); [apply (vm_kmem _ _ _ _ V)|apply (vm_lock _ _ _ _ V)|done].
      * by apply (new_table_grows _ _ _ _ _ p).
      * intros va'. by apply (new_table_pte _ T _ l _ p).
      * cbn [k_mem set_k_mem set_k_freelist]. rewrite (new_table_tbl _ T _ l _ p) by done. by rewrite decide_True.
Qed.

Lemma walk_alloc pt T l k va :
  vm pt T l k -> va < MAXVA ->
  exists r k' T' l', walk pt va true k = Ok r k' /\ grows pt T l k T' l' k' /\
    (forall va', pte_of (k_mem k') pt va' = pte_of (k_mem k) pt va') /\
    ((r = 0 /\ l' = []) \/
     exists t, tbl (k_mem k') pt [PX 1 va; PX 2 va] = Some t /\ r = t + 8 * PX 0 va /\ r <> 0).
Proof.
  intros V Hva. unfold walk. rewrite (proj2 (Z.leb_gt _ _)) by done.
  destruct (walk_level_alloc 2 pt T l k [] pt va) as (r2 & k2 & T2 & l2 & E2 & G2 & Hp2 & H2); [done..|cbn; lia|lia|].
  destruct r2 as [t1|].
  2:{ exists 0, k2, T2, l2. split_and!; [by eapply bind_eq|done|done|by left]. }
  destruct (walk_level_alloc 1 pt T2 l2 k2 [PX 2 va] t1 va) as (r1 & k1 & T1 & l1 & E1 & G1 & Hp1 & H1);
    [by apply G2|done|cbn; lia|lia|].
  assert (grows pt T l k T1 l1 k1) as G by (by eapply grows_trans).
  destruct r1 as [t|].
  - exists (t + 8 * PX 0 va), k1, T1, l1. split_and!; [|done|by intros; rewrite Hp1|].
    + eapply bind_eq; [done|]. cbn. by eapply bind_eq.
    + right. exists t. split_and!; [done..|]. pose proof (vm_aligned _ _ _ _ _ _ (gr_vm _ _ _ _ _ _ _ G) H1).
      pose proof (PX_range 0 va ltac:(lia)). lia.
  - exists 0, k1, T1, l1. split_and!; [|done|by intros; rewrite Hp1|by left].
    eapply bind_eq; [done|]. cbn. by eapply bind_eq.
Qed.

(** ** Last-level PTEs *)

Lemma leaf_tbl m pt va :
  leaf_addr m pt va = (fun t => t + 8 * PX 0 va) <$> tbl m pt [PX 1 va; PX 2 va].
Proof.
  unfold leaf_addr. cbn [tbl length]. pose proof (PX_range 1 va ltac:(lia)). pose proof (PX_range 2 va ltac:(lia)).
  rewrite !(proj2 (Z.leb_le _ _)), !(proj2 (Z.ltb_lt _ _)) by lia. cbn [andb Nat.ltb Nat.leb mbind option_bind].
  unfold sub. destruct (pte_valid _); cbn [mbind option_bind]; [|done]. by destruct (pte_valid _).
Qed.

Lemma walk_find pt T l k va : vm pt T l k -> va < MAXVA ->
  exists r, walk pt va false k = Ok r k /\
    ((r = 0 /\ pte_of (k_mem k) pt va = 0) \/
     exists t, tbl (k_mem k) pt [PX 1 va; PX 2 va] = Some t /\ r = t + 8 * PX 0 va /\ r <> 0).
Proof.
  intros V Hva. eexists. split; [by apply walk_run|]. rewrite leaf_tbl. unfold pte_of.
  destruct (tbl _ _ _) as [t|] eqn:Et; cbn; [right|by left].
  exists t. split_and!; [done..|]. pose proof (vm_aligned _ _ _ _ _ _ V Et).
  pose proof (PX_range 0 va ltac:(lia)). lia.
Qed.

Lemma upage_pte pt T l k va : vm pt T l k -> va < MAXVA ->
  upage (k_mem k) pt va =
    let v := pte_of (k_mem k) pt va in
    if pte_valid v && negb (Z.land v PTE_U =? 0) then PTE2PA v else 0.
Proof.
  intros V Hva. unfold upage. rewrite (proj2 (Z.leb_gt _ _)) by done. rewrite leaf_tbl. unfold pte_of.
  destruct (tbl _ _ _) as [t|] eqn:Et; cbn [default fmap option_fmap option_map]; [|done].
  pose proof (vm_aligned _ _ _ _ _ _ V Et). pose proof (PX_range 0 va ltac:(lia)).
  cbn. by rewrite (proj2 (Z.eqb_neq _ _)) by lia.
Qed.

(** The translation reads the pages of [T] only. *)
Lemma in_tables_vm pt T l k x :
  vm pt T l k -> in_tables (k_mem k) pt x -> exists t, t ∈ T /\ t <= x < t + PGSIZE.
Proof.
  intros V (va & H). cbv zeta in H.
  pose proof (PX_range 2 va ltac:(lia)). pose proof (PX_range 1 va ltac:(lia)). pose proof (PX_range 0 va ltac:(lia)).
  assert (forall q t i, tbl (k_mem k) pt q = Some t -> 0 <= i < 512 -> t + 8 * i <= x < t + 8 * i + 8 ->
    exists t, t ∈ T /\ t <= x < t + PGSIZE) as Hq.
  { intros q t i Ht Hi Hx. exists t. split; [by eapply vm_in|unfold PGSIZE; lia]. }
  set (v2 := ld64 (k_mem k) (pt + 8 * PX 2 va)) in *. set (v1 := ld64 (k_mem k) (PTE2PA v2 + 8 * PX 1 va)) in *.
  assert (pte_valid v2 = true -> tbl (k_mem k) pt [PX 2 va] = Some (PTE2PA v2)) as Ht1.
  { intros Hv. rewrite (tbl_cons _ _ _ [] pt) by (done || cbn; lia). unfold sub. fold v2. by rewrite Hv. }
  destruct H as [H|[[Hv H]|(Hv & Hv1 & H)]]; [exact (Hq [] pt (PX 2 va) eq_refl ltac:(done) H)|exact (Hq _ _ (PX 1 va) (Ht1 Hv) ltac:(done) H)|].
  refine (Hq [PX 1 va; PX 2 va] _ _ _ _ H); [|done].
  rewrite (tbl_cons _ _ _ [PX 2 va] (PTE2PA v2)) by (first [by apply Ht1|done|cbn; lia]). unfold sub. fold v1. by rewrite Hv1.
Qed.

(** A store to a last-level PTE. *)
Lemma vm_store pt T l k va t v :
  vm pt T l k -> tbl (k_mem k) pt [PX 1 va; PX 2 va] = Some t -> 0 <= v < 2 ^ 64 -> 0 <= va < MAXVA ->
  let k' := set_k_mem (st64 (k_mem k) (t + 8 * PX 0 va) v) k in
  grows pt T l k T l k' /\
  (forall va', 0 <= va' < MAXVA ->
     pte_of (k_mem k') pt va' = if decide (va' / PGSIZE = va / PGSIZE) then v else pte_of (k_mem k) pt va').
Proof.
  intros V Ht Hv Hva k'. pose proof (entry_in_page (PX 0 va) t (PX_range 0 va ltac:(lia))) as He.
  assert (forall q t' i, tbl (k_mem k) pt q = Some t' -> (q, i) <> ([PX 1 va; PX 2 va], PX 0 va) -> 0 <= i < 512 ->
    ld64 (k_mem k') (t' + 8 * i) = ld64 (k_mem k) (t' + 8 * i)) as Hent.
  { intros q t' i Hq Hne Hi. apply ld64_st64_ne. destruct (decide (q = [PX 1 va; PX 2 va])) as [->|Hn].
    - rewrite Ht in Hq. injection Hq as <-. assert (i <> PX 0 va) by congruence. unfold apart. lia.
    - pose proof (vm_apart _ _ _ _ _ _ _ _ V Ht Hq ltac:(done)). pose proof (entry_in_page i t' Hi). unfold apart. lia. }
  assert (forall q, tbl (k_mem k') pt q = tbl (k_mem k) pt q) as Htbl.
  { apply tbl_leaf. intros q t' i Hq Hl Hi. apply (Hent q); [done| |done]. intros [= -> _]. cbn in Hl. lia. }
  assert (forall x, (x < t \/ t + PGSIZE <= x) -> ld8 (k_mem k') x = ld8 (k_mem k) x) as Hx
    by (intros; apply st64_out; lia).
  split.
  - split; [split| |]; [|apply V|..|done|].
    + destruct (vm_kmem _ _ _ _ V) as (H1 & H2 & H3). split_and!; [done| |done].
      eapply free_chain_ext, H2. intros a x Ha Hxa. symmetry. apply Hx.
      pose proof (vm_disjoint _ _ _ _ _ _ a V Ht Ha). lia.
    + intros q a. rewrite Htbl. apply V.
    + intros q q' a. rewrite !Htbl. apply (vm_inj _ _ _ _ V).
    + apply V.
    + apply V.
    + split; [|done]. intros x H. apply Hx, H, elem_of_app. left. by eapply vm_in.
  - intros va' Hva'. unfold pte_of. rewrite Htbl. case_decide as E.
    + assert (PX 0 va' = PX 0 va /\ PX 1 va' = PX 1 va /\ PX 2 va' = PX 2 va) as (-> & -> & ->)
        by (apply PX_page; done).
      rewrite Ht. by apply ld64_st64_eq.
    + destruct (tbl (k_mem k) pt [PX 1 va'; PX 2 va']) as [t'|] eqn:Et; [|done].
      apply (Hent _ _ _ Et); [|apply PX_range; lia]. intros [= E1 E2 E3]. by apply E, PX_inj.
Qed.

(** ** mappages() *)

(** The PTE that mappages() makes for the page at [a'], [a] being mapped to
    [pa]. *)
Definition new_pte (a pa perm a' : Z) : Z :=
  Z.lor (Z.lor (PA2PTE (pa + (PGROUNDDOWN a' - a))) perm) PTE_V.

Lemma new_pte_range a pa perm a' :
  0 <= perm < 1024 -> 0 <= pa + (PGROUNDDOWN a' - a) < 2 ^ 56 -> 0 <= new_pte a pa perm a' < 2 ^ 64.
Proof.
  intros Hp Hpa. unfold new_pte. rewrite <- Z.lor_assoc. apply PTE_range; [done|].
  apply lor_flags; [done|by compute].
Qed.

Lemma new_pte_base a pa perm : a mod PGSIZE = 0 -> new_pte a pa perm a = Z.lor (Z.lor (PA2PTE pa) perm) PTE_V.
Proof. intros Ha. unfold new_pte. rewrite PGROUNDDOWN_aligned by done. by rewrite Z.sub_diag, Z.add_0_r. Qed.

Lemma pages_below a a' n :
  a mod PGSIZE = 0 -> a <= a' < a + Z.of_nat n * PGSIZE <-> a / PGSIZE <= a' / PGSIZE < a / PGSIZE + Z.of_nat n.
Proof. unfold PGSIZE. intros. zdm. Qed.

(** One turn of the loop. *)
Lemma mappages_turn fuel pt a last pa perm T l k :
  vm pt T l k -> a mod PGSIZE = 0 -> 0 <= a < MAXVA -> 0 <= perm < 1024 -> 0 <= pa < 2 ^ 56 ->
  pte_valid (pte_of (k_mem k) pt a) = false ->
  exists k' T' l', grows pt T l k T' l' k' /\
    ((mappages_loop (S fuel) pt a last pa perm k = Ok (-1) k' /\ l' = [] /\
      forall a', pte_of (k_mem k') pt a' = pte_of (k_mem k) pt a') \/
     (mappages_loop (S fuel) pt a last pa perm k =
        (if a =? last then ret 0 else mappages_loop fuel pt (u64 (a + PGSIZE)) last (u64 (pa + PGSIZE)) perm) k' /\
      forall a', 0 <= a' < MAXVA -> pte_of (k_mem k') pt a' =
        if decide (a <= a' < a + PGSIZE) then new_pte a pa perm a' else pte_of (k_mem k) pt a')).
Proof.
  intros V Ha Ha0 Hperm Hpa Hfree. cbn [mappages_loop].
  destruct (walk_alloc pt T l k a V ltac:(lia)) as (r & k1 & T1 & l1 & E1 & G1 & Hp1 & Hr).
  destruct Hr as [[-> ->]|(t & Ht & -> & Hr0)].
  { exists k1, T1, []. split; [done|left]. split_and!; [by eapply bind_eq|done|done]. }
  pose proof (new_pte_base a pa perm Ha) as En.
  destruct (vm_store pt T1 l1 k1 a t (new_pte a pa perm a) (gr_vm _ _ _ _ _ _ _ G1) Ht) as [G2 Hp2].
  { apply new_pte_range; [done|]. rewrite PGROUNDDOWN_aligned by done. lia. } { lia. }
  eexists _, T1, l1. split; [by eapply grows_trans|right]. split.
  - eapply bind_eq; [done|]. rewrite (proj2 (Z.eqb_neq _ _)) by done. unfold ldpte, stpte. kstep.
    rewrite <- Hp1 in Hfree. unfold pte_of, pte_valid in Hfree. rewrite Ht in Hfree.
    destruct (negb _); [done|]. kstep. by rewrite <- En.
  - intros a' Ha'. rewrite Hp2, Hp1 by done. pose proof (pages_below a a' 1 Ha) as Hb.
    destruct (decide (a' / PGSIZE = a / PGSIZE)) as [E|E]; [rewrite decide_True by lia|by rewrite decide_False by lia].
    unfold new_pte. rewrite !PGROUNDDOWN_div. by rewrite E.
Qed.

(** [n] of the [N] pages have been mapped; if not all, memory has run out. *)
Lemma mappages_loop_run N : forall fuel pt a pa perm T l k,
  vm pt T l k -> (0 < N <= fuel)%nat -> a mod PGSIZE = 0 -> 0 <= a -> a + Z.of_nat N * PGSIZE <= MAXVA ->
  0 <= perm < 1024 -> 0 <= pa -> pa + Z.of_nat N * PGSIZE <= 2 ^ 56 ->
  (forall a', a <= a' < a + Z.of_nat N * PGSIZE -> pte_valid (pte_of (k_mem k) pt a') = false) ->
  exists r n k' T' l',
    mappages_loop fuel pt a (a + (Z.of_nat N - 1) * PGSIZE) pa perm k = Ok r k' /\
    grows pt T l k T' l' k' /\
    (r = 0 /\ n = N \/ r = -1 /\ l' = [] /\ (n < N)%nat) /\
    (forall a', 0 <= a' < MAXVA -> pte_of (k_mem k') pt a' =
       if decide (a <= a' < a + Z.of_nat n * PGSIZE) then new_pte a pa perm a' else pte_of (k_mem k) pt a').
Proof.
  assert (MAXVA = 2 ^ 38) as HM by done. assert (PGSIZE = 4096) as HP by done.
  induction N as [|N IH]; intros fuel pt a pa perm T l k V Hf Ha Ha0 HaN Hperm Hpa HpaN Hfree; [lia|].
  destruct fuel as [|fuel]; [lia|].
  destruct (mappages_turn fuel pt a (a + (Z.of_nat (S N) - 1) * PGSIZE) pa perm T l k)
    as (k1 & T1 & l1 & G1 & [(E1 & -> & Hp)|(E1 & Hp)]); [done|done|lia|done|lia|apply Hfree; lia|..].
  { exists (-1), 0%nat, k1, T1, []. split_and!; [done|done|right; split_and!; [done..|lia]|].
    intros a' Ha'. by rewrite decide_False by lia. }
  rewrite E1. destruct (decide (N = 0)%nat) as [->|HN].
  - exists 0, 1%nat, k1, T1, l1. split_and!; [|done|by left|intros a' Ha'; by rewrite Hp].
    by rewrite (proj2 (Z.eqb_eq _ _)) by lia.
  - rewrite (proj2 (Z.eqb_neq _ _)) by lia. rewrite !u64_small by lia.
    replace (a + (Z.of_nat (S N) - 1) * PGSIZE) with (a + PGSIZE + (Z.of_nat N - 1) * PGSIZE) by lia.
    destruct (IH fuel pt (a + PGSIZE) (pa + PGSIZE) perm T1 l1 k1) as (r & n & k' & T' & l' & E & G & Hr & Hp');
      [apply G1|lia|rewrite HP in *; zdm|lia|lia|done|lia|lia|..].
    { intros a' Ha'. rewrite Hp by lia. rewrite decide_False by lia. apply Hfree. lia. }
    exists r, (S n), k', T', l'. split_and!; [done|by eapply grows_trans| |].
    + destruct Hr as [[-> ->]|(-> & -> & Hn)]; [by left|right]. split_and!; [done..|lia].
    + intros a' Ha'. rewrite Hp', Hp by done.
      destruct (decide (a + PGSIZE <= a' < a + PGSIZE + Z.of_nat n * PGSIZE)) as [Hd|Hd].
      * rewrite decide_True by lia. unfold new_pte. do 3 f_equal. lia.
      * destruct (decide (a <= a' < a + PGSIZE)); [by rewrite decide_True by lia|by rewrite decide_False by lia].
Qed.

(** The pages that a range of bytes touches. *)
Definition npages (va size : Z) : nat := Z.to_nat (PGROUNDDOWN (va + size - 1) / PGSIZE - PGROUNDDOWN va / PGSIZE + 1).

(** mappages() on a range that is not mapped.  It maps the pages of the
    range in order, each to the next page of physical memory, and changes the
    PTE of no other address; the page table takes the pages it needs from the
    free list and none is lost; no byte of memory outside the free pages and
    the tables changes.  It returns 0 if all pages are mapped, and -1 if the
    free list is empty before. *)
Theorem mappages_maps pt va size pa perm T l k :
  vm pt T l k -> 0 < size -> 0 <= va -> va + size <= MAXVA -> 0 <= perm < 1024 ->
  0 <= pa -> pa + Z.of_nat (npages va size) * PGSIZE <= 2 ^ 56 ->
  (forall a, 0 <= a -> PGROUNDDOWN va <= a < PGROUNDDOWN va + Z.of_nat (npages va size) * PGSIZE ->
     pte_valid (pte_of (k_mem k) pt a) = false) ->
  exists r n k' T' l', mappages pt va size pa perm k = Ok r k' /\
    vm pt T' l' k' /\ T ++ l ≡ₚ T' ++ l' /\ same_outside (T ++ l) k k' /\
    (r = 0 /\ n = npages va size \/ r = -1 /\ l' = [] /\ (n < npages va size)%nat) /\
    (forall a, 0 <= a < MAXVA -> pte_of (k_mem k') pt a =
       if decide (PGROUNDDOWN va <= a < PGROUNDDOWN va + Z.of_nat n * PGSIZE)
       then new_pte (PGROUNDDOWN va) pa perm a else pte_of (k_mem k) pt a).
Proof.
  intros V Hs Hva HM Hperm Hpa HpaN Hfree. unfold mappages. rewrite (proj2 (Z.eqb_neq _ _)) by lia.
  assert (MAXVA = 2 ^ 38) as HMv by done. assert (PGSIZE = 4096) as HPv by done.
  assert (PGROUNDDOWN (u64 (va + size - 1)) = PGROUNDDOWN va + (Z.of_nat (npages va size) - 1) * PGSIZE /\
    0 <= PGROUNDDOWN va /\ PGROUNDDOWN va + Z.of_nat (npages va size) * PGSIZE <= MAXVA /\
    (0 < npages va size)%nat /\ PGROUNDDOWN va <= PGROUNDDOWN (u64 (va + size - 1))) as (E & H0 & HN & Hpos & Hle).
  { unfold npages. rewrite u64_small by lia. rewrite !PGROUNDDOWN_div, HMv, HPv in *. zdm. }
  rewrite (proj2 (Z.leb_le _ _)) by done. rewrite E.
  destruct (mappages_loop_run (npages va size)
    (Z.to_nat ((PGROUNDDOWN va + (Z.of_nat (npages va size) - 1) * PGSIZE - PGROUNDDOWN va) / PGSIZE + 1))
    pt (PGROUNDDOWN va) pa perm T l k) as (r & n & k' & T' & l' & E' & [] & Hr & Hp);
    [done|rewrite HPv; zdm|apply PGROUNDDOWN_mod|done|done|done|done|done| |].
  { intros a Ha. apply Hfree; lia. }
  exists r, n, k', T', l'. split_and!; done.
Qed.

(** ** Changes outside the tables *)

Lemma vm_pages_ok pt T l k : vm pt T l k -> Forall page_ok (T ++ l).
Proof.
  intros V. apply Forall_app. split; [apply V|]. apply list.Forall_forall. intros a Ha.
  destruct (vm_kmem _ _ _ _ V) as (_ & Hc & _). by eapply free_chain_page_ok.
Qed.

Lemma page_outside S f x :
  Forall page_ok S -> page_ok f -> f ∉ S -> f <= x < f + PGSIZE -> forall a, a ∈ S -> x < a \/ a + PGSIZE <= x.
Proof.
  intros HS [Hf _] Hn Hx a Ha. rewrite list.Forall_forall in HS. destruct (HS a Ha) as [Haa _].
  destruct (page_apart a f Haa Hf); [by intros ->|lia..].
Qed.

(** A change of pages that are no tables changes no PTE. *)
Lemma vm_frame pt T l k S l' k' :
  vm pt T l k -> same_outside S k k' -> Forall page_ok S -> (forall a, a ∈ S -> a ∉ T) ->
  kmem_inv l' k' -> NoDup (T ++ l') ->
  vm pt T l' k' /\ (forall q, tbl (k_mem k') pt q = tbl (k_mem k) pt q) /\
  forall va, pte_of (k_mem k') pt va = pte_of (k_mem k) pt va.
Proof.
  intros V [Hx Hk] HS Hd Hl' Hnd.
  assert (forall q t i, tbl (k_mem k) pt q = Some t -> 0 <= i < 512 ->
    ld64 (k_mem k') (t + 8 * i) = ld64 (k_mem k) (t + 8 * i)) as Hent.
  { intros q t i Hq Hi. apply ld64_page_ext; [done|]. intros x Hxt. apply Hx. intros a Ha.
    rewrite list.Forall_forall in HS. destruct (HS a Ha) as [Haa _].
    destruct (vm_aligned _ _ _ _ _ _ V Hq) as [_ Hta].
    destruct (page_apart a t Haa Hta); [|lia|lia]. intros ->. by eapply (Hd t), vm_in. }
  assert (forall q, tbl (k_mem k') pt q = tbl (k_mem k) pt q) as Htbl.
  { apply tbl_leaf. intros q t' i Hq _ Hi. by apply (Hent q). }
  split_and!; [|done|].
  - split; [done| |..|apply V|done].
    + rewrite Hk. apply V.
    + intros q a. rewrite Htbl. apply V.
    + intros q q' a. rewrite !Htbl. apply (vm_inj _ _ _ _ V).
  - intros va. unfold pte_of. rewrite Htbl. destruct (tbl _ _ _) eqn:Et; [|done].
    by apply (Hent _ _ _ Et), PX_range.
Qed.

Lemma vm_kfree pt T l k f :
  vm pt T l k -> page_ok f -> f ∉ T -> f ∉ l ->
  exists k', kfree f k = Ok tt k' /\ vm pt T (f :: l) k' /\ same_outside [f] k k' /\
    (forall q, tbl (k_mem k') pt q = tbl (k_mem k) pt q) /\
    forall va, pte_of (k_mem k') pt va = pte_of (k_mem k) pt va.
Proof.
  intros V Hok HT Hl. eexists. split; [apply kfree_run; [done|apply V]|].
  match goal with |- vm _ _ _ ?k1 /\ _ => set (k' := k1) end.
  assert (same_outside [f] k k') as Hso.
  { split; [|done]. intros x H. destruct (H f ltac:(set_solver)); cbn;
      rewrite st64_out by (unfold PGSIZE in *; lia); by rewrite ld8_memset_out by (unfold PGSIZE in *; lia). }
  destruct (vm_frame pt T l k [f] (f :: l) k') as (V' & Ht & Hp); [done|done|by constructor| | | |done].
  - intros a Ha. apply list_elem_of_singleton in Ha as ->. done.
  - apply kfree_inv; [apply V|done|done].
  - rewrite <- Permutation_middle. constructor; [set_solver|apply V].
Qed.

Lemma vm_kalloc pt T l k a :
  vm pt T (a :: l) k ->
  exists k', kalloc k = Ok a k' /\ vm pt T l k' /\ same_outside [a] k k' /\ page_ok a /\ 0 < a /\ a ∉ T /\ a ∉ l /\
    forall va, pte_of (k_mem k') pt va = pte_of (k_mem k) pt va.
Proof.
  intros V. destruct (kalloc_inv a l k (vm_kmem _ _ _ _ V)) as [Hf Hi].
  destruct (vm_kmem _ _ _ _ V) as (He & (_ & Hok & _) & _).
  pose proof (vm_nodup _ _ _ _ V) as Hnd. rewrite <- Permutation_middle in Hnd.
  apply list.NoDup_cons in Hnd as [Hni Hnd].
  destruct (page_ok_range a He Hok) as [Ha _].
  eexists. split; [rewrite <- Hf; apply kalloc_run; [lia|apply V]|]. rewrite Hf.
  match goal with |- vm _ _ _ ?k1 /\ _ => set (k' := k1) in * end.
  assert (same_outside [a] k k') as Hso.
  { split; [|done]. intros x H. cbn. rewrite ld8_memset_out; [done|by compute|]. apply (H a). set_solver. }
  destruct (vm_frame pt T (a :: l) k [a] l k') as (V' & Ht & Hp); [done|done|by constructor| |done|done|].
  - intros b Hb. apply list_elem_of_singleton in Hb as ->. set_solver.
  - split_and!; (done || lia || set_solver).
Qed.

(** ** uvmunmap() *)

(** The [n] pages from [a] on are mapped to the pages of [fs]. *)
Definition maps (m : mem) (pt a : Z) (fs : list Z) : Prop :=
  forall (i : nat) f, fs !! i = Some f ->
    let v := pte_of m pt (a + Z.of_nat i * PGSIZE) in
    pte_valid v = true /\ PTE2PA v = f /\ PTE_FLAGS v <> PTE_V.

Lemma uvmunmap_turn fuel pt a stop T l k f :
  vm pt T l k -> a mod PGSIZE = 0 -> 0 <= a < MAXVA -> a < stop -> page_ok f -> f ∉ T -> f ∉ l ->
  maps (k_mem k) pt a [f] ->
  exists k', uvmunmap_loop (S fuel) pt a stop true k = uvmunmap_loop fuel pt (u64 (a + PGSIZE)) stop true k' /\
    vm pt T (f :: l) k' /\ same_outside (f :: T) k k' /\
    (forall a', 0 <= a' < MAXVA -> pte_of (k_mem k') pt a' =
       if decide (a <= a' < a + PGSIZE) then 0 else pte_of (k_mem k) pt a').
Proof.
  intros V Ha Ha0 Hs Hok HfT Hfl Hm. cbn [uvmunmap_loop]. rewrite (proj2 (Z.ltb_lt _ _)) by lia.
  destruct (Hm 0%nat f eq_refl) as (Hv & Hpa & Hfg). rewrite Z.mul_0_l, Z.add_0_r in *.
  destruct (walk_find pt T l k a V ltac:(lia)) as (r & Er & [[-> H0]|(t & Ht & -> & Hr0)]).
  { by rewrite H0 in Hv. }
  destruct (vm_kfree pt T l k f V Hok HfT Hfl) as (k1 & E1 & V1 & S1 & Ht1 & Hp1).
  destruct (vm_store pt T (f :: l) k1 a t 0 V1) as [[V2 _ [Hx2 Hk2]] Hp2]; [by rewrite Ht1|lia|lia|].
  eexists. split_and!; [|exact V2| |].
  - eapply bind_eq; [done|]. rewrite (proj2 (Z.eqb_neq _ _)) by done. unfold ldpte, stpte. kstep.
    unfold pte_of, pte_valid in Hv, Hpa, Hfg. rewrite Ht in *. apply negb_true_iff in Hv. rewrite Hv.
    rewrite (proj2 (Z.eqb_neq _ _)) by done. rewrite Hpa. eapply bind_eq; [exact E1|]. by kstep.
  - apply (same_outside_trans _ _ k1); [apply (same_outside_mono [f]); [clear; set_solver|exact S1]|].
    split; [|done]. intros x H. cbn. apply st64_out. pose proof (entry_in_page (PX 0 a) t (PX_range 0 a ltac:(lia))).
    destruct (H t); [|lia..]. apply elem_of_cons. right. exact (vm_in _ _ _ _ V _ _ Ht).
  - intros a' Ha'. rewrite Hp2, Hp1 by done. pose proof (pages_below a a' 1 Ha). apply decide_ext. lia.
Qed.

Lemma uvmunmap_loop_run fs : forall fuel pt a T l k,
  vm pt T l k -> (length fs < fuel)%nat -> a mod PGSIZE = 0 -> 0 <= a ->
  a + Z.of_nat (length fs) * PGSIZE <= MAXVA ->
  maps (k_mem k) pt a fs -> Forall page_ok fs -> NoDup (T ++ l ++ fs) ->
  exists k', uvmunmap_loop fuel pt a (a + Z.of_nat (length fs) * PGSIZE) true k = Ok tt k' /\
    vm pt T (rev fs ++ l) k' /\ same_outside (T ++ fs) k k' /\
    (forall a', 0 <= a' < MAXVA -> pte_of (k_mem k') pt a' =
       if decide (a <= a' < a + Z.of_nat (length fs) * PGSIZE) then 0 else pte_of (k_mem k) pt a').
Proof.
  assert (MAXVA = 2 ^ 38) as HM by done. assert (PGSIZE = 4096) as HP by done.
  induction fs as [|f fs IH]; intros fuel pt a T l k V Hf Ha Ha0 HaN Hm Hok Hnd;
    (destruct fuel as [|fuel]; [cbn in Hf; lia|]); cbn [length] in *.
  { cbn [uvmunmap_loop]. rewrite (proj2 (Z.ltb_ge _ _)) by lia.
    exists k. split_and!; [done..|apply same_outside_refl|]. intros a' _. by rewrite decide_False by lia. }
  apply list.Forall_cons in Hok as [Hokf Hok].
  rewrite (assoc_L (++)), <- Permutation_middle in Hnd. pose proof Hnd as [Hni Hnd']%list.NoDup_cons.
  destruct (uvmunmap_turn fuel pt a (a + Z.of_nat (S (length fs)) * PGSIZE) T l k f) as (k1 & E1 & V1 & S1 & Hp1);
    [done|done|lia|lia|done|clear -Hni; set_solver|clear -Hni; set_solver| |].
  { intros [|i] f' Hi; [|done]. injection Hi as <-. by apply Hm. }
  destruct (IH fuel pt (a + PGSIZE) T (f :: l) k1) as (k' & E & V' & S' & Hp');
    [done|lia|rewrite HP in *; zdm|lia|lia| |done| |].
  { intros i f' Hi. apply lookup_lt_Some in Hi as Hil.
    rewrite Hp1 by lia. rewrite decide_False by lia.
    replace (a + PGSIZE + Z.of_nat i * PGSIZE) with (a + Z.of_nat (S i) * PGSIZE) by lia. by apply Hm. }
  { cbn. by rewrite <- Permutation_middle, (assoc_L (++)). }
  exists k'. split_and!.
  - rewrite E1, u64_small by lia. rewrite <- E. f_equal. lia.
  - cbn [rev]. by rewrite <- (assoc_L (++)).
  - eapply same_outside_trans; (eapply same_outside_mono; [|eassumption]); clear; set_solver.
  - intros a' Ha'. rewrite Hp', Hp1 by done.
    repeat case_decide; first [done|exfalso; lia].
Qed.

Lemma uvmunmap_run fs pt a T l k :
  vm pt T l k -> a mod PGSIZE = 0 -> 0 <= a -> a + Z.of_nat (length fs) * PGSIZE <= MAXVA ->
  maps (k_mem k) pt a fs -> Forall page_ok fs -> NoDup (T ++ l ++ fs) ->
  exists k', uvmunmap pt a (Z.of_nat (length fs)) true k = Ok tt k' /\
    vm pt T (rev fs ++ l) k' /\ same_outside (T ++ fs) k k' /\
    (forall a', 0 <= a' < MAXVA -> pte_of (k_mem k') pt a' =
       if decide (a <= a' < a + Z.of_nat (length fs) * PGSIZE) then 0 else pte_of (k_mem k) pt a').
Proof.
  intros V Ha Ha0 HaN Hm Hok Hnd. unfold uvmunmap. rewrite Ha. cbn [Z.eqb negb].
  assert (MAXVA = 2 ^ 38) as HMv by done. assert (PGSIZE = 4096) as HPv by done. rewrite u64_small by lia.
  apply uvmunmap_loop_run; (done || lia).
Qed.

(** Between page boundaries uvmdealloc() is uvmunmap(). *)
Lemma uvmdealloc_unmap pt o (n : nat) k :
  o mod PGSIZE = 0 -> 0 <= o -> o + Z.of_nat n * PGSIZE <= MAXVA ->
  uvmdealloc pt (o + Z.of_nat n * PGSIZE) o k = (uvmunmap pt o (Z.of_nat n) true ;;; ret o) k.
Proof.
  intros Ha Ho HM. assert (MAXVA = 2 ^ 38) as HMv by done. assert (PGSIZE = 4096) as HPv by done.
  unfold uvmdealloc. destruct n as [|n].
  - rewrite (proj2 (Z.leb_le _ _)) by lia. unfold uvmunmap. rewrite Ha. change (Z.to_nat (Z.of_nat 0) + 1)%nat with 1%nat.
    cbn [Z.eqb negb uvmunmap_loop].
    rewrite u64_small by lia. rewrite (proj2 (Z.ltb_ge _ _)) by lia. by rewrite Z.mul_0_l, Z.add_0_r.
  - rewrite (proj2 (Z.leb_gt _ _)) by lia.
    assert (PGROUNDUP o = o /\ PGROUNDUP (o + Z.of_nat (S n) * PGSIZE) = o + Z.of_nat (S n) * PGSIZE) as [-> ->].
    { rewrite !PGROUNDUP_div, HPv in * by lia. zdm. }
    rewrite (proj2 (Z.ltb_lt _ _)) by lia. cbn [when].
    replace ((o + Z.of_nat (S n) * PGSIZE - o) / PGSIZE) with (Z.of_nat (S n)) by (rewrite HPv; zdm).
    by rewrite i32_small, u64_small by lia.
Qed.

(** ** uvmalloc() *)

(** Writing a whole page that is neither free nor a table. *)
Lemma vm_write_page pt T l k f bs :
  vm pt T l k -> page_ok f -> f ∉ T -> f ∉ l -> length bs = Z.to_nat PGSIZE ->
  let k' := set_k_mem (stbytes (k_mem k) f bs) k in
  vm pt T l k' /\ same_outside [f] k k' /\ forall va, pte_of (k_mem k') pt va = pte_of (k_mem k) pt va.
Proof.
  intros V Hok HT Hl Hlen k'. assert (same_outside [f] k k') as Hso.
  { split; [|done]. intros x H. apply ld8_stbytes_out. rewrite Hlen. change (Z.of_nat (Z.to_nat PGSIZE)) with PGSIZE.
    apply (H f). clear; set_solver. }
  destruct (vm_frame pt T l k [f] l k') as (V' & _ & Hp); [done|done|by constructor| | |apply V|done].
  - intros a Ha. by apply list_elem_of_singleton in Ha as ->.
  - destruct (vm_kmem _ _ _ _ V) as (He & Hc & Hn). split_and!; [done| |done].
    eapply free_chain_ext, Hc. intros a x Ha Hx. symmetry. apply Hso. intros b Hb.
    apply list_elem_of_singleton in Hb as ->. destruct Hok as [Hff _].
    apply (free_chain_page_ok _ _ _ _ Hc) in Ha as Hoa. destruct Hoa as [Haa _].
    destruct (page_apart a f Haa Hff); [by intros ->|lia..].
Qed.

Lemma mappages_one pt a pa perm T l k :
  vm pt T l k -> a mod PGSIZE = 0 -> 0 <= a < MAXVA -> 0 <= perm < 1024 -> 0 <= pa < 2 ^ 56 ->
  pte_valid (pte_of (k_mem k) pt a) = false ->
  exists r k' T' l', mappages pt a PGSIZE pa perm k = Ok r k' /\ grows pt T l k T' l' k' /\
    ((r = -1 /\ l' = [] /\ forall a', pte_of (k_mem k') pt a' = pte_of (k_mem k) pt a') \/
     (r = 0 /\ forall a', 0 <= a' < MAXVA -> pte_of (k_mem k') pt a' =
        if decide (a <= a' < a + PGSIZE) then new_pte a pa perm a' else pte_of (k_mem k) pt a')).
Proof.
  intros V Ha Ha0 Hperm Hpa Hv. unfold mappages. assert (MAXVA = 2 ^ 38) as HMv by done.
  assert (PGROUNDDOWN a = a /\ PGROUNDDOWN (u64 (a + PGSIZE - 1)) = a) as [-> ->].
  { rewrite u64_small by (unfold PGSIZE; lia). rewrite !PGROUNDDOWN_div. unfold PGSIZE in *. zdm. }
  rewrite (proj2 (Z.leb_le a a)) by lia. rewrite Z.sub_diag. cbn [Z.eqb].
  change (Z.to_nat (0 / PGSIZE + 1)) with 1%nat.
  destruct (mappages_turn 0 pt a a pa perm T l k V Ha Ha0 Hperm Hpa Hv) as (k' & T' & l' & G & [(E & Hl & Hp)|(E & Hp)]).
  - exists (-1), k', T', l'. split_and!; [done|done|by left].
  - rewrite Z.eqb_refl in E. exists 0, k', T', l'. split_and!; [done|done|by right].
Qed.

(** The PTE of a page of user memory. *)
Definition user_pte (perm f : Z) : Z := Z.lor (Z.lor (PA2PTE f) perm) PTE_V.

Lemma move_last (T l fs : list Z) a : T ++ (a :: l) ++ fs ≡ₚ (T ++ l) ++ fs ++ [a].
Proof.
  cbn. rewrite <- Permutation_middle, (assoc_L (++) _ fs), (Permutation_app_comm _ [a]). cbn.
  by rewrite (assoc_L (++)).
Qed.

(** uvmalloc() and uvmcopy() extend an address space by new pages, the [i]-th
    one with the permissions [perm i] and the contents [byte i]. *)
Section extend.
Context (pt o : Z) (perm : nat -> Z) (byte : nat -> nat -> Z) (T0 l0 : list Z) (k0 : K).

(** From the state [k0] the address space has been extended from [o] on by
    the pages [fs], taken from the free list. *)
Record extended (fs T l : list Z) (k : K) : Prop := {
  ex_vm : vm pt T l k;
  ex_pages : T0 ++ l0 ≡ₚ T ++ l ++ fs;
  ex_mem : same_outside (T0 ++ l0) k0 k;
  ex_ok : Forall page_ok fs;
  ex_bytes : forall (i j : nat) f, fs !! i = Some f -> (j < Z.to_nat PGSIZE)%nat ->
    ld8 (k_mem k) (f + Z.of_nat j) = byte i j;
  ex_old : forall a, 0 <= a < MAXVA -> ~ o <= a < o + Z.of_nat (length fs) * PGSIZE ->
    pte_of (k_mem k) pt a = pte_of (k_mem k0) pt a;
  ex_new : forall (i : nat) f, fs !! i = Some f ->
    pte_of (k_mem k) pt (o + Z.of_nat i * PGSIZE) = user_pte (perm i) f
}.

Hypothesis Ho : o mod PGSIZE = 0 /\ 0 <= o.
Hypothesis Hnd : NoDup (T0 ++ l0).
(** The first [N] pages can be mapped and unmapped. *)
Context (N : nat).
Hypothesis HM : o + Z.of_nat N * PGSIZE <= MAXVA.
Hypothesis Hperm : forall i, (i < N)%nat -> 0 <= perm i < 1024 /\ Z.lor (perm i) PTE_V <> PTE_V.
Hypothesis H0 : forall a, o <= a < o + Z.of_nat N * PGSIZE -> pte_of (k_mem k0) pt a = 0.

Lemma extended_maps fs T l k : extended fs T l k -> (length fs <= N)%nat -> maps (k_mem k) pt o fs.
Proof.
  intros X HN i f Hi v. unfold v. rewrite (ex_new _ _ _ _ X _ _ Hi).
  apply lookup_lt_Some in Hi as Hil. destruct (Hperm i ltac:(lia)) as [Hp Hpv].
  pose proof (Forall_lookup_1 _ _ _ _ (ex_ok _ _ _ _ X) Hi) as Hok.
  apply page_ok_range in Hok as [? ?]; [|apply X].
  pose proof (lor_flags (perm i) PTE_V Hp ltac:(by compute)) as Hf.
  split; [apply pte_valid_lor|]. unfold user_pte. rewrite <- Z.lor_assoc.
  split; [apply PTE2PA_PA2PTE; (done || lia)|]. by rewrite PTE_FLAGS_PA2PTE by (done || lia).
Qed.

Lemma extended_nodup fs T l k : extended fs T l k -> NoDup (T ++ l ++ fs).
Proof. intros X. by rewrite <- (ex_pages _ _ _ _ X). Qed.

(** The pages of [fs] are neither free nor tables. *)
Lemma extended_apart fs T l k f : extended fs T l k -> f ∈ fs ->
  forall x, f <= x < f + PGSIZE -> forall a, a ∈ T ++ l -> x < a \/ a + PGSIZE <= x.
Proof.
  intros X Hf x. apply page_outside; [by eapply vm_pages_ok, X| |].
  - by eapply list.Forall_forall; [apply (ex_ok _ _ _ _ X)|].
  - intros Hc. pose proof (extended_nodup _ _ _ _ X) as Hn. rewrite (assoc_L (++)) in Hn.
    apply list.NoDup_app in Hn as (_ & Hd & _). by apply (Hd f).
Qed.

Lemma extended_same fs T l k T' l' k' :
  extended fs T l k -> grows pt T l k T' l' k' -> (length fs <= N)%nat ->
  (forall a, 0 <= a < MAXVA -> pte_of (k_mem k') pt a = pte_of (k_mem k) pt a) ->
  extended fs T' l' k'.
Proof.
  intros X [V P' M] HN Hp. assert (PGSIZE = 4096) as HPv by done. split.
  - done.
  - by rewrite (ex_pages _ _ _ _ X), !(assoc_L (++)), P'.
  - apply (same_outside_trans _ _ k); [apply X|]. eapply same_outside_mono, M.
    intros a. rewrite (ex_pages _ _ _ _ X). clear; set_solver.
  - apply X.
  - intros i j f Hi Hj. rewrite <- (ex_bytes _ _ _ _ X i j f Hi Hj). apply M.
    eapply extended_apart; [exact X|by eapply list_elem_of_lookup_2|lia].
  - intros a Ha Hn. rewrite Hp by done. by apply X.
  - intros i f Hi. pose proof (lookup_lt_Some _ _ _ Hi). rewrite Hp by lia. by apply X.
Qed.

(** Undoing the extension. *)
Definition undone (n : nat) (k' : K) : Prop := exists T' l',
  vm pt T' l' k' /\ T0 ++ l0 ≡ₚ T' ++ l' /\ same_outside (T0 ++ l0) k0 k' /\ (length l' <= n)%nat /\
  (forall a, 0 <= a < MAXVA -> pte_of (k_mem k') pt a = pte_of (k_mem k0) pt a).

Lemma extended_undo fs T l k :
  extended fs T l k -> (length fs <= N)%nat ->
  exists k', uvmunmap pt o (Z.of_nat (length fs)) true k = Ok tt k' /\ undone (length fs + length l) k'.
Proof.
  intros X HN. assert (MAXVA = 2 ^ 38) as HMv by done. assert (PGSIZE = 4096) as HPv by done.
  destruct (uvmunmap_run fs pt o T l k) as (k' & E & V & S & Hp);
    [apply X|apply Ho|apply Ho|lia|by eapply extended_maps|apply X|by eapply extended_nodup|].
  exists k'. split; [done|]. exists T, (rev fs ++ l). split_and!; [done| | | |].
  - rewrite (ex_pages _ _ _ _ X), (Permutation_app_comm l fs). by rewrite <- (Permutation_rev fs).
  - apply (same_outside_trans _ _ k); [apply X|]. eapply same_outside_mono, S.
    intros a. rewrite (ex_pages _ _ _ _ X). clear; set_solver.
  - by rewrite length_app, length_rev.
  - intros a Ha. rewrite Hp by done. case_decide; [by rewrite H0 by lia|]. by apply X.
Qed.

(** One more page. *)
Lemma extended_snoc fs T a l k k2 T' l' k3 :
  extended fs T (a :: l) k -> vm pt T l k2 -> same_outside [a] k k2 -> page_ok a -> a ∉ T -> a ∉ l ->
  (forall j, (j < Z.to_nat PGSIZE)%nat -> ld8 (k_mem k2) (a + Z.of_nat j) = byte (length fs) j) ->
  (forall va, pte_of (k_mem k2) pt va = pte_of (k_mem k) pt va) ->
  grows pt T l k2 T' l' k3 -> (length fs < N)%nat ->
  (forall va, 0 <= va < MAXVA -> pte_of (k_mem k3) pt va =
     if decide (o + Z.of_nat (length fs) * PGSIZE <= va < o + Z.of_nat (length fs) * PGSIZE + PGSIZE)
     then new_pte (o + Z.of_nat (length fs) * PGSIZE) a (perm (length fs)) va else pte_of (k_mem k2) pt va) ->
  extended (fs ++ [a]) T' l' k3.
Proof.
  intros X V2 S2 Hok HaT Hal Hz Hp2 [V3 P3 M3] HN Hp3. assert (PGSIZE = 4096) as HPv by done.
  split.
  - done.
  - by rewrite (ex_pages _ _ _ _ X), move_last, P3, <- (assoc_L (++)).
  - apply (same_outside_trans _ _ k); [apply X|]. apply (same_outside_trans _ _ k2).
    all: (eapply same_outside_mono; [|eassumption]); intros b; rewrite (ex_pages _ _ _ _ X); clear; set_solver.
  - apply Forall_app. split; [apply X|by constructor].
  - intros i j f Hi Hj. destruct M3 as [M3 _]. apply lookup_snoc_Some in Hi as [[Hi1 Hi2]|[-> <-]].
    + rewrite <- (ex_bytes _ _ _ _ X i j f Hi2 Hj). apply list_elem_of_lookup_2 in Hi2.
      pose proof (extended_apart _ _ _ _ f X Hi2 (f + Z.of_nat j) ltac:(lia)) as Hx.
      rewrite M3; [apply S2|]; intros b Hb; apply Hx; clear -Hb; set_solver.
    + rewrite M3, Hz; [done|done|]. apply (page_outside (T ++ l) a); [by eapply vm_pages_ok|done| |lia].
      clear -HaT Hal. set_solver.
  - intros b Hb Hnb. rewrite length_app in Hnb. cbn in Hnb. rewrite Hp3, decide_False, Hp2 by lia. apply X; lia.
  - intros i f Hi. pose proof (lookup_lt_Some _ _ _ Hi) as Hil. rewrite length_app in Hil. cbn in Hil. rewrite Hp3 by lia.
    apply lookup_snoc_Some in Hi as [[Hi1 Hi2]|[-> <-]].
    + rewrite decide_False, Hp2 by lia. by apply X.
    + rewrite decide_True by lia. apply new_pte_base. rewrite HPv in *. zdm.
Qed.

(** A page is allocated, filled with the bytes [bs] and mapped; if it cannot be
    mapped it is freed. *)
Lemma extend_page fs T a l k :
  extended fs T (a :: l) k -> (length fs < N)%nat ->
  exists k1, kalloc k = Ok a k1 /\ 0 < a /\ same_outside [a] k k1 /\
  forall bs, length bs = Z.to_nat PGSIZE -> (forall j b, bs !! j = Some b -> b = byte (length fs) j) ->
  exists r k3,
    mappages pt (o + Z.of_nat (length fs) * PGSIZE) PGSIZE a (perm (length fs))
      (set_k_mem (stbytes (k_mem k1) a bs) k1) = Ok r k3 /\
    ((r = 0 /\ exists T' l', extended (fs ++ [a]) T' l' k3) \/
     (r = -1 /\ exists k4 T', kfree a k3 = Ok tt k4 /\ extended fs T' [a] k4)).
Proof.
  intros X HN. assert (PGSIZE = 4096) as HPv by done. destruct Ho as [Hal Hpos].
  destruct (vm_kalloc pt T l k a (ex_vm _ _ _ _ X)) as (k1 & E1 & V1 & S1 & Hok & Ha & HT & Hl & Hp1).
  exists k1. split_and!; [done..|]. intros bs Hbs Hb.
  destruct (vm_write_page pt T l k1 a bs V1 Hok HT Hl Hbs) as (V2 & S2 & Hp2).
  set (k2 := set_k_mem _ k1) in *. destruct (Hperm _ HN) as [Hpr _].
  destruct (mappages_one pt (o + Z.of_nat (length fs) * PGSIZE) a (perm (length fs)) T l k2 V2) as (r & k3 & T3 & l3 & E3 & G3 & Hr);
    [rewrite HPv in *; zdm|lia|done| | |].
  { apply page_ok_range in Hok; [lia|apply V2]. }
  { rewrite Hp2, Hp1, (ex_old _ _ _ _ X), H0 by lia. done. }
  exists r, k3. split; [done|]. destruct Hr as [(-> & -> & Hp3)|(-> & Hp3)].
  - right. split; [done|]. destruct G3 as [V3 P3 M3].
    destruct (vm_kfree pt T3 [] k3 a) as (k4 & E4 & V4 & S4 & _ & Hp4); [done|done| |clear; set_solver|].
    { intros Hc. assert (a ∈ T ++ l) by (rewrite P3; clear -Hc; set_solver). clear -HT Hl H. set_solver. }
    exists k4, T3. split; [done|]. apply (extended_same fs T (a :: l) k); [done| |lia|intros; by rewrite Hp4, Hp3, Hp2, Hp1].
    split; [done|rewrite <- Permutation_middle, P3; by rewrite !(Permutation_app_comm T3)|].
    do 3 (eapply same_outside_trans; [eapply same_outside_mono; [|eassumption]; clear; set_solver|]).
    eapply same_outside_mono; [|eassumption]; clear; set_solver.
  - left. split; [done|]. exists T3, l3. apply (extended_snoc fs T a l k k2); try done.
    + by eapply same_outside_trans.
    + intros j Hj. destruct (lookup_lt_is_Some_2 bs j ltac:(lia)) as [b Hjb].
      cbn [k_mem k2 set_k_mem]. rewrite (ld8_stbytes_in _ _ _ _ _ Hjb). by apply Hb.
    + intros va. by rewrite Hp2.
Qed.

Lemma extended_start : vm pt T0 l0 k0 -> extended [] T0 l0 k0.
Proof. intros V. split; [done|by rewrite app_nil_r|apply same_outside_refl|done..]. Qed.
End extend.

Section uvmalloc.
Context (pt o xperm : Z) (T0 l0 : list Z) (k0 : K) (N : nat).

Let perm := Z.lor (Z.lor PTE_R PTE_U) xperm.
Let ext := extended pt o (fun _ => perm) (fun _ _ => 0) T0 l0 k0.

Hypothesis Ho : o mod PGSIZE = 0 /\ 0 <= o.
Hypothesis Hnd : NoDup (T0 ++ l0).
Hypothesis HM : o + Z.of_nat N * PGSIZE <= MAXVA.
Hypothesis Hxp : 0 <= xperm < 1024.
Hypothesis H0 : forall a, o <= a < o + Z.of_nat N * PGSIZE -> pte_of (k_mem k0) pt a = 0.

Lemma perm_ok (i : nat) : (i < N)%nat -> 0 <= perm < 1024 /\ Z.lor perm PTE_V <> PTE_V.
Proof.
  intros _. split; [apply lor_flags; [by compute|done]|].
  intros E. apply (f_equal (fun z => Z.testbit z 1)) in E. unfold perm in E. by rewrite !Z.lor_spec in E.
Qed.

Lemma uvmalloc_turn fuel newsz fs T l k :
  ext fs T l k -> (length fs < N)%nat -> let a := o + Z.of_nat (length fs) * PGSIZE in a < newsz ->
  (exists k', uvmalloc_loop (S fuel) pt o a newsz xperm k = Ok 0 k' /\ undone pt T0 l0 k0 (S (length fs)) k') \/
  (exists f T' l' k', uvmalloc_loop (S fuel) pt o a newsz xperm k = uvmalloc_loop fuel pt o (u64 (a + PGSIZE)) newsz xperm k' /\
     ext (fs ++ [f]) T' l' k').
Proof.
  intros X HN a Ha. cbn [uvmalloc_loop]. rewrite (proj2 (Z.ltb_lt _ _)) by lia.
  assert (MAXVA = 2 ^ 38) as HMv by done. assert (PGSIZE = 4096) as HPv by done.
  assert (forall T' l' k', ext fs T' l' k' -> (length l' <= 1)%nat -> exists k'',
    (uvmdealloc pt a o ;;; ret 0) k' = Ok 0 k'' /\ undone pt T0 l0 k0 (S (length fs)) k'') as Hundo.
  { intros T' l' k' X' Hl'. destruct (extended_undo _ _ _ _ _ _ _ Ho Hnd N HM perm_ok H0 _ _ _ _ X') as (k'' & E & F); [lia|].
    exists k''. split.
    { eapply bind_eq; [unfold a; rewrite uvmdealloc_unmap by (apply Ho || lia); by eapply bind_eq|done]. }
    destruct F as (T1 & l1 & F). exists T1, l1. destruct_and! F. split_and!; (done || lia). }
  destruct l as [|m l].
  { left. destruct (Hundo T [] k X ltac:(cbn; lia)) as (k'' & E & F). exists k''. split; [|done].
    eapply bind_eq; [apply kalloc_empty_run; [|apply X]|done].
    by destruct (vm_kmem _ _ _ _ (ex_vm _ _ _ _ _ _ _ _ _ _ _ X)) as (_ & ? & _). }
  destruct (extend_page pt o (fun _ => perm) (fun _ _ => 0) T0 l0 k0 Ho Hnd N HM perm_ok H0 fs T m l k X HN)
    as (k1 & E1 & Hm & _ & Hpg).
  destruct (Hpg (replicate (Z.to_nat PGSIZE) 0)) as (r & k3 & E3 & Hr);
    [apply length_replicate|by intros j b []%lookup_replicate|].
  change 0 with (u8 0) in E3 at 1. rewrite <- memset_stbytes in E3.
  destruct Hr as [(-> & T' & l' & X')|(-> & k4 & T' & E4 & X')].
  - right. exists m, T', l', k3. split; [|done].
    eapply bind_eq; [exact E1|]. rewrite (proj2 (Z.eqb_neq _ _)) by lia. kstep. by eapply bind_eq.
  - destruct (Hundo _ _ _ X' ltac:(cbn; lia)) as (k'' & E & F). left. exists k''. split; [|done].
    eapply bind_eq; [exact E1|]. rewrite (proj2 (Z.eqb_neq _ _)) by lia. kstep.
    eapply bind_eq; [exact E3|]. cbn [negb Z.eqb]. by eapply bind_eq.
Qed.

Lemma uvmalloc_loop_run n : forall fuel newsz fs T l k,
  ext fs T l k -> (n < fuel)%nat -> (length fs + n = N)%nat -> newsz <= MAXVA ->
  o + (Z.of_nat N - 1) * PGSIZE < newsz \/ N = 0%nat -> newsz <= o + Z.of_nat N * PGSIZE ->
  exists r k', uvmalloc_loop fuel pt o (o + Z.of_nat (length fs) * PGSIZE) newsz xperm k = Ok r k' /\
    ((r = 0 /\ undone pt T0 l0 k0 N k') \/
     (r = newsz /\ exists fs' T' l', ext fs' T' l' k' /\ length fs' = N)).
Proof.
  assert (MAXVA = 2 ^ 38) as HMv by done. assert (PGSIZE = 4096) as HPv by done.
  induction n as [|n IH]; intros fuel newsz fs T l k X Hf Hn HMn Hlo Hhi; (destruct fuel as [|fuel]; [lia|]).
  - cbn [uvmalloc_loop]. rewrite (proj2 (Z.ltb_ge _ _)) by lia.
    exists newsz, k. split; [done|right]. split; [done|]. exists fs, T, l. split; [done|lia].
  - destruct (uvmalloc_turn fuel newsz fs T l k X) as [(k' & E & F)|(f & T' & l' & k' & E & X')]; [lia|lia| |].
    + exists 0, k'. split; [done|left]. split; [done|]. destruct F as (T' & l' & F). exists T', l'.
      destruct_and! F. split_and!; (done || lia).
    + rewrite E, u64_small by lia. destruct (IH fuel newsz (fs ++ [f]) T' l' k' X') as (r & k'' & E' & Hr);
        rewrite ?length_app in *; cbn [length] in *; [lia|lia|done|lia|lia|].
      exists r, k''. split; [rewrite <- E'; f_equal; lia|done].
Qed.
End uvmalloc.

(** C24: uvmalloc() is all or nothing.  With enough memory it returns the new
    size: the pages between the old and the new size are mapped, readable by
    the user and with the permissions asked for, to different pages that were
    free and are now zero.  Otherwise it returns 0, and only when no more
    free pages are left than pages were asked for: then no PTE has changed, and
    all pages it took but the new tables are free again.  In both cases no page is
    lost, no other PTE changes, and no byte outside the free pages and the
    tables. *)
Theorem uvmalloc_all_or_nothing pt oldsz newsz xperm T l k :
  vm pt T l k -> 0 <= oldsz <= newsz -> newsz <= MAXVA -> 0 <= xperm < 1024 ->
  (forall a, PGROUNDUP oldsz <= a < PGROUNDUP newsz -> pte_of (k_mem k) pt a = 0) ->
  let N := Z.to_nat ((PGROUNDUP newsz - PGROUNDUP oldsz) / PGSIZE) in
  exists r k' fs T' l', uvmalloc pt oldsz newsz xperm k = Ok r k' /\
    vm pt T' l' k' /\ T ++ l ≡ₚ T' ++ l' ++ fs /\ same_outside (T ++ l) k k' /\
    (forall a, 0 <= a < MAXVA -> ~ PGROUNDUP oldsz <= a < PGROUNDUP oldsz + Z.of_nat (length fs) * PGSIZE ->
       pte_of (k_mem k') pt a = pte_of (k_mem k) pt a) /\
    (forall (i : nat) f, fs !! i = Some f ->
       pte_of (k_mem k') pt (PGROUNDUP oldsz + Z.of_nat i * PGSIZE) =
         user_pte (Z.lor (Z.lor PTE_R PTE_U) xperm) f /\
       forall x, f <= x < f + PGSIZE -> ld8 (k_mem k') x = 0) /\
    (r = newsz /\ length fs = N \/ r = 0 /\ fs = [] /\ (length l' <= N)%nat).
Proof.
  intros V Hs HM Hxp H0 N. unfold uvmalloc. rewrite (proj2 (Z.ltb_ge _ _)) by lia.
  assert (MAXVA = 2 ^ 38) as HMv by done. assert (PGSIZE = 4096) as HPv by done.
  set (o := PGROUNDUP oldsz) in *.
  assert (o mod PGSIZE = 0 /\ 0 <= o /\ PGROUNDUP newsz = o + Z.of_nat N * PGSIZE /\
    newsz <= o + Z.of_nat N * PGSIZE /\ (o + (Z.of_nat N - 1) * PGSIZE < newsz \/ N = 0%nat) /\
    (N < Z.to_nat ((newsz - o) / PGSIZE + 2))%nat /\ PGROUNDUP newsz <= MAXVA) as (Hal & Ho & Hn & Hhi & Hlo & Hf & HMn).
  { unfold N, o. rewrite !PGROUNDUP_div, HPv by lia. split_and!; zdm. }
  rewrite Hn in H0. destruct (uvmalloc_loop_run pt o xperm T l k N (conj Hal Ho) (vm_nodup _ _ _ _ V) ltac:(lia) Hxp H0
    N _ newsz [] T l k (extended_start _ _ _ _ _ _ _ V) Hf eq_refl HM Hlo Hhi) as (r & k' & E & Hr).
  cbn in E. rewrite Z.add_0_r in E.
  destruct Hr as [(-> & T' & l' & V' & P' & M' & Hl & Hp)|(-> & fs & T' & l' & X & Hlen)].
  - exists 0, k', [], T', l'. split_and!; [done|done|by rewrite app_nil_r|done|by intros; apply Hp|done|].
    right. split_and!; done.
  - exists newsz, k', fs, T', l'. destruct X as [X1 X2 X3 X4 X5 X6 X7]. split_and!; [done..| |by left].
    intros i f Hi. split; [by apply (X7 i)|]. intros x Hx.
    rewrite <- (X5 i (Z.to_nat (x - f)) f Hi) by lia. f_equal. lia.
Qed.

(** ** uvmcopy() *)

(** An address space with other tables is not touched. *)
Lemma vm_other old To l0 k0 S l k :
  vm old To l0 k0 -> (forall a, a ∈ To -> a ∉ S) -> Forall page_ok S -> same_outside S k0 k ->
  kmem_inv l k -> l ⊆ S ->
  vm old To l k /\ forall a, pte_of (k_mem k) old a = pte_of (k_mem k0) old a.
Proof.
  intros V HTo HS HM Hl Hsub.
  destruct (vm_frame old To l0 k0 S l k) as (V' & _ & Hp); [done|done|done| |done| |done].
  - intros a Ha Hc. by apply (HTo a).
  - apply list.NoDup_app. split_and!; [|by intros a Ha Hc; apply (HTo a Ha), Hsub|apply Hl].
    by pose proof (vm_nodup _ _ _ _ V) as [? _]%list.NoDup_app.
Qed.

Section uvmcopy.
Context (old new : Z) (To T0 l0 gs : list Z) (k0 : K).

Let perm (i : nat) := PTE_FLAGS (pte_of (k_mem k0) old (Z.of_nat i * PGSIZE)).
Let byte (i j : nat) := ld8 (k_mem k0) (gs !!! i + Z.of_nat j).
Let ext := extended new 0 perm byte T0 l0 k0.
Let N := length gs.

Hypothesis Vo : vm old To l0 k0.
Hypothesis Vn : vm new T0 l0 k0.
Hypothesis HTo : forall a, a ∈ To -> a ∉ T0 ++ l0.
Hypothesis Hgs : forall g, g ∈ gs -> page_ok g /\ g ∉ T0 ++ l0.
Hypothesis Hmaps : maps (k_mem k0) old 0 gs.
Hypothesis HM : 0 + Z.of_nat N * PGSIZE <= MAXVA.
Hypothesis H0 : forall a, 0 <= a < 0 + Z.of_nat N * PGSIZE -> pte_of (k_mem k0) new a = 0.

Lemma copy_perm_ok i : (i < N)%nat -> 0 <= perm i < 1024 /\ Z.lor (perm i) PTE_V <> PTE_V.
Proof.
  intros Hi. unfold perm, PTE_FLAGS. change 0x3FF with (Z.ones 10). rewrite Z.land_ones by lia.
  split; [apply Z.mod_pos_bound; lia|]. rewrite <- Z.land_ones by lia. change (Z.ones 10) with 0x3FF. fold (PTE_FLAGS (pte_of (k_mem k0) old (Z.of_nat i * PGSIZE))).
  destruct (lookup_lt_is_Some_2 gs i Hi) as [g Hg]. destruct (Hmaps i g Hg) as (Hv & _ & Hf). rewrite Z.add_0_l in Hv, Hf.
  by rewrite (flags_valid _ Hv).
Qed.

Lemma copy_bytes fs T m l k k1 i g j b :
  ext fs T (m :: l) k -> same_outside [m] k k1 -> gs !! i = Some g ->
  ldbytes (k_mem k1) g (Z.to_nat PGSIZE) !! j = Some b -> b = byte i j.
Proof.
  intros X [S1 _] Hg Hj. apply lookup_lt_Some in Hj as Hl. rewrite length_ldbytes in Hl.
  rewrite ldbytes_lookup in Hj by done. injection Hj as <-. unfold byte.
  rewrite (list_lookup_total_correct _ _ _ Hg).
  apply list_elem_of_lookup_2 in Hg. destruct (Hgs g Hg) as [Hok Hn].
  assert (forall a, a ∈ T0 ++ l0 -> g + Z.of_nat j < a \/ a + PGSIZE <= g + Z.of_nat j) as Hx.
  { apply (page_outside _ g); [by eapply vm_pages_ok|done|done|unfold PGSIZE in *; lia]. }
  rewrite S1; [apply X; exact Hx|]. intros a ->%list_elem_of_singleton. apply Hx.
  rewrite (ex_pages _ _ _ _ _ _ _ _ _ _ _ X). clear; set_solver.
Qed.

Lemma copy_undo fs T l k : ext fs T l k -> (length fs <= N)%nat -> (length l <= 1)%nat -> exists k',
  (uvmunmap new 0 (Z.of_nat (length fs) * PGSIZE / PGSIZE) true ;;; ret (-1)) k = Ok (-1) k' /\
  undone new T0 l0 k0 (S (length fs)) k'.
Proof.
  intros X HN Hl. pose proof (vm_nodup _ _ _ _ Vn) as Hnd. assert (0 mod PGSIZE = 0 /\ 0 <= 0) as Ho by done.
  destruct (extended_undo _ _ _ _ _ _ _ Ho Hnd N HM copy_perm_ok H0 _ _ _ _ X HN) as (k' & E & T1 & l1 & F).
  exists k'. split; [rewrite Z.div_mul by done; by eapply bind_eq|].
  exists T1, l1. destruct_and! F. split_and!; (done || lia).
Qed.

(** From the source page's entry to kalloc(). *)
Ltac to_kalloc Er Hr0 Hv Hpa := eapply bind_eq; [exact Er|];
  rewrite (proj2 (Z.eqb_neq _ _)) by exact Hr0; unfold ldpte; kstep; rewrite Hv, Hpa.

Lemma uvmcopy_turn fuel sz fs T l k :
  ext fs T l k -> (length fs < N)%nat -> let a := Z.of_nat (length fs) * PGSIZE in a < sz ->
  (exists k', uvmcopy_loop (S fuel) old new a sz k = Ok (-1) k' /\ undone new T0 l0 k0 (S (length fs)) k') \/
  (exists f T' l' k', uvmcopy_loop (S fuel) old new a sz k = uvmcopy_loop fuel old new (u64 (a + PGSIZE)) sz k' /\
     ext (fs ++ [f]) T' l' k').
Proof.
  intros X HN a Ha. cbn [uvmcopy_loop]. rewrite (proj2 (Z.ltb_lt _ _)) by lia.
  assert (MAXVA = 2 ^ 38) as HMv by done. assert (PGSIZE = 4096) as HPv by done.
  destruct (vm_other old To l0 k0 (T0 ++ l0) l k) as [Vok Hpo];
    [done|done|by eapply vm_pages_ok|apply X|apply X|intros b; rewrite (ex_pages _ _ _ _ _ _ _ _ _ _ _ X); clear; set_solver|].
  pose proof (vm_nodup _ _ _ _ Vn) as Hnd.
  assert (0 mod PGSIZE = 0 /\ 0 <= 0) as Ho by done.
  destruct (lookup_lt_is_Some_2 gs _ HN) as [g Hg]. destruct (Hmaps _ g Hg) as (Hv & Hpa & _). rewrite Z.add_0_l in Hv, Hpa.
  destruct (walk_find old To l k a Vok ltac:(lia)) as (r & Er & [[-> Hr]|(t & Ht & -> & Hr0)]).
  { rewrite Hpo in Hr. unfold a in Hr. by rewrite Hr in Hv. }
  assert (pte_of (k_mem k0) old a = ld64 (k_mem k) (t + 8 * PX 0 a)) as Hpte.
  { rewrite <- Hpo. unfold pte_of. by rewrite Ht. }
  assert (perm (length fs) = PTE_FLAGS (ld64 (k_mem k) (t + 8 * PX 0 a))) as Hperm by (unfold perm; by rewrite <- Hpte).
  fold a in Hv, Hpa. rewrite Hpte in Hv, Hpa. unfold pte_valid in Hv. apply negb_true_iff in Hv.
  destruct l as [|m l].
  { left. destruct (copy_undo fs T [] k X ltac:(lia) ltac:(cbn; lia)) as (k'' & E & F). exists k''. split; [|done].
    to_kalloc Er Hr0 Hv Hpa. eapply bind_eq; [apply kalloc_empty_run; [|apply X]|done].
    by destruct (vm_kmem _ _ _ _ Vok) as (_ & ? & _). }
  destruct (extend_page new 0 perm byte T0 l0 k0 Ho Hnd N HM copy_perm_ok H0 fs T m l k X HN) as (k1 & E1 & Hm & S1 & Hpg).
  rewrite Z.add_0_l, Hperm in Hpg.
  destruct (Hpg (ldbytes (k_mem k1) g (Z.to_nat PGSIZE))) as (r & k3 & E3 & Hr); [apply length_ldbytes| |].
  { intros j b Hj. by eapply copy_bytes. }
  rewrite <- memmove_stbytes in E3 by done.
  destruct Hr as [(-> & T' & l' & X')|(-> & k4 & T' & E4 & X')].
  - right. exists m, T', l', k3. split; [|done]. to_kalloc Er Hr0 Hv Hpa.
    eapply bind_eq; [exact E1|]. rewrite (proj2 (Z.eqb_neq _ _)) by lia. kstep. by eapply bind_eq.
  - destruct (copy_undo _ _ _ _ X' ltac:(lia) ltac:(cbn; lia)) as (k'' & E & F). left. exists k''. split; [|done].
    to_kalloc Er Hr0 Hv Hpa. eapply bind_eq; [exact E1|]. rewrite (proj2 (Z.eqb_neq _ _)) by lia. kstep.
    eapply bind_eq; [exact E3|]. cbn [negb Z.eqb]. by eapply bind_eq.
Qed.

Lemma uvmcopy_loop_run n : forall fuel sz fs T l k,
  ext fs T l k -> (n < fuel)%nat -> (length fs + n = N)%nat ->
  (Z.of_nat N - 1) * PGSIZE < sz \/ N = 0%nat -> sz <= Z.of_nat N * PGSIZE ->
  exists r k', uvmcopy_loop fuel old new (Z.of_nat (length fs) * PGSIZE) sz k = Ok r k' /\
    ((r = -1 /\ undone new T0 l0 k0 N k') \/
     (r = 0 /\ exists fs' T' l', ext fs' T' l' k' /\ length fs' = N)).
Proof.
  assert (MAXVA = 2 ^ 38) as HMv by done. assert (PGSIZE = 4096) as HPv by done.
  induction n as [|n IH]; intros fuel sz fs T l k X Hf Hn Hlo Hhi; (destruct fuel as [|fuel]; [lia|]).
  - cbn [uvmcopy_loop]. rewrite (proj2 (Z.ltb_ge _ _)) by lia.
    exists 0, k. split; [done|right]. split; [done|]. exists fs, T, l. split; [done|lia].
  - destruct (uvmcopy_turn fuel sz fs T l k X) as [(k' & E & T' & l' & F)|(f & T' & l' & k' & E & X')]; [lia|lia| |].
    + exists (-1), k'. split; [done|left]. split; [done|]. exists T', l'.
      destruct_and! F. split_and!; (done || lia).
    + rewrite E, u64_small by lia. destruct (IH fuel sz (fs ++ [f]) T' l' k' X') as (r & k'' & E' & Hr);
        rewrite ?length_app in *; cbn [length] in *; [lia|lia|lia|lia|].
      exists r, k''. split; [rewrite <- E'; f_equal; lia|done].
Qed.
End uvmcopy.

(** C23: uvmcopy(), the copy of an address space that fork() makes, is all or
    nothing.  On success it returns 0: every page of the parent is mapped in the
    child at the same address with the same flags, to a different page that was
    free and now has the parent's bytes.  Otherwise it returns -1, and only when
    no more free pages are left than the parent has: no PTE of the child has
    changed, and all pages taken but new tables are free again.  The parent's
    PTEs never change, nor any byte outside the free pages and the child's
    tables, and no page is lost. *)
Theorem uvmcopy_all_or_nothing old new sz To T l gs k :
  vm old To l k -> vm new T l k -> (forall a, a ∈ To -> a ∉ T ++ l) ->
  (forall g, g ∈ gs -> page_ok g /\ g ∉ T ++ l) ->
  0 <= sz <= MAXVA -> Z.of_nat (length gs) * PGSIZE = PGROUNDUP sz -> maps (k_mem k) old 0 gs ->
  (forall a, 0 <= a < PGROUNDUP sz -> pte_of (k_mem k) new a = 0) ->
  exists r k' fs T' l', uvmcopy old new sz k = Ok r k' /\
    vm new T' l' k' /\ T ++ l ≡ₚ T' ++ l' ++ fs /\ same_outside (T ++ l) k k' /\
    (forall a, pte_of (k_mem k') old a = pte_of (k_mem k) old a) /\
    (forall a, 0 <= a < MAXVA -> ~ 0 <= a < Z.of_nat (length fs) * PGSIZE ->
       pte_of (k_mem k') new a = pte_of (k_mem k) new a) /\
    (forall (i : nat) f g, fs !! i = Some f -> gs !! i = Some g ->
       pte_of (k_mem k') new (Z.of_nat i * PGSIZE) =
         user_pte (PTE_FLAGS (pte_of (k_mem k) old (Z.of_nat i * PGSIZE))) f /\
       forall j, 0 <= j < PGSIZE -> ld8 (k_mem k') (f + j) = ld8 (k_mem k) (g + j)) /\
    (r = 0 /\ length fs = length gs \/ r = -1 /\ fs = [] /\ (length l' <= length gs)%nat).
Proof.
  intros Vo Vn HTo Hgs Hsz Hlen Hmaps H0. unfold uvmcopy.
  assert (MAXVA = 2 ^ 38) as HMv by done. assert (PGSIZE = 4096) as HPv by done.
  assert (0 + Z.of_nat (length gs) * PGSIZE <= MAXVA /\ sz <= Z.of_nat (length gs) * PGSIZE /\
    ((Z.of_nat (length gs) - 1) * PGSIZE < sz \/ length gs = 0%nat) /\
    (length gs < Z.to_nat (sz / PGSIZE + 2))%nat) as (HM & Hhi & Hlo & Hf).
  { rewrite PGROUNDUP_div, HPv, HMv in * by lia. split_and!; zdm. }
  rewrite <- Hlen in H0.
  destruct (uvmcopy_loop_run old new To T l gs k Vo Vn HTo Hgs Hmaps HM H0 (length gs) _ sz [] T l k
    (extended_start _ _ _ _ _ _ _ Vn) Hf eq_refl Hlo Hhi) as (r & k' & E & Hr).
  assert (forall T' l' fs, vm new T' l' k' -> T ++ l ≡ₚ T' ++ l' ++ fs -> same_outside (T ++ l) k k' ->
    forall a, pte_of (k_mem k') old a = pte_of (k_mem k) old a) as Hold.
  { intros T' l' fs V' P' M'. apply (vm_other old To l k (T ++ l) l' k'); [done|done|by eapply vm_pages_ok|done|apply V'|].
    intros b. rewrite P'. clear; set_solver. }
  destruct Hr as [(-> & T' & l' & V' & P' & M' & Hl & Hp)|(-> & fs & T' & l' & X & Hfs)].
  - assert (T ++ l ≡ₚ T' ++ l' ++ []) as P1 by (by rewrite app_nil_r).
    exists (-1), k', [], T', l'. split_and!; [done|done|done|done|by eapply Hold|by intros; apply Hp|done|].
    right. split_and!; done.
  - exists 0, k', fs, T', l'. destruct X as [X1 X2 X3 X4 X5 X6 X7].
    split_and!; [done|done|done|done|by eapply Hold|done| |by left].
    intros i f g Hi Hg. split; [by apply (X7 i)|]. intros j Hj.
    pose proof (X5 i (Z.to_nat j) f Hi ltac:(lia)) as Hb. rewrite (list_lookup_total_correct _ _ _ Hg) in Hb.
    by rewrite Z2Nat.id in Hb by lia.
Qed.

End vmmap.

(** * A small machine *)

(** A platform with eight pages of allocatable memory. *)
Definition eight_pages : Platform := {|
  others := fun _ _ => None; patience := 0;
  sym_end := PHYSTOP - 8 * PGSIZE; sym_etext := KERNBASE + PGSIZE;
  sym_trampoline := KERNBASE; sym_uservec := KERNBASE; sym_userret := KERNBASE + 144;
  sym_forkret := 0; sym_usertrap := 0; sym_kernelvec := 0 |}.

Section small.
Let P0 : Platform := eight_pages.
#[local] Existing Instance P0.

(** The [n]-th of the eight pages. *)
Definition pg (n : Z) : Z := PHYSTOP - 8 * PGSIZE + n * PGSIZE.

Lemma pg_ok n : 0 <= n < 8 -> page_ok (pg n).
Proof.
  intros. unfold page_ok. change sym_end with (PHYSTOP - 8 * PGSIZE). unfold pg, PHYSTOP, KERNBASE, PGSIZE.
  split; [zdm|lia].
Qed.

(** The pages 0 to 4 are free, 6 and 7 empty page tables, 5 holds a 7. *)
Definition free5 : list Z := [pg 4; pg 3; pg 2; pg 1; pg 0].
Definition small_mem : mem :=
  st8 (st64 (st64 (st64 (st64 ∅ (pg 4) (pg 3)) (pg 3) (pg 2)) (pg 2) (pg 1)) (pg 1) (pg 0)) (pg 5 + 3) 7.
Definition small_K : K := set_k_freelist (pg 4) (set_k_mem small_mem bss).

Lemma small_kmem : kmem_inv free5 small_K.
Proof.
  split_and!; [done| |by apply (bool_decide_unpack (NoDup free5)); vm_compute].
  cbn [free5 free_chain k_freelist k_mem small_K set_k_freelist set_k_mem].
  split_and!; try (apply pg_ok; lia); by vm_compute.
Qed.

Lemma small_zero x : pg 5 + PGSIZE <= x -> ld8 small_mem x = 0.
Proof.
  intros Hx. unfold small_mem, pg, PGSIZE in *. rewrite ld8_st8_ne by lia. by rewrite !st64_out by lia.
Qed.

(** An empty page table. *)
Lemma empty_tbl pt p : pg 5 + PGSIZE <= pt -> tbl small_mem pt p = if p is [] then Some pt else None.
Proof.
  intros Hhi. induction p as [|i p IH]; [done|]. cbn [tbl].
  destruct ((0 <=? i) && (i <? 512) && (length p <? 2)%nat) eqn:E; [|done]. b2p.
  rewrite IH. destruct p; [|done]. cbn [mbind option_bind]. unfold sub.
  by rewrite ld64_zero by (intros x Hx; apply small_zero; lia).
Qed.

Lemma empty_vm pt : pt ∈ [pg 6; pg 7] -> vm pt [pt] free5 small_K.
Proof.
  intros Hpt. assert (pg 5 + PGSIZE <= pt /\ page_ok pt /\ pt ∉ free5) as (Hhi & Hok & Hn).
  { apply elem_of_cons in Hpt as [->|[->|[]%not_elem_of_nil]%elem_of_cons];
      (split_and!; [by vm_compute|apply pg_ok; lia|by apply (bool_decide_unpack (_ ∉ _)); vm_compute]). }
  pose proof (fun p => empty_tbl pt p Hhi) as Ht.
  split.
  - exact small_kmem.
  - set_solver.
  - intros [|i p] a Ha; change (k_mem small_K) with small_mem in Ha; rewrite Ht in Ha; [|done]. injection Ha as <-. set_solver.
  - intros [|i p] [|j q] a Ha Hb; change (k_mem small_K) with small_mem in Ha, Hb; rewrite Ht in Ha, Hb; done.
  - by constructor.
  - cbn. apply list.NoDup_cons. split; [done|]. apply small_kmem.
Qed.

Lemma empty_pte pt a : pg 5 + PGSIZE <= pt -> pte_of (k_mem small_K) pt a = 0.
Proof. intros. unfold pte_of. change (k_mem small_K) with small_mem. by rewrite empty_tbl. Qed.

Lemma mappages_maps_witness : exists r n k' T' l',
  mappages (pg 7) 5000 2 (pg 5) (Z.lor PTE_R PTE_U) small_K = Ok r k' /\ vm (pg 7) T' l' k' /\
  (r = 0 /\ n = 1%nat \/ r = -1 /\ l' = [] /\ n = 0%nat).
Proof.
  destruct (mappages_maps (pg 7) 5000 2 (pg 5) (Z.lor PTE_R PTE_U) _ _ _ (empty_vm (pg 7) ltac:(set_solver)))
    as (r & n & k' & T' & l' & E & V & _ & _ & Hr & _); [done..| |].
  - intros a _ _. by rewrite empty_pte by (by vm_compute).
  - exists r, n, k', T', l'. split_and!; [done|done|]. change (npages 5000 2) with 1%nat in Hr.
    destruct Hr as [?|(? & ? & ?)]; [by left|right]. split_and!; [done..|lia].
Defined.

Lemma uvmalloc_all_or_nothing_witness : exists r k' (fs T' l' : list Z),
  uvmalloc (pg 7) 0 5000 PTE_W small_K = Ok r k' /\ vm (pg 7) T' l' k' /\
  (r = 5000 /\ length fs = 2%nat \/ r = 0 /\ fs = [] /\ (length l' <= 2)%nat).
Proof.
  destruct (uvmalloc_all_or_nothing (pg 7) 0 5000 PTE_W _ _ _ (empty_vm (pg 7) ltac:(set_solver)))
    as (r & k' & fs & T' & l' & E & V & _ & _ & _ & _ & Hr); [done..| |].
  - intros a _. by rewrite empty_pte by (by vm_compute).
  - exists r, k', fs, T', l'. split_and!; done.
Defined.

(** In this state the first user page of page table 7 is page 5. *)
Definition table_K (t a : Z) (k : K) : K :=
  set_k_freelist (ld64 (k_mem k) a) (set_k_mem (new_table (k_mem k) (t + 8 * 0) a) k).
Definition user_K : K :=
  let k := table_K (pg 4) (pg 3) (table_K (pg 7) (pg 4) small_K) in
  set_k_mem (st64 (k_mem k) (pg 3 + 8 * PX 0 0) (user_pte (Z.lor PTE_R PTE_U) (pg 5))) k.

Lemma table_step pt T a l k p t :
  vm pt T (a :: l) k -> tbl (k_mem k) pt p = Some t -> (length p < 2)%nat -> sub (k_mem k) t 0 = None ->
  grows pt T (a :: l) k (a :: T) l (table_K t a k) /\
  tbl (k_mem (table_K t a k)) pt (0 :: p) = Some a /\ sub (k_mem (table_K t a k)) a 0 = None /\
  (forall va, pte_of (k_mem (table_K t a k)) pt va = pte_of (k_mem k) pt va).
Proof.
  intros V Ht Hp Hs. assert (0 <= 0 < 512) as Hi by lia. split_and!.
  - by apply (new_table_grows _ _ _ _ _ p).
  - change (k_mem (table_K t a k)) with (new_table (k_mem k) (t + 8 * 0) a).
    rewrite (new_table_tbl _ T _ l _ p) by done. by rewrite decide_True.
  - unfold sub. change (k_mem (table_K t a k)) with (new_table (k_mem k) (t + 8 * 0) a).
    by rewrite (new_table_zero pt T _ l _ p).
  - intros va. by apply (new_table_pte _ T _ l _ p).
Qed.

Lemma user_vm :
  grows (pg 7) [pg 7] free5 small_K [pg 3; pg 4; pg 7] [pg 2; pg 1; pg 0] user_K /\
  (forall a, 0 <= a < MAXVA -> pte_of (k_mem user_K) (pg 7) a =
     if decide (a / PGSIZE = 0 / PGSIZE) then user_pte (Z.lor PTE_R PTE_U) (pg 5) else 0).
Proof.
  pose proof (empty_vm (pg 7) ltac:(set_solver)) as V0.
  assert (sub (k_mem small_K) (pg 7) 0 = None) as Hs0.
  { unfold sub. change (k_mem small_K) with small_mem. rewrite ld64_zero; [done|].
    intros x Hx. apply small_zero. unfold pg, PGSIZE in *. lia. }
  destruct (table_step (pg 7) [pg 7] (pg 4) _ small_K [] (pg 7) V0 eq_refl ltac:(cbn; lia) Hs0) as (G1 & T1 & S1 & E1).
  destruct (table_step (pg 7) _ (pg 3) _ _ [0] (pg 4) (gr_vm _ _ _ _ _ _ _ G1) T1 ltac:(cbn; lia) S1) as (G2 & T2 & _ & E2).
  destruct (vm_store (pg 7) _ _ _ 0 (pg 3) (user_pte (Z.lor PTE_R PTE_U) (pg 5)) (gr_vm _ _ _ _ _ _ _ G2)) as [G3 E3];
    [change (PX 1 0) with 0; change (PX 2 0) with 0; exact T2|clear; vm_compute; split; [discriminate|reflexivity]|clear; vm_compute; split; [discriminate|reflexivity]|].
  split; [exact (grows_trans _ _ _ _ _ _ _ _ _ _ (grows_trans _ _ _ _ _ _ _ _ _ _ G1 G2) G3)|].
  intros a Ha. unfold user_K. cbv zeta. rewrite E3 by done. case_decide; [done|].
  rewrite E2, E1. apply empty_pte. by vm_compute.
Qed.

Lemma uvmcopy_all_or_nothing_witness : exists r k' (fs T' l' : list Z),
  uvmcopy (pg 7) (pg 6) 100 user_K = Ok r k' /\ vm (pg 6) T' l' k' /\
  (r = 0 /\ length fs = 1%nat \/ r = -1 /\ fs = [] /\ (length l' <= 1)%nat).
Proof.
  destruct user_vm as [[V P M] Hp].
  destruct (vm_other (pg 6) [pg 6] free5 small_K (pg 7 :: free5) [pg 2; pg 1; pg 0] user_K) as [V6 Hp6].
  { apply empty_vm. set_solver. }
  { apply list.Forall_forall, (bool_decide_unpack (Forall _ _)). by vm_compute. }
  { repeat (constructor; [apply pg_ok; lia|]). constructor. } { exact M. } { apply V. } { clear. unfold free5. set_solver. }
  destruct (uvmcopy_all_or_nothing (pg 7) (pg 6) 100 _ _ _ [pg 5] user_K V V6)
    as (r & k' & fs & T' & l' & E & V' & _ & _ & _ & _ & _ & Hr).
  - apply list.Forall_forall, (bool_decide_unpack (Forall _ _)). by vm_compute.
  - intros g ->%list_elem_of_singleton. split; [apply pg_ok; lia|].
    apply (bool_decide_unpack (_ ∉ _)). by vm_compute.
  - clear. vm_compute. split; discriminate.
  - reflexivity.
  - intros [|i] f Hi; [|discriminate]. injection Hi as <-. cbv zeta.
    rewrite Hp by (clear; vm_compute; split; [discriminate|reflexivity]).
    clear. vm_compute. split_and!; [reflexivity|reflexivity|discriminate].
  - intros a _. rewrite Hp6. apply empty_pte. clear. vm_compute. discriminate.
  - exists r, k', fs, T', l'. split_and!; [exact E|exact V'|exact Hr].
Defined.

Lemma user_upage : upage (k_mem user_K) (pg 7) 0 = pg 5.
Proof.
  destruct user_vm as [[V _ _] Hp]. rewrite (upage_pte _ _ _ _ _ V) by reflexivity.
  rewrite Hp by (clear; vm_compute; split; [discriminate|reflexivity]). reflexivity.
Qed.

Lemma copyin_bytewise_witness :
  copyin (pg 7) 2 3 user_K = Ok (user_read (k_mem user_K) (pg 7) 2 3) user_K.
Proof. apply (copyin_bytewise (pg 7) 2 3 user_K); clear; lia. Defined.

Lemma copyinstr_bytewise_witness :
  copyinstr (pg 7) 3 100 user_K = Ok (user_str (k_mem user_K) (pg 7) 3 100) user_K.
Proof. apply (copyinstr_bytewise (pg 7) 3 100 user_K); clear; lia. Defined.

(** The bytes 2 and 3 of the user page. *)
Lemma user_bytes i : (i < 2)%nat ->
  PGROUNDDOWN (u64 (2 + Z.of_nat i)) = 0 /\ uaddr (k_mem user_K) (pg 7) (u64 (2 + Z.of_nat i)) = pg 5 + 2 + Z.of_nat i.
Proof.
  intros Hi. assert (PGROUNDDOWN (u64 (2 + Z.of_nat i)) = 0 /\ u64 (2 + Z.of_nat i) mod PGSIZE = 2 + Z.of_nat i) as [E1 E2].
  { destruct i as [|[|i]]; [split; reflexivity..|exfalso; clear -Hi; lia]. }
  split; [exact E1|]. unfold uaddr. rewrite E1, E2, user_upage. lia.
Qed.

Lemma user_clear : clear_of_tables (k_mem user_K) (pg 7) 2 2.
Proof.
  intros i H _ (t & Ht & Hx)%(in_tables_vm _ _ _ _ _ (gr_vm _ _ _ _ _ _ _ (proj1 user_vm))).
  rewrite (proj2 (user_bytes i H)) in Hx. unfold pg, PGSIZE in *. clear -Ht Hx H.
  repeat (apply elem_of_cons in Ht as [->|Ht]; [lia|]). by apply not_elem_of_nil in Ht.
Qed.

Lemma copyout_copyin_witness : exists k', copyout (pg 7) 2 [1; 2] user_K = Ok 0 k' /\
  copyin (pg 7) 2 2 k' = Ok (0, [1; 2]) k'.
Proof.
  destruct (copyout_copyin (pg 7) 2 [1; 2] user_K) as (k' & E & E' & _).
  - clear. lia.
  - intros i H. rewrite (proj1 (user_bytes i H)), user_upage. discriminate.
  - intros i j H1 H2. rewrite (proj2 (user_bytes i H1)), (proj2 (user_bytes j H2)). lia.
  - exact user_clear.
  - exists k'. split; [exact E|exact E'].
Defined.

End small.
