(* ===== verification/Proc.v ===== *)
(** kernel/proc.c without the calls into the file system: the process table,
    the scheduler's hand-over, sleep and wakeup, allocation and freeing of a
    process's memory.  (fork, exit, wait and userinit are in ProcLife.v.)

    A trapframe is a page of [k_mem], laid out as kernel/proc.h says. *)
From S2P Require Import Prelude CInt KState KString Riscv Kalloc Vm.

(** * kernel/proc.h: struct trapframe, the offsets of the fields *)

Definition tf_kernel_satp : Z := 0.
Definition tf_kernel_sp : Z := 8.
Definition tf_kernel_trap : Z := 16.
Definition tf_epc : Z := 24.
Definition tf_kernel_hartid : Z := 32.
Definition tf_ra : Z := 40.
Definition tf_sp : Z := 48.
Definition tf_a0 : Z := 112.
Definition tf_a1 : Z := 120.
Definition tf_a2 : Z := 128.
Definition tf_a3 : Z := 136.
Definition tf_a4 : Z := 144.
Definition tf_a5 : Z := 152.
Definition tf_a7 : Z := 168.
Definition sizeof_trapframe : Z := 288.

Section proc.
Context {P : Platform}.

(** * The current process *)

Definition myproc : M (option nat) := gets (fun k => k_proc k).

(** The current process where the code uses it without a test: a null
    dereference in the kernel faults and ends in kerneltrap()'s panic. *)
Definition mypr : M nat :=
  let* p := myproc in
  match p with
  | Some p => ret p
  | None => panic "kerneltrap"
  end.

Definition tf_get (p : nat) (field : Z) : M Z :=
  let* pr := get_proc p in
  gets (fun k => ld64 (k_mem k) (p_trapframe pr + field)).

Definition tf_set (p : nat) (field v : Z) : M unit :=
  let* pr := get_proc p in
  upd_mem (fun m => st64 m (p_trapframe pr + field) v).

(** * Scheduling *)

(** swtch() into the scheduler, and back: the other threads run. *)
Definition swtch : M unit := fun k =>
  match others (k_yields k) (set_k_yields (S (k_yields k)) k) with
  | Some k' => Ok tt k'
  | None => Stuck k
  end.

(** A CPU's noff is the number of spinlocks it holds and interrupts are off
    while it is positive (Spinlock.v), so the test of intr_get() cannot fail
    after the test of noff.  The intena of the CPU, which sched() saves and
    restores, is not part of [K]: for the thread it is a local variable. *)
Definition sched : M unit :=
  let* p := mypr in
  let* h := holding (L_proc p) in
  if negb h then panic "sched p->lock"
  else
    let* noff := gets (fun k => size (k_held k)) in
    if negb (noff =? 1)%nat then panic "sched locks"
    else
      let* pr := get_proc p in
      if decide (p_state pr = RUNNING) then panic "sched running"
      else swtch.

Definition yield : M unit :=
  let* p := mypr in
  acquire (L_proc p) ;;;
  upd_proc p (set_p_state RUNNABLE) ;;;
  sched ;;;
  release (L_proc p).

Definition sleep (ch : chan) (lk : lock) : M unit :=
  let* p := mypr in
  acquire (L_proc p) ;;;
  release lk ;;;
  (* Go to sleep. *)
  upd_proc p (set_p_chan ch) ;;;
  upd_proc p (set_p_state SLEEPING) ;;;
  sched ;;;
  (* Tidy up. *)
  upd_proc p (set_p_chan Ch_null) ;;;
  (* Reacquire original lock. *)
  release (L_proc p) ;;;
  acquire lk.

(** [while(c) sleep(ch, lk)] with [before] what the body does before it sleeps;
    [before] may leave the loop with a result. *)
Fixpoint sleep_loop {A} (n : nat) (c : K -> bool) (before : M (option A)) (ch : chan) (lk : lock)
    : M (option A) :=
  let* b := gets c in
  if b : bool then
    let* r := before in
    match r with
    | Some a => ret (Some a)
    | None =>
        match n with
        | O => stuck
        | S n' => sleep ch lk ;;; sleep_loop n' c before ch lk
        end
    end
  else ret None.

Definition sleep_while (c : K -> bool) (ch : chan) (lk : lock) : M unit :=
  sleep_loop (A := unit) patience c (ret None) ch lk ;;; ret tt.

Definition wakeup (ch : chan) : M unit :=
  for_ (seq 0 (Z.to_nat NPROC)) (fun p =>
    let* me := myproc in
    if decide (me = Some p) then ret tt
    else
      acquire (L_proc p) ;;;
      let* pr := get_proc p in
      (if decide (p_state pr = SLEEPING /\ p_chan pr = ch)
       then upd_proc p (set_p_state RUNNABLE) else ret tt) ;;;
      release (L_proc p)).

Definition kill (pid : Z) : M Z :=
  let* r := first_ (seq 0 (Z.to_nat NPROC)) (fun p =>
    acquire (L_proc p) ;;;
    let* pr := get_proc p in
    if p_pid pr =? pid then
      upd_proc p (set_p_killed 1) ;;;
      (if decide (p_state pr = SLEEPING)
       then upd_proc p (set_p_state RUNNABLE) (* Wake process from sleep(). *)
       else ret tt) ;;;
      release (L_proc p) ;;;
      ret (Some 0)
    else
      release (L_proc p) ;;;
      ret None) in
  ret (default (-1) r).

Definition setkilled (p : nat) : M unit :=
  acquire (L_proc p) ;;;
  upd_proc p (set_p_killed 1) ;;;
  release (L_proc p).

Definition killed (p : nat) : M Z :=
  acquire (L_proc p) ;;;
  let* pr := get_proc p in
  release (L_proc p) ;;;
  ret (p_killed pr).

(** * The scheduler, and the interrupt flag of kernel/riscv.h *)

Definition get_csr (f : csr -> Z) : M Z := gets (fun k => f (k_csr k)).
Definition upd_csr (f : csr -> csr) : M unit := modify (fun k => set_k_csr (f (k_csr k)) k).

Definition intr_on : M unit := upd_csr (fun c => set_c_sstatus (Z.lor (c_sstatus c) SSTATUS_SIE) c).
Definition intr_off : M unit :=
  upd_csr (fun c => set_c_sstatus (Z.land (c_sstatus c) (u64 (Z.lnot SSTATUS_SIE))) c).
Definition intr_get : M bool :=
  let* x := get_csr c_sstatus in
  ret (negb (Z.land x SSTATUS_SIE =? 0)).

(** The body of scheduler()'s loop over the process table. *)
Definition scheduler_visit (p : nat) : M unit :=
  acquire (L_proc p) ;;;
  let* pr := get_proc p in
  (if decide (p_state pr = RUNNABLE) then
     (* Switch to chosen process. *)
     upd_proc p (set_p_state RUNNING) ;;;
     modify (set_k_proc (Some p)) ;;;
     swtch ;;;
     (* Process is done running for now. *)
     modify (set_k_proc None)
   else ret tt) ;;;
  release (L_proc p).

(** One turn of the scheduler's endless loop, on a CPU with no process. *)
Definition scheduler_round : M unit :=
  intr_on ;;;
  for_ (seq 0 (Z.to_nat NPROC)) scheduler_visit.

(** * Process table *)

Definition procinit : M unit :=
  initlock L_pid ;;;
  initlock L_wait ;;;
  for_ (seq 0 (Z.to_nat NPROC)) (fun p =>
    initlock (L_proc p) ;;;
    upd_proc p (set_p_state UNUSED) ;;;
    upd_proc p (set_p_kstack (KSTACK (Z.of_nat p)))).

Definition allocpid : M Z :=
  acquire L_pid ;;;
  let* pid := gets (fun k => k_nextpid k) in
  modify (set_k_nextpid (i32 (pid + 1))) ;;;
  release L_pid ;;;
  ret pid.

Definition proc_freepagetable (pagetable sz : Z) : M unit :=
  uvmunmap pagetable TRAMPOLINE 1 false ;;;
  uvmunmap pagetable TRAPFRAME 1 false ;;;
  uvmfree pagetable sz.

Definition proc_pagetable (p : nat) : M Z :=
  (* An empty page table. *)
  let* pagetable := uvmcreate in
  if pagetable =? 0 then ret 0
  else
    (* map the trampoline code at the highest user virtual address. *)
    let* r := mappages pagetable TRAMPOLINE PGSIZE sym_trampoline (Z.lor PTE_R PTE_X) in
    if r <? 0 then
      uvmfree pagetable 0 ;;;
      ret 0
    else
      (* map the trapframe page just below the trampoline page *)
      let* pr := get_proc p in
      let* r := mappages pagetable TRAPFRAME PGSIZE (p_trapframe pr) (Z.lor PTE_R PTE_W) in
      if r <? 0 then
        uvmunmap pagetable TRAMPOLINE 1 false ;;;
        uvmfree pagetable 0 ;;;
        ret 0
      else ret pagetable.

Definition freeproc (p : nat) : M unit :=
  let* pr := get_proc p in
  when (negb (p_trapframe pr =? 0)) (kfree (p_trapframe pr)) ;;;
  upd_proc p (set_p_trapframe 0) ;;;
  when (negb (p_pagetable pr =? 0)) (proc_freepagetable (p_pagetable pr) (p_sz pr)) ;;;
  upd_proc p (set_p_pagetable 0) ;;;
  upd_proc p (set_p_sz 0) ;;;
  upd_proc p (set_p_pid 0) ;;;
  upd_proc p (set_p_parent None) ;;;
  upd_proc p (fun pr => set_p_name (<[0%nat := 0]> (p_name pr)) pr) ;;;
  upd_proc p (set_p_chan Ch_null) ;;;
  upd_proc p (set_p_killed 0) ;;;
  upd_proc p (set_p_xstate 0) ;;;
  upd_proc p (set_p_state UNUSED).

(** The label [found:] of allocproc(), with p->lock held. *)
Definition allocproc_found (p : nat) : M (option nat) :=
  let* pid := allocpid in
  upd_proc p (set_p_pid pid) ;;;
  upd_proc p (set_p_state USED) ;;;
  (* Allocate a trapframe page. *)
  let* tf := kalloc in
  upd_proc p (set_p_trapframe tf) ;;;
  if tf =? 0 then
    freeproc p ;;;
    release (L_proc p) ;;;
    ret None
  else
    (* An empty user page table. *)
    let* pagetable := proc_pagetable p in
    upd_proc p (set_p_pagetable pagetable) ;;;
    if pagetable =? 0 then
      freeproc p ;;;
      release (L_proc p) ;;;
      ret None
    else
      (* Set up new context to start executing at forkret *)
      upd_proc p (fun pr =>
        set_p_context (mk_context sym_forkret (p_kstack pr + PGSIZE) (replicate 12 0)) pr) ;;;
      ret (Some p).

Definition allocproc : M (option nat) :=
  let* r := first_ (seq 0 (Z.to_nat NPROC)) (fun p =>
    acquire (L_proc p) ;;;
    let* pr := get_proc p in
    if decide (p_state pr = UNUSED) then ret (Some p)
    else release (L_proc p) ;;; ret None) in
  match r with
  | None => ret None
  | Some p => allocproc_found p
  end.

Definition growproc (n : Z) : M Z :=
  let* p := mypr in
  let* pr := get_proc p in
  let sz := p_sz pr in
  if 0 <? n then
    let* sz' := uvmalloc (p_pagetable pr) sz (u64 (sz + n)) PTE_W in
    if sz' =? 0 then ret (-1)
    else upd_proc p (set_p_sz sz') ;;; ret 0
  else if n <? 0 then
    let* sz' := uvmdealloc (p_pagetable pr) sz (u64 (sz + n)) in
    upd_proc p (set_p_sz sz') ;;; ret 0
  else upd_proc p (set_p_sz sz) ;;; ret 0.

(** * Copying to and from a user or a kernel address *)

Definition either_copyout (user_dst : bool) (dst : Z) (src : list Z) : M Z :=
  if user_dst then
    let* p := mypr in
    let* pr := get_proc p in
    copyout (p_pagetable pr) dst src
  else
    upd_mem (fun m => stbytes m dst src) ;;;
    ret 0.

Definition either_copyin (user_src : bool) (src len : Z) : M (Z * list Z) :=
  if user_src then
    let* p := mypr in
    let* pr := get_proc p in
    copyin (p_pagetable pr) src len
  else
    let* bs := gets (fun k => ldbytes (k_mem k) src (Z.to_nat len)) in
    ret (0, bs).

(** * Sleep-locks, kernel/sleeplock.c *)

Definition get_sleeplock (s : sleeplock_id) (k : K) : sleeplock :=
  match s with
  | SL_buf i => b_lock (k_bufs k !!! i)
  | SL_inode i => i_lock (k_inodes k !!! i)
  end.

Definition upd_sleeplock (s : sleeplock_id) (f : sleeplock -> sleeplock) : M unit :=
  match s with
  | SL_buf i => upd_buf i (fun b => set_b_lock (f (b_lock b)) b)
  | SL_inode i => upd_inode i (fun ip => set_i_lock (f (i_lock ip)) ip)
  end.

Definition initsleeplock (s : sleeplock_id) : M unit :=
  initlock (L_sleep s) ;;;
  upd_sleeplock s (set_sl_locked 0) ;;;
  upd_sleeplock s (set_sl_pid 0).

Definition acquiresleep (s : sleeplock_id) : M unit :=
  acquire (L_sleep s) ;;;
  sleep_while (fun k => negb (sl_locked (get_sleeplock s k) =? 0)) (Ch_sleeplock s) (L_sleep s) ;;;
  upd_sleeplock s (set_sl_locked 1) ;;;
  let* p := mypr in
  let* pr := get_proc p in
  upd_sleeplock s (set_sl_pid (p_pid pr)) ;;;
  release (L_sleep s).

Definition releasesleep (s : sleeplock_id) : M unit :=
  acquire (L_sleep s) ;;;
  upd_sleeplock s (set_sl_locked 0) ;;;
  upd_sleeplock s (set_sl_pid 0) ;;;
  wakeup (Ch_sleeplock s) ;;;
  release (L_sleep s).

Definition holdingsleep (s : sleeplock_id) : M bool :=
  acquire (L_sleep s) ;;;
  let* sl := gets (get_sleeplock s) in
  let* r := (if sl_locked sl =? 0 then ret false
             else
               let* p := mypr in
               let* pr := get_proc p in
               ret (sl_pid sl =? p_pid pr)) in
  release (L_sleep s) ;;;
  ret r.

(** * What wakeup() does *)

Definition wake_proc (ch : chan) (pr : proc) : proc :=
  if decide (p_state pr = SLEEPING /\ p_chan pr = ch) then set_p_state RUNNABLE pr else pr.

Definition wake_one (ch : chan) (me : option nat) (i : nat) (pr : proc) : proc :=
  if decide (me = Some i) then pr else wake_proc ch pr.

(** The process table after [wakeup ch] in process [me]. *)
Definition wake_all (ch : chan) (me : option nat) (ps : list proc) : list proc :=
  imap (wake_one ch me) ps.

(** A thread that may call wakeup(): it holds no process lock but, possibly,
    its own. *)
Definition wake_ready (k : K) : Prop :=
  length (k_procs k) = Z.to_nat NPROC /\
  forall p, k_proc k <> Some p -> L_proc p ∉ k_held k.

Lemma release_acquired l k k' :
  l ∉ k_held k -> k_held k' = {[l]} ∪ k_held k ->
  release l k' = Ok tt (set_k_held (k_held k) k').
Proof.
  intros H E. rewrite release_ok by set_solver. by rewrite E, held_add_del.
Qed.

Lemma wakeup_body ch p k :
  (p < length (k_procs k))%nat -> (k_proc k <> Some p -> L_proc p ∉ k_held k) ->
  (let* me := myproc in
   if decide (me = Some p) then ret tt
   else
     acquire (L_proc p) ;;;
     let* pr := get_proc p in
     (if decide (p_state pr = SLEEPING /\ p_chan pr = ch)
      then upd_proc p (set_p_state RUNNABLE) else ret tt) ;;;
     release (L_proc p)) k =
  Ok tt (set_k_procs (alter (wake_one ch (k_proc k) p) p (k_procs k)) k).
Proof.
  intros Hp Hl. destruct (lookup_lt_is_Some_2 _ _ Hp) as [pr Hpr].
  unfold myproc, wake_one, wake_proc. kstep. destruct (decide (k_proc k = Some p)) as [E|E].
  - rewrite alter_same by done. done.
  - specialize (Hl E). kstep. kstep. cbn [k_procs set_k_held].
    rewrite (list_lookup_total_correct _ _ _ Hpr). destruct (decide (_ /\ _)) as [D|D].
    + kstep. rewrite (release_acquired _ k); [|auto|done].
      transitivity (Ok tt (set_k_procs (alter (set_p_state RUNNABLE) p (k_procs k)) k)); [done|].
      do 2 f_equal.
      apply list_eq. intros i. rewrite !list_lookup_alter. case_decide; [subst|done].
      rewrite Hpr. cbn. by rewrite decide_True.
    + kstep. rewrite (release_acquired _ k); [|auto|done].
      rewrite alter_same; [done|]. intros x Hx. rewrite decide_False; congruence.
Qed.

Lemma foldl_set_procs (f : nat -> proc -> proc) (l : list nat) k :
  foldl (fun k i => set_k_procs (alter (f i) i (k_procs k)) k) k l =
  set_k_procs (foldl (fun ps i => alter (f i) i ps) (k_procs k) l) k.
Proof. revert k. induction l as [|i l IH]; intros k; cbn; [done|]. by rewrite IH. Qed.

(** wakeup() makes the processes that sleep on the channel runnable, but for
    the calling one, and does nothing else. *)
Lemma wakeup_run ch k :
  wake_ready k -> wakeup ch k = Ok tt (set_k_procs (wake_all ch (k_proc k) (k_procs k)) k).
Proof.
  intros [Hlen Hl]. unfold wakeup.
  rewrite (for_run _ _ (fun p k' => set_k_procs (alter (wake_one ch (k_proc k) p) p (k_procs k')) k')
            (fun k' => k_proc k' = k_proc k /\ k_held k' = k_held k /\
                       length (k_procs k') = length (k_procs k))); [| |done].
  - f_equal. rewrite foldl_set_procs, <- Hlen. by rewrite foldl_alter_imap.
  - intros p k' Hp (E1 & E2 & E3). apply elem_of_seq in Hp. rewrite <- E1. split.
    + apply wakeup_body; [lia|]. rewrite E1, E2. apply Hl.
    + cbn. by rewrite length_alter.
Qed.

Lemma wake_all_pid ch me ps p : p_pid (wake_all ch me ps !!! p) = p_pid (ps !!! p).
Proof.
  unfold wake_all. destruct (ps !! p) as [pr|] eqn:E.
  - rewrite (list_lookup_total_correct _ _ _ E).
    erewrite list_lookup_total_correct; [|by rewrite list_lookup_imap, E].
    cbn. unfold wake_one, wake_proc. by repeat case_decide.
  - rewrite !list_lookup_total_alt, list_lookup_imap, E. done.
Qed.

(** * Sleep-locks without contention *)

(** A free sleep-lock is taken without sleeping. *)
Lemma acquiresleep_run s p k :
  k_proc k = Some p -> L_sleep s ∉ k_held k -> sl_locked (get_sleeplock s k) = 0 ->
  acquiresleep s k =
    upd_sleeplock s (fun _ => mk_sleeplock 1 (p_pid (k_procs k !!! p))) k.
Proof.
  intros Hp Hl Hs. unfold acquiresleep, sleep_while, mypr, myproc.
  kstep. kstep.
  eapply bind_eq.
  { destruct patience; cbn [sleep_loop];
      (kstep; cbv beta; destruct s; cbn in Hs |- *; rewrite Hs; reflexivity). }
  kstep.
  destruct s; cbn [upd_sleeplock]; repeat kstep; cbn [k_proc set_k_held set_k_bufs set_k_inodes];
    rewrite Hp; repeat kstep; cbn [k_held set_k_held set_k_bufs set_k_inodes];
    rewrite held_add_del by done; unfold upd_buf, upd_inode, modify;
    cbn [k_bufs k_inodes set_k_held set_k_bufs set_k_inodes];
    by rewrite alter_alter.
Qed.

Lemma holdingsleep_run s p k :
  k_proc k = Some p -> L_sleep s ∉ k_held k ->
  holdingsleep s k =
    Ok (negb (sl_locked (get_sleeplock s k) =? 0) &&
        (sl_pid (get_sleeplock s k) =? p_pid (k_procs k !!! p))) k.
Proof.
  intros Hp Hl. unfold holdingsleep, mypr, myproc. kstep. kstep.
  replace (get_sleeplock s _) with (get_sleeplock s k) by (by destruct s).
  destruct (sl_locked (get_sleeplock s k) =? 0); repeat kstep;
    cbn [k_proc set_k_held]; [|rewrite Hp]; repeat kstep;
    cbn [k_held set_k_held]; by rewrite held_add_del.
Qed.

Lemma releasesleep_run s k :
  L_sleep s ∉ k_held k -> wake_ready k ->
  releasesleep s k =
    upd_sleeplock s (fun _ => mk_sleeplock 0 0)
      (set_k_procs (wake_all (Ch_sleeplock s) (k_proc k) (k_procs k)) k).
Proof.
  intros Hl [Hw1 Hw2]. unfold releasesleep. kstep. 
  destruct s; cbn [upd_sleeplock]; repeat kstep;
    (eapply bind_eq; [apply wakeup_run; split; [done|cbn; set_solver]|]);
    repeat kstep; cbn [k_held set_k_held set_k_bufs set_k_inodes set_k_procs k_procs k_proc k_bufs k_inodes];
    rewrite held_add_del by done; unfold upd_buf, upd_inode, modify;
    cbn [k_bufs k_inodes set_k_held set_k_bufs set_k_inodes set_k_procs];
    by rewrite alter_alter.
Qed.

(** * Sleeping *)

(** The state in which a process that sleeps on [ch] gives up the CPU. *)
Definition asleep (ch : chan) (p : nat) (k : K) : K :=
  set_k_yields (S (k_yields k)) (set_k_held {[L_proc p]}
    (set_k_procs (alter (fun pr => set_p_state SLEEPING (set_p_chan ch pr)) p (k_procs k)) k)).

(** The state in which it returns from sleep(), [k] being the one in which it
    got the CPU back. *)
Definition awake (lk : lock) (p : nat) (k : K) : K :=
  set_k_held {[lk]} (set_k_procs (alter (set_p_chan Ch_null) p (k_procs k)) k).

Lemma sleep_run ch lk p k k2 :
  k_proc k = Some p -> (p < length (k_procs k))%nat -> k_held k = {[lk]} -> lk <> L_proc p ->
  others (k_yields k) (asleep ch p k) = Some k2 -> k_held k2 = {[L_proc p]} ->
  sleep ch lk k = Ok tt (awake lk p k2).
Proof.
  intros Hp Hlen Hh Hne Ho H2. unfold sleep, mypr, myproc. ksteps. rewrite Hp. kstep. kstep.
  kstep. kstep. kstep. cbn [k_held set_k_procs set_k_held].
  eapply bind_eq.
  { unfold sched, mypr, myproc. ksteps. cbn [k_proc set_k_procs set_k_held]. rewrite Hp. kstep.
    eapply bind_eq; [unfold holding, gets; reflexivity|]. rewrite bool_decide_eq_true_2 by (cbn; set_solver).
    cbn [negb]. kstep. cbn [k_held set_k_procs set_k_held].
    assert (({[L_proc p]} ∪ k_held k) ∖ {[lk]} = {[L_proc p]}) as E by (rewrite Hh; set_solver).
    rewrite E, size_singleton. cbn [Nat.eqb negb]. kstep. cbn [k_procs set_k_procs].
    destruct (lookup_lt_is_Some_2 _ _ Hlen) as [pr Hpr].
    rewrite decide_False; [|rewrite alter_alter; erewrite list_lookup_total_correct;
      [|rewrite list_lookup_alter, decide_True by done; cbn [k_procs set_k_held]; rewrite Hpr; reflexivity]; done].
    unfold swtch. cbn [k_yields set_k_procs set_k_held].
    replace (set_k_yields _ _) with (asleep ch p k) by (unfold asleep; rewrite <- E, alter_alter; by destruct k).
    by rewrite Ho. }
  kstep. kstep. kstep. cbn [k_held set_k_procs set_k_held].
  unfold awake. rewrite H2. replace ({[lk]} ∪ _) with ({[lk]} : gset lock) by set_solver. done.
Qed.

End proc.
