(* ===== verification/Sched.v ===== *)
(** What scheduler() of kernel/proc.c guarantees: in one pass over the process
    table every process that is ready gets the CPU. *)
From S2P Require Import Prelude CInt KState KString Riscv Kalloc Vm Proc.

Section sched.
Context {P : Platform}.

Definition state (k : K) (p : nat) : procstate := p_state (k_procs k !!! p).

(** The state in which swtch() leaves the scheduler for [p]. *)
Definition dispatched (p : nat) (k : K) : K :=
  set_k_proc (Some p) (set_k_procs (alter (set_p_state RUNNING) p (k_procs k))
    (set_k_held ({[L_proc p]} ∪ k_held k) k)).

(** A process that has the CPU gives it up at some time - the timer sees to that
    - and then the scheduler goes on with the lock of the process.  Other CPUs may
    have done anything to the other processes. *)
Definition gives_up : Prop := forall n k p,
  k_proc k = Some p -> k_held k = {[L_proc p]} -> state k p = RUNNING ->
  exists k', others n k = Some k' /\ k_held k' = {[L_proc p]} /\ length (k_procs k') = length (k_procs k).

(** Between two turns no lock is held and the table has its size. *)
Definition idle (k : K) : Prop := k_held k = ∅ /\ length (k_procs k) = Z.to_nat NPROC.

(** [p] had the CPU from [k] on, until it came back with [k']. *)
Definition ran (p : nat) (k k' : K) : Prop :=
  state k p = RUNNABLE /\ exists k1, swtch (dispatched p k) = Ok tt k1 /\
    k' = set_k_held ∅ (set_k_proc None k1).

Context (H : gives_up).

Lemma state_dispatched p q k : (q < length (k_procs k))%nat ->
  state (dispatched p k) q = if decide (q = p) then RUNNING else state k q.
Proof.
  intros Hq. unfold state. cbn. case_decide as Ep; [subst q|].
  - by rewrite list_lookup_total_alter_eq by done.
  - by rewrite list_lookup_total_alter_ne by congruence.
Qed.

(** One turn: a process that is ready runs, another is left alone. *)
Lemma visit_run p k : idle k -> (p < Z.to_nat NPROC)%nat ->
  exists k', scheduler_visit p k = Ok tt k' /\ idle k' /\
    if decide (state k p = RUNNABLE) then ran p k k' else k' = k.
Proof.
  intros [Hh Hl] Hp. rewrite <- Hl in Hp. unfold scheduler_visit, get_proc, upd_proc.
  destruct (decide (state k p = RUNNABLE)) as [Hr|Hr].
  - destruct (H (k_yields k) (set_k_yields (S (k_yields k)) (dispatched p k)) p) as (k1 & E & Eh & El).
    { done. } { cbn. rewrite Hh. set_solver. } { change (state (dispatched p k) p = RUNNING). by rewrite state_dispatched, decide_True. }
    assert (swtch (dispatched p k) = Ok tt k1) as Esw by (unfold swtch; cbn; by rewrite E).
    exists (set_k_held ∅ (set_k_proc None k1)). split.
    { ksteps. cbn. rewrite decide_True by exact Hr. ksteps. eapply bind_eq; [exact Esw|]. ksteps.
      unfold set_k_held. cbn. rewrite Eh. do 2 f_equal. set_solver. }
    split; [|by split; [|exists k1]]. split; [done|]. cbn. rewrite El, <- Hl. cbn. apply length_alter.
  - exists k. split; [|done]. ksteps. cbn. rewrite decide_False by exact Hr. ksteps.
    assert (({[L_proc p]} ∪ k_held k) ∖ {[L_proc p]} = k_held k) as E by (rewrite Hh; set_solver).
    destruct k. unfold set_k_held. cbn in *. by rewrite E.
Qed.

(** The turns for the processes of [seq i n]. *)
Lemma visits_run n : forall i k, idle k -> (i + n <= Z.to_nat NPROC)%nat ->
  exists k', for_ (seq i n) scheduler_visit k = Ok tt k' /\ idle k' /\
    forall p, (i <= p < i + n)%nat ->
      exists k1 k2, for_ (seq i (p - i)) scheduler_visit k = Ok tt k1 /\ idle k1 /\
        scheduler_visit p k1 = Ok tt k2 /\
        for_ (seq (S p) (i + n - S p)) scheduler_visit k2 = Ok tt k' /\
        if decide (state k1 p = RUNNABLE) then ran p k1 k2 else k2 = k1.
Proof.
  induction n as [|n IH]; intros i k Hk Hn.
  { exists k. split; [done|]. split; [done|]. intros p Hp. lia. }
  destruct (visit_run i k Hk ltac:(lia)) as (k1 & E & I1 & Ev).
  destruct (IH (S i) k1 I1) as (k' & E' & I' & R); [lia|].
  exists k'. split; [cbn; eapply bind_eq; [exact E|exact E']|]. split; [done|].
  intros p Hp. destruct (decide (p = i)) as [->|Hne].
  - exists k, k1. rewrite Nat.sub_diag. split_and!; try done. replace (i + S n - S i)%nat with n by lia. done.
  - destruct (R p) as (k2 & k3 & F1 & F2 & F3 & F4 & F5); [lia|]. exists k2, k3. split_and!; try done.
    + replace (p - i)%nat with (S (p - S i)) by lia. cbn. eapply bind_eq; [exact E|exact F1].
    + replace (i + S n - S p)%nat with (S i + n - S p)%nat by lia. done.
Qed.

(** A process that is ready stays ready up to its turn, or is taken while some
    process before it in the table runs. *)
Lemma ready_or_taken p k : idle k -> (p < Z.to_nat NPROC)%nat -> state k p = RUNNABLE ->
  forall n k1, (n <= p)%nat -> for_ (seq 0 n) scheduler_visit k = Ok tt k1 ->
    state k1 p = RUNNABLE \/
    exists q ka kb, (q < n)%nat /\ for_ (seq 0 q) scheduler_visit k = Ok tt ka /\ ran q ka kb /\
      scheduler_visit q ka = Ok tt kb /\ state ka p = RUNNABLE /\ state kb p <> RUNNABLE.
Proof.
  intros Hk Hp Hr. induction n as [|n IH]; intros k1 Hn E.
  { left. cbn in E. by injection E as <-. }
  destruct (visits_run (S n) 0 k Hk ltac:(lia)) as (k' & E' & _ & R). rewrite E in E'. injection E' as <-.
  destruct (R n ltac:(lia)) as (ka & kb & F1 & _ & F2 & F3 & F4). rewrite Nat.sub_0_r in F1.
  rewrite Nat.add_0_l, Nat.sub_diag in F3. cbn in F3. injection F3 as <-.
  destruct (IH ka ltac:(lia) F1) as [Ha|(q & kc & kd & Hq & T)]; [|right; exists q, kc, kd; split; [lia|done]].
  destruct (decide (state kb p = RUNNABLE)) as [Hb|Hb]; [by left|right].
  case_decide as D; [|subst kb; done]. exists n, ka, kb. split_and!; try done. lia.
Qed.

(** intr_on() sets the flag that intr_get() tests, and nothing that a pass
    depends on. *)
Lemma intr_on_run k :
  exists k0, intr_on k = Ok tt k0 /\ intr_get k0 = Ok true k0 /\
    k_held k0 = k_held k /\ k_procs k0 = k_procs k.
Proof.
  eexists. split; [reflexivity|]. split_and!; [|done..]. unfold intr_get. ksteps. cbn.
  unfold ret. do 2 f_equal. apply negb_true_iff, Z.eqb_neq. intros E.
  apply (f_equal (fun x => Z.testbit x 1)) in E.
  by rewrite Z.land_spec, Z.lor_spec, orb_true_r, Z.bits_0 in E.
Qed.

(** C22: Nothing that is ready waits longer than one pass of the scheduler. If
    every process gives up the CPU at some time, a pass turns interrupts on and
    ends. In its turn, between the turns of the processes before and after it, a
    process that is RUNNABLE runs: the scheduler switches to it as the current
    process, RUNNING and with its lock held, and goes on from the state in which
    it comes back; another process is left as it is. A process that is RUNNABLE
    when the pass starts is RUNNABLE in its turn, unless another CPU has taken
    it while a process before it ran. *)
Theorem scheduler_runs_all k : idle k ->
  exists k0 k', intr_on k = Ok tt k0 /\ intr_get k0 = Ok true k0 /\
    scheduler_round k = Ok tt k' /\ idle k' /\
    forall p, (p < Z.to_nat NPROC)%nat ->
      exists k1 k2, for_ (seq 0 p) scheduler_visit k0 = Ok tt k1 /\
        scheduler_visit p k1 = Ok tt k2 /\
        for_ (seq (S p) (Z.to_nat NPROC - S p)) scheduler_visit k2 = Ok tt k' /\
        (if decide (state k1 p = RUNNABLE) then ran p k1 k2 else k2 = k1) /\
        (state k p = RUNNABLE -> state k1 p = RUNNABLE \/
           exists q ka kb, (q < p)%nat /\ for_ (seq 0 q) scheduler_visit k0 = Ok tt ka /\ ran q ka kb /\
             scheduler_visit q ka = Ok tt kb /\ state ka p = RUNNABLE /\ state kb p <> RUNNABLE).
Proof.
  intros Hk. destruct (intr_on_run k) as (k0 & E0 & Eg & Eh & Ep).
  assert (idle k0) as Hk0 by (unfold idle; by rewrite Eh, Ep).
  destruct (visits_run (Z.to_nat NPROC) 0 k0 Hk0 (Nat.le_refl _)) as (k' & E & I' & R).
  exists k0, k'. split; [done|]. split; [done|].
  split; [eapply bind_eq; [exact E0|exact E]|]. split; [done|].
  intros p Hp. destruct (R p ltac:(lia)) as (k1 & k2 & F1 & _ & F2 & F3 & F4).
  rewrite Nat.sub_0_r in F1. exists k1, k2. split_and!; try done.
  intros Hr. apply (ready_or_taken p k0); try done. unfold state in *. by rewrite Ep.
Qed.

End sched.

(** * Three ready processes that yield at once *)

Definition yielding : Platform := {|
  others n k := match k_proc k with
                | Some p => Some (set_k_procs (alter (set_p_state RUNNABLE) p (k_procs k)) k)
                | None => None
                end;
  patience := 0; sym_end := 0; sym_etext := 0; sym_trampoline := 0; sym_uservec := 0; sym_userret := 0;
  sym_forkret := 0; sym_usertrap := 0; sym_kernelvec := 0 |}.

#[local] Existing Instance yielding.

Lemma yielding_gives_up : gives_up.
Proof.
  intros n k p Hp Hh Hs. unfold others; cbn. rewrite Hp. eexists. split; [reflexivity|]. cbn.
  split; [done|]. apply length_alter.
Qed.

Definition three_ready : K :=
  set_k_procs (foldr (alter (set_p_state RUNNABLE)) (k_procs bss) [3; 5; 63]%nat) bss.

Lemma scheduler_runs_all_witness :
  exists k0 k', intr_on three_ready = Ok tt k0 /\ scheduler_round three_ready = Ok tt k' /\
    exists k1 k2, for_ (seq 0 63) scheduler_visit k0 = Ok tt k1 /\ scheduler_visit 63 k1 = Ok tt k2 /\
      if decide (state k1 63 = RUNNABLE) then ran 63 k1 k2 else k2 = k1.
Proof.
  destruct (scheduler_runs_all yielding_gives_up three_ready) as (k0 & k' & E0 & _ & E & _ & R).
  { split; reflexivity. }
  exists k0, k'. split; [exact E0|]. split; [exact E|].
  destruct (R 63%nat) as (k1 & k2 & F1 & F2 & _ & F3 & _); [by vm_compute|].
  exists k1, k2. split; [exact F1|]. by split.
Defined.
