(* ===== verification/Ring.v ===== *)
(** Ring buffers: an array of [N] entries and two counters that run modulo [W],
    a multiple of [N].  kernel/pipe.c, kernel/console.c and kernel/uart.c index
    their arrays with such counters, unsigned integers that overflow. *)
From S2P Require Import Prelude CInt.

Section ring.
Context (N W : Z).
Hypothesis HN : 0 < N < W.
Hypothesis Hdiv : (N | W).

Definition ring_count (r w : Z) : Z := (w - r) mod W.

(** The entries between the counters, the oldest first. *)
Definition ring (data : list Z) (r w : Z) : list Z :=
  (fun i => data.[(r + Z.of_nat i) mod N]) <$> seq 0 (Z.to_nat (ring_count r w)).

Definition ring_ok (data : list Z) (r w : Z) : Prop :=
  Z.of_nat (length data) = N /\ 0 <= r < W /\ 0 <= w < W /\ ring_count r w <= N.

Lemma ring_mod x : (x mod W) mod N = x mod N.
Proof. by apply Z.mod_mod_divide. Qed.

Lemma length_ring data r w : length (ring data r w) = Z.to_nat (ring_count r w).
Proof. unfold ring. by rewrite length_fmap, length_seq. Qed.

Lemma ring_count_range r w : 0 <= ring_count r w < W.
Proof. apply Z.mod_pos_bound. lia. Qed.

Lemma mod_step x y : x mod W = y -> y + 1 < W -> (x + 1) mod W = y + 1.
Proof.
  intros <- H. rewrite <- (Z.add_mod_idemp_l x 1) by lia. apply Z.mod_small.
  pose proof (Z.mod_pos_bound x W). lia.
Qed.

Lemma ring_empty data r w : ring_ok data r w -> r = w <-> ring data r w = [].
Proof.
  intros (_ & Hr & Hw & _). split.
  - intros ->. unfold ring, ring_count. by rewrite Z.sub_diag, Z.mod_0_l by lia.
  - intros E. apply (f_equal length) in E. rewrite length_ring in E. cbn in E.
    pose proof (ring_count_range r w). assert (ring_count r w = 0) as E0 by lia. unfold ring_count in E0.
    apply Z.mod_divide in E0 as [q Hq]; [|lia]. assert (q = 0) by nia. lia.
Qed.

Lemma ring_full data r w : ring_ok data r w -> w = (r + N) mod W <-> ring_count r w = N.
Proof.
  intros (_ & Hr & Hw & _). unfold ring_count. split.
  - intros ->. rewrite Zminus_mod_idemp_l. replace (r + N - r) with N by lia. by apply Z.mod_small; lia.
  - intros E. rewrite <- E, Z.add_mod_idemp_r by lia. replace (r + (w - r)) with w by lia. by rewrite Z.mod_small.
Qed.

(** Writing an entry. *)
Lemma ring_enqueue data r w c : ring_ok data r w -> ring_count r w < N ->
  ring_ok data.[w mod N <- c] r ((w + 1) mod W) /\
  ring data.[w mod N <- c] r ((w + 1) mod W) = ring data r w ++ [c].
Proof.
  intros (Hd & Hr & Hw & _) Hn. pose proof (ring_count_range r w) as Hc.
  assert (ring_count r ((w + 1) mod W) = ring_count r w + 1) as En.
  { unfold ring_count at 1. rewrite Zminus_mod_idemp_l. replace (w + 1 - r) with (w - r + 1) by lia.
    apply mod_step; [done|lia]. }
  assert ((r + ring_count r w) mod N = w mod N) as Ew.
  { unfold ring_count. rewrite <- (ring_mod (r + _)), Z.add_mod_idemp_r, ring_mod by lia. f_equal. lia. }
  pose proof (Z.mod_pos_bound w N) as Hwn. pose proof (Z.mod_pos_bound (w + 1) W) as HwW.
  split; [unfold ring_ok; rewrite length_insert; lia|].
  unfold ring. rewrite En, Z2Nat.inj_add, seq_app, fmap_app by lia. f_equal.
  - apply list_fmap_ext. intros i x Hx. apply lookup_seq in Hx as [-> Hx]. cbn [Nat.add].
    rewrite !nth_lookup, list_lookup_insert_ne; [done|].
    intros E. apply Z2Nat.inj in E; [|lia|apply Z.mod_pos_bound; lia]. rewrite <- Ew in E.
    assert ((ring_count r w - Z.of_nat i) mod N = 0) as E0.
    { replace (ring_count r w - Z.of_nat i) with (r + ring_count r w - (r + Z.of_nat i)) by lia.
      rewrite Zminus_mod, E, Z.sub_diag. apply Z.mod_0_l. lia. }
    rewrite Z.mod_small in E0; lia.
  - rewrite Nat.add_0_l. change (Z.to_nat 1) with 1%nat. cbn [seq]. rewrite list_fmap_singleton. f_equal.
    rewrite Z2Nat.id, Ew by lia. rewrite nth_lookup, list_lookup_insert.
    rewrite decide_True; [done|]. lia.
Qed.

(** Reading an entry. *)
Lemma ring_dequeue data r w : ring_ok data r w -> r <> w ->
  ring_ok data ((r + 1) mod W) w /\ ring data r w = data.[r mod N] :: ring data ((r + 1) mod W) w.
Proof.
  intros (Hd & Hr & Hw & Hle) Hne. pose proof (ring_count_range r w) as Hc.
  assert (ring_count r w <> 0) as H0.
  { intros E. unfold ring_count in E. apply Z.mod_divide in E as [q Hq]; [|lia]. assert (q = 0) by nia. lia. }
  assert (ring_count ((r + 1) mod W) w = ring_count r w - 1) as En.
  { unfold ring_count at 1. rewrite Zminus_mod_idemp_r. replace (w - (r + 1)) with (w - r - 1) by lia.
    rewrite <- Zminus_mod_idemp_l. apply Z.mod_small. fold (ring_count r w). lia. }
  split; [unfold ring_ok; pose proof (Z.mod_pos_bound (r + 1) W); lia|].
  unfold ring. rewrite En. replace (Z.to_nat (ring_count r w)) with (S (Z.to_nat (ring_count r w - 1))) by lia.
  cbn [seq]. rewrite fmap_cons. f_equal; [by rewrite Z.add_0_r|].
  rewrite <- fmap_S_seq, <- list_fmap_compose. apply list_fmap_ext. intros i x _. cbn.
  do 2 f_equal. rewrite <- (ring_mod ((r + 1) mod W + _)), Z.add_mod_idemp_l, ring_mod by lia. f_equal. lia.
Qed.

(** Taking the latest entry back. *)
Lemma ring_unpush data r w : ring_ok data r w -> r <> w ->
  ring_ok data r ((w - 1) mod W) /\ ring data r w = ring data r ((w - 1) mod W) ++ [data.[(w - 1) mod N]].
Proof.
  intros (Hd & Hr & Hw & Hle) Hne. pose proof (ring_count_range r w) as Hc.
  assert (ring_count r w <> 0) as H0.
  { intros E. unfold ring_count in E. apply Z.mod_divide in E as [q Hq]; [|lia]. assert (q = 0) by nia. lia. }
  assert (ring_count r ((w - 1) mod W) = ring_count r w - 1) as En.
  { unfold ring_count at 1. rewrite Zminus_mod_idemp_l. replace (w - 1 - r) with (w - r - 1) by lia.
    rewrite <- Zminus_mod_idemp_l. apply Z.mod_small. fold (ring_count r w). lia. }
  split; [unfold ring_ok; pose proof (Z.mod_pos_bound (w - 1) W); lia|].
  unfold ring. rewrite En.
  replace (Z.to_nat (ring_count r w)) with (Z.to_nat (ring_count r w - 1) + 1)%nat by lia.
  rewrite seq_app, fmap_app. f_equal. rewrite Nat.add_0_l. cbn [seq]. rewrite list_fmap_singleton. do 3 f_equal.
  replace (r + Z.of_nat (Z.to_nat (ring_count r w - 1))) with (r + ring_count r w - 1) by lia.
  unfold ring_count. rewrite <- (ring_mod (_ - 1)), <- Zminus_mod_idemp_l, Z.add_mod_idemp_r, Zminus_mod_idemp_l, ring_mod by lia.
  f_equal. lia.
Qed.
End ring.
