(* ===== verification/Uart.v ===== *)
(** kernel/uart.c: the driver of the 16550a UART, but for its interrupt
    handler, which is in Console.v.

    The device is what the driver sees of it: what reading LSR and RHR gives,
    and what was written to the other registers. *)
From S2P Require Import Prelude CInt KState KString Riscv Kalloc Vm Proc.

Section uart.
Context {P : Platform}.

(** * Registers *)

Definition RHR : Z := 0.
Definition THR : Z := 0.
Definition IER : Z := 1.
Definition IER_RX_ENABLE : Z := Z.shiftl 1 0.
Definition IER_TX_ENABLE : Z := Z.shiftl 1 1.
Definition FCR : Z := 2.
Definition FCR_FIFO_ENABLE : Z := Z.shiftl 1 0.
Definition FCR_FIFO_CLEAR : Z := Z.shiftl 3 1.
Definition LCR : Z := 3.
Definition LCR_EIGHT_BITS : Z := Z.shiftl 3 0.
Definition LCR_BAUD_LATCH : Z := Z.shiftl 1 7.
Definition LSR : Z := 5.
Definition LSR_RX_READY : Z := Z.shiftl 1 0.
Definition LSR_TX_IDLE : Z := Z.shiftl 1 5.

Definition upd_uart (f : uart -> uart) : M unit :=
  modify (fun k => set_k_uart (f (k_uart k)) k).

(** ReadReg(LSR). *)
Definition lsr_now (u : uart) : Z :=
  match u_lsr u with
  | s :: _ => s
  | [] => if decide (u_rhr u = []) then LSR_TX_IDLE else Z.lor LSR_TX_IDLE LSR_RX_READY
  end.

Definition ReadReg_LSR : M Z :=
  let* u := gets (fun k => k_uart k) in
  upd_uart (set_u_lsr (tail (u_lsr u))) ;;;
  ret (lsr_now u).

(** ReadReg(RHR): the next byte received. *)
Definition ReadReg_RHR : M Z :=
  let* u := gets (fun k => k_uart k) in
  upd_uart (set_u_rhr (tail (u_rhr u))) ;;;
  ret (hd 0 (u_rhr u)).

(** WriteReg(reg, v): registers 0 and 1 are the divisor latch while LCR has
    LCR_BAUD_LATCH set. *)
Definition WriteReg (reg v : Z) : M unit :=
  let* u := gets (fun k => k_uart k) in
  let latch := negb (Z.land (u_lcr u) LCR_BAUD_LATCH =? 0) in
  if reg =? 0 then
    if latch then upd_uart (set_u_dll (u8 v))
    else upd_uart (fun u => set_u_thr (u8 v :: u_thr u) u)
  else if reg =? IER then
    if latch then upd_uart (set_u_dlm (u8 v)) else upd_uart (set_u_ier (u8 v))
  else if reg =? FCR then upd_uart (set_u_fcr (u8 v))
  else if reg =? LCR then upd_uart (set_u_lcr (u8 v))
  else ret tt.

(** * The driver *)

Definition UART_TX_BUF_SIZE : Z := 32.

Definition uartinit : M unit :=
  (* disable interrupts. *)
  WriteReg IER 0x00 ;;;
  (* special mode to set baud rate. *)
  WriteReg LCR LCR_BAUD_LATCH ;;;
  (* LSB for baud rate of 38.4K. *)
  WriteReg 0 0x03 ;;;
  (* MSB for baud rate of 38.4K. *)
  WriteReg 1 0x00 ;;;
  (* leave set-baud mode, and set word length to 8 bits, no parity. *)
  WriteReg LCR LCR_EIGHT_BITS ;;;
  (* reset and enable FIFOs. *)
  WriteReg FCR (Z.lor FCR_FIFO_ENABLE FCR_FIFO_CLEAR) ;;;
  (* enable transmit and receive interrupts. *)
  WriteReg IER (Z.lor IER_TX_ENABLE IER_RX_ENABLE) ;;;
  initlock L_uart_tx.

(** The loop of uartstart(); every turn takes a byte out of the ring. *)
Fixpoint uartstart_loop (n : nat) : M unit :=
  let* u := gets (fun k => k_uart k) in
  if tx_w u =? tx_r u then ret tt (* transmit buffer is empty. *)
  else
    let* s := ReadReg_LSR in
    if Z.land s LSR_TX_IDLE =? 0 then ret tt
    else
      match n with
      | O => stuck
      | S n' =>
          let c := (tx_buf u).[tx_r u mod UART_TX_BUF_SIZE] in
          upd_uart (set_tx_r (u64 (tx_r u + 1))) ;;;
          (* maybe uartputc() is waiting for space in the buffer. *)
          wakeup Ch_uart_tx_r ;;;
          WriteReg THR c ;;;
          uartstart_loop n'
      end.

Definition uartstart : M unit := uartstart_loop (Z.to_nat UART_TX_BUF_SIZE).

Definition uartputc (c : Z) : M unit :=
  acquire L_uart_tx ;;;
  let* panicked := gets (fun k => k_panicked k) in
  if negb (panicked =? 0) then stuck
  else
    sleep_while (fun k => tx_w (k_uart k) =? u64 (tx_r (k_uart k) + UART_TX_BUF_SIZE))
      Ch_uart_tx_r L_uart_tx ;;;
    upd_uart (fun u => set_tx_buf ((tx_buf u).[tx_w u mod UART_TX_BUF_SIZE <- u8 c]) u) ;;;
    upd_uart (fun u => set_tx_w (u64 (tx_w u + 1)) u) ;;;
    uartstart ;;;
    release L_uart_tx.

(** The spin on LSR; when the values the device has in store are used up it is
    ready. *)
Fixpoint uart_spin (n : nat) : M unit :=
  let* s := ReadReg_LSR in
  if Z.land s LSR_TX_IDLE =? 0 then
    match n with
    | O => stuck
    | S n' => uart_spin n'
    end
  else ret tt.

(** push_off() and pop_off() around the body change only whether this CPU takes
    interrupts (Spinlock.v). *)
Definition uartputc_sync (c : Z) : M unit :=
  let* panicked := gets (fun k => k_panicked k) in
  if negb (panicked =? 0) then stuck
  else
    let* u := gets (fun k => k_uart k) in
    uart_spin (length (u_lsr u)) ;;;
    WriteReg THR c.

Definition uartgetc : M Z :=
  let* s := ReadReg_LSR in
  if negb (Z.land s 0x01 =? 0) then ReadReg_RHR (* input data is ready. *)
  else ret (-1).

End uart.
