(* ===== verification/Printf.v ===== *)
(** kernel/printf.c: formatted console output, and kernel/console.c's consputc().

    A format string is a list of bytes, its NUL left out; an argument is of the
    type the conversion takes. *)
From S2P Require Import Prelude CInt KState KString Riscv Kalloc Vm Proc Uart.

Section printf.
Context {P : Platform}.

Definition BACKSPACE : Z := 0x100.

Definition consputc (c : Z) : M unit :=
  if c =? BACKSPACE then
    (* if the user typed backspace, overwrite with a space. *)
    uartputc_sync 8 ;;; uartputc_sync 32 ;;; uartputc_sync 8
  else uartputc_sync c.

Definition digits : list Z := bstr "0123456789abcdef".

(** The digits of [x] as the do-while loop stores them, the lowest first; a
    32-bit number has at most 32 of them. *)
Fixpoint printint_digits (n : nat) (x base : Z) : list Z :=
  digits.[x mod base] ::
  match n with
  | O => []
  | S n' => if x / base =? 0 then [] else printint_digits n' (x / base) base
  end.

(** The contents of buf[] when the digits and the sign are in. *)
Definition printint_buf (xx base : Z) (sign : bool) : list Z :=
  let neg := sign && (xx <? 0) in
  let x := if neg then u32 (- xx) else u32 xx in
  printint_digits 32 x base ++ (if neg then [45] else []).

Definition printint (xx base : Z) (sign : bool) : M unit :=
  for_ (rev (printint_buf xx base sign)) consputc.

Fixpoint printptr_loop (n : nat) (x : Z) : M unit :=
  match n with
  | O => ret tt
  | S n' =>
      consputc digits.[Z.shiftr x (8 * 8 - 4)] ;;;
      printptr_loop n' (u64 (Z.shiftl x 4))
  end.

Definition printptr (x : Z) : M unit :=
  consputc 48 ;;;
  consputc 120 ;;;
  printptr_loop 16 x.

(** What is passed for the dots. *)
Inductive arg := A_int (z : Z) | A_ptr (z : Z) | A_str (s : option (list Z)).

Fixpoint printf_loop (fmt : list Z) (ap : list arg) : M unit :=
  match fmt with
  | [] => ret tt
  | c :: fmt =>
      if c =? 0 then ret tt
      else if negb (c =? 37) then consputc c ;;; printf_loop fmt ap
      else
        match fmt with
        | [] => ret tt
        | c :: fmt =>
            if c =? 0 then ret tt
            else if c =? 100 (* d *) then
              match ap with
              | A_int z :: ap => printint z 10 true ;;; printf_loop fmt ap
              | _ => stuck
              end
            else if c =? 120 (* x *) then
              match ap with
              | A_int z :: ap => printint z 16 true ;;; printf_loop fmt ap
              | _ => stuck
              end
            else if c =? 112 (* p *) then
              match ap with
              | A_ptr z :: ap => printptr z ;;; printf_loop fmt ap
              | _ => stuck
              end
            else if c =? 115 (* s *) then
              match ap with
              | A_str s :: ap =>
                  for_ (default (bstr "(null)") s) consputc ;;; printf_loop fmt ap
              | _ => stuck
              end
            else if c =? 37 then consputc 37 ;;; printf_loop fmt ap
            else
              (* Print unknown % sequence to draw attention. *)
              consputc 37 ;;; consputc c ;;; printf_loop fmt ap
        end
  end.

Definition printf (fmt : list Z) (ap : list arg) : M unit :=
  let* locking := gets (fun k => k_locking k) in
  when (negb (locking =? 0)) (acquire L_pr) ;;;
  printf_loop fmt ap ;;;
  when (negb (locking =? 0)) (release L_pr).

(** panic(): what it prints and sets before it stops; the rest of the model
    calls [KState.panic], which ends the run at once. *)
Definition panic_c {A} (s : string) : M A :=
  modify (set_k_locking 0) ;;;
  printf (bstr "panic: ") [] ;;;
  printf (bstr s) [] ;;;
  printf [10] [] ;;;
  modify (set_k_panicked 1) ;;;
  panic s.

Definition printfinit : M unit :=
  initlock L_pr ;;;
  modify (set_k_locking 1).

(** kernel/proc.c's procdump(). *)
Definition procstate_name (s : procstate) : list Z :=
  match s with
  | UNUSED => bstr "unused"
  | USED => bstr "used"
  | SLEEPING => bstr "sleep "
  | RUNNABLE => bstr "runble"
  | RUNNING => bstr "run   "
  | ZOMBIE => bstr "zombie"
  end.

(** A C string in an array, up to its NUL or the end of the array. *)
Fixpoint cstring (a : list Z) : list Z :=
  match a with
  | [] => []
  | c :: a' => if c =? 0 then [] else c :: cstring a'
  end.

Definition procdump : M unit :=
  printf [10] [] ;;;
  for_ (seq 0 (Z.to_nat NPROC)) (fun p =>
    let* pr := get_proc p in
    if decide (p_state pr = UNUSED) then ret tt
    else
      printf (bstr "%d %s %s")
        [A_int (p_pid pr); A_str (Some (procstate_name (p_state pr)));
         A_str (Some (cstring (p_name pr)))] ;;;
      printf [10] []).

End printf.
