(* ===== verification/Console.v ===== *)
(** kernel/console.c: line-at-a-time console input, console output; and
    kernel/uart.c's interrupt handler, which feeds it. *)
From S2P Require Import Prelude CInt KState KString Riscv Kalloc Vm Proc Uart Printf.

Section console.
Context {P : Platform}.

Definition INPUT_BUF_SIZE : Z := 128.

(** C(x): Control-x. *)
Definition Ctl (x : Z) : Z := x - 64.

Definition upd_cons (f : console -> console) : M unit :=
  modify (fun k => set_k_cons (f (k_cons k)) k).

Fixpoint consolewrite_loop (n : nat) (user_src : bool) (src i : Z) : M Z :=
  match n with
  | O => ret i
  | S n' =>
      let* '(r, c) := either_copyin user_src (u64 (src + i)) 1 in
      if r =? -1 then ret i
      else
        uartputc c.[0] ;;;
        consolewrite_loop n' user_src src (i + 1)
  end.

Definition consolewrite (user_src : bool) (src n : Z) : M Z :=
  consolewrite_loop (Z.to_nat n) user_src src 0.

(** The loop of consoleread(): [m] is the C variable n.  [None] is the early
    return of a killed process, [Some n] the value of n after the loop. *)
Fixpoint consoleread_loop (m : nat) (user_dst : bool) (dst target : Z) : M (option Z) :=
  match m with
  | O => ret (Some 0)
  | S m' =>
      let n := Z.of_nat m in
      (* wait until interrupt handler has put some input into cons.buffer. *)
      let* r := sleep_loop patience (fun k => cons_r (k_cons k) =? cons_w (k_cons k))
                  (let* p := mypr in
                   let* d := killed p in
                   if negb (d =? 0) then release L_cons ;;; ret (Some tt) else ret None)
                  Ch_cons_r L_cons in
      match r with
      | Some _ => ret None
      | None =>
          let* cs := gets (fun k => k_cons k) in
          let c := (cons_buf cs).[cons_r cs mod INPUT_BUF_SIZE] in
          upd_cons (set_cons_r (u32 (cons_r cs + 1))) ;;;
          if c =? Ctl 68 then
            (* end-of-file: save ^D for next time, to make sure caller gets a
               0-byte result. *)
            when (n <? target) (upd_cons (fun cs => set_cons_r (u32 (cons_r cs - 1)) cs)) ;;;
            ret (Some n)
          else
            (* copy the input byte to the user-space buffer. *)
            let* r := either_copyout user_dst dst [c] in
            if r =? -1 then ret (Some n)
            else if c =? 10 then ret (Some (n - 1)) (* a whole line has arrived *)
            else consoleread_loop m' user_dst (u64 (dst + 1)) target
      end
  end.

Definition consoleread (user_dst : bool) (dst n : Z) : M Z :=
  let target := u32 n in
  acquire L_cons ;;;
  let* r := (if 0 <? n then consoleread_loop (Z.to_nat n) user_dst dst target
             else ret (Some n)) in
  match r with
  | None => ret (-1)
  | Some n' =>
      release L_cons ;;;
      ret (i32 (target - n'))
  end.

(** Kill line: the edit index moves back to the start of the line, at most to
    the write index. *)
Fixpoint kill_line (n : nat) : M unit :=
  let* cs := gets (fun k => k_cons k) in
  if negb (cons_e cs =? cons_w cs) &&
     negb ((cons_buf cs).[u32 (cons_e cs - 1) mod INPUT_BUF_SIZE] =? 10)
  then
    match n with
    | O => stuck
    | S n' =>
        upd_cons (set_cons_e (u32 (cons_e cs - 1))) ;;;
        consputc BACKSPACE ;;;
        kill_line n'
    end
  else ret tt.

Definition consoleintr (c : Z) : M unit :=
  acquire L_cons ;;;
  let* cs := gets (fun k => k_cons k) in
  (if c =? Ctl 80 then procdump (* Print process list. *)
   else if c =? Ctl 85 then (* Kill line. *)
     kill_line (Z.to_nat (u32 (cons_e cs - cons_w cs)))
   else if (c =? Ctl 72) || (c =? 127) then (* Backspace, Delete key *)
     when (negb (cons_e cs =? cons_w cs))
       (upd_cons (set_cons_e (u32 (cons_e cs - 1))) ;;;
        consputc BACKSPACE)
   else
     when (negb (c =? 0) && (u32 (cons_e cs - cons_r cs) <? INPUT_BUF_SIZE))
       (let c := if c =? 13 then 10 else c in
        (* echo back to the user. *)
        consputc c ;;;
        (* store for consumption by consoleread(). *)
        upd_cons (fun cs => set_cons_buf ((cons_buf cs).[cons_e cs mod INPUT_BUF_SIZE <- u8 c]) cs) ;;;
        upd_cons (fun cs => set_cons_e (u32 (cons_e cs + 1)) cs) ;;;
        let* cs := gets (fun k => k_cons k) in
        when ((c =? 10) || (c =? Ctl 68) || (u32 (cons_e cs - cons_r cs) =? INPUT_BUF_SIZE))
          ((* wake up consoleread() if a whole line (or end-of-file) has arrived. *)
           upd_cons (fun cs => set_cons_w (cons_e cs) cs) ;;;
           wakeup Ch_cons_r))) ;;;
  release L_cons.

Definition CONSOLE : nat := 1.

Definition consoleinit : M unit :=
  initlock L_cons ;;;
  uartinit ;;;
  modify (fun k => set_k_devsw (<[CONSOLE := Dev_console]> (k_devsw k)) k).

(** The loop of uartintr(): every turn uses up a stored LSR value or a received
    byte. *)
Fixpoint uartintr_loop (n : nat) : M unit :=
  let* c := uartgetc in
  if c =? -1 then ret tt
  else
    match n with
    | O => stuck
    | S n' => consoleintr c ;;; uartintr_loop n'
    end.

Definition uartintr : M unit :=
  (* read and process incoming characters. *)
  let* u := gets (fun k => k_uart k) in
  uartintr_loop (length (u_lsr u) + length (u_rhr u)) ;;;
  (* send buffered characters. *)
  acquire L_uart_tx ;;;
  uartstart ;;;
  release L_uart_tx.

End console.
