(* ===== verification/Virtio.v ===== *)
(** kernel/virtio_disk.c: the driver of the virtio block device, and the device
    as the virtio specification describes it.

    The driver shares the queue's memory with the device, which runs at any time.
    So the driver is a tree of single memory accesses ([code]): [run] executes
    one without interruption, and VirtioSpec.v interleaves it with the device.
    vdisk_lock keeps other calls out while one runs; where virtio_disk_rw()
    sleeps it is divided, into [rw_submit] up to its wait for the device and
    [rw_finish] after it.  The accesses take effect in the order of the source,
    which is what the calls of __sync_synchronize() are for. *)
From S2P Require Import Prelude CInt KState.

(** * Data (kernel/virtio.h) *)

Definition NUM : nat := 8.
Definition VRING_DESC_F_NEXT : Z := 1.
Definition VRING_DESC_F_WRITE : Z := 2.
Definition VIRTIO_BLK_T_IN : Z := 0.
Definition VIRTIO_BLK_T_OUT : Z := 1.

(** What a descriptor may point to: nothing, a command header disk.ops[i], the
    data of a buffer, or a status byte disk.info[i].status. *)
Inductive vaddr := A_null | A_op (i : nat) | A_data (b : nat) | A_status (i : nat).

Record virtq_desc := mk_desc { d_addr : vaddr; d_len : Z; d_flags : Z; d_next : Z }.
Record virtio_blk_req := mk_req { r_type : Z; r_reserved : Z; r_sector : Z }.
Record vinfo := mk_info { i_b : option nat; i_status : Z }.

Definition set_d_addr (x : vaddr) (d : virtq_desc) : virtq_desc := mk_desc x (d_len d) (d_flags d) (d_next d).
Definition set_d_len (x : Z) (d : virtq_desc) : virtq_desc := mk_desc (d_addr d) x (d_flags d) (d_next d).
Definition set_d_flags (f : Z -> Z) (d : virtq_desc) : virtq_desc :=
  mk_desc (d_addr d) (d_len d) (f (d_flags d)) (d_next d).
Definition set_d_next (x : Z) (d : virtq_desc) : virtq_desc := mk_desc (d_addr d) (d_len d) (d_flags d) x.
Definition set_r_type (x : Z) (r : virtio_blk_req) : virtio_blk_req := mk_req x (r_reserved r) (r_sector r).
Definition set_r_reserved (x : Z) (r : virtio_blk_req) : virtio_blk_req := mk_req (r_type r) x (r_sector r).
Definition set_r_sector (x : Z) (r : virtio_blk_req) : virtio_blk_req := mk_req (r_type r) (r_reserved r) x.
Definition set_i_b (x : option nat) (i : vinfo) : vinfo := mk_info x (i_status i).
Definition set_i_status (x : Z) (i : vinfo) : vinfo := mk_info (i_b i) x.

#[export] Instance virtq_desc_inhabited : Inhabited virtq_desc := populate (mk_desc A_null 0 0 0).
#[export] Instance virtio_blk_req_inhabited : Inhabited virtio_blk_req := populate (mk_req 0 0 0).
#[export] Instance vinfo_inhabited : Inhabited vinfo := populate (mk_info None 0).

(** The device: how far it has read the avail ring; the requests it has read and
    not served; those it has served and not returned, by their first descriptor;
    the one whose entry in the used ring it has written and not made visible;
    whether it has still to raise the interrupt for an entry; its interrupt
    status register; and its sectors. *)
Record vdev := mk_vdev {
  dv_seen : Z;
  dv_taken : list nat;
  dv_served : list nat;
  dv_push : option nat;
  dv_raise : bool;
  dv_isr : Z;
  dv_sectors : gmap Z (list Z);
}.

(** struct disk with the queue's memory, the buffers, and the device. *)
Record vdisk := mk_vdisk {
  v_desc : list virtq_desc;
  v_avail_ring : list Z;
  v_avail_idx : Z;
  v_free : list bool;
  v_used_idx : Z;          (* disk.used_idx *)
  v_info : list vinfo;
  v_ops : list virtio_blk_req;
  v_bufs : list buf;
  v_used_ring : list Z;
  v_used_idx_dev : Z;      (* disk.used->idx *)
  v_dev : vdev;
}.

Definition upd_desc (i : nat) (f : virtq_desc -> virtq_desc) (v : vdisk) : vdisk :=
  mk_vdisk (alter f i (v_desc v)) (v_avail_ring v) (v_avail_idx v) (v_free v) (v_used_idx v) (v_info v)
    (v_ops v) (v_bufs v) (v_used_ring v) (v_used_idx_dev v) (v_dev v).
Definition set_avail_ring (r : list Z) (v : vdisk) : vdisk :=
  mk_vdisk (v_desc v) r (v_avail_idx v) (v_free v) (v_used_idx v) (v_info v) (v_ops v) (v_bufs v)
    (v_used_ring v) (v_used_idx_dev v) (v_dev v).
Definition set_avail_idx (x : Z) (v : vdisk) : vdisk :=
  mk_vdisk (v_desc v) (v_avail_ring v) x (v_free v) (v_used_idx v) (v_info v) (v_ops v) (v_bufs v)
    (v_used_ring v) (v_used_idx_dev v) (v_dev v).
Definition set_free (i : nat) (f : bool) (v : vdisk) : vdisk :=
  mk_vdisk (v_desc v) (v_avail_ring v) (v_avail_idx v) (<[i := f]> (v_free v)) (v_used_idx v) (v_info v)
    (v_ops v) (v_bufs v) (v_used_ring v) (v_used_idx_dev v) (v_dev v).
Definition set_used_idx (x : Z) (v : vdisk) : vdisk :=
  mk_vdisk (v_desc v) (v_avail_ring v) (v_avail_idx v) (v_free v) x (v_info v) (v_ops v) (v_bufs v)
    (v_used_ring v) (v_used_idx_dev v) (v_dev v).
Definition upd_info (i : nat) (f : vinfo -> vinfo) (v : vdisk) : vdisk :=
  mk_vdisk (v_desc v) (v_avail_ring v) (v_avail_idx v) (v_free v) (v_used_idx v) (alter f i (v_info v))
    (v_ops v) (v_bufs v) (v_used_ring v) (v_used_idx_dev v) (v_dev v).
Definition upd_op (i : nat) (f : virtio_blk_req -> virtio_blk_req) (v : vdisk) : vdisk :=
  mk_vdisk (v_desc v) (v_avail_ring v) (v_avail_idx v) (v_free v) (v_used_idx v) (v_info v)
    (alter f i (v_ops v)) (v_bufs v) (v_used_ring v) (v_used_idx_dev v) (v_dev v).
Definition set_bufs (bs : list buf) (v : vdisk) : vdisk :=
  mk_vdisk (v_desc v) (v_avail_ring v) (v_avail_idx v) (v_free v) (v_used_idx v) (v_info v) (v_ops v) bs
    (v_used_ring v) (v_used_idx_dev v) (v_dev v).
Definition upd_b (b : nat) (f : buf -> buf) (v : vdisk) : vdisk := set_bufs (alter f b (v_bufs v)) v.
Definition set_used_ring (r : list Z) (v : vdisk) : vdisk :=
  mk_vdisk (v_desc v) (v_avail_ring v) (v_avail_idx v) (v_free v) (v_used_idx v) (v_info v) (v_ops v)
    (v_bufs v) r (v_used_idx_dev v) (v_dev v).
Definition set_used_idx_dev (x : Z) (v : vdisk) : vdisk :=
  mk_vdisk (v_desc v) (v_avail_ring v) (v_avail_idx v) (v_free v) (v_used_idx v) (v_info v) (v_ops v)
    (v_bufs v) (v_used_ring v) x (v_dev v).
Definition set_dev (d : vdev) (v : vdisk) : vdisk :=
  mk_vdisk (v_desc v) (v_avail_ring v) (v_avail_idx v) (v_free v) (v_used_idx v) (v_info v) (v_ops v)
    (v_bufs v) (v_used_ring v) (v_used_idx_dev v) d.

Definition set_dv_seen (x : Z) (v : vdisk) : vdisk :=
  let d := v_dev v in set_dev (mk_vdev x (dv_taken d) (dv_served d) (dv_push d) (dv_raise d) (dv_isr d) (dv_sectors d)) v.
Definition set_dv_taken (x : list nat) (v : vdisk) : vdisk :=
  let d := v_dev v in set_dev (mk_vdev (dv_seen d) x (dv_served d) (dv_push d) (dv_raise d) (dv_isr d) (dv_sectors d)) v.
Definition set_dv_served (x : list nat) (v : vdisk) : vdisk :=
  let d := v_dev v in set_dev (mk_vdev (dv_seen d) (dv_taken d) x (dv_push d) (dv_raise d) (dv_isr d) (dv_sectors d)) v.
Definition set_dv_push (x : option nat) (v : vdisk) : vdisk :=
  let d := v_dev v in set_dev (mk_vdev (dv_seen d) (dv_taken d) (dv_served d) x (dv_raise d) (dv_isr d) (dv_sectors d)) v.
Definition set_dv_raise (x : bool) (v : vdisk) : vdisk :=
  let d := v_dev v in set_dev (mk_vdev (dv_seen d) (dv_taken d) (dv_served d) (dv_push d) x (dv_isr d) (dv_sectors d)) v.
Definition set_dv_isr (x : Z) (v : vdisk) : vdisk :=
  let d := v_dev v in set_dev (mk_vdev (dv_seen d) (dv_taken d) (dv_served d) (dv_push d) (dv_raise d) x (dv_sectors d)) v.
Definition set_dv_sectors (x : gmap Z (list Z)) (v : vdisk) : vdisk :=
  let d := v_dev v in set_dev (mk_vdev (dv_seen d) (dv_taken d) (dv_served d) (dv_push d) (dv_raise d) (dv_isr d) x) v.

(** * The driver's code *)

(** A result, a panic, or a memory access: the access changes the state by [f],
    and the code goes on with [k] of the state that it found. *)
Inductive code (A : Type) : Type :=
| CRet (a : A)
| CPanic (msg : string)
| CAct (f : vdisk -> vdisk) (k : vdisk -> code A).
Arguments CRet {A} a.
Arguments CPanic {A} msg.
Arguments CAct {A} f k.

Fixpoint cbind {A B} (c : code A) (g : A -> code B) : code B :=
  match c with
  | CRet a => g a
  | CPanic msg => CPanic msg
  | CAct f k => CAct f (fun v => cbind (k v) g)
  end.

Declare Scope code_scope.
Delimit Scope code_scope with code.
Notation "x <~ p ; q" := (cbind p (fun x => q)) (at level 60, p at next level, right associativity) : code_scope.
Notation "p ~> q" := (cbind p (fun _ => q)) (at level 60, right associativity) : code_scope.
#[local] Open Scope code_scope.

Definition load {X} (r : vdisk -> X) : code X := CAct id (fun v => CRet (r v)).
Definition store (f : vdisk -> vdisk) : code unit := CAct f (fun _ => CRet tt).

(** Without the device. *)
Fixpoint run {A} (c : code A) (v : vdisk) : string + (A * vdisk) :=
  match c with
  | CRet a => inr (a, v)
  | CPanic msg => inl msg
  | CAct f k => run (k v) (f v)
  end.

(** * Descriptors *)

Fixpoint alloc_scan (n i : nat) : code (option nat) :=
  match n with
  | O => CRet None
  | S n' =>
      free <~ load (fun v => v_free v !!! i) ;
      if free : bool then store (set_free i false) ~> CRet (Some i)
      else alloc_scan n' (S i)
  end.

(** [None] is -1. *)
Definition alloc_desc : code (option nat) := alloc_scan NUM 0.

(** (The wakeup of &disk.free[0] has no effect here.) *)
Definition free_desc (i : nat) : code unit :=
  if (NUM <=? i)%nat then CPanic "free_desc 1"
  else
    free <~ load (fun v => v_free v !!! i) ;
    if free : bool then CPanic "free_desc 2"
    else
      store (upd_desc i (set_d_addr A_null)) ~>
      store (upd_desc i (set_d_len 0)) ~>
      store (upd_desc i (set_d_flags (fun _ => 0))) ~>
      store (upd_desc i (set_d_next 0)) ~>
      store (set_free i true).

(** The loop of free_chain(); a chain without a cycle has at most NUM links. *)
Fixpoint free_chain (n : nat) (i : nat) : code unit :=
  flag <~ load (fun v => d_flags (v_desc v !!! i)) ;
  nxt <~ load (fun v => d_next (v_desc v !!! i)) ;
  free_desc i ~>
  if Z.land flag VRING_DESC_F_NEXT =? 0 then CRet tt
  else match n with
       | O => CPanic "free_chain: cycle"
       | S n' => free_chain n' (Z.to_nat nxt)
       end.

(** alloc3_desc(): on failure what was allocated is freed again. *)
Definition alloc3_desc : code (option (nat * nat * nat)) :=
  r0 <~ alloc_desc ;
  match r0 with
  | None => CRet None
  | Some i0 =>
      r1 <~ alloc_desc ;
      match r1 with
      | None => free_desc i0 ~> CRet None
      | Some i1 =>
          r2 <~ alloc_desc ;
          match r2 with
          | None => free_desc i0 ~> free_desc i1 ~> CRet None
          | Some i2 => CRet (Some (i0, i1, i2))
          end
      end
  end.

(** * Requests *)

(** The stores of virtio_disk_rw() before the one that shows the request to the
    device, in their order. *)
Definition rw_stores (b : nat) (write : bool) (sector : Z) (i0 i1 i2 : nat) : list (vdisk -> vdisk) := [
    upd_op i0 (set_r_type (if write then VIRTIO_BLK_T_OUT else VIRTIO_BLK_T_IN));
    upd_op i0 (set_r_reserved 0);
    upd_op i0 (set_r_sector sector);
    upd_desc i0 (set_d_addr (A_op i0));
    upd_desc i0 (set_d_len 16);
    upd_desc i0 (set_d_flags (fun _ => VRING_DESC_F_NEXT));
    upd_desc i0 (set_d_next (Z.of_nat i1));
    upd_desc i1 (set_d_addr (A_data b));
    upd_desc i1 (set_d_len BSIZE);
    upd_desc i1 (set_d_flags (fun _ => if write then 0 else VRING_DESC_F_WRITE));
    upd_desc i1 (set_d_flags (fun x => Z.lor x VRING_DESC_F_NEXT));
    upd_desc i1 (set_d_next (Z.of_nat i2));
    upd_info i0 (set_i_status 0xff);
    upd_desc i2 (set_d_addr (A_status i0));
    upd_desc i2 (set_d_len 1);
    upd_desc i2 (set_d_flags (fun _ => VRING_DESC_F_WRITE));
    upd_desc i2 (set_d_next 0);
    (* record struct buf for virtio_disk_intr(). *)
    upd_b b (set_b_disk 1);
    upd_info i0 (set_i_b (Some b));
    (* tell the device the first index in our chain of descriptors. *)
    fun v => set_avail_ring (<[Z.to_nat (v_avail_idx v mod Z.of_nat NUM) := Z.of_nat i0]> (v_avail_ring v)) v ].

Definition stores (fs : list (vdisk -> vdisk)) : code unit :=
  foldr (fun f c => store f ~> c) (CRet tt) fs.

(** virtio_disk_rw() up to its wait: [None] when it has to sleep for
    descriptors, else its array idx[].  (The device may look at the ring whether
    it is notified or not; so the notification has no effect.) *)
Definition rw_submit (b : nat) (write : bool) : code (option (nat * nat * nat)) :=
  sector <~ load (fun v => u32 (b_blockno (v_bufs v !!! b) * (BSIZE / 512))) ;
  idx <~ alloc3_desc ;
  match idx with
  | None => CRet None
  | Some (i0, i1, i2) =>
      stores (rw_stores b write sector i0 i1 i2) ~>
      (* tell the device another avail ring entry is available. *)
      store (fun v => set_avail_idx (u16 (v_avail_idx v + 1)) v) ~>
      CRet (Some (i0, i1, i2))
  end.

(** virtio_disk_rw() after its wait. *)
Definition rw_finish (i0 : nat) : code unit :=
  store (upd_info i0 (set_i_b None)) ~>
  free_chain NUM i0.

(** The loop of virtio_disk_intr(): the used ring has NUM entries. *)
Fixpoint intr_loop (n : nat) : code unit :=
  mine <~ load v_used_idx ;
  theirs <~ load v_used_idx_dev ;
  if mine =? theirs then CRet tt
  else
    match n with
    | O => CPanic "virtio_disk_intr: ring overrun"
    | S n' =>
        id <~ load (fun v => Z.to_nat (nth (Z.to_nat (v_used_idx v mod Z.of_nat NUM)) (v_used_ring v) 0)) ;
        status <~ load (fun v => i_status (v_info v !!! id)) ;
        if negb (status =? 0) then CPanic "virtio_disk_intr status"
        else
          ob <~ load (fun v => i_b (v_info v !!! id)) ;
          match ob with
          | None => CPanic "null buf"
          | Some b =>
              (* disk is done with buf *)
              store (upd_b b (set_b_disk 0)) ~>
              store (fun v => set_used_idx (u16 (v_used_idx v + 1)) v) ~>
              intr_loop n'
          end
    end.

(** A store into the INTERRUPT_ACK register clears the bits of the status
    register that it has. *)
Definition virtio_disk_intr : code unit :=
  status <~ load (fun v => Z.land (dv_isr (v_dev v)) 0x3) ;
  store (fun v => set_dv_isr (Z.land (dv_isr (v_dev v)) (Z.lnot status)) v) ~>
  intr_loop NUM.

(** * virtio_disk_rw() as a whole

    [wait] is what happens to the state while the caller sleeps; the loops give
    up after [fuel] sleeps. *)
Section rw.
Context (wait : vdisk -> string + vdisk).

Fixpoint rw_alloc (fuel : nat) (b : nat) (write : bool) (v : vdisk) : string + (nat * vdisk) :=
  match run (rw_submit b write) v with
  | inl e => inl e
  | inr (Some (i0, _, _), v') => inr (i0, v')
  | inr (None, v') =>
      match fuel with
      | O => inl "asleep"%string
      | S fuel' => match wait v' with inl e => inl e | inr v'' => rw_alloc fuel' b write v'' end
      end
  end.

Fixpoint rw_wait (fuel : nat) (b : nat) (v : vdisk) : string + vdisk :=
  if b_disk (v_bufs v !!! b) =? 1 then
    match fuel with
    | O => inl "asleep"%string
    | S fuel' => match wait v with inl e => inl e | inr v' => rw_wait fuel' b v' end
    end
  else inr v.

Definition virtio_disk_rw (fuel : nat) (b : nat) (write : bool) (v : vdisk) : string + vdisk :=
  match rw_alloc fuel b write v with
  | inl e => inl e
  | inr (i0, v1) =>
      match rw_wait fuel b v1 with
      | inl e => inl e
      | inr v2 => match run (rw_finish i0) v2 with inl e => inl e | inr (_, v3) => inr v3 end
      end
  end.
End rw.

(** * virtio_disk_init()

    The driver's accesses to the device's registers: [rd ws r] is what register
    [r] reads as after the writes [ws], the latest first. *)

Definition VIRTIO_MMIO_MAGIC_VALUE : Z := 0x000.
Definition VIRTIO_MMIO_VERSION : Z := 0x004.
Definition VIRTIO_MMIO_DEVICE_ID : Z := 0x008.
Definition VIRTIO_MMIO_VENDOR_ID : Z := 0x00c.
Definition VIRTIO_MMIO_DEVICE_FEATURES : Z := 0x010.
Definition VIRTIO_MMIO_DRIVER_FEATURES : Z := 0x020.
Definition VIRTIO_MMIO_QUEUE_SEL : Z := 0x030.
Definition VIRTIO_MMIO_QUEUE_NUM_MAX : Z := 0x034.
Definition VIRTIO_MMIO_QUEUE_NUM : Z := 0x038.
Definition VIRTIO_MMIO_QUEUE_READY : Z := 0x044.
Definition VIRTIO_MMIO_STATUS : Z := 0x070.
Definition VIRTIO_MMIO_QUEUE_DESC_LOW : Z := 0x080.
Definition VIRTIO_MMIO_QUEUE_DESC_HIGH : Z := 0x084.
Definition VIRTIO_MMIO_DRIVER_DESC_LOW : Z := 0x090.
Definition VIRTIO_MMIO_DRIVER_DESC_HIGH : Z := 0x094.
Definition VIRTIO_MMIO_DEVICE_DESC_LOW : Z := 0x0a0.
Definition VIRTIO_MMIO_DEVICE_DESC_HIGH : Z := 0x0a4.

Definition VIRTIO_CONFIG_S_ACKNOWLEDGE : Z := 1.
Definition VIRTIO_CONFIG_S_DRIVER : Z := 2.
Definition VIRTIO_CONFIG_S_DRIVER_OK : Z := 4.
Definition VIRTIO_CONFIG_S_FEATURES_OK : Z := 8.

Definition VIRTIO_BLK_F_RO : Z := 5.
Definition VIRTIO_BLK_F_SCSI : Z := 7.
Definition VIRTIO_BLK_F_CONFIG_WCE : Z := 11.
Definition VIRTIO_BLK_F_MQ : Z := 12.
Definition VIRTIO_F_ANY_LAYOUT : Z := 27.
Definition VIRTIO_RING_F_INDIRECT_DESC : Z := 28.
Definition VIRTIO_RING_F_EVENT_IDX : Z := 29.

(** features &= ~(1 << bit), for each of the features the driver refuses *)
Definition refuse (features : Z) : Z :=
  foldl (fun f bit => Z.land f (Z.lnot (Z.shiftl 1 bit))) features
    [VIRTIO_BLK_F_RO; VIRTIO_BLK_F_SCSI; VIRTIO_BLK_F_CONFIG_WCE; VIRTIO_BLK_F_MQ;
     VIRTIO_F_ANY_LAYOUT; VIRTIO_RING_F_EVENT_IDX; VIRTIO_RING_F_INDIRECT_DESC].

(** After virtio_disk_init(): every descriptor is free. *)
Definition v_init (bs : list buf) (s : gmap Z (list Z)) : vdisk :=
  mk_vdisk (replicate NUM inhabitant) (replicate NUM 0) 0 (replicate NUM true) 0 (replicate NUM inhabitant)
    (replicate NUM inhabitant) bs (replicate NUM 0) 0 (mk_vdev 0 [] [] None false 0 s).

(** [desc], [avail] and [used] are what the three calls of kalloc() return.
    The result is the register writes, the latest first, and the state. *)
Definition virtio_disk_init (rd : list (Z * Z) -> Z -> Z) (desc avail used : Z)
    (bs : list buf) (s : gmap Z (list Z)) : string + (list (Z * Z) * vdisk) :=
  if negb (rd [] VIRTIO_MMIO_MAGIC_VALUE =? 0x74726976) || negb (rd [] VIRTIO_MMIO_VERSION =? 2) ||
     negb (rd [] VIRTIO_MMIO_DEVICE_ID =? 2) || negb (rd [] VIRTIO_MMIO_VENDOR_ID =? 0x554d4551)
  then inl "could not find virtio disk"%string
  else
    (* reset device *)
    let status := 0 in
    let ws := [(VIRTIO_MMIO_STATUS, status)] in
    (* set ACKNOWLEDGE status bit *)
    let status := Z.lor status VIRTIO_CONFIG_S_ACKNOWLEDGE in
    let ws := (VIRTIO_MMIO_STATUS, status) :: ws in
    (* set DRIVER status bit *)
    let status := Z.lor status VIRTIO_CONFIG_S_DRIVER in
    let ws := (VIRTIO_MMIO_STATUS, status) :: ws in
    (* negotiate features *)
    let features := refuse (rd ws VIRTIO_MMIO_DEVICE_FEATURES) in
    let ws := (VIRTIO_MMIO_DRIVER_FEATURES, u32 features) :: ws in
    (* tell device that feature negotiation is complete. *)
    let status := Z.lor status VIRTIO_CONFIG_S_FEATURES_OK in
    let ws := (VIRTIO_MMIO_STATUS, status) :: ws in
    (* re-read status to ensure FEATURES_OK is set. *)
    let status := rd ws VIRTIO_MMIO_STATUS in
    if Z.land status VIRTIO_CONFIG_S_FEATURES_OK =? 0 then inl "virtio disk FEATURES_OK unset"%string
    else
      (* initialize queue 0. *)
      let ws := (VIRTIO_MMIO_QUEUE_SEL, 0) :: ws in
      (* ensure queue 0 is not in use. *)
      if negb (rd ws VIRTIO_MMIO_QUEUE_READY =? 0) then inl "virtio disk should not be ready"%string
      else
        (* check maximum queue size. *)
        let max := rd ws VIRTIO_MMIO_QUEUE_NUM_MAX in
        if max =? 0 then inl "virtio disk has no queue 0"%string
        else if max <? Z.of_nat NUM then inl "virtio disk max queue too short"%string
        else if (desc =? 0) || (avail =? 0) || (used =? 0) then inl "virtio disk kalloc"%string
        else
          (* set queue size. *)
          let ws := (VIRTIO_MMIO_QUEUE_NUM, Z.of_nat NUM) :: ws in
          (* write physical addresses. *)
          let ws := (VIRTIO_MMIO_QUEUE_DESC_LOW, u32 desc) :: ws in
          let ws := (VIRTIO_MMIO_QUEUE_DESC_HIGH, u32 (Z.shiftr desc 32)) :: ws in
          let ws := (VIRTIO_MMIO_DRIVER_DESC_LOW, u32 avail) :: ws in
          let ws := (VIRTIO_MMIO_DRIVER_DESC_HIGH, u32 (Z.shiftr avail 32)) :: ws in
          let ws := (VIRTIO_MMIO_DEVICE_DESC_LOW, u32 used) :: ws in
          let ws := (VIRTIO_MMIO_DEVICE_DESC_HIGH, u32 (Z.shiftr used 32)) :: ws in
          (* queue is ready. *)
          let ws := (VIRTIO_MMIO_QUEUE_READY, 1) :: ws in
          (* tell device we're completely ready. *)
          let status := Z.lor status VIRTIO_CONFIG_S_DRIVER_OK in
          let ws := (VIRTIO_MMIO_STATUS, status) :: ws in
          inr (ws, v_init bs s).

(** * The device *)

Definition sector_of (s : gmap Z (list Z)) (x : Z) : list Z := default (replicate 512 0) (s !! x).

(** The two sectors of a block. *)
Definition read_block (s : gmap Z (list Z)) (x : Z) : list Z := sector_of s x ++ sector_of s (x + 1).
Definition write_block (s : gmap Z (list Z)) (x : Z) (d : list Z) : gmap Z (list Z) :=
  <[x + 1 := drop 512 d]> (<[x := take 512 d]> s).

(** The request whose first descriptor is [i0], if it is one that the
    specification describes: a header, a block, and a status byte. *)
Record request := mk_request { q_head : nat; q_data : nat; q_stat : nat; q_cmd : virtio_blk_req }.

Definition request_at (i0 : nat) (v : vdisk) : option request :=
  let d0 := v_desc v !!! i0 in
  let d1 := v_desc v !!! Z.to_nat (d_next d0) in
  let d2 := v_desc v !!! Z.to_nat (d_next d1) in
  match d_addr d0, d_addr d1, d_addr d2 with
  | A_op o, A_data b, A_status j =>
      let r := v_ops v !!! o in
      let to_device := Z.land (d_flags d1) VRING_DESC_F_WRITE =? 0 in
      if (d_len d0 =? 16) && (d_len d1 =? BSIZE) && (d_len d2 =? 1) &&
         negb (Z.land (d_flags d0) VRING_DESC_F_NEXT =? 0) &&
         negb (Z.land (d_flags d1) VRING_DESC_F_NEXT =? 0) &&
         (Z.land (d_flags d2) VRING_DESC_F_NEXT =? 0) &&
         negb (Z.land (d_flags d2) VRING_DESC_F_WRITE =? 0) &&
         (if to_device then r_type r =? VIRTIO_BLK_T_OUT else r_type r =? VIRTIO_BLK_T_IN)
      then Some (mk_request i0 b j r) else None
  | _, _, _ => None
  end.

(** The transfer.  After an error the block that was to be written, and the
    buffer that was to be filled, may have any contents [d]. *)
Definition move_data (q : request) (status : Z) (d : list Z) (v : vdisk) : vdisk :=
  let sec := r_sector (q_cmd q) in
  if r_type (q_cmd q) =? VIRTIO_BLK_T_OUT
  then set_dv_sectors (write_block (dv_sectors (v_dev v)) sec
         (if status =? 0 then b_data (v_bufs v !!! q_data q) else d)) v
  else upd_b (q_data q) (set_b_data
         (if status =? 0 then read_block (dv_sectors (v_dev v)) sec else d)) v.

Definition next_head (v : vdisk) : nat :=
  Z.to_nat (nth (Z.to_nat (dv_seen (v_dev v) mod Z.of_nat NUM)) (v_avail_ring v) 0).

(** What the device may do next; [St] are the status bytes that it may report,
    of which 0 is success.  It reads the avail ring in order and serves the
    requests that it has read in any order. *)
Inductive dstep (St : Z -> Prop) (v : vdisk) : vdisk -> Prop :=
| dev_take :
    dv_seen (v_dev v) <> v_avail_idx v ->
    dstep St v (set_dv_seen (u16 (dv_seen (v_dev v) + 1))
      (set_dv_taken (dv_taken (v_dev v) ++ [next_head v]) v))
| dev_serve l1 l2 h q status d :
    dv_taken (v_dev v) = l1 ++ h :: l2 -> request_at h v = Some q -> St status ->
    dstep St v (upd_info (q_stat q) (set_i_status status)
      (set_dv_served (dv_served (v_dev v) ++ [h]) (set_dv_taken (l1 ++ l2) (move_data q status d v))))
| dev_push h :
    h ∈ dv_served (v_dev v) -> dv_push (v_dev v) = None ->
    dstep St v (set_dv_push (Some h)
      (set_used_ring (<[Z.to_nat (v_used_idx_dev v mod Z.of_nat NUM) := Z.of_nat h]> (v_used_ring v)) v))
| dev_publish l1 l2 h :
    dv_push (v_dev v) = Some h -> dv_served (v_dev v) = l1 ++ h :: l2 ->
    dstep St v (set_dv_push None (set_dv_served (l1 ++ l2) (set_dv_raise true
      (set_used_idx_dev (u16 (v_used_idx_dev v + 1)) v))))
| dev_interrupt :
    dv_raise (v_dev v) = true ->
    dstep St v (set_dv_raise false (set_dv_isr (Z.lor (dv_isr (v_dev v)) 1) v)).
