(* ===== verification/VirtioSpec.v ===== *)
(** The disk driver of Virtio.v together with the device: what holds however the
    accesses of the driver and the steps of the device are interleaved, and what
    one call of virtio_disk_rw() does. *)
From S2P Require Import Prelude CInt KState Virtio.

#[local] Open Scope code_scope.

(** * Calls in progress *)

(** A call of virtio_disk_rw() that waits for the device: its buffer and the
    local array idx[]. *)
Record call := mk_call { c_b : nat; c_write : bool; c_i0 : nat; c_i1 : nat; c_i2 : nat }.

#[export] Instance call_eq_dec : EqDecision call.
Proof. solve_decision. Defined.

Definition c_idx (c : call) : list nat := [c_i0 c; c_i1 c; c_i2 c].

Definition c_cmd (c : call) (v : vdisk) : virtio_blk_req :=
  mk_req (if c_write c then VIRTIO_BLK_T_OUT else VIRTIO_BLK_T_IN) 0
    (u32 (b_blockno (v_bufs v !!! c_b c) * (BSIZE / 512))).

Definition c_request (c : call) (v : vdisk) : request := mk_request (c_i0 c) (c_b c) (c_i0 c) (c_cmd c v).

(** The memory of the queue describes the call. *)
Record formatted (v : vdisk) (c : call) : Prop := mk_formatted {
  fm_d0 : v_desc v !! c_i0 c = Some (mk_desc (A_op (c_i0 c)) 16 VRING_DESC_F_NEXT (Z.of_nat (c_i1 c)));
  fm_d1 : v_desc v !! c_i1 c = Some (mk_desc (A_data (c_b c)) BSIZE
            (Z.lor (if c_write c then 0 else VRING_DESC_F_WRITE) VRING_DESC_F_NEXT) (Z.of_nat (c_i2 c)));
  fm_d2 : v_desc v !! c_i2 c = Some (mk_desc (A_status (c_i0 c)) 1 VRING_DESC_F_WRITE 0);
  fm_op : v_ops v !! c_i0 c = Some (c_cmd c v);
  fm_b : exists s, v_info v !! c_i0 c = Some (mk_info (Some (c_b c)) s);
  fm_buf : (c_b c < length (v_bufs v))%nat;
}.

(** Entries [x], [x+1], ... of a ring. *)
Definition ring_has (ring : list Z) (x : Z) (cs : list call) : Prop :=
  forall k c, cs !! k = Some c -> nth (Z.to_nat ((x + Z.of_nat k) mod Z.of_nat NUM)) ring 0 = Z.of_nat (c_i0 c).

Definition idxs (cs : list call) : list nat := concat (map c_idx cs).

(** The lengths of the tables. *)
Definition sized (v : vdisk) : Prop :=
  length (v_desc v) = NUM /\ length (v_avail_ring v) = NUM /\ length (v_used_ring v) = NUM /\
  length (v_free v) = NUM /\ length (v_info v) = NUM /\ length (v_ops v) = NUM.

(** The descriptors: every one is free, or part of one call's chain, or among
    those ([rs]) that the code at work has for itself. *)
Record sinv (v : vdisk) (rs : list nat) (cs : list call) : Prop := mk_sinv {
  si_len : sized v;
  si_nodup : NoDup (rs ++ idxs cs);
  si_range : forall i, i ∈ rs ++ idxs cs -> (i < NUM)%nat;
  si_free : forall i, (i < NUM)%nat -> v_free v !! i = Some (bool_decide (i ∉ rs ++ idxs cs));
  si_bufs : NoDup (map c_b cs);
  si_fmt : forall c, c ∈ cs -> formatted v c;
}.

(** Where the calls in progress are: in the avail ring, read by the device,
    served, in the used ring, seen by the handler.  [g_resv] are the descriptors
    that the code at work has for itself; [g_ux] is the position in the used ring
    up to which the handler has finished. *)
Record ghost := mk_ghost {
  g_pend : list call; g_taken : list call; g_served : list call; g_fin : list call; g_done : list call;
  g_resv : list nat; g_ux : Z;
}.

Definition calls (g : ghost) : list call := g_pend g ++ g_taken g ++ g_served g ++ g_fin g ++ g_done g.

Lemma idxs_app cs1 cs2 : idxs (cs1 ++ cs2) = idxs cs1 ++ idxs cs2.
Proof. unfold idxs. by rewrite map_app, concat_app. Qed.

Lemma idxs_cons c cs : idxs (c :: cs) = c_idx c ++ idxs cs.
Proof. done. Qed.

Lemma idxs_perm cs cs' : cs ≡ₚ cs' -> idxs cs ≡ₚ idxs cs'.
Proof. intros H. unfold idxs. by rewrite H. Qed.

Lemma elem_of_idxs cs i : i ∈ idxs cs <-> exists c, c ∈ cs /\ i ∈ c_idx c.
Proof.
  unfold idxs. induction cs as [|c cs IH]; cbn [map concat].
  - split; [intros H; by apply elem_of_nil in H|intros (c & H & _); by apply elem_of_nil in H].
  - rewrite elem_of_app, IH. setoid_rewrite elem_of_cons. naive_solver.
Qed.

Lemma length_idxs cs : length (idxs cs) = (3 * length cs)%nat.
Proof. unfold idxs. induction cs as [|c cs IH]; [done|]. cbn [map concat]. rewrite length_app, IH. cbn. lia. Qed.

Lemma i0_in c : c_i0 c ∈ c_idx c.
Proof. by left. Qed.

Lemma lookup_total {A} `{Inhabited A} (l : list A) i x : l !! i = Some x -> l !!! i = x.
Proof. apply list_lookup_total_correct. Qed.

(** ** Rings *)

Lemma mod_NUM_u16 x : u16 x mod Z.of_nat NUM = x mod Z.of_nat NUM.
Proof. unfold u16, NUM. zdm. Qed.

(** A store behind the entries. *)
Lemma ring_beyond ring x cs z :
  (length cs < NUM)%nat -> ring_has ring x cs ->
  ring_has (<[Z.to_nat (u16 (x + Z.of_nat (length cs)) mod Z.of_nat NUM) := z]> ring) x cs.
Proof.
  intros Hc H k c Hk. rewrite mod_NUM_u16. pose proof (lookup_lt_Some _ _ _ Hk).
  rewrite nth_lookup, list_lookup_insert_ne, <- nth_lookup; [by apply H|]. unfold NUM in *. zdm.
Qed.

Lemma ring_snoc ring x cs c :
  nth (Z.to_nat (u16 (x + Z.of_nat (length cs)) mod Z.of_nat NUM)) ring 0 = Z.of_nat (c_i0 c) ->
  ring_has ring x cs -> ring_has ring x (cs ++ [c]).
Proof.
  intros E H k c' Hk. apply lookup_app_Some in Hk as [Hk|[Hge Hk]]; [by apply H|].
  assert (k = length cs) as ->.
  { apply lookup_lt_Some in Hk. cbn in Hk. lia. }
  rewrite Nat.sub_diag in Hk. injection Hk as <-. by rewrite <- E, mod_NUM_u16.
Qed.

Lemma ring_pop ring x c cs :
  ring_has ring x (c :: cs) ->
  nth (Z.to_nat (x mod Z.of_nat NUM)) ring 0 = Z.of_nat (c_i0 c) /\ ring_has ring (u16 (x + 1)) cs.
Proof.
  intros H. split.
  - rewrite <- (H 0%nat c) by done. by rewrite Z.add_0_r.
  - intros k c' Hk. rewrite <- (H (S k) c') by done. do 2 f_equal. unfold u16, NUM. zdm.
Qed.

Lemma u16_ne x (n : nat) : 0 <= x < 2 ^ 16 -> (0 < n <= 2)%nat -> u16 (x + Z.of_nat n) <> x.
Proof. unfold u16. intros H Hn. zdm. Qed.

Lemma u16_0 x : 0 <= x < 2 ^ 16 -> u16 (x + Z.of_nat 0) = x.
Proof. intros H. rewrite Z.add_0_r. unfold u16. rewrite Z.mod_small; lia. Qed.

Lemma u16_step x (n : nat) : u16 (x + Z.of_nat (S n)) = u16 (u16 (x + 1) + Z.of_nat n).
Proof. unfold u16. zdm. Qed.

Lemma u16_snoc x (n : nat) : u16 (u16 (x + Z.of_nat n) + 1) = u16 (x + Z.of_nat (n + 1)).
Proof. unfold u16. zdm. Qed.

(** ** Descriptors *)

Lemma formatted_frame v v' c :
  formatted v c -> (forall i, i ∈ c_idx c -> v_desc v' !! i = v_desc v !! i) ->
  v_ops v' !! c_i0 c = v_ops v !! c_i0 c ->
  i_b <$> v_info v' !! c_i0 c = i_b <$> v_info v !! c_i0 c ->
  length (v_bufs v') = length (v_bufs v) ->
  b_blockno (v_bufs v' !!! c_b c) = b_blockno (v_bufs v !!! c_b c) -> formatted v' c.
Proof.
  intros [H0 H1 H2 H3 [s H4] H5] Ed Eo Ei El Eb.
  split; [rewrite Ed by (unfold c_idx; set_solver); done..| | |by rewrite El].
  - rewrite Eo, H3. unfold c_cmd. by rewrite Eb.
  - rewrite H4 in Ei. cbn in Ei. destruct (v_info v' !! c_i0 c) as [[ob s']|]; [|done].
    cbn in Ei. injection Ei as ->. by exists s'.
Qed.

Lemma sinv_frame v v' rs cs :
  sinv v rs cs -> sized v' -> v_free v' = v_free v -> (forall c, c ∈ cs -> formatted v' c) -> sinv v' rs cs.
Proof. intros [H1 H2 H3 H4 H5 H6] Hs Hf Hc. split; try done. by rewrite Hf. Qed.

Lemma sinv_perm v rs rs' cs cs' : rs ≡ₚ rs' -> cs ≡ₚ cs' -> sinv v rs cs -> sinv v rs' cs'.
Proof.
  intros Er E [H1 H2 H3 H4 H5 H6]. pose proof (idxs_perm _ _ E) as Ei. split.
  - done.
  - by rewrite <- Er, <- Ei.
  - intros i. rewrite <- Er, <- Ei. apply H3.
  - intros i Hi. rewrite H4 by done. f_equal. apply bool_decide_ext. by rewrite Er, Ei.
  - by rewrite <- E.
  - intros c. rewrite <- E. apply H6.
Qed.

Lemma sinv_count v rs cs : sinv v rs cs -> (length rs + 3 * length cs <= 8)%nat.
Proof.
  intros I. assert (length (rs ++ idxs cs) <= length (seq 0 NUM))%nat as H.
  { apply submseteq_length, NoDup_submseteq; [apply I|].
    intros i Hi. apply elem_of_seq. apply (si_range _ _ _ I) in Hi. lia. }
  by rewrite length_app, length_idxs, length_seq in H.
Qed.

Lemma sinv_resv_ne v rs cs i c j : sinv v rs cs -> i ∈ rs -> c ∈ cs -> j ∈ c_idx c -> j <> i.
Proof.
  intros I Hi Hc Hj ->. pose proof (si_nodup _ _ _ I) as Hn. apply list.NoDup_app in Hn as (_ & Hd & _).
  apply (Hd i Hi). apply elem_of_idxs. eauto.
Qed.

Lemma sinv_resv v rs cs i : sinv v rs cs -> i ∈ rs -> (i < NUM)%nat /\ v_free v !! i = Some false.
Proof.
  intros I Hi. assert (i < NUM)%nat as Hlt by (apply (si_range _ _ _ I); set_solver). split; [done|].
  rewrite (si_free _ _ _ I i Hlt), bool_decide_false; [done|]. set_solver.
Qed.

(** A call gives up its descriptors, or gets them. *)
Lemma sinv_retire v rs c cs : sinv v rs (c :: cs) -> sinv v (c_idx c ++ rs) cs.
Proof.
  intros [H1 H2 H3 H4 H5 H6].
  assert (rs ++ idxs (c :: cs) ≡ₚ (c_idx c ++ rs) ++ idxs cs) as E.
  { rewrite idxs_cons, <- app_assoc. apply Permutation_app_swap_app. }
  split; [done|by rewrite <- E|intros i; rewrite <- E; apply H3| | |].
  - intros i Hi. rewrite H4 by done. f_equal. apply bool_decide_ext. by rewrite E.
  - cbn in H5. by apply list.NoDup_cons in H5 as [_ H5].
  - intros c' Hc'. apply H6. by right.
Qed.

Lemma sinv_enlist v rs c cs :
  sinv v (c_idx c ++ rs) cs -> formatted v c -> c_b c ∉ map c_b cs -> sinv v rs (c :: cs).
Proof.
  intros [H1 H2 H3 H4 H5 H6] Hf Hb.
  assert (rs ++ idxs (c :: cs) ≡ₚ (c_idx c ++ rs) ++ idxs cs) as E.
  { rewrite idxs_cons, <- app_assoc. apply Permutation_app_swap_app. }
  split; [done|by rewrite E|intros i; rewrite E; apply H3| | |].
  - intros i Hi. rewrite H4 by done. f_equal. apply bool_decide_ext. by rewrite E.
  - cbn. by apply list.NoDup_cons.
  - intros c' Hc'. apply elem_of_cons in Hc' as [->|Hc']; [done|by apply H6].
Qed.

Lemma sinv_alloc v rs cs i : sinv v rs cs -> v_free v !! i = Some true -> sinv (set_free i false v) (i :: rs) cs.
Proof.
  intros [H1 H2 H3 H4 H5 H6] Hf. destruct H1 as (L1 & L2 & L3 & L4 & L5 & L6).
  assert (i < NUM)%nat as Hi by (rewrite <- L4; by apply lookup_lt_Some in Hf).
  rewrite H4 in Hf by done. injection Hf as Hf. apply bool_decide_eq_true in Hf. split.
  - unfold sized. cbn. by rewrite length_insert.
  - cbn. by apply list.NoDup_cons.
  - intros j Hj. cbn in Hj. apply elem_of_cons in Hj as [->|Hj]; [done|by apply H3].
  - intros j Hj. cbn. rewrite list_lookup_insert, H4 by done. case_decide as D.
    + destruct D as [<- _]. rewrite bool_decide_false; [done|]. set_solver.
    + f_equal. apply bool_decide_ext. rewrite elem_of_cons.
      assert (j <> i) by (intros ->; apply D; lia). tauto.
  - done.
  - intros c Hc. by destruct (H6 c Hc).
Qed.

Lemma sinv_release v rs cs i : sinv v (i :: rs) cs -> sinv (set_free i true v) rs cs.
Proof.
  intros I. destruct (sinv_resv _ _ _ i I ltac:(by left)) as [Hi _].
  destruct I as [(L1 & L2 & L3 & L4 & L5 & L6) H2 H3 H4 H5 H6]. cbn in H2. apply list.NoDup_cons in H2 as [Hn H2]. split.
  - unfold sized. cbn. by rewrite length_insert.
  - done.
  - intros j Hj. apply H3. by right.
  - intros j Hj. cbn. rewrite list_lookup_insert, H4 by done. case_decide as D.
    + destruct D as [<- _]. by rewrite bool_decide_true.
    + f_equal. apply bool_decide_ext. cbn [app]. rewrite elem_of_cons.
      assert (j <> i) by (intros ->; apply D; lia). tauto.
  - done.
  - intros c Hc. by destruct (H6 c Hc).
Qed.

(** * The invariant *)

Section device.
Context (St : Z -> Prop).

Record vinv (v : vdisk) (g : ghost) : Prop := mk_vinv {
  vi_static : sinv v (g_resv g) (calls g);
  vi_avail : ring_has (v_avail_ring v) (dv_seen (v_dev v)) (g_pend g) /\ 0 <= dv_seen (v_dev v) < 2 ^ 16 /\
    v_avail_idx v = u16 (dv_seen (v_dev v) + Z.of_nat (length (g_pend g)));
  vi_taken : dv_taken (v_dev v) = map c_i0 (g_taken g);
  vi_served : dv_served (v_dev v) = map c_i0 (g_served g);
  vi_push : forall h, dv_push (v_dev v) = Some h -> h ∈ dv_served (v_dev v) /\
    nth (Z.to_nat (v_used_idx_dev v mod Z.of_nat NUM)) (v_used_ring v) 0 = Z.of_nat h;
  vi_used : ring_has (v_used_ring v) (g_ux g) (g_fin g) /\ 0 <= g_ux g < 2 ^ 16 /\
    v_used_idx_dev v = u16 (g_ux g + Z.of_nat (length (g_fin g)));
  vi_status : forall c, c ∈ g_served g ++ g_fin g ->
    exists st, v_info v !! c_i0 c = Some (mk_info (Some (c_b c)) st) /\ St st;
  vi_ok : forall c, c ∈ g_done g -> v_info v !! c_i0 c = Some (mk_info (Some (c_b c)) 0);
  vi_busy : forall c, c ∈ g_pend g ++ g_taken g ++ g_served g ++ g_fin g -> b_disk (v_bufs v !!! c_b c) = 1;
  vi_done : forall c, c ∈ g_done g -> b_disk (v_bufs v !!! c_b c) = 0;
}.

(** An entry of the used ring that the handler has not seen has an interrupt. *)
Definition irq_ok (g : ghost) (v : vdisk) : Prop :=
  g_fin g = [] \/ dv_raise (v_dev v) = true \/ Z.testbit (dv_isr (v_dev v)) 0 = true.

(** What the device and the rest of the kernel leave alone: the driver's side of
    the memory, and of the buffers in [own] all but the data. *)
Record kept (own : list nat) (v v' : vdisk) : Prop := mk_kept {
  k_desc : v_desc v' = v_desc v;
  k_ops : v_ops v' = v_ops v;
  k_avail : v_avail_ring v' = v_avail_ring v /\ v_avail_idx v' = v_avail_idx v;
  k_free : v_free v' = v_free v;
  k_used : v_used_idx v' = v_used_idx v;
  k_info : i_b <$> v_info v' = i_b <$> v_info v;
  k_len : length (v_bufs v') = length (v_bufs v) /\ length (v_used_ring v') = length (v_used_ring v);
  k_bufs : forall b, b ∈ own -> set_b_data [] (v_bufs v' !!! b) = set_b_data [] (v_bufs v !!! b);
}.

#[global] Instance kept_preorder own : PreOrder (kept own).
Proof.
  split.
  - by intros v.
  - intros v1 v2 v3 [A1 A2 [A3 A3'] A4 A5 A6 [A7 A7'] A8] [B1 B2 [B3 B3'] B4 B5 B6 [B7 B7'] B8].
    split; try split; try congruence. intros b Hb. by rewrite B8, A8.
Qed.

Lemma kept_disk own v v' b : kept own v v' -> b ∈ own -> b_disk (v_bufs v' !!! b) = b_disk (v_bufs v !!! b).
Proof. intros K Hb. exact (f_equal b_disk (k_bufs _ _ _ K b Hb)). Qed.

Lemma kept_blockno own v v' b : kept own v v' -> b ∈ own -> b_blockno (v_bufs v' !!! b) = b_blockno (v_bufs v !!! b).
Proof. intros K Hb. exact (f_equal b_blockno (k_bufs _ _ _ K b Hb)). Qed.

Lemma kept_i_b own v v' i : kept own v v' -> i_b <$> v_info v' !! i = i_b <$> v_info v !! i.
Proof. intros K. rewrite <- !list_lookup_fmap. by rewrite (k_info _ _ _ K). Qed.

Lemma kept_sized own v v' : kept own v v' -> sized v -> sized v'.
Proof.
  intros K (L1 & L2 & L3 & L4 & L5 & L6). destruct K as [K1 K2 [K3 _] K4 K5 K6 [_ K7] K8]. unfold sized.
  rewrite K1, K2, K3, K4, K7. apply (f_equal length) in K6. rewrite !length_fmap in K6. by rewrite K6.
Qed.

Lemma kept_formatted own v v' c : kept own v v' -> c_b c ∈ own -> formatted v c -> formatted v' c.
Proof.
  intros K Hb F. apply (formatted_frame v); [done|..].
  - intros i _. by rewrite (k_desc _ _ _ K).
  - by rewrite (k_ops _ _ _ K).
  - by apply (kept_i_b own).
  - apply K.
  - by apply (kept_blockno own).
Qed.

Lemma kept_sinv own v v' rs cs :
  kept own v v' -> (forall c, c ∈ cs -> c_b c ∈ own) -> sinv v rs cs -> sinv v' rs cs.
Proof.
  intros K Ho I. apply (sinv_frame v); [done|by apply (kept_sized own v), I|apply K|].
  intros c Hc. apply (kept_formatted own v); [done|by apply Ho|by apply (si_fmt _ _ _ I)].
Qed.

(** ** The steps of the device *)

Lemma request_formatted v c : formatted v c -> request_at (c_i0 c) v = Some (c_request c v).
Proof.
  intros [F0 F1 F2 F3 _ _]. unfold request_at.
  rewrite (lookup_total _ _ _ F0). cbn [d_next d_addr d_len d_flags].
  rewrite Nat2Z.id, (lookup_total _ _ _ F1). cbn [d_next d_addr d_len d_flags].
  rewrite Nat2Z.id, (lookup_total _ _ _ F2). cbn [d_next d_addr d_len d_flags].
  rewrite (lookup_total _ _ _ F3). unfold c_request, c_cmd. by destruct (c_write c).
Qed.

Lemma vinv_few v g : vinv v g -> (length (calls g) <= 2)%nat.
Proof. intros I. pose proof (sinv_count _ _ _ (vi_static _ _ I)). lia. Qed.

Lemma calls_length g : length (calls g) =
  (length (g_pend g) + length (g_taken g) + length (g_served g) + length (g_fin g) + length (g_done g))%nat.
Proof. unfold calls. rewrite !length_app. lia. Qed.

(** What a step of the environment does to the calls. *)
Record moved (g g' : ghost) : Prop := mk_moved {
  mv_calls : calls g' ≡ₚ calls g;
  mv_done : g_done g' = g_done g;
  mv_resv : g_resv g' = g_resv g;
  mv_ux : g_ux g' = g_ux g;
  mv_fin : exists l, g_fin g' = g_fin g ++ l;
}.

Lemma moved_refl g : moved g g.
Proof. split; try done. exists []. by rewrite app_nil_r. Qed.

Definition with_resv (rs : list nat) (g : ghost) : ghost :=
  mk_ghost (g_pend g) (g_taken g) (g_served g) (g_fin g) (g_done g) rs (g_ux g).

(** The calls in progress do not see the difference between [v] and [v']. *)
Lemma vinv_private v v' g rs :
  vinv v g -> sinv v' rs (calls g) -> v_dev v' = v_dev v -> v_avail_idx v' = v_avail_idx v ->
  ring_has (v_avail_ring v') (dv_seen (v_dev v)) (g_pend g) ->
  v_used_ring v' = v_used_ring v -> v_used_idx_dev v' = v_used_idx_dev v ->
  (forall c, c ∈ calls g -> v_info v' !! c_i0 c = v_info v !! c_i0 c) ->
  (forall c, c ∈ calls g -> b_disk (v_bufs v' !!! c_b c) = b_disk (v_bufs v !!! c_b c)) ->
  vinv v' (with_resv rs g).
Proof.
  intros [S A T V P U St' O B Dn] HS Ed Ea Hr Er Ei Hinfo Hdisk.
  split; cbn; rewrite ?Ed, ?Ea, ?Er, ?Ei; try done.
  - by split_and!; [|apply A..].
  - intros c Hc. rewrite Hinfo by (unfold calls; set_solver). by apply St'.
  - intros c Hc. rewrite Hinfo by (unfold calls; set_solver). by apply O.
  - intros c Hc. rewrite Hdisk by (unfold calls; set_solver). by apply B.
  - intros c Hc. rewrite Hdisk by (unfold calls; set_solver). by apply Dn.
Qed.

(** The request that the device reads next is that of the first call in the
    ring. *)
Lemma next_head_pend v g :
  vinv v g -> dv_seen (v_dev v) <> v_avail_idx v -> exists c p, g_pend g = c :: p /\ next_head v = c_i0 c.
Proof.
  intros I Hne. destruct (vi_avail _ _ I) as (Hr & Hx & Ea). destruct (g_pend g) as [|c p].
  - rewrite u16_0 in Ea by done. congruence.
  - exists c, p. split; [done|]. unfold next_head. rewrite (proj1 (ring_pop _ _ _ _ Hr)). apply Nat2Z.id.
Qed.

Lemma vinv_take v g c p :
  vinv v g -> g_pend g = c :: p -> next_head v = c_i0 c ->
  vinv (set_dv_seen (u16 (dv_seen (v_dev v) + 1)) (set_dv_taken (dv_taken (v_dev v) ++ [next_head v]) v))
    (mk_ghost p (g_taken g ++ [c]) (g_served g) (g_fin g) (g_done g) (g_resv g) (g_ux g)).
Proof.
  intros [S (Ar & Ax & Ai) T V P U St' O B Dn] Ep Eh. rewrite Ep in *. unfold calls in S. rewrite Ep in S.
  split; cbn; try done.
  - eapply (kept_sinv (map c_b (calls g)) v); [by split| |].
    + intros c' Hc'. apply list_elem_of_fmap. exists c'. split; [done|]. unfold calls in *. cbn in Hc'. rewrite Ep. set_solver.
    + eapply sinv_perm; [reflexivity| |exact S]. unfold calls. cbn. rewrite <- !app_assoc. cbn. solve_Permutation.
  - split_and!; [by apply (ring_pop _ _ c)|apply u16_range..|]. rewrite Ai. cbn [length]. apply u16_step.
  - rewrite T, Eh, map_app. done.
  - intros c' Hc'. apply B. set_solver.
Qed.

Lemma map_i0_split l1 h l2 cs :
  l1 ++ h :: l2 = map c_i0 cs -> exists t1 c t2, cs = t1 ++ c :: t2 /\ l1 = map c_i0 t1 /\ h = c_i0 c /\ l2 = map c_i0 t2.
Proof.
  intros E. symmetry in E. apply map_eq_app in E as (t1 & t2 & -> & E1 & E2).
  apply map_eq_cons in E2 as (c & t3 & -> & E3 & E4). by exists t1, c, t3.
Qed.

Lemma fmap_alter_same {A B} (f : A -> B) (g : A -> A) i (l : list A) :
  (forall x, f (g x) = f x) -> f <$> alter g i l = f <$> l.
Proof.
  intros H. apply list_eq. intros j. rewrite !list_lookup_fmap, list_lookup_alter.
  case_decide; [|done]. subst j. destruct (l !! i) as [x|]; [|done]. cbn. by rewrite H.
Qed.

Lemma bufs_alter_at (f : buf -> buf) (bs : list buf) b j :
  alter f b bs !!! j = if decide (j = b /\ (b < length bs)%nat) then f (bs !!! j) else bs !!! j.
Proof.
  case_decide as D.
  - destruct D as [-> D]. by rewrite list_lookup_total_alter_eq.
  - rewrite !list_lookup_total_alt, list_lookup_alter. case_decide; [|done]. subst j.
    rewrite lookup_ge_None_2; [done|]. destruct (decide (b < length bs)%nat); [tauto|lia].
Qed.

Lemma bufs_total_alter (f : buf -> buf) (bs : list buf) b j :
  (b < length bs)%nat -> alter f b bs !!! j = if decide (j = b) then f (bs !!! j) else bs !!! j.
Proof. intros H. rewrite bufs_alter_at. repeat case_decide; tauto. Qed.

Lemma bufs_alter_data b d (bs : list buf) j :
  set_b_data [] (alter (set_b_data d) b bs !!! j) = set_b_data [] (bs !!! j).
Proof.
  rewrite !list_lookup_total_alt, list_lookup_alter. case_decide; [|done]. subst j. by destruct (bs !! b).
Qed.

(** What the device reads and writes: one block of the disk and one buffer. *)
Definition transfer (c : call) (v : vdisk) : list buf * gmap Z (list Z) :=
  let sec := r_sector (c_cmd c v) in
  if c_write c then (v_bufs v, write_block (dv_sectors (v_dev v)) sec (b_data (v_bufs v !!! c_b c)))
  else (alter (set_b_data (read_block (dv_sectors (v_dev v)) sec)) (c_b c) (v_bufs v), dv_sectors (v_dev v)).

Definition served (c : call) (l1 l2 : list nat) (st : Z) (d : list Z) (v : vdisk) : vdisk :=
  upd_info (c_i0 c) (set_i_status st)
    (set_dv_served (dv_served (v_dev v) ++ [c_i0 c]) (set_dv_taken (l1 ++ l2) (move_data (c_request c v) st d v))).

Lemma served_transfer c l1 l2 d v :
  (v_bufs (served c l1 l2 0 d v), dv_sectors (v_dev (served c l1 l2 0 d v))) = transfer c v.
Proof. unfold served, move_data, c_request, c_cmd, transfer. cbn. by destruct (c_write c). Qed.

Lemma served_fields c l1 l2 st d v :
  let v' := served c l1 l2 st d v in
  v_avail_idx v' = v_avail_idx v /\ v_avail_ring v' = v_avail_ring v /\ v_used_ring v' = v_used_ring v /\
  v_used_idx_dev v' = v_used_idx_dev v /\ v_info v' = alter (set_i_status st) (c_i0 c) (v_info v) /\
  dv_taken (v_dev v') = l1 ++ l2 /\ dv_served (v_dev v') = dv_served (v_dev v) ++ [c_i0 c] /\
  dv_seen (v_dev v') = dv_seen (v_dev v) /\ dv_push (v_dev v') = dv_push (v_dev v) /\
  dv_raise (v_dev v') = dv_raise (v_dev v) /\ dv_isr (v_dev v') = dv_isr (v_dev v).
Proof. unfold served, move_data, c_request, c_cmd. cbn. by destruct (c_write c). Qed.

Lemma served_kept own c l1 l2 st d v : kept own v (served c l1 l2 st d v).
Proof.
  unfold served, move_data, c_request, c_cmd. destruct (c_write c); cbn; split; cbn; try done.
  - by apply fmap_alter_same.
  - by apply fmap_alter_same.
  - by rewrite length_alter.
  - intros b _. apply bufs_alter_data.
Qed.

Lemma i0_distinct v rs cs1 c cs2 c' :
  sinv v rs (cs1 ++ c :: cs2) -> c' ∈ cs1 ++ cs2 -> c_i0 c' <> c_i0 c.
Proof.
  intros I Hc'. assert (sinv v (c_idx c ++ rs) (cs1 ++ cs2)) as I'.
  { apply sinv_retire. eapply sinv_perm; [reflexivity| |exact I]. solve_Permutation. }
  eapply (sinv_resv_ne v _ _ (c_i0 c)); [exact I'|by left|done|apply i0_in].
Qed.

Lemma vinv_serve v g t1 c t2 st d :
  vinv v g -> g_taken g = t1 ++ c :: t2 -> St st ->
  vinv (served c (map c_i0 t1) (map c_i0 t2) st d v)
    (mk_ghost (g_pend g) (t1 ++ t2) (g_served g ++ [c]) (g_fin g) (g_done g) (g_resv g) (g_ux g)).
Proof.
  intros [S A T V P U St' O B Dn] Et Hst. unfold calls in S. rewrite Et in *.
  pose proof (served_kept (map c_b (calls g)) c (map c_i0 t1) (map c_i0 t2) st d v) as K.
  pose proof (served_fields c (map c_i0 t1) (map c_i0 t2) st d v) as F. cbv zeta in F.
  set (v' := served _ _ _ _ _ _) in *. clearbody v'. destruct F as (F1 & F2 & F3 & F4 & F5 & F6 & F7 & F8 & F9 & _).
  assert (forall c', c' ∈ calls g -> c_b c' ∈ map c_b (calls g)) as Ho
    by (intros c' Hc'; apply list_elem_of_fmap; eauto).
  assert (c ∈ calls g) as Hc by (unfold calls; rewrite Et; set_solver).
  assert (forall c', c' ∈ g_served g ++ g_fin g ++ g_done g -> c_i0 c' <> c_i0 c) as Hne.
  { intros c' Hc'. eapply (i0_distinct v (g_resv g) (g_pend g ++ t1) c (t2 ++ g_served g ++ g_fin g ++ g_done g));
      [|set_solver]. eapply sinv_perm; [reflexivity| |exact S]. solve_Permutation. }
  split; cbn; rewrite ?F1, ?F2, ?F3, ?F4, ?F8, ?F9; try done.
  - apply (kept_sinv (map c_b (calls g)) v); [done| |].
    + intros c' Hc'. apply Ho. unfold calls in *. cbn in Hc'. rewrite Et. set_solver.
    + eapply sinv_perm; [reflexivity| |exact S]. unfold calls. cbn. solve_Permutation.
  - by rewrite F6, map_app.
  - rewrite F7, V, map_app. done.
  - intros h Hh. rewrite F7, elem_of_app. destruct (P h Hh). auto.
  - intros c' Hc'. rewrite F5. destruct (decide (c' = c)) as [->|Hs].
    2: { rewrite list_lookup_alter_ne by (apply not_eq_sym, Hne; set_solver). apply St'. set_solver. }
    destruct (fm_b _ _ (si_fmt _ _ _ S c ltac:(set_solver))) as [s E].
    exists st. by rewrite list_lookup_alter_eq, E.
  - intros c' Hc'. rewrite F5, list_lookup_alter_ne by (apply not_eq_sym, Hne; set_solver). by apply O.
  - intros c' Hc'. rewrite (kept_disk (map c_b (calls g)) v) by (done || apply Ho; unfold calls; rewrite Et; set_solver).
    apply B. set_solver.
  - intros c' Hc'. rewrite (kept_disk (map c_b (calls g)) v) by (done || apply Ho; unfold calls; set_solver).
    by apply Dn.
Qed.

Lemma vinv_push v g h :
  vinv v g -> h ∈ dv_served (v_dev v) -> vinv (set_dv_push (Some h)
    (set_used_ring (<[Z.to_nat (v_used_idx_dev v mod Z.of_nat NUM) := Z.of_nat h]> (v_used_ring v)) v)) g.
Proof.
  intros I Hh. pose proof (vinv_few _ _ I) as Hf. rewrite calls_length in Hf.
  destruct I as [S A T V P (Ur & Ux & Ui) St' O B Dn].
  pose proof (si_len _ _ _ S) as (L1 & L2 & L3 & L4 & L5 & L6).
  split; cbn; try done.
  - apply (kept_sinv (map c_b (calls g)) v); [|intros c Hc; apply list_elem_of_fmap; eauto|done].
    split; try done. split; [done|]. apply length_insert.
  - intros h' [= <-]. split; [done|]. rewrite nth_lookup, list_lookup_insert_eq; [done|]. rewrite L3. unfold NUM. zdm.
  - split_and!; [|lia..|done]. rewrite Ui. apply ring_beyond; [unfold NUM; lia|done].
Qed.

Lemma vinv_publish v g t1 c t2 :
  vinv v g -> g_served g = t1 ++ c :: t2 -> dv_push (v_dev v) = Some (c_i0 c) ->
  vinv (set_dv_push None (set_dv_served (map c_i0 t1 ++ map c_i0 t2) (set_dv_raise true
      (set_used_idx_dev (u16 (v_used_idx_dev v + 1)) v))))
    (mk_ghost (g_pend g) (g_taken g) (t1 ++ t2) (g_fin g ++ [c]) (g_done g) (g_resv g) (g_ux g)).
Proof.
  intros [S A T V P (Ur & Ux & Ui) St' O B Dn] Es Hp. unfold calls in S. rewrite Es in *.
  split; cbn; try done.
  - apply (kept_sinv (map c_b (calls g)) v); [by split| |].
    + intros c' Hc'. apply list_elem_of_fmap. exists c'. split; [done|]. unfold calls in *. cbn in Hc'. rewrite Es. set_solver.
    + eapply sinv_perm; [reflexivity| |exact S]. unfold calls. cbn. solve_Permutation.
  - by rewrite map_app.
  - rewrite Ui, length_app. split_and!; [|lia..|apply u16_snoc]. apply ring_snoc; [|done]. rewrite <- Ui. by apply (P (c_i0 c)).
  - intros c' Hc'. apply St'. set_solver.
  - intros c' Hc'. apply B. set_solver.
Qed.

(** The rest of the kernel changes only buffers that no call uses. *)
Definition client (own : list nat) (v v' : vdisk) : Prop :=
  exists bs, v' = set_bufs bs v /\ length bs = length (v_bufs v) /\ forall b, b ∈ own -> bs !!! b = v_bufs v !!! b.

Definition istep (own : list nat) (v v' : vdisk) : Prop := dstep St v v' \/ client own v v'.

Lemma vinv_client own v v' g :
  client own v v' -> vinv v g -> (forall c, c ∈ calls g -> c_b c ∈ own) -> vinv v' g /\ kept own v v'.
Proof.
  intros (bs & -> & Hl & Hb) I Ho. assert (kept own v (set_bufs bs v)) as K.
  { split; try done. intros b H. cbn. by rewrite Hb. }
  split; [|done]. destruct I as [S A T V P U St' O B Dn]. split; try done.
  - by apply (kept_sinv own v).
  - intros c Hc. cbn. rewrite Hb by (apply Ho; unfold calls; set_solver). by apply B.
  - intros c Hc. cbn. rewrite Hb by (apply Ho; unfold calls; set_solver). by apply Dn.
Qed.

Record followed (own : list nat) (v : vdisk) (g : ghost) (v' : vdisk) (g' : ghost) : Prop := mk_followed {
  fo_inv : vinv v' g';
  fo_moved : moved g g';
  fo_kept : kept own v v';
  fo_irq : irq_ok g v -> irq_ok g' v';
  fo_info : forall c, c ∈ g_fin g -> v_info v' !! c_i0 c = v_info v !! c_i0 c;
}.

(** The data that a step moves: none, or those of a call that the device has
    read. *)
Inductive effect (v : vdisk) (g : ghost) (v' : vdisk) (g' : ghost) : Prop :=
| ef_none :
    v_bufs v' = v_bufs v -> dv_sectors (v_dev v') = dv_sectors (v_dev v) -> v_info v' = v_info v ->
    g_pend g' ++ g_taken g' ≡ₚ g_pend g ++ g_taken g -> effect v g v' g'
| ef_serve c st :
    c ∈ g_taken g -> c ∈ g_served g' -> St st -> v_info v' !! c_i0 c = Some (mk_info (Some (c_b c)) st) ->
    (st = 0 -> (v_bufs v', dv_sectors (v_dev v')) = transfer c v) ->
    (forall b, b <> c_b c -> v_bufs v' !!! b = v_bufs v !!! b) ->
    (forall x, x <> r_sector (c_cmd c v) -> x <> r_sector (c_cmd c v) + 1 ->
       dv_sectors (v_dev v') !! x = dv_sectors (v_dev v) !! x) -> effect v g v' g'.

Lemma served_effect v g g' c l1 l2 st d :
  c ∈ g_taken g -> c ∈ g_served g' -> St st -> formatted v c -> effect v g (served c l1 l2 st d v) g'.
Proof.
  intros Ht Hs Hst F. pose proof (served_fields c l1 l2 st d v) as H. cbv zeta in H.
  destruct H as (_ & _ & _ & _ & F5 & _). destruct (fm_b _ _ F) as [s E].
  apply (ef_serve v g _ g' c st); [done..| | | |].
  - by rewrite F5, list_lookup_alter_eq, E.
  - intros ->. apply served_transfer.
  - intros b Hb. unfold served, move_data. cbn. destruct (c_write c); cbn; [done|].
    by rewrite list_lookup_total_alter_ne.
  - intros x H1 H2. unfold served, move_data. cbn. destruct (c_write c); cbn; [|done].
    unfold write_block. by rewrite !lookup_insert_ne by done.
Qed.

Lemma dstep_followed own v v' g :
  dstep St v v' -> vinv v g -> exists g', followed own v g v' g' /\ effect v g v' g'.
Proof.
  intros Hs I. destruct Hs as [Hne|l1 l2 h q st d Et Eq Hst|h Hh Hp|l1 l2 h Hp Es|Hr].
  - destruct (next_head_pend _ _ I Hne) as (c & p & Ep & Eh).
    eexists. split.
    + split; [by apply (vinv_take v g c p)| |by split|done|done].
      split; try done; [|exists []; by rewrite app_nil_r]. unfold calls. cbn. rewrite Ep. solve_Permutation.
    + apply ef_none; [done..|]. cbn. rewrite Ep. solve_Permutation.
  - rewrite (vi_taken _ _ I) in Et. symmetry in Et. apply map_i0_split in Et as (t1 & c & t2 & Et & -> & -> & ->).
    assert (c ∈ calls g) as Hc by (unfold calls; rewrite Et; set_solver).
    rewrite (request_formatted _ _ (si_fmt _ _ _ (vi_static _ _ I) c Hc)) in Eq. injection Eq as <-.
    pose proof (served_fields c (map c_i0 t1) (map c_i0 t2) st d v) as F. cbv zeta in F.
    destruct F as (_ & _ & _ & _ & F5 & _ & _ & _ & _ & F10 & F11).
    eexists. split; [split; [by apply (vinv_serve v g t1 c t2 st d)| |apply served_kept| |]|].
    + split; try done; [|exists []; by rewrite app_nil_r]. unfold calls. cbn. rewrite Et. solve_Permutation.
    + unfold irq_ok. change (upd_info _ _ _) with (served c (map c_i0 t1) (map c_i0 t2) st d v). by rewrite F10, F11.
    + intros c' Hc'. change (upd_info _ _ _) with (served c (map c_i0 t1) (map c_i0 t2) st d v).
      rewrite F5, list_lookup_alter_ne; [done|]. apply not_eq_sym.
      eapply (i0_distinct v (g_resv g) (g_pend g ++ t1) c (t2 ++ g_served g ++ g_fin g ++ g_done g)); [|set_solver].
      eapply sinv_perm; [reflexivity| |apply (vi_static _ _ I)]. unfold calls. rewrite Et. solve_Permutation.
    + apply served_effect; [rewrite Et; set_solver|cbn; set_solver|done|by apply (si_fmt _ _ _ (vi_static _ _ I))].
  - exists g. split; [|by apply ef_none]. split; [by apply vinv_push|apply moved_refl| |done|done].
    split; try done. split; [done|]. apply length_insert.
  - rewrite (vi_served _ _ I) in Es. symmetry in Es. apply map_i0_split in Es as (t1 & c & t2 & Es & -> & -> & ->).
    eexists. split; [split; [by apply (vinv_publish v g t1 c t2)| |by split|by right; left|done]|by apply ef_none].
    split; try done; [|by exists [c]]. unfold calls. cbn. rewrite Es. solve_Permutation.
  - exists g. split; [|by apply ef_none]. split; [|apply moved_refl|by split| |done].
    + destruct I as [S A T V P U St' O B Dn]. split; try done.
      apply (kept_sinv (map c_b (calls g)) v); [by split|intros c Hc; apply list_elem_of_fmap; eauto|done].
    + intros _. right. right. change (Z.testbit (Z.lor (dv_isr (v_dev v)) 1) 0 = true).
      by rewrite Z.lor_spec, orb_true_r.
Qed.

Lemma istep_followed own v v' g :
  istep own v v' -> vinv v g -> (forall c, c ∈ calls g -> c_b c ∈ own) -> exists g', followed own v g v' g'.
Proof.
  intros [Hs|Hs] I Ho; [destruct (dstep_followed own v v' g Hs I) as (g' & F & _); by exists g'|].
  destruct (vinv_client _ _ _ _ Hs I Ho) as [I' K]. exists g. destruct Hs as (bs & -> & _).
  by split; [|apply moved_refl|..].
Qed.

(** * Code among the steps of its environment *)

(** [c] started in [v]: whatever the environment does before each access, at the
    start and at the end, [J] holds all the time, the code ends with [Q] or
    panics with [E]. *)
Section robust.
Context (own : list nat) (J : vdisk -> Prop) (E : string -> vdisk -> Prop).

Fixpoint robust {A} (c : code A) (Q : A -> vdisk -> Prop) (v : vdisk) : Prop :=
  match c with
  | CRet a => forall v', rtc (istep own) v v' -> J v' /\ Q a v'
  | CPanic msg => forall v', rtc (istep own) v v' -> J v' /\ E msg v'
  | CAct f k => forall v', rtc (istep own) v v' -> J v' /\ robust (k v') Q (f v')
  end.

(** An assertion that the environment does not invalidate. *)
Definition stable (P : vdisk -> Prop) : Prop := forall v v', istep own v v' -> P v -> P v'.

Lemma stable_rtc P v v' : stable P -> rtc (istep own) v v' -> P v -> P v'.
Proof. intros HP H. induction H as [|x y z Hs _ IH]; [done|]. intros Hx. apply IH. by eapply HP. Qed.

Lemma robust_steps {A} (c : code A) Q v v' : rtc (istep own) v v' -> robust c Q v -> robust c Q v'.
Proof. intros H. destruct c; cbn; intros Hc v'' H'; apply Hc; by etransitivity. Qed.

Lemma robust_now {A} (c : code A) Q v : robust c Q v -> J v.
Proof. destruct c; cbn; intros H; by apply (H v). Qed.

Lemma robust_bind {A B} (c : code A) (g : A -> code B) Q v :
  robust c (fun a => robust (g a) Q) v -> robust (cbind c g) Q v.
Proof.
  revert v. induction c as [a|msg|f k IH]; intros v; cbn; intros H.
  - by apply (H v).
  - done.
  - intros v' Hv. destruct (H v' Hv) as [HJ Hk]. split; [done|]. by apply IH.
Qed.

Lemma robust_mono {A} (c : code A) (Q Q' : A -> vdisk -> Prop) v :
  (forall a v, Q a v -> Q' a v) -> robust c Q v -> robust c Q' v.
Proof.
  intros HQ. revert v. induction c as [a|msg|f k IH]; intros v; cbn; intros H v' Hv; destruct (H v' Hv); auto.
Qed.

Section rules.
Context (P : vdisk -> Prop) (HP : stable P) (HJ : forall v, P v -> J v).

Lemma robust_ret {A} (a : A) (Q : A -> vdisk -> Prop) v : P v -> (forall v, P v -> Q a v) -> robust (CRet a) Q v.
Proof. intros Hv HQ v' Hv'. pose proof (stable_rtc P v v' HP Hv' Hv). auto. Qed.

Lemma robust_panic {A} msg (Q : A -> vdisk -> Prop) v : P v -> (forall v, P v -> E msg v) -> robust (CPanic msg) Q v.
Proof. intros Hv HQ v' Hv'. pose proof (stable_rtc P v v' HP Hv' Hv). auto. Qed.

Lemma robust_load {A X} (r : vdisk -> X) (k : X -> code A) Q v :
  P v -> (forall v, P v -> robust (k (r v)) Q v) -> robust (x <~ load r ; k x) Q v.
Proof. intros Hv Hk v' Hv'. pose proof (stable_rtc P v v' HP Hv' Hv). cbn. auto. Qed.

Lemma robust_store {A} f (k : code A) Q v :
  P v -> (forall v, P v -> robust k Q (f v)) -> robust (store f ~> k) Q v.
Proof. intros Hv Hk v' Hv'. pose proof (stable_rtc P v v' HP Hv' Hv). cbn. auto. Qed.
End rules.

(** Without any step of the environment. *)
Lemma robust_run {A} (c : code A) Q v :
  robust c Q v -> match run c v with inr (a, v') => Q a v' | inl msg => exists v', E msg v' end.
Proof.
  revert v. induction c as [a|msg|f k IH]; intros v; cbn; intros H.
  - by apply (H v).
  - exists v. by apply (H v).
  - apply IH. by apply (H v).
Qed.
End robust.

(** * The driver at work *)

(** The calls in progress are [cs]; the code that holds vdisk_lock has the
    descriptors [rs] for itself. *)
Definition held (cs : list call) (rs : list nat) (v : vdisk) : Prop :=
  exists g, vinv v g /\ g_resv g ≡ₚ rs /\ g_ux g = v_used_idx v /\ calls g ≡ₚ cs /\ irq_ok g v.

Section work.
Context (cs : list call) (own : list nat) (Hown : forall c, c ∈ cs -> c_b c ∈ own).

(** The same with the driver's side of the memory as in [u]. *)
Definition at_ (rs : list nat) (u v : vdisk) : Prop := held cs rs v /\ kept own u v.

Lemma at_stable rs u : stable own (at_ rs u).
Proof.
  intros v v' Hs ((g & I & Er & Ex & Ec & Hi) & K).
  destruct (istep_followed own v v' g Hs I) as (g' & [I' [M1 M2 M3 M4 M5] K' Hi' _]).
  { intros c. rewrite Ec. apply Hown. }
  split; [|by etransitivity]. exists g'. split_and!; [done|by rewrite M3| |by rewrite M1|auto].
  by rewrite M4, (k_used _ _ _ K').
Qed.

(** Stores that no call in progress sees. *)
Inductive priv (rs : list nat) : (vdisk -> vdisk) -> Prop :=
| pv_desc i f : i ∈ rs -> priv rs (upd_desc i f)
| pv_op i f : i ∈ rs -> priv rs (upd_op i f)
| pv_status i x : i ∈ rs -> priv rs (upd_info i (set_i_status x))
| pv_b i x : i ∈ rs -> priv rs (upd_info i (set_i_b x))
| pv_disk b x : b ∉ map c_b cs -> priv rs (upd_b b (set_b_disk x))
| pv_ring z : priv rs (fun v =>
    set_avail_ring (<[Z.to_nat (v_avail_idx v mod Z.of_nat NUM) := z]> (v_avail_ring v)) v).

Lemma priv_kept rs f u v : priv rs f -> kept own u v -> kept own (f u) (f v).
Proof.
  intros Hf [K1 K2 [K3 K3'] K4 K5 K6 [K7 K7'] K8].
  destruct Hf as [i f Hi|i f Hi|i x Hi|i x Hi|b x Hb|z]; split; cbn; rewrite ?K1, ?K2, ?K3, ?K3'; try done.
  - by rewrite !(fmap_alter_same i_b).
  - assert (forall l : list vinfo, i_b <$> alter (set_i_b x) i l = alter (fun _ => x) i (i_b <$> l)) as H.
    { intros l. apply list_eq. intros j. rewrite list_lookup_fmap, !list_lookup_alter, !list_lookup_fmap.
      case_decide; [|done]. subst j. by destruct (l !! i). }
    by rewrite !H, K6.
  - by rewrite !length_alter.
  - intros b' Hb'. rewrite !bufs_alter_at, K7. case_decide; [|by apply K8].
    exact (f_equal (set_b_disk x) (K8 b' Hb')).
Qed.

Lemma priv_held rs f v : priv rs f -> held cs rs v -> held cs rs (f v).
Proof.
  intros Hf (g & I & Er & Ex & Ec & Hi). pose proof (vi_static _ _ I) as S.
  assert (forall i c j, i ∈ rs -> c ∈ calls g -> j ∈ c_idx c -> j <> i) as Hne.
  { intros i c j H. rewrite <- Er in H. by apply (sinv_resv_ne _ _ _ _ _ _ S). }
  pose proof (si_len _ _ _ S) as L. unfold sized in L.
  assert (forall v', v_dev v' = v_dev v -> v_avail_idx v' = v_avail_idx v -> v_used_idx v' = v_used_idx v ->
    ring_has (v_avail_ring v') (dv_seen (v_dev v)) (g_pend g) ->
    v_used_ring v' = v_used_ring v -> v_used_idx_dev v' = v_used_idx_dev v ->
    sized v' -> v_free v' = v_free v -> length (v_bufs v') = length (v_bufs v) ->
    (forall c, c ∈ calls g -> (forall i, i ∈ c_idx c -> v_desc v' !! i = v_desc v !! i) /\
       v_ops v' !! c_i0 c = v_ops v !! c_i0 c /\ v_info v' !! c_i0 c = v_info v !! c_i0 c /\
       v_bufs v' !!! c_b c = v_bufs v !!! c_b c) -> held cs rs v') as Main.
  { intros v' E1 E2 E3 E4 E5 E6 E7 E8 E9 Hc. exists (with_resv (g_resv g) g).
    split; [|split_and!; [done|by rewrite E3|done|unfold irq_ok; by rewrite E1]].
    apply (vinv_private v); try done.
    - apply (sinv_frame v); [done..|]. intros c H. destruct (Hc c H) as (D1 & D2 & D3 & D4).
      apply (formatted_frame v); [by apply (si_fmt _ _ _ S)|done|done|by rewrite D3|done|by rewrite D4].
    - intros c H. apply (Hc c H).
    - intros c H. destruct (Hc c H) as (_ & _ & _ & ->). done. }
  pose proof (vi_avail _ _ I) as (Ar & Ax & Ai).
  destruct Hf as [i f Hi'|i f Hi'|i x Hi'|i x Hi'|b x Hb|z]; apply Main; try done;
    try (unfold sized; cbn; rewrite ?length_alter, ?length_insert; done); cbn; try (intros c Hc; split_and!; try done).
  - intros j Hj. rewrite list_lookup_alter_ne; [done|]. by apply not_eq_sym, (Hne i c).
  - rewrite list_lookup_alter_ne; [done|]. by apply not_eq_sym, (Hne i c), i0_in.
  - rewrite list_lookup_alter_ne; [done|]. by apply not_eq_sym, (Hne i c), i0_in.
  - rewrite list_lookup_alter_ne; [done|]. by apply not_eq_sym, (Hne i c), i0_in.
  - rewrite list_lookup_total_alter_ne; [done|]. intros ->. apply Hb. rewrite <- Ec. apply list_elem_of_fmap. eauto.
  - rewrite Ai. apply ring_beyond; [|done]. pose proof (vinv_few _ _ I) as Hf. rewrite calls_length in Hf. unfold NUM. lia.
Qed.

Lemma priv_at rs f u v : priv rs f -> at_ rs u v -> at_ rs (f u) (f v).
Proof. intros Hf [Hh K]. split; [by apply priv_held|by apply (priv_kept rs)]. Qed.

(** The free map. *)
Lemma held_free rs i v : held cs rs v -> i ∈ rs -> (i < NUM)%nat /\ v_free v !! i = Some false.
Proof. intros (g & I & Er & _) Hi. rewrite <- Er in Hi. by apply (sinv_resv _ _ _ _ (vi_static _ _ I)). Qed.

Lemma set_free_held rs rs' i x v :
  (forall g, g_resv g ≡ₚ rs -> sinv v (g_resv g) (calls g) -> sinv (set_free i x v) rs' (calls g)) ->
  held cs rs v -> held cs rs' (set_free i x v).
Proof.
  intros HS (g & I & Er & Ex & Ec & Hi). exists (with_resv rs' g). split; [|by split_and!].
  apply (vinv_private v); try done; [|apply (vi_avail _ _ I)]. apply HS; [done|apply I].
Qed.

Lemma alloc_at rs i u v : at_ rs u v -> v_free v !! i = Some true -> at_ (i :: rs) (set_free i false u) (set_free i false v).
Proof.
  intros [Hh K] Hf. split.
  - apply (set_free_held rs); [|done]. intros g Er S. apply sinv_alloc; [|done]. by eapply sinv_perm.
  - destruct K as [K1 K2 K3 K4 K5 K6 K7 K8]. split; try done. cbn. by rewrite K4.
Qed.

Lemma release_at rs i u v : at_ (i :: rs) u v -> at_ rs (set_free i true u) (set_free i true v).
Proof.
  intros [Hh K]. split.
  - apply (set_free_held (i :: rs)); [|done]. intros g Er S. apply sinv_release. by eapply sinv_perm.
  - destruct K as [K1 K2 K3 K4 K5 K6 K7 K8]. split; try done. cbn. by rewrite K4.
Qed.

Lemma at_perm rs rs' u v : rs ≡ₚ rs' -> at_ rs u v -> at_ rs' u v.
Proof. intros Ep ((g & I & Er & H) & K). split; [|done]. exists g. split; [done|]. by rewrite <- Ep. Qed.
End work.

(** ** Descriptors *)

Section descriptors.
Context (cs : list call) (own : list nat) (Hown : forall c, c ∈ cs -> c_b c ∈ own).
Context (J : vdisk -> Prop) (E : string -> vdisk -> Prop) (HJ : forall rs v, held cs rs v -> J v).

Abbreviation at_w := (at_ cs own).
Abbreviation runs := (robust own J E).

#[local] Lemma at_J rs u v : at_w rs u v -> J v.
Proof. intros [H _]. by apply (HJ rs). Qed.

#[local] Hint Resolve at_stable at_J : core.

Lemma at_ret {A} rs u (a : A) (Q : A -> vdisk -> Prop) v :
  at_w rs u v -> (forall v', at_w rs u v' -> Q a v') -> runs (CRet a) Q v.
Proof. intros Hv HQ. apply (robust_ret own J E (at_w rs u)); eauto. Qed.

Lemma at_load {A X} rs u (r : vdisk -> X) (k : X -> code A) Q v :
  at_w rs u v -> (forall v', at_w rs u v' -> runs (k (r v')) Q v') -> runs (x <~ load r ; k x) Q v.
Proof. intros Hv HQ. apply (robust_load own J E (at_w rs u)); eauto. Qed.

Lemma at_store {A} rs u f (k : code A) Q v :
  at_w rs u v -> priv cs rs f -> (forall v', at_w rs (f u) v' -> runs k Q v') -> runs (store f ~> k) Q v.
Proof.
  intros Hv Hf HQ. apply (robust_store own J E (at_w rs u)); eauto.
  intros v' Hv'. apply HQ. by apply priv_at.
Qed.

(** What the driver's side has. *)
Lemma at_sized rs u v : at_w rs u v -> sized u.
Proof.
  intros [(g & I & _) K]. destruct (si_len _ _ _ (vi_static _ _ I)) as (L1 & L2 & L3 & L4 & L5 & L6).
  destruct K as [K1 K2 [K3 _] K4 K5 K6 [_ K7] K8]. unfold sized. rewrite <- K1, <- K2, <- K3, <- K4, <- K7.
  apply (f_equal length) in K6. rewrite !length_fmap in K6. by rewrite <- K6.
Qed.

Lemma alloc_scan_robust rs u n : forall i Q v, (i + n = NUM)%nat -> at_w rs u v ->
  (forall v', at_w rs u v' -> (forall j, (i <= j < NUM)%nat -> v_free u !! j = Some false) -> Q None v') ->
  (forall j v', v_free u !! j = Some true -> at_w (j :: rs) (set_free j false u) v' -> Q (Some j) v') ->
  runs (alloc_scan n i) Q v.
Proof.
  induction n as [|n IH]; intros i Q v Hn Hv HN HS; cbn [alloc_scan].
  { apply (at_ret rs u); [done|]. intros v' Hv'. apply HN; [done|]. intros j Hj. lia. }
  assert (exists b, v_free u !! i = Some b) as [b Hb].
  { apply lookup_lt_is_Some_2. destruct (at_sized _ _ _ Hv) as (_ & _ & _ & -> & _). lia. }
  apply (at_load rs u); [done|]. intros v1 H1. assert (v_free v1 = v_free u) as Ef by apply H1.
  rewrite (lookup_total (v_free v1) i b) by (by rewrite Ef). destruct b.
  - apply (robust_store own J E (at_w rs u)); eauto. intros v2 H2.
    apply (at_ret (i :: rs) (set_free i false u)); [|by intros; apply HS].
    apply alloc_at; [done|]. assert (v_free v2 = v_free u) as -> by apply H2. done.
  - apply IH; [lia|done| |done]. intros v' Hv' Ha. apply HN; [done|]. intros j Hj.
    destruct (decide (j = i)) as [->|Hne]; [done|]. apply Ha. lia.
Qed.

Definition cleared (i : nat) (u : vdisk) : vdisk :=
  set_free i true (upd_desc i (set_d_next 0) (upd_desc i (set_d_flags (fun _ => 0))
    (upd_desc i (set_d_len 0) (upd_desc i (set_d_addr A_null) u)))).

Lemma free_desc_robust rs i u (Q : unit -> vdisk -> Prop) v : at_w (i :: rs) u v ->
  (forall v', at_w rs (cleared i u) v' -> Q tt v') -> runs (free_desc i) Q v.
Proof.
  intros Hv HQ. destruct (held_free cs (i :: rs) i v (proj1 Hv)) as [Hi _]; [by left|].
  unfold free_desc. rewrite (proj2 (Nat.leb_gt _ _)) by done.
  apply (at_load (i :: rs) u); [done|]. intros v1 H1.
  destruct (held_free cs (i :: rs) i v1 (proj1 H1)) as [_ Hf]; [by left|]. rewrite (lookup_total _ _ _ Hf).
  do 4 (eapply at_store; [eassumption|by constructor; left|]; clear dependent v1; intros v1 H1).
  change (store (set_free i true)) with (store (set_free i true) ~> CRet tt).
  eapply (robust_store own J E); [..|exact H1|]; [eauto..|]. intros v2 H2.
  apply (at_ret rs (cleared i u)); [|done]. by apply release_at.
Qed.

Lemma no_three rs u v : at_w rs u v -> (forall j, (0 <= j < NUM)%nat -> v_free u !! j = Some false) ->
  (length rs < 3)%nat -> (2 <= length cs)%nat.
Proof.
  intros [(g & I & Er & _ & Ec & _) K] Ha Hl. pose proof (vi_static _ _ I) as S.
  assert (length (seq 0 NUM) <= length (g_resv g ++ idxs (calls g)))%nat as H.
  { apply submseteq_length, NoDup_submseteq; [apply NoDup_seq|]. intros j Hj. apply elem_of_seq in Hj.
    pose proof (si_free _ _ _ S j ltac:(lia)) as Hf. rewrite (k_free _ _ _ K), (Ha j) in Hf by lia.
    injection Hf as Hf. symmetry in Hf. apply bool_decide_eq_false in Hf. by apply dec_stable in Hf. }
  rewrite length_app, length_idxs, length_seq, Er, Ec in H. unfold NUM in H. lia.
Qed.

Lemma alloc3_robust u (Q : option (nat * nat * nat) -> vdisk -> Prop) v : at_w [] u v ->
  (forall u' v', at_w [] u' v' -> (2 <= length cs)%nat -> Q None v') ->
  (forall i0 i1 i2 v', at_w [i0; i1; i2] (set_free i2 false (set_free i1 false (set_free i0 false u))) v' ->
     Q (Some (i0, i1, i2)) v') ->
  runs alloc3_desc Q v.
Proof.
  intros Hv HN HS. unfold alloc3_desc, alloc_desc.
  apply robust_bind, (alloc_scan_robust [] u); [done|done| |].
  { intros v1 H1 Ha. apply (at_ret [] u); [done|]. intros v2 H2. eapply HN; [done|].
    by apply (no_three [] u v1); [..|cbn; lia]. }
  intros i0 v1 F0 H1. apply robust_bind, (alloc_scan_robust [i0] (set_free i0 false u)); [done|done| |].
  { intros v2 H2 Ha. assert (2 <= length cs)%nat by (eapply no_three; [exact H2|exact Ha|cbn; lia]).
    apply robust_bind, (free_desc_robust [] i0 _ _ v2 H2). intros v3 H3.
    eapply at_ret; [exact H3|]. intros v4 H4. by eapply HN. }
  intros i1 v2 F1 H2. apply robust_bind, (alloc_scan_robust [i1; i0] (set_free i1 false (set_free i0 false u))); [done|done| |].
  { intros v3 H3 Ha. assert (2 <= length cs)%nat by (eapply no_three; [exact H3|exact Ha|cbn; lia]).
    apply robust_bind, (free_desc_robust [i1] i0 (set_free i1 false (set_free i0 false u))).
    { eapply at_perm; [|exact H3]. apply Permutation_swap. }
    intros v4 H4. apply robust_bind, (free_desc_robust [] i1 _ _ v4 H4). intros v5 H5.
    eapply at_ret; [exact H5|]. intros v6 H6. by eapply HN. }
  intros i2 v3 F2 H3. eapply at_ret; [exact H3|]. intros v4 H4. apply HS.
  eapply at_perm; [|exact H4]. solve_Permutation.
Qed.

Lemma stores_robust rs fs : forall u (Q : unit -> vdisk -> Prop) v,
  Forall (priv cs rs) fs -> at_w rs u v ->
  (forall v', at_w rs (foldl (fun w f => f w) u fs) v' -> Q tt v') -> runs (stores fs) Q v.
Proof.
  induction fs as [|f fs IH]; intros u Q v Hf Hv HQ; cbn [stores foldr].
  - by apply (at_ret rs u).
  - apply Forall_cons_1 in Hf as [Hf Hfs]. eapply at_store; [done..|]. intros v' Hv'. by eapply IH.
Qed.
End descriptors.

(** ** Submitting a request *)

(** The store into avail->idx makes the request one of the calls. *)
Lemma publish_held cs v c :
  held cs (c_idx c) v -> formatted v c -> c_b c ∉ map c_b cs -> b_disk (v_bufs v !!! c_b c) = 1 ->
  nth (Z.to_nat (v_avail_idx v mod Z.of_nat NUM)) (v_avail_ring v) 0 = Z.of_nat (c_i0 c) ->
  held (cs ++ [c]) [] (set_avail_idx (u16 (v_avail_idx v + 1)) v).
Proof.
  intros (g & I & Er & Ex & Ec & Hi) Hf Hb Hd Hr. destruct I as [S (Ar & Ax & Ai) T V P U St' O B Dn].
  exists (mk_ghost (g_pend g ++ [c]) (g_taken g) (g_served g) (g_fin g) (g_done g) [] (g_ux g)).
  assert (calls (mk_ghost (g_pend g ++ [c]) (g_taken g) (g_served g) (g_fin g) (g_done g) [] (g_ux g)) ≡ₚ c :: calls g)
    as Ep by (unfold calls; cbn; solve_Permutation).
  split_and!; [|done|done|rewrite Ep, Ec; solve_Permutation|done]. split; cbn; try done.
  - eapply sinv_perm; [reflexivity|symmetry; exact Ep|]. apply sinv_enlist.
    + rewrite app_nil_r. apply (sinv_perm v _ (c_idx c) _ (calls g)) in S; [|done..].
      apply (sinv_frame v); [done|apply S|done|]. intros c' Hc'. by destruct (si_fmt _ _ _ S c' Hc').
    + by destruct Hf.
    + intros H. apply Hb. by rewrite <- Ec.
  - rewrite length_app, Ai. split_and!; [|lia..|apply u16_snoc]. apply ring_snoc; [|done]. by rewrite <- Ai.
  - intros c' Hc'. destruct (decide (c' = c)) as [->|Hne]; [done|]. apply B. set_solver.
Qed.

Section submit.
Context (cs : list call) (b : nat) (w : bool) (Hb : b ∉ map c_b cs).
Context (J : vdisk -> Prop) (E : string -> vdisk -> Prop).
Context (HJ : forall rs v, held cs rs v -> J v).
Context (HJ' : forall i0 i1 i2 v, held (cs ++ [mk_call b w i0 i1 i2]) [] v -> J v).

#[local] Lemma own_submit c : c ∈ cs -> c_b c ∈ b :: map c_b cs.
Proof. intros H. right. apply list_elem_of_fmap. eauto. Qed.

(** After the stores the queue describes the request. *)
Lemma stores_formatted sector i0 i1 i2 u u' :
  sized u -> i0 <> i1 -> i0 <> i2 -> i1 <> i2 -> (i0 < NUM)%nat -> (i1 < NUM)%nat -> (i2 < NUM)%nat ->
  (b < length (v_bufs u))%nat ->
  sector = u32 (b_blockno (v_bufs u !!! b) * (BSIZE / 512)) ->
  u' = foldl (fun w f => f w) u (rw_stores b w sector i0 i1 i2) ->
  formatted u' (mk_call b w i0 i1 i2) /\ b_disk (v_bufs u' !!! b) = 1 /\
  nth (Z.to_nat (v_avail_idx u' mod Z.of_nat NUM)) (v_avail_ring u') 0 = Z.of_nat i0.
Proof.
  intros (L1 & L2 & L3 & L4 & L5 & L6) N01 N02 N12 B0 B1 B2 Hl -> ->.
  assert (forall i, (i < NUM)%nat -> exists d, v_desc u !! i = Some d) as HD
    by (intros i Hi; apply lookup_lt_is_Some_2; lia).
  destruct (HD i0 B0) as [d0 D0], (HD i1 B1) as [d1 D1], (HD i2 B2) as [d2 D2].
  destruct (lookup_lt_is_Some_2 (v_info u) i0) as [x Ex]; [lia|].
  destruct (lookup_lt_is_Some_2 (v_ops u) i0) as [o Eo]; [lia|].
  split_and!; [split|..]; cbn;
    repeat first [rewrite list_lookup_alter_eq | rewrite list_lookup_alter_ne by done]; rewrite ?D0, ?D1, ?D2, ?Ex, ?Eo.
  - done.
  - done.
  - done.
  - unfold c_cmd. cbn. do 2 f_equal. by rewrite bufs_total_alter, decide_True.
  - cbn. eauto.
  - by rewrite length_alter.
  - by rewrite bufs_total_alter, decide_True.
  - rewrite nth_lookup, list_lookup_insert_eq; [done|]. rewrite L2. unfold NUM. zdm.
Qed.

Definition submit_post (r : option (nat * nat * nat)) (v : vdisk) : Prop :=
  match r with
  | None => held cs [] v /\ (2 <= length cs)%nat
  | Some (i0, i1, i2) => held (cs ++ [mk_call b w i0 i1 i2]) [] v /\ b_disk (v_bufs v !!! b) = 1
  end.

Abbreviation own := (b :: map c_b cs).

Lemma publish_robust i0 i1 i2 u v :
  at_ cs own [i0; i1; i2] u v -> formatted u (mk_call b w i0 i1 i2) -> b_disk (v_bufs u !!! b) = 1 ->
  nth (Z.to_nat (v_avail_idx u mod Z.of_nat NUM)) (v_avail_ring u) 0 = Z.of_nat i0 ->
  robust own J E (store (fun v => set_avail_idx (u16 (v_avail_idx v + 1)) v) ~> CRet (Some (i0, i1, i2))) submit_post v.
Proof.
  intros H2 F Fd Fr. pose proof own_submit as Ho. set (c := mk_call b w i0 i1 i2).
  apply (robust_store _ J E (at_ cs own [i0; i1; i2] u)); [by apply at_stable|by intros ? [? _]; eauto|done|].
  intros v3 [H3 K3].
  apply (robust_ret _ J E (fun v => held (cs ++ [c]) [] v /\ b_disk (v_bufs v !!! b) = 1)).
  - intros x y Hs [Hx Hd].
    assert (at_ (cs ++ [c]) own [] x x) as Hx' by (by split).
    eapply (at_stable (cs ++ [c]) own) in Hx' as [Hy Ky]; [| |exact Hs].
    + split; [done|]. rewrite (kept_disk _ x y b Ky); [done|by left].
    + intros c' Hc'. apply elem_of_app in Hc' as [Hc'|Hc']; [by apply Ho|].
      apply list_elem_of_singleton in Hc' as ->. by left.
  - intros x [Hx _]. by eapply HJ'.
  - split.
    + apply publish_held; [done| |done|..].
      * eapply kept_formatted; [exact K3|by left|done].
      * cbn. rewrite (kept_disk _ u v3 b K3); [done|by left].
      * destruct K3 as [_ _ [-> ->] _ _ _ _ _]. done.
    + change (b_disk (v_bufs v3 !!! b) = 1). rewrite (kept_disk _ u v3 b K3); [done|by left].
  - done.
Qed.

Lemma stores_priv i0 i1 i2 sector : Forall (priv cs [i0; i1; i2]) (rw_stores b w sector i0 i1 i2).
Proof.
  assert (i0 ∈ [i0; i1; i2] /\ i1 ∈ [i0; i1; i2] /\ i2 ∈ [i0; i1; i2]) as (H0 & H1 & H2) by set_solver.
  unfold rw_stores. repeat apply Forall_cons_2; [..|apply Forall_nil_2];
    first [by apply pv_op|by apply pv_desc|by apply pv_status|by apply pv_b|by apply pv_disk|apply pv_ring].
Qed.

Lemma format_robust i0 i1 i2 u v sector :
  at_ cs own [i0; i1; i2] u v -> (b < length (v_bufs u))%nat ->
  sector = u32 (b_blockno (v_bufs u !!! b) * (BSIZE / 512)) ->
  robust own J E (stores (rw_stores b w sector i0 i1 i2) ~>
    store (fun v => set_avail_idx (u16 (v_avail_idx v + 1)) v) ~> CRet (Some (i0, i1, i2))) submit_post v.
Proof.
  intros H1 Hl Es. pose proof own_submit as Ho. set (c := mk_call b w i0 i1 i2).
  assert (NoDup (c_idx c) /\ forall i, i ∈ c_idx c -> (i < NUM)%nat) as [Hn Hr].
  { destruct H1 as [(g & I & Er & _) _]. pose proof (vi_static _ _ I) as S. split.
    - change (c_idx c) with [i0; i1; i2]. rewrite <- Er. pose proof (si_nodup _ _ _ S) as Hn.
      by apply list.NoDup_app in Hn as (Hn & _).
    - intros i Hi. apply (si_range _ _ _ S). rewrite Er. set_solver. }
  unfold c_idx in Hn, Hr. cbn in Hn, Hr. rewrite !list.NoDup_cons in Hn.
  destruct (stores_formatted sector i0 i1 i2 u (foldl (fun w f => f w) u (rw_stores b w sector i0 i1 i2))) as (F & Fd & Fr);
    [by eapply at_sized|set_solver..|by apply Hr; set_solver|by apply Hr; set_solver|by apply Hr; set_solver|done|done|done|].
  apply robust_bind, (stores_robust cs _ Ho J E HJ [i0; i1; i2] _ u); [apply stores_priv|exact H1|].
  intros v2 H2. exact (publish_robust i0 i1 i2 _ v2 H2 F Fd Fr).
Qed.

Lemma submit_robust v :
  held cs [] v -> (b < length (v_bufs v))%nat -> robust own J E (rw_submit b w) submit_post v.
Proof.
  intros Hv Hl. pose proof own_submit as Ho. unfold rw_submit.
  assert (at_ cs own [] v v) as Ha by (by split).
  apply (at_load cs _ Ho J E HJ [] v); [done|]. intros v0 H0.
  apply robust_bind, (alloc3_robust cs _ Ho J E HJ v); [done| |].
  { intros u' v1 H1 H2. apply (at_ret cs _ Ho J E HJ [] u'); [done|]. intros v2 [H3 _]. done. }
  intros i0 i1 i2 v1 H1. eapply format_robust; [exact H1|done|].
  by rewrite (kept_blockno _ v v0 b (proj2 H0)) by (by left).
Qed.
End submit.

(** ** After the wait *)

(** A call whose buffer the disk no longer owns gets its descriptors back. *)
Lemma retire_held v c cs cs' :
  held cs [] v -> cs ≡ₚ c :: cs' -> b_disk (v_bufs v !!! c_b c) <> 1 -> held cs' (c_idx c) v /\ formatted v c.
Proof.
  intros (g & I & Er & Ex & Ec & Hi) Ep Hd.
  assert (c ∈ g_done g) as Hc.
  { assert (c ∈ calls g) as Hc by (rewrite Ec, Ep; by left). unfold calls in Hc. rewrite !app_assoc in Hc.
    apply elem_of_app in Hc as [Hc|Hc]; [|done]. exfalso. apply Hd. apply (vi_busy _ _ I). by rewrite !app_assoc. }
  apply list_elem_of_split in Hc as (d1 & d2 & Ed).
  set (g' := mk_ghost (g_pend g) (g_taken g) (g_served g) (g_fin g) (d1 ++ d2) (c_idx c) (g_ux g)).
  assert (calls g ≡ₚ c :: calls g') as Eg by (unfold calls; rewrite Ed; cbn; solve_Permutation).
  destruct I as [S A T V P U St' O B Dn]. split; [|apply (si_fmt _ _ _ S); rewrite Eg; by left].
  exists g'. split_and!; [|done|done| |done].
  - split; cbn; try done; [|intros c' Hc'; apply O; rewrite Ed; set_solver|intros c' Hc'; apply Dn; rewrite Ed; set_solver].
    rewrite <- (app_nil_r (c_idx c)). apply sinv_retire. by eapply sinv_perm.
  - apply (Permutation_cons_inv (a := c)). by rewrite <- Eg, Ec.
Qed.

Section finish.
Context (cs : list call) (c : call).
Context (J : vdisk -> Prop) (E : string -> vdisk -> Prop) (HJ : forall rs v, held cs rs v -> J v).

#[local] Lemma own_calls c' : c' ∈ cs -> c_b c' ∈ map c_b cs.
Proof. intros H. apply list_elem_of_fmap. eauto. Qed.

Abbreviation at_f := (at_ cs (map c_b cs)).

(** One link of the chain. *)
Lemma chain_robust rs i u d n (Q : unit -> vdisk -> Prop) v :
  at_f (i :: rs) u v -> v_desc u !! i = Some d ->
  (forall v', at_f rs (cleared i u) v' -> robust (map c_b cs) J E
     (if Z.land (d_flags d) VRING_DESC_F_NEXT =? 0 then CRet tt
      else match n with O => CPanic "free_chain: cycle" | S n' => free_chain n' (Z.to_nat (d_next d)) end) Q v') ->
  robust (map c_b cs) J E (free_chain n i) Q v.
Proof.
  intros Hv Hd HQ. pose proof own_calls as Ho.
  assert (forall v', at_f (i :: rs) u v' -> v_desc v' !!! i = d) as Hd'.
  { intros v' [_ K]. rewrite (k_desc _ _ _ K). by apply lookup_total. }
  destruct n; cbn [free_chain];
    (apply (at_load cs _ Ho J E HJ (i :: rs) u); [done|]; intros v1 H1; rewrite (Hd' v1 H1);
     apply (at_load cs _ Ho J E HJ (i :: rs) u); [done|]; intros v2 H2; rewrite ?(Hd' v2 H2);
     apply robust_bind, (free_desc_robust cs _ Ho J E HJ rs i u); [done|exact HQ]).
Qed.

Lemma desc_cleared i j u : i <> j -> v_desc (cleared i u) !! j = v_desc u !! j.
Proof. intros H. cbn. by rewrite !list_lookup_alter_ne. Qed.

Lemma finish_robust v : held cs (c_idx c) v -> formatted v c ->
  robust (map c_b cs) J E (rw_finish (c_i0 c)) (fun _ => held cs []) v.
Proof.
  intros Hv F. pose proof own_calls as Ho. unfold rw_finish.
  assert (c_i0 c <> c_i1 c /\ c_i0 c <> c_i2 c /\ c_i1 c <> c_i2 c) as (N01 & N02 & N12).
  { destruct Hv as (g & I & Er & _). pose proof (si_nodup _ _ _ (vi_static _ _ I)) as Hn.
    apply list.NoDup_app in Hn as (Hn & _). rewrite Er in Hn. unfold c_idx in Hn.
    rewrite !list.NoDup_cons in Hn. set_solver. }
  destruct F as [F0 F1 F2 _ _ _]. eapply (at_store cs _ Ho J E HJ (c_idx c) v); [by split|by apply pv_b; left|].
  set (u := upd_info _ _ v). intros v1 H1. change NUM with (S (S (S 5))).
  eapply (chain_robust [c_i1 c; c_i2 c] _ u); [exact H1|exact F0|]. intros v2 H2. cbn [d_flags d_next].
  change (Z.land VRING_DESC_F_NEXT VRING_DESC_F_NEXT =? 0) with false. cbv iota. rewrite Nat2Z.id.
  eapply (chain_robust [c_i2 c]); [exact H2|by rewrite desc_cleared|]. intros v3 H3. cbn [d_flags d_next].
  replace (Z.land _ VRING_DESC_F_NEXT =? 0) with false by (by destruct (c_write c)). rewrite Nat2Z.id.
  eapply (chain_robust []); [exact H3|by rewrite !desc_cleared by done|]. intros v4 H4.
  eapply (at_ret cs _ Ho J E HJ []); [exact H4|]. by intros v' [Hh _].
Qed.
End finish.

(** ** The interrupt handler *)

(** The only panic that is left: the device has reported an error. *)
Definition disk_error (cs : list call) (msg : string) (v : vdisk) : Prop :=
  msg = "virtio_disk_intr status"%string /\
  exists c st, c ∈ cs /\ v_info v !! c_i0 c = Some (mk_info (Some (c_b c)) st) /\ st <> 0 /\ St st.

Section interrupt.
Context (cs : list call) (fin0 : list call).
Context (J : vdisk -> Prop) (HJ : forall v g, vinv v g -> calls g ≡ₚ cs -> J v).

(** The handler has at most [n] entries left; those of [fin0], which it found at
    its start, are in the ring or done. *)
Definition at_i (n : nat) (P : ghost -> vdisk -> Prop) (v : vdisk) : Prop :=
  exists g, vinv v g /\ g_resv g ≡ₚ [] /\ calls g ≡ₚ cs /\ (forall c, c ∈ fin0 -> c ∈ g_fin g ++ g_done g) /\
    (length cs <= length (g_done g) + n)%nat /\ P g v.

Abbreviation iown := (map c_b cs).
Abbreviation irobust := (robust iown J (disk_error cs)).

Lemma at_i_stable n (P : ghost -> vdisk -> Prop) :
  (forall v g v' g', followed iown v g v' g' -> P g v -> P g' v') -> stable iown (at_i n P).
Proof.
  intros HP v v' Hs (g & I & Er & Ec & H0 & Hn & Hg).
  destruct (istep_followed iown v v' g Hs I) as (g' & F).
  { intros c Hc. apply list_elem_of_fmap. exists c. by rewrite <- Ec. }
  pose proof F as [I' [M1 M2 M3 M4 [l M5]] _ _ _]. exists g'.
  split_and!; [done|by rewrite M3|by rewrite M1| |by rewrite M2|by eapply HP].
  intros c Hc. rewrite M2, M5. apply H0 in Hc. set_solver.
Qed.

Lemma at_i_J n P v : at_i n P v -> J v.
Proof. intros (g & I & _ & Ec & _). by apply (HJ v g). Qed.

(** The assertions inside the loop. *)
Definition here (g : ghost) (v : vdisk) : Prop := g_ux g = v_used_idx v.
Definition head (c : call) (g : ghost) (v : vdisk) : Prop :=
  g_ux g = v_used_idx v /\ exists l, g_fin g = c :: l.
Definition head_status (c : call) (st : Z) (g : ghost) (v : vdisk) : Prop :=
  head c g v /\ v_info v !! c_i0 c = Some (mk_info (Some (c_b c)) st) /\ St st.
Definition released (g : ghost) (v : vdisk) : Prop := g_ux g = u16 (v_used_idx v + 1).
Definition handled (g : ghost) (v : vdisk) : Prop :=
  g_ux g = v_used_idx v /\ irq_ok g v /\ forall c, c ∈ fin0 -> c ∈ g_done g.

Lemma here_stable n : stable iown (at_i n here).
Proof.
  apply at_i_stable. intros v g v' g' [_ M K _ _] H. unfold here. by rewrite (mv_ux _ _ M), (k_used _ _ _ K).
Qed.
Lemma released_stable n : stable iown (at_i n released).
Proof.
  apply at_i_stable. intros v g v' g' [_ M K _ _] H. unfold released. by rewrite (mv_ux _ _ M), (k_used _ _ _ K).
Qed.
Lemma handled_stable n : stable iown (at_i n handled).
Proof.
  apply at_i_stable. intros v g v' g' [_ M K Hi _] (H1 & H2 & H3). unfold handled.
  rewrite (mv_ux _ _ M), (k_used _ _ _ K), (mv_done _ _ M). auto.
Qed.
Lemma head_followed c v g v' g' : followed iown v g v' g' -> head c g v -> head c g' v'.
Proof.
  intros [_ M K _ _] [H1 [l H2]]. unfold head. rewrite (mv_ux _ _ M), (k_used _ _ _ K). split; [done|].
  destruct (mv_fin _ _ M) as [l' ->]. rewrite H2. by eexists.
Qed.
Lemma head_stable n c : stable iown (at_i n (head c)).
Proof. apply at_i_stable, head_followed. Qed.
Lemma head_status_stable n c st : stable iown (at_i n (head_status c st)).
Proof.
  apply at_i_stable. intros v g v' g' F (H1 & H2 & H3). split; [by eapply head_followed|].
  rewrite (fo_info _ _ _ _ _ F c) by (destruct H1 as [_ [l ->]]; by left). done.
Qed.

#[local] Hint Resolve at_i_J here_stable released_stable handled_stable head_stable head_status_stable : core.

(** b->disk = 0. *)
Lemma release_buf v g c l :
  vinv v g -> g_fin g = c :: l -> v_info v !! c_i0 c = Some (mk_info (Some (c_b c)) 0) ->
  vinv (upd_b (c_b c) (set_b_disk 0) v)
    (mk_ghost (g_pend g) (g_taken g) (g_served g) l (c :: g_done g) (g_resv g) (u16 (g_ux g + 1))).
Proof.
  intros [S A T V P (Ur & Ux & Ui) St' O B Dn] Ef Hst. unfold calls in S. rewrite Ef in *.
  set (g' := mk_ghost _ _ _ _ _ _ _).
  assert (sinv v (g_resv g) (calls g')) as S1
    by (eapply sinv_perm; [reflexivity| |exact S]; unfold calls, g'; cbn; solve_Permutation).
  pose proof (fm_buf _ _ (si_fmt _ _ _ S c ltac:(set_solver))) as Hb.
  assert (forall c', c' ∈ g_pend g ++ g_taken g ++ g_served g ++ l -> c_b c' <> c_b c) as Hne.
  { intros c' Hc' E. pose proof (si_bufs _ _ _ S1) as Hn. unfold calls, g' in Hn. cbn in Hn.
    rewrite !app_assoc, map_app in Hn. apply list.NoDup_app in Hn as (_ & Hn & _). apply (Hn (c_b c')).
    - apply list_elem_of_fmap. exists c'. split; [done|]. set_solver.
    - cbn. rewrite E. by left. }
  split; cbn; try done.
  - apply (sinv_frame v); [exact S1|apply S1|done|]. intros c' Hc'.
    apply (formatted_frame v); cbn; [by apply (si_fmt _ _ _ S1)|done..|by rewrite length_alter|].
    rewrite bufs_total_alter by done. by case_decide.
  - split_and!; [by apply (ring_pop _ _ c)|apply u16_range..|]. rewrite Ui. cbn [length]. apply u16_step.
  - intros c' Hc'. apply St'. set_solver.
  - intros c' Hc'. apply elem_of_cons in Hc' as [->|Hc']; [done|by apply O].
  - intros c' Hc'. rewrite bufs_total_alter, decide_False by (done || apply Hne; set_solver). apply B. set_solver.
  - intros c' Hc'. rewrite bufs_total_alter by done. case_decide as D; [done|].
    apply elem_of_cons in Hc' as [->|Hc']; [done|by apply Dn].
Qed.

(** One entry. *)
Lemma entry_robust n c v (k : code unit) Q :
  at_i (S n) (head c) v -> (forall v', at_i n here v' -> irobust k Q v') ->
  irobust (id <~ load (fun v => Z.to_nat (nth (Z.to_nat (v_used_idx v mod Z.of_nat NUM)) (v_used_ring v) 0)) ;
    status <~ load (fun v => i_status (v_info v !!! id)) ;
    if negb (status =? 0) then CPanic "virtio_disk_intr status"
    else
      ob <~ load (fun v => i_b (v_info v !!! id)) ;
      match ob with
      | None => CPanic "null buf"
      | Some b =>
          store (upd_b b (set_b_disk 0)) ~>
          store (fun v => set_used_idx (u16 (v_used_idx v + 1)) v) ~> k
      end) Q v.
Proof.
  intros Hv Hk. apply (robust_load iown J _ (at_i (S n) (head c))); [eauto..|]. intros v1 H1.
  assert (Z.to_nat (nth (Z.to_nat (v_used_idx v1 mod Z.of_nat NUM)) (v_used_ring v1) 0) = c_i0 c) as ->.
  { destruct H1 as (g & I & _ & _ & _ & _ & Ex & l & Ef). destruct (vi_used _ _ I) as (Hr & _ & _).
    rewrite Ef in Hr. rewrite <- Ex, (proj1 (ring_pop _ _ _ _ Hr)). apply Nat2Z.id. }
  apply (robust_load iown J _ (at_i (S n) (head c))); [eauto..|]. intros v2 (g & I & Er & Ec & H0 & Hn & Hh).
  assert (c ∈ g_fin g) as Hc by (destruct Hh as [_ [l ->]]; by left).
  destruct (vi_status _ _ I c) as (st & Es & Hst); [set_solver|]. rewrite (lookup_total _ _ _ Es). cbn [i_status].
  assert (at_i (S n) (head_status c st) v2) as H2 by (exists g; by split_and!).
  destruct (decide (st = 0)) as [->|Hz].
  2: { rewrite (proj2 (Z.eqb_neq _ _) Hz). apply (robust_panic iown J _ (at_i (S n) (head_status c st))); [eauto..|].
       intros v3 (g3 & I3 & _ & Ec3 & _ & _ & [_ [l3 El]] & Ei & _). split; [done|]. exists c, st. split_and!; try done.
       rewrite <- Ec3. unfold calls. rewrite El. set_solver. }
  apply (robust_load iown J _ (at_i (S n) (head_status c 0))); [eauto..|]. intros v3 H3.
  assert (v_info v3 !!! c_i0 c = mk_info (Some (c_b c)) 0) as ->
    by (apply lookup_total; by destruct H3 as (? & _ & _ & _ & _ & _ & _ & ? & _)). cbn [i_b].
  apply (robust_store iown J _ (at_i (S n) (head_status c 0))); [eauto..|].
  intros v4 (g4 & I4 & Er4 & Ec4 & H04 & Hn4 & [Ex4 [l4 El4]] & Ei4 & _).
  apply (robust_store iown J _ (at_i n released)); [eauto..| |].
  - eexists. split; [by apply (release_buf v4 g4 c l4)|]. unfold released. cbn. split_and!; [done| | |lia|by rewrite Ex4].
    + rewrite <- Ec4. unfold calls. cbn. rewrite El4. solve_Permutation.
    + intros c' Hc'. apply H04 in Hc'. rewrite El4 in Hc'. set_solver.
  - intros v5 (g5 & I5 & Er5 & Ec5 & H05 & Hn5 & Ex5). apply Hk. exists g5. split_and!; try done.
    destruct I5 as [S A T V P U St' O B Dn]. split; try done.
    apply (sinv_frame v5); [done|apply S|done|]. intros c' Hc'. by destruct (si_fmt _ _ _ S c' Hc').
Qed.

Definition at_index (x : Z) (g : ghost) (v : vdisk) : Prop := here g v /\ v_used_idx v = x.

Lemma at_index_stable n x : stable iown (at_i n (at_index x)).
Proof.
  apply at_i_stable. intros v g v' g' [_ M K _ _] [H H']. unfold at_index, here in *.
  by rewrite (mv_ux _ _ M), (k_used _ _ _ K).
Qed.

Lemma at_i_mono n n' (P P' : ghost -> vdisk -> Prop) v :
  (n <= n')%nat -> (forall g, P g v -> P' g v) -> at_i n P v -> at_i n' P' v.
Proof. intros Hn HP (g & I & Er & Ec & H0 & Hl & H). exists g. split_and!; [done..|lia|auto]. Qed.

(** The handler leaves when it has read equal indices: at that moment there is no
    entry left, and every later one has its interrupt. *)
Lemma loop_test n v x : at_i n (at_index x) v ->
  if x =? v_used_idx_dev v then at_i n handled v else exists c m, n = S m /\ at_i n (head c) v.
Proof.
  intros (g & I & Er & Ec & H0 & Hn & Ex & <-). destruct (vi_used _ _ I) as (Hr & Hx & Eu). rewrite Eu, <- Ex.
  pose proof (vinv_few _ _ I) as Hf. rewrite calls_length in Hf. destruct (g_fin g) as [|c l] eqn:Ef.
  - rewrite u16_0, Z.eqb_refl by done. exists g. split_and!; try done; [by rewrite Ef|].
    split; [done|]. split; [by left|]. intros c Hc. apply H0 in Hc. done.
  - rewrite (proj2 (Z.eqb_neq _ _)) by (apply not_eq_sym, u16_ne; [done|cbn; cbn in Hf; lia]).
    exists c. destruct n as [|m].
    + exfalso. rewrite <- Ec, calls_length, Ef in Hn. cbn in Hn. lia.
    + exists m. split; [done|]. exists g. rewrite Ef. split_and!; try done. split; [done|]. by exists l.
Qed.

Lemma test_robust n v (k : code unit) : at_i n here v ->
  (forall v' c m, n = S m -> at_i n (head c) v' -> irobust k (fun _ => at_i n handled) v') ->
  irobust (mine <~ load v_used_idx ; theirs <~ load v_used_idx_dev ; if mine =? theirs then CRet tt else k)
    (fun _ => at_i n handled) v.
Proof.
  intros Hv Hk. eapply (robust_load iown J); [apply here_stable|eauto|exact Hv|]. intros v1 H1.
  eapply (robust_load iown J); [apply (at_index_stable n (v_used_idx v1))|eauto| |].
  { eapply at_i_mono; [done| |exact H1]. done. }
  intros v2 H2. pose proof (loop_test _ v2 _ H2) as Ht. destruct (_ =? _).
  - eapply (robust_ret iown J); [apply handled_stable|eauto|exact Ht|done].
  - destruct Ht as (c & m & En & Hh). by eapply Hk.
Qed.

Lemma intr_loop_robust n : forall v, at_i n here v -> irobust (intr_loop n) (fun _ => at_i n handled) v.
Proof.
  induction n as [|n IH]; intros v Hv; cbn [intr_loop]; apply test_robust; try done.
  intros v1 c m _ H1. apply (entry_robust n c); [done|]. intros v3 H3.
  eapply robust_mono; [|by apply IH]. intros r v4 H4. eapply at_i_mono; [|by intros g H|exact H4]. lia.
Qed.

(** The acknowledgement comes first, so that it cannot take away the interrupt of
    an entry that the loop does not see. *)
Lemma intr_robust v : at_i NUM here v -> irobust virtio_disk_intr (fun _ => at_i NUM handled) v.
Proof.
  intros Hv. unfold virtio_disk_intr. eapply (robust_load iown J); [apply here_stable|eauto|exact Hv|]. intros v1 H1.
  eapply (robust_store iown J); [apply here_stable|eauto|exact H1|]. intros v2 (g & I & Er & Ec & H0 & Hn & Ex).
  apply intr_loop_robust. exists g. split_and!; try done. destruct I as [S A T V P U St' O B Dn]. split; try done.
  apply (sinv_frame v2); [done|apply S|done|]. intros c' Hc'. by destruct (si_fmt _ _ _ S c' Hc').
Qed.
End interrupt.

(** * Any number of callers *)

(** What the holder of vdisk_lock is doing. *)
Inductive job :=
| J_none
| J_submit (b : nat) (w : bool) (c : code (option (nat * nat * nat)))
| J_intr (c : code unit)
| J_finish (c : code unit).

(** The buffers that the rest of the kernel leaves alone. *)
Definition in_use (cs : list call) (j : job) : list nat :=
  match j with J_submit b _ _ => b :: map c_b cs | _ => map c_b cs end.

(** The driver with the calls that wait for the device and the code that holds
    the lock.  A caller owns its buffer, which no other call uses. *)
Inductive vstep : vdisk * list call * job -> vdisk * list call * job -> Prop :=
| vs_env v v' cs j : istep (in_use cs j) v v' -> vstep (v, cs, j) (v', cs, j)
| vs_rw b w v cs :
    (b < length (v_bufs v))%nat -> b ∉ map c_b cs -> vstep (v, cs, J_none) (v, cs, J_submit b w (rw_submit b w))
| vs_intr v cs : vstep (v, cs, J_none) (v, cs, J_intr virtio_disk_intr)
| vs_woken v cs1 c cs2 :
    b_disk (v_bufs v !!! c_b c) <> 1 ->
    vstep (v, cs1 ++ c :: cs2, J_none) (v, cs1 ++ cs2, J_finish (rw_finish (c_i0 c)))
| vs_submit b w f k v cs : vstep (v, cs, J_submit b w (CAct f k)) (f v, cs, J_submit b w (k v))
| vs_handle f k v cs : vstep (v, cs, J_intr (CAct f k)) (f v, cs, J_intr (k v))
| vs_finish f k v cs : vstep (v, cs, J_finish (CAct f k)) (f v, cs, J_finish (k v))
| vs_sleep b w v cs : vstep (v, cs, J_submit b w (CRet None)) (v, cs, J_none)
| vs_wait b w i0 i1 i2 v cs :
    vstep (v, cs, J_submit b w (CRet (Some (i0, i1, i2)))) (v, cs ++ [mk_call b w i0 i1 i2], J_none)
| vs_handled v cs : vstep (v, cs, J_intr (CRet tt)) (v, cs, J_none)
| vs_finished v cs : vstep (v, cs, J_finish (CRet tt)) (v, cs, J_none).

Inductive vreach (bs : list buf) (s : gmap Z (list Z)) : vdisk * list call * job -> Prop :=
| vr_init : vreach bs s (v_init bs s, [], J_none)
| vr_step x y : vreach bs s x -> vstep x y -> vreach bs s y.

(** All the time: the calls in the queue are those that wait, and perhaps the one
    that is being submitted. *)
Definition always (cs : list call) (new : call -> Prop) (v : vdisk) : Prop :=
  exists g, vinv v g /\ cs ⊆+ calls g /\ (forall c, c ∈ calls g -> c ∈ cs \/ new c).

Definition is_new (j : job) (c : call) : Prop :=
  match j with J_submit b w _ => c_b c = b /\ c_write c = w | _ => False end.

Definition job_ok (cs : list call) (j : job) (v : vdisk) : Prop :=
  let rob {A} := @robust (in_use cs j) (always cs (is_new j)) (disk_error cs) A in
  match j with
  | J_none => held cs [] v
  | J_submit b w c => rob c (submit_post cs b w) v
  | J_intr c => rob c (fun _ => held cs []) v
  | J_finish c => rob c (fun _ => held cs []) v
  end.

Lemma always_perm cs new v g : vinv v g -> calls g ≡ₚ cs -> always cs new v.
Proof. intros I Ec. exists g. split; [done|]. split; [by rewrite Ec|]. intros c. rewrite Ec. auto. Qed.

Lemma held_always cs new rs v : held cs rs v -> always cs new v.
Proof. intros (g & I & _ & _ & Ec & _). by apply (always_perm _ _ _ g). Qed.

Lemma held_perm cs cs' rs v : cs ≡ₚ cs' -> held cs rs v -> held cs' rs v.
Proof. intros Ep (g & I & Er & Ex & Ec & Hi). exists g. split_and!; try done. by rewrite Ec. Qed.

Lemma submit_ok v b w cs :
  held cs [] v -> (b < length (v_bufs v))%nat -> b ∉ map c_b cs ->
  robust (b :: map c_b cs) (always cs (is_new (J_submit b w (CRet None)))) (disk_error cs)
    (rw_submit b w) (submit_post cs b w) v.
Proof.
  intros Hv Hl Hb. apply submit_robust; [done|by intros; eapply held_always| |done|done].
  intros i0 i1 i2 v' (g & I & _ & _ & Ec & _). exists g. split; [done|]. split; [|intros c]; rewrite Ec.
  - by apply submseteq_inserts_r.
  - intros H. apply elem_of_app in H as [H|H]; [by left|]. apply list_elem_of_singleton in H as ->. by right.
Qed.

Lemma intr_ok v cs :
  held cs [] v -> robust (map c_b cs) (always cs (fun _ => False)) (disk_error cs) virtio_disk_intr (fun _ => held cs []) v.
Proof.
  intros (g & I & Er & Ex & Ec & Hi). eapply robust_mono; [|apply (intr_robust cs [])].
  - intros _ v' (g' & I' & Er' & Ec' & _ & _ & Ex' & Hi' & _). by exists g'.
  - intros v' g' I' Ec'. by apply (always_perm _ _ _ g').
  - exists g. split_and!; try done; [intros c Hc; by apply elem_of_nil in Hc|].
    pose proof (vinv_few _ _ I) as Hf. rewrite Ec in Hf. unfold NUM. lia.
Qed.

Lemma job_ok_step v cs j v' cs' j' : job_ok cs j v -> vstep (v, cs, j) (v', cs', j') -> job_ok cs' j' v'.
Proof.
  intros Hj Hs. inversion Hs; subst; clear Hs; try (destruct (Hj _ (rtc_refl _ _)) as [_ Hj']; exact Hj' || apply Hj').
  - destruct j'; cbn in *; [|by eapply robust_steps; [apply rtc_once|]..].
    destruct (at_stable cs' (map c_b cs') (fun c Hc => list_elem_of_fmap_2 c_b cs' c Hc) [] v v v') as [Hh _];
      [done|by split|done].
  - by apply submit_ok.
  - by apply intr_ok.
  - destruct (retire_held v' c (cs1 ++ c :: cs2) (cs1 ++ cs2)) as [Hh F]; [done|solve_Permutation|done|].
    apply finish_robust; [by intros; eapply held_always|done|done].
Qed.

Lemma v_init_held bs s : held [] [] (v_init bs s).
Proof.
  exists (mk_ghost [] [] [] [] [] [] 0). split_and!; [|done..|by left].
  split; try (intros c Hc; by apply elem_of_nil in Hc); try done.
  split; try done; try (intros c Hc; by apply elem_of_nil in Hc); [apply NoDup_nil_2| |apply NoDup_nil_2].
  intros i Hi. unfold v_init. cbn [v_free]. by rewrite (lookup_replicate_2 NUM true i Hi).
Qed.

Lemma vreach_ok bs s x : vreach bs s x -> job_ok x.1.2 x.2 x.1.1.
Proof.
  induction 1 as [|[[v cs] j] [[v' cs'] j'] R IH Hs]; [apply v_init_held|]. by eapply job_ok_step.
Qed.

Lemma job_ok_always cs j v : job_ok cs j v -> always cs (is_new j) v.
Proof. destruct j; cbn; [apply held_always|by intros H; apply robust_now in H..]. Qed.

(** What holds at any time follows from the invariant. *)
Lemma always_calls cs new v : always cs new v ->
  NoDup (idxs cs) /\ NoDup (map c_b cs) /\ (length cs <= 2)%nat.
Proof.
  intros (g & I & Hsub & _). pose proof (vi_static _ _ I) as S. apply submseteq_Permutation in Hsub as [l El].
  pose proof (si_nodup _ _ _ S) as Hi. apply list.NoDup_app in Hi as (_ & _ & Hi).
  pose proof (si_bufs _ _ _ S) as Hb. pose proof (vinv_few _ _ I) as Hf.
  rewrite (idxs_perm _ _ El), idxs_app in Hi. rewrite El, map_app in Hb. rewrite El, length_app in Hf.
  apply list.NoDup_app in Hi as (Hi & _). apply list.NoDup_app in Hb as (Hb & _). split_and!; [done|done|lia].
Qed.

(** The requests that the device has read or will read next. *)
Lemma always_request cs new v h : always cs new v ->
  h ∈ dv_taken (v_dev v) \/ (dv_seen (v_dev v) <> v_avail_idx v /\ h = next_head v) ->
  exists c, (c ∈ cs \/ new c) /\ c_i0 c = h /\ request_at h v = Some (c_request c v) /\ b_disk (v_bufs v !!! c_b c) = 1.
Proof.
  intros (g & I & _ & H) Hh.
  assert (exists c, c_i0 c = h /\ c ∈ g_pend g ++ g_taken g) as (c & <- & Hc).
  { destruct Hh as [Hh|[Hne ->]].
    - rewrite (vi_taken _ _ I) in Hh. apply list_elem_of_fmap in Hh as (c & -> & Hc). exists c. set_solver.
    - destruct (next_head_pend _ _ I Hne) as (c & p & Ep & ->). exists c. rewrite Ep. set_solver. }
  assert (c ∈ calls g) as Hc' by (unfold calls; set_solver).
  exists c. split_and!; [by apply H|done|by apply request_formatted, (si_fmt _ _ _ (vi_static _ _ I))|].
  apply (vi_busy _ _ I). set_solver.
Qed.

Lemma always_moves cs new v v' : always cs new v -> dstep St v v' ->
  (v_bufs v' = v_bufs v /\ dv_sectors (v_dev v') = dv_sectors (v_dev v)) \/
  exists c st, (c ∈ cs \/ new c) /\ b_disk (v_bufs v !!! c_b c) = 1 /\
    v_info v' !! c_i0 c = Some (mk_info (Some (c_b c)) st) /\
    (st = 0 -> (v_bufs v', dv_sectors (v_dev v')) = transfer c v) /\
    (forall b, b <> c_b c -> v_bufs v' !!! b = v_bufs v !!! b) /\
    (forall x, x <> r_sector (c_cmd c v) -> x <> r_sector (c_cmd c v) + 1 ->
       dv_sectors (v_dev v') !! x = dv_sectors (v_dev v) !! x).
Proof.
  intros (g & I & _ & H) Hs. destruct (dstep_followed [] v v' g Hs I) as (g' & _ & [E1 E2 _ _|c st Hc _ _ E1 E2 E3 E4]);
    [by left|right].
  exists c, st. split_and!; try done; [apply H; unfold calls; set_solver|apply (vi_busy _ _ I); set_solver].
Qed.

Lemma always_woken cs new v c : always cs new v -> c ∈ cs -> b_disk (v_bufs v !!! c_b c) <> 1 ->
  v_info v !! c_i0 c = Some (mk_info (Some (c_b c)) 0) /\ c_i0 c ∉ dv_taken (v_dev v).
Proof.
  intros (g & I & Hs & _) Hc Hd. assert (c ∈ g_done g) as Hdn.
  { assert (c ∈ calls g) as H by (by eapply elem_of_submseteq). unfold calls in H. rewrite !app_assoc in H.
    apply elem_of_app in H as [H|H]; [|done]. exfalso. apply Hd. apply (vi_busy _ _ I). by rewrite !app_assoc. }
  split; [by apply (vi_ok _ _ I)|]. rewrite (vi_taken _ _ I). intros H. apply list_elem_of_fmap in H as (c' & E & H).
  apply list_elem_of_split in Hdn as (d1 & d2 & Ed).
  eapply (i0_distinct v (g_resv g) (g_pend g ++ g_taken g ++ g_served g ++ g_fin g ++ d1) c d2 c'); [| |done].
  - eapply sinv_perm; [reflexivity| |apply (vi_static _ _ I)]. unfold calls. rewrite Ed. solve_Permutation.
  - set_solver.
Qed.

Lemma held_irq cs rs v : held cs rs v -> v_used_idx v <> v_used_idx_dev v ->
  dv_raise (v_dev v) = true \/ Z.testbit (dv_isr (v_dev v)) 0 = true.
Proof.
  intros (g & I & _ & Ex & _ & [Hf|Hi]) Hne; [|done]. destruct (vi_used _ _ I) as (_ & Hx & Eu).
  rewrite Hf, u16_0 in Eu by done. congruence.
Qed.

Definition panics (j : job) (msg : string) : Prop :=
  match j with J_none => False | J_submit _ _ c => c = CPanic msg | J_intr c | J_finish c => c = CPanic msg end.

Lemma job_ok_panic cs j v msg : job_ok cs j v -> panics j msg -> disk_error cs msg v.
Proof. destruct j; cbn; [done|intros H ->; by apply (H v)..]. Qed.


(** * One call *)

(** Code that does not change [X]. *)
Fixpoint keeps {A T} (X : vdisk -> T) (c : code A) : Prop :=
  match c with
  | CRet _ | CPanic _ => True
  | CAct f k => (forall v, X (f v) = X v) /\ forall v, keeps X (k v)
  end.

Lemma keeps_bind {A B T} (X : vdisk -> T) (c : code A) (g : A -> code B) :
  keeps X c -> (forall a, keeps X (g a)) -> keeps X (cbind c g).
Proof.
  intros Hc Hg. induction c as [a|msg|f k IH]; cbn in *; [done|done|]. destruct Hc as [H1 H2]. split; auto.
Qed.

Lemma keeps_run {A T} (X : vdisk -> T) (c : code A) v a v' : keeps X c -> run c v = inr (a, v') -> X v' = X v.
Proof.
  revert v. induction c as [x|msg|f k IH]; cbn; intros v Hc E; [congruence|done|].
  destruct Hc as [H1 H2]. rewrite (IH v (f v)); auto.
Qed.

(** The device, and the contents and numbers of the buffers. *)
Definition content (v : vdisk) : list (list Z) * list Z * vdev * list Z * Z * Z :=
  (b_data <$> v_bufs v, b_blockno <$> v_bufs v, v_dev v, v_used_ring v, v_used_idx_dev v, v_used_idx v).

Ltac keep :=
  lazymatch goal with
  | |- keeps _ (cbind _ _) => apply keeps_bind; [|intros ?]
  | |- keeps _ (load _) => by split
  | |- keeps _ (store _) => split; [intros ?|done]; unfold content; cbn; rewrite ?fmap_alter_same; done
  | |- keeps _ (match ?x with _ => _ end) => destruct x
  | |- keeps _ _ => done
  end.

Lemma keeps_alloc n : forall i, keeps content (alloc_scan n i).
Proof. induction n as [|n IH]; intros i; cbn [alloc_scan]; repeat (keep || apply IH). Qed.

Lemma keeps_free i : keeps content (free_desc i).
Proof. unfold free_desc. repeat keep. Qed.

Lemma keeps_chain n : forall i, keeps content (free_chain n i).
Proof. induction n as [|n IH]; intros i; cbn [free_chain]; repeat (apply IH || apply keeps_free || keep). Qed.

Lemma keeps_stores {T} (X : vdisk -> T) fs : Forall (fun f => forall v, X (f v) = X v) fs -> keeps X (stores fs).
Proof. induction 1 as [|f fs Hf _ IH]; cbn [stores foldr]; [done|]. by apply keeps_bind. Qed.

Lemma keeps_submit b w : keeps content (rw_submit b w).
Proof.
  unfold rw_submit, alloc3_desc, alloc_desc.
  repeat (apply keeps_alloc || apply keeps_free || apply keeps_stores || keep).
  unfold rw_stores. repeat apply Forall_cons_2; [..|apply Forall_nil_2];
    intros v; unfold content; cbn; rewrite ?fmap_alter_same; done.
Qed.

Lemma keeps_finish i : keeps content (rw_finish i).
Proof. unfold rw_finish. repeat (apply keeps_chain || keep). Qed.

Definition content_i (v : vdisk) : list (list Z) * gmap Z (list Z) * list vinfo :=
  (b_data <$> v_bufs v, dv_sectors (v_dev v), v_info v).

Lemma keeps_intr : keeps content_i virtio_disk_intr.
Proof.
  unfold virtio_disk_intr. do 2 (apply keeps_bind; [by split|intros ?]). generalize NUM. intros n.
  induction n as [|n IH]; cbn [intr_loop]; repeat (apply IH || keep);
    split; [intros ?|done]; unfold content_i; cbn; rewrite ?fmap_alter_same; done.
Qed.

(** The device has nothing left to do but to raise an interrupt. *)
Definition settled (v : vdisk) : Prop :=
  dv_seen (v_dev v) = v_avail_idx v /\ dv_taken (v_dev v) = [] /\ dv_served (v_dev v) = [].

(** While the only caller sleeps the device serves its request, and then the
    handler runs. *)
Definition waits (wait : vdisk -> string + vdisk) : Prop := forall v c, held [c] [] v ->
  dv_seen (v_dev v) <> v_avail_idx v -> dv_taken (v_dev v) = [] -> dv_served (v_dev v) = [] ->
  exists v', rtc (dstep St) v v' /\ settled v' /\
    wait v = match run virtio_disk_intr v' with inl e => inl e | inr (_, v'') => inr v'' end.

(** The request of the only call, submitted in [v1], before and after it is
    served. *)
Definition phase (c : call) (v1 v : vdisk) : Prop :=
  exists g, vinv v g /\ g_resv g ≡ₚ [] /\ g_ux g = v_used_idx v /\ calls g ≡ₚ [c] /\ g_done g = [] /\
    ((c ∈ g_pend g ++ g_taken g /\ v_bufs v = v_bufs v1 /\ dv_sectors (v_dev v) = dv_sectors (v_dev v1)) \/
     (c ∈ g_served g ++ g_fin g /\ exists st, v_info v !! c_i0 c = Some (mk_info (Some (c_b c)) st) /\ St st /\
        (st = 0 -> (v_bufs v, dv_sectors (v_dev v)) = transfer c v1))).

(** The only call is in one place. *)
Lemma single_place g c : calls g ≡ₚ [c] -> g_done g = [] ->
  (forall c', c' ∈ calls g -> c' = c) /\
  (c ∈ g_pend g ++ g_taken g -> ~ c ∈ g_served g ++ g_fin g) /\
  (c ∈ g_pend g ++ g_taken g \/ c ∈ g_served g ++ g_fin g).
Proof.
  intros Ec Ed. split; [|split].
  - intros c'. rewrite Ec. apply list_elem_of_singleton.
  - intros H1 H2. pose proof (Permutation_length Ec) as Hl. rewrite calls_length in Hl. cbn in Hl.
    destruct (g_pend g ++ g_taken g) as [|x l] eqn:E1; [by apply elem_of_nil in H1|].
    destruct (g_served g ++ g_fin g) as [|y m] eqn:E2; [by apply elem_of_nil in H2|].
    apply (f_equal length) in E1, E2. rewrite length_app in E1, E2. cbn in E1, E2. lia.
  - assert (c ∈ calls g) as H by (rewrite Ec; by left). unfold calls in H. rewrite Ed, app_nil_r in H. set_solver.
Qed.

Lemma dstep_phase c v1 v v' : phase c v1 v -> dstep St v v' -> phase c v1 v'.
Proof.
  intros (g & I & Er & Ex & Ec & Ed & Hp) Hs.
  destruct (dstep_followed [] v v' g Hs I) as (g' & [I' [M1 M2 M3 M4 _] K _ _] & Eff).
  assert (calls g' ≡ₚ [c]) as Ec' by (by rewrite M1). assert (g_done g' = []) as Ed' by congruence.
  destruct (single_place g c Ec Ed) as (S1 & S2 & S3), (single_place g' c Ec' Ed') as (S1' & S2' & S3').
  exists g'. split_and!; [done|by rewrite M3|by rewrite M4, (k_used _ _ _ K)|done|done|].
  destruct Eff as [E1 E2 E3 Ep|c' st Hc Hc' Hst E1 E2 _ _].
  - rewrite E1, E2, E3, Ep. destruct Hp as [Hp|[Hp Hr]]; [by left|right]. split; [|done].
    destruct S3' as [S3'|S3']; [|done]. rewrite Ep in S3'. by apply S2 in S3'.
  - assert (c' = c) as -> by (apply S1; unfold calls; set_solver). right. split; [set_solver|].
    exists st. split_and!; [done..|]. intros Hz. rewrite (E2 Hz).
    destruct Hp as [(_ & B1 & B2)|[Hp _]]; [|exfalso; apply S2; set_solver].
    unfold transfer, c_cmd. by rewrite B1, B2.
Qed.

Lemma phase_settled c v1 v : phase c v1 v -> settled v ->
  exists st, at_i [c] [c] NUM here v /\ v_info v !! c_i0 c = Some (mk_info (Some (c_b c)) st) /\ St st /\
    (st = 0 -> (v_bufs v, dv_sectors (v_dev v)) = transfer c v1).
Proof.
  intros (g & I & Er & Ex & Ec & Ed & Hp) (Q1 & Q2 & Q3).
  pose proof (vinv_few _ _ I) as Hf. rewrite calls_length in Hf.
  assert (g_pend g = []) as E1.
  { destruct (vi_avail _ _ I) as (_ & Hx & Ea). destruct (g_pend g) as [|x l]; [done|]. exfalso.
    apply (u16_ne (dv_seen (v_dev v)) (length (x :: l))); [done|cbn in *; lia|congruence]. }
  assert (g_taken g = []) as E2 by (rewrite (vi_taken _ _ I) in Q2; by apply map_eq_nil in Q2).
  assert (g_served g = []) as E3 by (rewrite (vi_served _ _ I) in Q3; by apply map_eq_nil in Q3).
  rewrite E1, E2, E3 in Hp. destruct Hp as [[Hp _]|[Hp (st & H1 & H2 & H3)]]; [by apply elem_of_nil in Hp|].
  exists st. split_and!; try done. exists g. split_and!; try done; [|unfold NUM; cbn; lia].
  intros c' Hc'. apply list_elem_of_singleton in Hc' as ->. set_solver.
Qed.

(** With no call in progress the device is idle. *)
Lemma held_nobody v : held [] [] v ->
  dv_taken (v_dev v) = [] /\ dv_served (v_dev v) = [] /\ v_used_idx_dev v = v_used_idx v.
Proof.
  intros (g & I & _ & Ex & Ec & _). apply Permutation_length in Ec. rewrite calls_length in Ec. cbn in Ec.
  destruct (vi_used _ _ I) as (_ & Hx & Eu). rewrite (vi_taken _ _ I), (vi_served _ _ I).
  destruct (g_taken g), (g_served g), (g_fin g); cbn in Ec; try lia. rewrite u16_0, Ex in Eu by done. done.
Qed.

(** The only call is in the avail ring if it is nowhere else. *)
Lemma only_pending v g c : vinv v g -> calls g ≡ₚ [c] -> g_ux g = v_used_idx_dev v ->
  dv_taken (v_dev v) = [] -> dv_served (v_dev v) = [] -> b_disk (v_bufs v !!! c_b c) = 1 ->
  g_pend g = [c] /\ g_done g = [].
Proof.
  intros I Hc Ex N1 N2 Hd. destruct (vi_used _ _ I) as (_ & Hx & Eu).
  pose proof (Permutation_length Hc) as Hl. rewrite calls_length in Hl. cbn in Hl.
  rewrite (vi_taken _ _ I) in N1. rewrite (vi_served _ _ I) in N2. apply map_eq_nil in N1, N2.
  assert (g_fin g = []) as N3.
  { destruct (g_fin g) as [|x l]; [done|]. exfalso. rewrite <- Ex in Eu. symmetry in Eu. revert Eu.
    apply u16_ne; [done|cbn in *; lia]. }
  assert (c ∉ g_done g) as Hn.
  { intros H. apply (vi_done _ _ I) in H. rewrite Hd in H. discriminate H. }
  unfold calls in Hc. rewrite N1, N2, N3 in *. cbn in Hc, Hl.
  destruct (g_pend g) as [|x [|y l]]; cbn in *; [| |lia].
  - exfalso. apply Hn. rewrite Hc. by left.
  - destruct (g_done g); [|cbn in Hl; lia]. split; [|done]. cbn in Hc. apply Permutation_singleton_l in Hc. congruence.
Qed.

Lemma submit_alone v b w : held [] [] v -> (b < length (v_bufs v))%nat ->
  exists i0 i1 i2 v1, run (rw_submit b w) v = inr (Some (i0, i1, i2), v1) /\ content v1 = content v /\
    b_disk (v_bufs v1 !!! b) = 1 /\ held [mk_call b w i0 i1 i2] [] v1 /\
    dv_seen (v_dev v1) <> v_avail_idx v1 /\ dv_taken (v_dev v1) = [] /\ dv_served (v_dev v1) = [] /\ phase (mk_call b w i0 i1 i2) v1 v1.
Proof.
  intros Hv Hl.
  pose proof (submit_robust [] b w ltac:(apply not_elem_of_nil) (fun _ => True) (fun _ _ => False)
    (fun _ _ _ => Logic.I) (fun _ _ _ _ _ => Logic.I) v Hv Hl) as R. apply robust_run in R.
  destruct (run (rw_submit b w) v) as [msg|[[[[i0 i1] i2]|] v1]] eqn:E; [by destruct R| |destruct R as [_ R]; cbn in R; lia].
  destruct R as [R Hd]. cbn [app] in R. exists i0, i1, i2, v1. set (c := mk_call b w i0 i1 i2) in *.
  pose proof (keeps_run content _ _ _ _ (keeps_submit b w) E) as Ec. pose proof Ec as K.
  injection K as _ _ Edev _ Eu1 Eu2. destruct (held_nobody v Hv) as (N1 & N2 & N3).
  rewrite <- Edev in N1, N2. rewrite <- Eu1, <- Eu2 in N3.
  pose proof R as (g & I & Er & Ex & Hc & Hi).
  destruct (only_pending v1 g c I Hc) as (P1 & P2); [congruence|done|done|done|].
  assert (dv_seen (v_dev v1) <> v_avail_idx v1) as Hne.
  { destruct (vi_avail _ _ I) as (_ & Hx & ->). rewrite P1. apply not_eq_sym, u16_ne; [done|cbn; lia]. }
  split_and!; try done. exists g. split_and!; try done. left. rewrite P1. split; [by left|done].
Qed.

(** The handler at the end of a wait. *)
Lemma intr_alone c v1 v : phase c v1 v -> settled v ->
  match run virtio_disk_intr v with
  | inl msg => msg = "virtio_disk_intr status"%string /\ exists st, St st /\ st <> 0
  | inr (_, v') => held [c] [] v' /\ b_disk (v_bufs v' !!! c_b c) = 0 /\
      (b_data <$> v_bufs v', dv_sectors (v_dev v')) = (b_data <$> (transfer c v1).1, (transfer c v1).2)
  end.
Proof.
  intros Hp Hs. destruct (phase_settled c v1 v Hp Hs) as (st & Hi & Es & Hst & Ht).
  pose proof (intr_robust [c] [c] (fun _ => True) (fun _ _ _ _ => Logic.I) v Hi) as R. apply robust_run in R.
  destruct (run virtio_disk_intr v) as [msg|[r v']] eqn:E.
  { destruct R as (v' & -> & _ & st' & _ & _ & H1 & H2). split; [done|]. by exists st'. }
  destruct R as (g & I & Er & Ec & _ & _ & Ex & Hirq & Hd). specialize (Hd c ltac:(by left)).
  pose proof (keeps_run content_i _ _ _ _ keeps_intr E) as K. injection K as K1 K2 K3.
  pose proof (vi_ok _ _ I c Hd) as Ho. rewrite K3, Es in Ho. injection Ho as ->. specialize (Ht eq_refl).
  split_and!; [by exists g|by apply (vi_done _ _ I)|]. rewrite K1, K2, <- Ht. done.
Qed.

Lemma finish_alone c v : held [c] [] v -> b_disk (v_bufs v !!! c_b c) = 0 ->
  exists r v', run (rw_finish (c_i0 c)) v = inr (r, v') /\ held [] [] v' /\ content v' = content v.
Proof.
  intros Hv Hd. destruct (retire_held v c [c] [] Hv) as [Hh F]; [done|by rewrite Hd|].
  pose proof (finish_robust [] c (fun _ => True) (fun _ _ => False) (fun _ _ _ => Logic.I) v Hh F) as R.
  apply robust_run in R. destruct (run (rw_finish (c_i0 c)) v) as [msg|[r v']] eqn:E; [by destruct R|].
  exists r, v'. split_and!; try done. by apply (keeps_run content _ _ _ _ (keeps_finish (c_i0 c)) E).
Qed.

Lemma phase_rtc c v1 v v' : rtc (dstep St) v v' -> phase c v1 v -> phase c v1 v'.
Proof. induction 1 as [|x y z Hs _ IH]; [done|]. intros H. apply IH. by eapply dstep_phase. Qed.

Lemma rw_alone wait v b w : waits wait -> held [] [] v -> (b < length (v_bufs v))%nat ->
  match virtio_disk_rw wait 1 b w v with
  | inl msg => msg = "virtio_disk_intr status"%string /\ exists st, St st /\ st <> 0
  | inr v' => exists c v1, c_b c = b /\ c_write c = w /\ content v1 = content v /\ held [] [] v' /\
      (b_data <$> v_bufs v', dv_sectors (v_dev v')) = (b_data <$> (transfer c v1).1, (transfer c v1).2)
  end.
Proof.
  intros Hw Hv Hl. destruct (submit_alone v b w Hv Hl) as (i0 & i1 & i2 & v1 & E & K & Hd & H1 & D1 & D2 & D3 & Hp).
  set (c := mk_call b w i0 i1 i2) in *. unfold virtio_disk_rw. cbn [rw_alloc]. rewrite E. cbn [rw_wait].
  rewrite Hd. change (1 =? 1) with true. cbv iota.
  destruct (Hw v1 c H1 D1 D2 D3) as (v2 & Hs & Hset & ->).
  pose proof (intr_alone c v1 v2 (phase_rtc _ _ _ _ Hs Hp) Hset) as R.
  destruct (run virtio_disk_intr v2) as [msg|[r v3]]; [done|]. destruct R as (H3 & Hd3 & Ht). cbn in Hd3.
  rewrite Hd3. change (0 =? 1) with false. cbv iota. change i0 with (c_i0 c).
  destruct (finish_alone c v3 H3 Hd3) as (r' & v4 & -> & H4 & K4). injection K4 as K41 _ K42 _ _ _.
  exists c, v1. split_and!; try done. by rewrite K41, K42.
Qed.

Lemma read_block_write s x y d :
  length d = Z.to_nat BSIZE -> x <> y ->
  read_block (write_block s (2 * x) d) (2 * x) = d /\
  read_block (write_block s (2 * x) d) (2 * y) = read_block s (2 * y).
Proof.
  intros Hl Hne. unfold read_block, write_block, sector_of. split.
  - rewrite lookup_insert_ne, lookup_insert_eq, lookup_insert_eq by lia. cbn. apply take_drop.
  - rewrite !lookup_insert_ne by lia. done.
Qed.

Lemma sector_small bno : 0 <= bno < 2 ^ 31 -> u32 (bno * (BSIZE / 512)) = 2 * bno.
Proof. intros H. change (BSIZE / 512) with 2. rewrite u32_small; lia. Qed.

Lemma total_fmap {T} (f : buf -> T) (l l' : list buf) j : f <$> l = f <$> l' -> f (l !!! j) = f (l' !!! j).
Proof.
  intros E. apply (f_equal (fun m => m !! j)) in E. rewrite !list_lookup_fmap in E. rewrite !list_lookup_total_alt.
  destruct (l !! j), (l' !! j); cbn in *; congruence.
Qed.

(** C18: virtio_disk_rw() is an atomic read or write of one block. Called with no
    other request in progress, for a block number below 2^31, it allocates its
    descriptors and returns after the device has served it: a write leaves every
    buffer's data as it was and changes on disk the block of the buffer and no
    other; a read leaves the disk as it was and puts the contents of the block
    into the buffer and into no other. Then all descriptors are free again. It
    panics only with a device that can report an error, and then on the status
    byte: an error is never taken for success. *)
Theorem virtio_rw_atomic wait v b w :
  waits wait -> held [] [] v -> (b < length (v_bufs v))%nat ->
  let bf := v_bufs v !!! b in
  0 <= b_blockno bf < 2 ^ 31 -> length (b_data bf) = Z.to_nat BSIZE ->
  match virtio_disk_rw wait 1 b w v with
  | inl msg => msg = "virtio_disk_intr status"%string /\ exists st, St st /\ st <> 0
  | inr v' => held [] [] v' /\
      (forall i, (i < NUM)%nat -> v_free v' !! i = Some true) /\
      (forall x, read_block (dv_sectors (v_dev v')) (2 * x) =
         if decide (w = true /\ x = b_blockno bf) then b_data bf
         else read_block (dv_sectors (v_dev v)) (2 * x)) /\
      (forall j, b_data (v_bufs v' !!! j) =
         if decide (w = false /\ j = b) then read_block (dv_sectors (v_dev v)) (2 * b_blockno bf)
         else b_data (v_bufs v !!! j))
  end.
Proof.
  intros Hw Hv Hb bf Hn Hl. pose proof (rw_alone wait v b w Hw Hv Hb) as R.
  destruct (virtio_disk_rw wait 1 b w v) as [msg|v']; [done|].
  destruct R as (c & v1 & Ec & Ew & K & Hv' & Ht). injection K as K1 K2 K3 _ _ _. injection Ht as Hd Hs.
  assert (r_sector (c_cmd c v1) = 2 * b_blockno bf) as Hsec.
  { change (u32 (b_blockno (v_bufs v1 !!! c_b c) * (BSIZE / 512)) = 2 * b_blockno bf).
    rewrite Ec. assert (b_blockno (v_bufs v1 !!! b) = b_blockno bf) as -> by (by apply total_fmap). by apply sector_small. }
  assert (b < length (v_bufs v1))%nat as Hb1.
  { apply (f_equal length) in K1. rewrite !length_fmap in K1. lia. }
  split_and!; [done|..].
  - intros i Hi. destruct Hv' as (g & I & Er & _ & Eg & _). rewrite (si_free _ _ _ (vi_static _ _ I) i Hi).
    apply Permutation_nil_r in Er, Eg. rewrite Er, Eg. done.
  - intros x. rewrite Hs. unfold transfer. rewrite Hsec, Ew, Ec, K3.
    assert (b_data (v_bufs v1 !!! b) = b_data bf) as -> by (by apply total_fmap).
    destruct w; cbn [snd].
    + destruct (decide (x = b_blockno bf)) as [->|Hx].
      * rewrite decide_True by done. by apply (read_block_write _ _ (b_blockno bf + 1)); [|lia].
      * rewrite decide_False by tauto. by apply read_block_write.
    + by rewrite decide_False by naive_solver.
  - intros j. trans (b_data ((transfer c v1).1 !!! j)); [by apply total_fmap|]. unfold transfer. rewrite Hsec, Ew, Ec, K3. destruct w; cbn [fst].
    + rewrite decide_False by naive_solver. by apply total_fmap.
    + rewrite bufs_total_alter by done. destruct (decide (j = b)) as [->|Hj].
      * by rewrite decide_True.
      * rewrite decide_False by tauto. by apply total_fmap.
Qed.

End device.

(** * Witnesses *)

(** A device that serves the next request at once, and does not fail. *)
Definition serve_next (v : vdisk) : vdisk :=
  let h := next_head v in
  match request_at h v with
  | None => v
  | Some q =>
      let v1 := set_dv_seen (u16 (dv_seen (v_dev v) + 1)) (set_dv_taken (dv_taken (v_dev v) ++ [h]) v) in
      let v2 := upd_info (q_stat q) (set_i_status 0)
        (set_dv_served (dv_served (v_dev v1) ++ [h]) (set_dv_taken [] (move_data q 0 [] v1))) in
      let v3 := set_dv_push (Some h)
        (set_used_ring (<[Z.to_nat (v_used_idx_dev v2 mod Z.of_nat NUM) := Z.of_nat h]> (v_used_ring v2)) v2) in
      set_dv_push None (set_dv_served [] (set_dv_raise true (set_used_idx_dev (u16 (v_used_idx_dev v3 + 1)) v3)))
  end.

Definition wait_ideal (v : vdisk) : string + vdisk :=
  match run virtio_disk_intr (serve_next v) with inl e => inl e | inr (_, v') => inr v' end.

Lemma wait_ideal_waits : waits (eq 0) wait_ideal.
Proof.
  intros v c (g & I & _ & _ & Ec & _) Hne Ht Hs. exists (serve_next v). split; [|split; [|done]].
  all: destruct (next_head_pend _ _ _ I Hne) as (c' & p & Ep & Eh).
  all: assert (request_at (next_head v) v = Some (c_request c' v)) as Eq
    by (rewrite Eh; apply request_formatted, (si_fmt _ _ _ (vi_static _ _ _ I)); unfold calls; rewrite Ep; set_solver).
  all: assert (dv_push (v_dev v) = None) as Hp
    by (destruct (dv_push (v_dev v)) as [h|] eqn:E; [|done]; destruct (vi_push _ _ _ I h E) as [H _];
        rewrite Hs in H; by apply elem_of_nil in H).
  all: unfold serve_next; rewrite Eq; cbv zeta.
  - eapply rtc_l; [by apply dev_take|]. eapply rtc_l.
    { apply (dev_serve _ _ [] [] (next_head v) (c_request c' v) 0 []); [cbn; by rewrite Ht|exact Eq|done]. }
    cbn [app]. eapply rtc_l.
    { apply (dev_push _ _ (next_head v)); cbn; [set_solver|]. unfold move_data. cbn. by destruct (c_write c'). }
    eapply rtc_l; [|apply rtc_refl].
    apply (dev_publish _ _ [] [] (next_head v)); [done|]. cbn. unfold move_data. cbn.
    destruct (c_write c'); cbn; by rewrite Hs.
  - unfold settled. destruct (vi_avail _ _ _ I) as (_ & Hx & Ea). rewrite Ep in Ea.
    apply Permutation_length in Ec. rewrite calls_length, Ep in Ec. cbn in Ec. destruct p; [|cbn in Ec; lia].
    unfold move_data. cbn. destruct (c_write c'); cbn; by rewrite Ea.
Qed.

Definition two_bufs : list buf :=
  [set_b_blockno 7 bss_buf; set_b_blockno 9 (set_b_data (replicate (Z.to_nat BSIZE) 5) bss_buf)].

Lemma virtio_rw_atomic_witness : exists v',
  virtio_disk_rw wait_ideal 1 1 true (v_init two_bufs ∅) = inr v' /\
  read_block (dv_sectors (v_dev v')) 18 = replicate (Z.to_nat BSIZE) 5.
Proof.
  pose proof (virtio_rw_atomic (eq 0) wait_ideal (v_init two_bufs ∅) 1 true wait_ideal_waits
    (v_init_held (eq 0) two_bufs ∅)) as H.
  destruct (virtio_disk_rw wait_ideal 1 1 true (v_init two_bufs ∅)) as [msg|v'].
  - destruct H as (_ & st & <- & Hz); [by apply Nat.ltb_lt|vm_compute; split; [discriminate|reflexivity]|reflexivity|done].
  - destruct H as (_ & _ & H & _); [by apply Nat.ltb_lt|vm_compute; split; [discriminate|reflexivity]|reflexivity|].
    exists v'. split; [reflexivity|]. etransitivity; [apply (H 9)|reflexivity].
Defined.

Lemma vreach_run St bs s b w (c : code (option (nat * nat * nat))) : forall v cs a v',
  vreach St bs s (v, cs, J_submit b w c) -> run c v = inr (a, v') -> vreach St bs s (v', cs, J_submit b w (CRet a)).
Proof.
  induction c as [x|msg|f k IH]; cbn; intros v cs a v' R E; [by injection E as <- <-|done|].
  apply (IH v (f v) cs a v'); [|done]. eapply vr_step; [exact R|apply vs_submit].
Qed.

Definition submit_state (b : nat) (w : bool) (v : vdisk) : vdisk :=
  match run (rw_submit b w) v with inr (_, v') => v' | inl _ => v end.

Lemma submit_state_run b w v i :
  match run (rw_submit b w) v with inr (a, _) => a | inl _ => None end = Some i ->
  run (rw_submit b w) v = inr (Some i, submit_state b w v).
Proof. unfold submit_state. destruct (run (rw_submit b w) v) as [|[a v']]; [done|]. by intros ->. Qed.

Definition one_call : vdisk := submit_state 0 false (v_init two_bufs ∅).
Definition two_calls : vdisk := submit_state 1 true one_call.

Lemma two_calls_reached :
  vreach (fun _ => True) two_bufs ∅ (two_calls, [mk_call 0 false 0 1 2; mk_call 1 true 3 4 5], J_none).
Proof.
  eapply vr_step; [|apply (vs_wait _ 1 true 3 4 5 two_calls [mk_call 0 false 0 1 2])].
  eapply vreach_run; [|apply submit_state_run; vm_compute; reflexivity].
  eapply vr_step; [|apply vs_rw; [apply Nat.ltb_lt; vm_compute; reflexivity|]].
  2: { intros H. apply list_elem_of_singleton in H. discriminate. }
  eapply vr_step; [|apply (vs_wait _ 0 false 0 1 2 one_call [])].
  eapply vreach_run; [|apply submit_state_run; vm_compute; reflexivity].
  eapply vr_step; [apply vr_init|]. apply vs_rw; [apply Nat.ltb_lt; vm_compute; reflexivity|].
  intros H. by apply elem_of_nil in H.
Qed.

