(* ===== verification/Bio.v ===== *)
(** kernel/bio.c: the buffer cache.

    [k_bufs] holds bcache.buf[0..NBUF-1] and, at index NBUF, bcache.head; the
    fields [b_prev] and [b_next] thread the doubly linked LRU list through it. *)
From S2P Require Import Prelude CInt KState KString Riscv Kalloc Vm Proc.

Section bio.
Context {P : Platform}.

(** * The disk *)

(** kernel/virtio_disk.c's virtio_disk_rw() as its callers see it; the driver
    itself is modelled in Virtio.v, and VirtioSpec.v shows that a call which
    returns is this transfer.  A block never written holds zeroes. *)
Definition disk_block (d : gmap Z (list Z)) (bno : Z) : list Z :=
  default (replicate (Z.to_nat BSIZE) 0) (d !! bno).

Definition virtio_disk_rw (b : nat) (write : bool) : M unit :=
  let* bf := get_buf b in
  if write then
    modify (fun k => set_k_disk (<[b_blockno bf := b_data bf]> (k_disk k)) k) ;;;
    modify (fun k => set_k_writes ((b_blockno bf, b_data bf) :: k_writes k) k)
  else
    let* d := gets (fun k => k_disk k) in
    upd_buf b (set_b_data (disk_block d (b_blockno bf))).

(** * The code *)

Definition HEAD : nat := Z.to_nat NBUF.

Definition binit : M unit :=
  initlock L_bcache ;;;
  (* Create linked list of buffers *)
  upd_buf HEAD (set_b_prev HEAD) ;;;
  upd_buf HEAD (set_b_next HEAD) ;;;
  for_ (seq 0 (Z.to_nat NBUF)) (fun b =>
    let* head := get_buf HEAD in
    upd_buf b (set_b_next (b_next head)) ;;;
    upd_buf b (set_b_prev HEAD) ;;;
    initsleeplock (SL_buf b) ;;;
    let* head := get_buf HEAD in
    upd_buf (b_next head) (set_b_prev b) ;;;
    upd_buf HEAD (set_b_next b)).

(** The loop over the list from [b] towards the least recently used buffer;
    the list has NBUF elements. *)
Fixpoint bget_cached (n : nat) (b : nat) (dev blockno : Z) : M (option nat) :=
  if decide (b = HEAD) then ret None
  else
    let* bf := get_buf b in
    if (b_dev bf =? dev) && (b_blockno bf =? blockno) then ret (Some b)
    else
      match n with
      | O => stuck
      | S n' => bget_cached n' (b_next bf) dev blockno
      end.

(** The loop over the list from [b] towards the most recently used buffer. *)
Fixpoint bget_unused (n : nat) (b : nat) : M (option nat) :=
  if decide (b = HEAD) then ret None
  else
    let* bf := get_buf b in
    if b_refcnt bf =? 0 then ret (Some b)
    else
      match n with
      | O => stuck
      | S n' => bget_unused n' (b_prev bf)
      end.

Definition bget (dev blockno : Z) : M nat :=
  acquire L_bcache ;;;
  (* Is the block already cached? *)
  let* head := get_buf HEAD in
  let* r := bget_cached (Z.to_nat NBUF) (b_next head) dev blockno in
  match r with
  | Some b =>
      upd_buf b (fun bf => set_b_refcnt (u32 (b_refcnt bf + 1)) bf) ;;;
      release L_bcache ;;;
      acquiresleep (SL_buf b) ;;;
      ret b
  | None =>
      (* Not cached.  Recycle the least recently used (LRU) unused buffer. *)
      let* head := get_buf HEAD in
      let* r := bget_unused (Z.to_nat NBUF) (b_prev head) in
      match r with
      | Some b =>
          upd_buf b (set_b_dev dev) ;;;
          upd_buf b (set_b_blockno blockno) ;;;
          upd_buf b (set_b_valid 0) ;;;
          upd_buf b (set_b_refcnt 1) ;;;
          release L_bcache ;;;
          acquiresleep (SL_buf b) ;;;
          ret b
      | None => panic "bget: no buffers"
      end
  end.

Definition bread (dev blockno : Z) : M nat :=
  let* b := bget dev blockno in
  let* bf := get_buf b in
  when (b_valid bf =? 0)
    (virtio_disk_rw b false ;;;
     upd_buf b (set_b_valid 1)) ;;;
  ret b.

Definition bwrite (b : nat) : M unit :=
  let* h := holdingsleep (SL_buf b) in
  if negb h then panic "bwrite"
  else virtio_disk_rw b true.

Definition brelse (b : nat) : M unit :=
  let* h := holdingsleep (SL_buf b) in
  if negb h then panic "brelse"
  else
    releasesleep (SL_buf b) ;;;
    acquire L_bcache ;;;
    upd_buf b (fun bf => set_b_refcnt (u32 (b_refcnt bf - 1)) bf) ;;;
    let* bf := get_buf b in
    when (b_refcnt bf =? 0)
      ((* no one is waiting for it. *)
       upd_buf (b_next bf) (set_b_prev (b_prev bf)) ;;;
       upd_buf (b_prev bf) (set_b_next (b_next bf)) ;;;
       let* head := get_buf HEAD in
       upd_buf b (set_b_next (b_next head)) ;;;
       upd_buf b (set_b_prev HEAD) ;;;
       upd_buf (b_next head) (set_b_prev b) ;;;
       upd_buf HEAD (set_b_next b)) ;;;
    release L_bcache.

Definition bpin (b : nat) : M unit :=
  acquire L_bcache ;;;
  upd_buf b (fun bf => set_b_refcnt (u32 (b_refcnt bf + 1)) bf) ;;;
  release L_bcache.

Definition bunpin (b : nat) : M unit :=
  acquire L_bcache ;;;
  upd_buf b (fun bf => set_b_refcnt (u32 (b_refcnt bf - 1)) bf) ;;;
  release L_bcache.

(** * The list *)

(** [links nx pv a l z]: following [nx] from [a] visits [l] and arrives at [z],
    and [pv] goes the same way back. *)
Fixpoint links (nx pv : nat -> nat) (a : nat) (l : list nat) (z : nat) : Prop :=
  match l with
  | [] => nx a = z /\ pv z = a
  | x :: l' => nx a = x /\ pv x = a /\ links nx pv x l' z
  end.

Definition nx (bs : list buf) (i : nat) : nat := b_next (bs !!! i).
Definition pv (bs : list buf) (i : nat) : nat := b_prev (bs !!! i).

(** The buffers are on the list in the order [l], the most recently used first. *)
Record lru (bs : list buf) (l : list nat) : Prop := mk_lru {
  lru_length : length bs = S HEAD;
  lru_perm : l ≡ₚ seq 0 HEAD;
  lru_links : links (nx bs) (pv bs) HEAD l HEAD;
}.

Lemma links_ext nx' pv' nx0 pv0 a l z :
  (forall x, x ∈ a :: l -> nx' x = nx0 x) -> (forall x, x ∈ l ++ [z] -> pv' x = pv0 x) ->
  links nx0 pv0 a l z -> links nx' pv' a l z.
Proof.
  revert a. induction l as [|x l IH]; intros a Hn Hp; cbn.
  - rewrite Hn, Hp by set_solver. done.
  - rewrite Hn, Hp by set_solver. intros (? & ? & ?). split_and!; [done|done|].
    apply IH; [|intros; apply Hp|done]; set_solver.
Qed.

Lemma links_app nx0 pv0 a l1 x l2 z :
  links nx0 pv0 a (l1 ++ x :: l2) z <-> links nx0 pv0 a l1 x /\ links nx0 pv0 x l2 z.
Proof.
  revert a. induction l1 as [|y l1 IH]; intros a; cbn; [tauto|]. rewrite IH. tauto.
Qed.

(** Update of a function at one point. *)
Definition fupd (f : nat -> nat) (i v : nat) : nat -> nat := fun j => if decide (j = i) then v else f j.

Lemma fupd_eq f i v : fupd f i v i = v.
Proof. unfold fupd. by rewrite decide_True. Qed.

Lemma fupd_ne f i v j : j <> i -> fupd f i v j = f j.
Proof. unfold fupd. intros. by rewrite decide_False. Qed.

Ltac fupd_tac :=
  let x := fresh in let Hx := fresh in
  intros x Hx; rewrite ?fupd_ne; [done|intros ->; revert Hx; set_solver..].

(** Putting [b] at the front. *)
Lemma links_insert nx0 pv0 h l b :
  links nx0 pv0 h l h -> NoDup (h :: b :: l) ->
  links (fupd (fupd nx0 b (nx0 h)) h b) (fupd (fupd pv0 b h) (nx0 h) b) h (b :: l) h.
Proof.
  intros Hl Hnd. apply list.NoDup_cons in Hnd as [Hh Hnd].
  apply list.NoDup_cons in Hnd as [Hb Hnd].
  destruct l as [|x l]; cbn in *.
  - destruct Hl as [E1 E2]. rewrite E1. rewrite !fupd_eq. rewrite (fupd_ne _ h) by set_solver.
    rewrite (fupd_ne (fupd nx0 b h) h) by set_solver. by rewrite !fupd_eq.
  - destruct Hl as (E1 & E2 & Hl). apply list.NoDup_cons in Hnd as [Hx Hnd]. rewrite E1.
    rewrite fupd_eq, (fupd_ne _ x) by set_solver. rewrite fupd_eq.
    rewrite (fupd_ne _ h) by set_solver. rewrite !fupd_eq. split_and!; try done.
    eapply links_ext; [| |done]; fupd_tac.
Qed.

(** Taking [b] out. *)
Lemma links_remove nx0 pv0 h l1 l2 b :
  links nx0 pv0 h (l1 ++ b :: l2) h -> NoDup (h :: l1 ++ b :: l2) ->
  links (fupd nx0 (pv0 b) (nx0 b)) (fupd pv0 (nx0 b) (pv0 b)) h (l1 ++ l2) h.
Proof.
  rewrite links_app. intros [H1 H2] Hnd.
  apply list.NoDup_cons in Hnd as [Hh Hnd]. apply list.NoDup_app in Hnd as (N1 & N12 & N2).
  apply list.NoDup_cons in N2 as [Nb N2].
  destruct l1 as [|p l1' _] using rev_ind; swap 1 2.
  - rewrite links_app in H1. cbn in H1. destruct H1 as (H1 & E1 & E1').
    apply list.NoDup_app in N1 as (N1 & N1p & _).
    pose proof (N12 p ltac:(set_solver)) as Np.
    rewrite <- app_assoc. cbn. rewrite links_app. rewrite E1'.
    destruct l2 as [|n l2]; cbn in H2 |- *.
    + destruct H2 as [E2 E2']. rewrite E2. rewrite !fupd_eq. split_and!; [|done|done].
      eapply links_ext; [| |done]; fupd_tac.
    + destruct H2 as (E2 & E2' & H2). rewrite E2. rewrite !fupd_eq.
      apply list.NoDup_cons in N2 as [Nn N2]. split_and!; [|done|done|].
      all: eapply links_ext; [| |done]; fupd_tac.
  - cbn in H1 |- *. destruct H1 as [E1 E1']. rewrite E1'.
    destruct l2 as [|n l2]; cbn in H2 |- *.
    + destruct H2 as [E2 E2']. rewrite E2. by rewrite !fupd_eq.
    + destruct H2 as (E2 & E2' & H2). rewrite E2. rewrite !fupd_eq.
      apply list.NoDup_cons in N2 as [Nn N2]. split_and!; [done|done|].
      eapply links_ext; [| |done]; fupd_tac.
Qed.

Lemma lru_nodup bs l : lru bs l -> NoDup (HEAD :: l).
Proof.
  intros [_ Hp _]. apply list.NoDup_cons. rewrite Hp. split; [|apply NoDup_seq].
  rewrite elem_of_seq. lia.
Qed.

Lemma lru_elem bs l i : lru bs l -> i ∈ l <-> (i < HEAD)%nat.
Proof. intros [_ Hp _]. rewrite Hp, elem_of_seq. lia. Qed.

(** * Looking for a buffer *)

Definition is_block (bs : list buf) (dev bno : Z) (i : nat) : bool :=
  (b_dev (bs !!! i) =? dev) && (b_blockno (bs !!! i) =? bno).

Definition is_unused (bs : list buf) (i : nat) : bool := b_refcnt (bs !!! i) =? 0.

Lemma bget_cached_run l a n dev bno k :
  links (nx (k_bufs k)) (pv (k_bufs k)) a l HEAD -> HEAD ∉ l -> (length l <= n)%nat ->
  bget_cached n (nx (k_bufs k) a) dev bno k = Ok (List.find (is_block (k_bufs k) dev bno) l) k.
Proof.
  revert a n. induction l as [|x l IH]; intros a n; cbn [links length List.find].
  - intros [-> _] _ _. by destruct n.
  - intros (-> & _ & Hl) Hn Hle. destruct n as [|n]; [lia|]. cbn [bget_cached].
    rewrite decide_False by set_solver. kstep. unfold is_block at 1.
    destruct (_ && _); [done|]. apply IH; [done|set_solver|lia].
Qed.

Lemma bget_unused_run l z n k :
  links (nx (k_bufs k)) (pv (k_bufs k)) HEAD l z -> HEAD ∉ l -> (length l <= n)%nat ->
  bget_unused n (pv (k_bufs k) z) k = Ok (List.find (is_unused (k_bufs k)) (rev l)) k.
Proof.
  revert z n. induction l as [|x l IH] using rev_ind; intros z n.
  - cbn [links]. intros [_ ->] _ _. by destruct n.
  - rewrite links_app, length_app, rev_app_distr. cbn [links length rev app List.find].
    intros (Hl & _ & ->) Hn Hle. destruct n as [|n]; [lia|]. cbn [bget_unused].
    rewrite decide_False by set_solver. kstep. unfold is_unused at 1.
    destruct (_ =? _); [done|]. apply IH; [done|set_solver|lia].
Qed.

(** What bget() does to the buffer it recycles, and to the one it finds. *)
Definition recycle (dev bno : Z) (bf : buf) : buf :=
  set_b_refcnt 1 (set_b_valid 0 (set_b_blockno bno (set_b_dev dev bf))).
Definition ref_up (bf : buf) : buf := set_b_refcnt (u32 (b_refcnt bf + 1)) bf.

Definition upd_bufs (b : nat) (f : buf -> buf) (k : K) : K :=
  set_k_bufs (alter f b (k_bufs k)) k.

Lemma bget_run l dev bno k :
  lru (k_bufs k) l -> L_bcache ∉ k_held k ->
  bget dev bno k =
    match List.find (is_block (k_bufs k) dev bno) l with
    | Some b => (acquiresleep (SL_buf b) ;;; ret b) (upd_bufs b ref_up k)
    | None =>
        match List.find (is_unused (k_bufs k)) (rev l) with
        | Some b => (acquiresleep (SL_buf b) ;;; ret b) (upd_bufs b (recycle dev bno) k)
        | None => Panic "bget: no buffers" (set_k_held ({[L_bcache]} ∪ k_held k) k)
        end
    end.
Proof.
  intros Hl Hh. pose proof (lru_nodup _ _ Hl) as Hnd. apply list.NoDup_cons in Hnd as [Hn _].
  assert (length l <= Z.to_nat NBUF)%nat as Hlen.
  { rewrite (lru_perm _ _ Hl), length_seq. done. }
  unfold bget. kstep. kstep.
  eapply bind_eq; [apply (bget_cached_run l); [apply Hl|done|done]|]. cbn [k_bufs set_k_held].
  destruct (List.find (is_block _ _ _) l) as [b|].
  - kstep. eapply bind_eq; [by apply (release_acquired _ k)|]. done.
  - kstep. eapply bind_eq; [apply (bget_unused_run l); [apply Hl|done|done]|].
    cbn [k_bufs set_k_held]. destruct (List.find _ (rev l)) as [b|]; [|done].
    do 4 kstep. eapply bind_eq; [by apply (release_acquired _ k)|].
    unfold upd_bufs. f_equal. cbn. by rewrite !alter_alter.
Qed.

(** * Moving a buffer to the front *)

(** A buffer but for its place on the list. *)
Definition content (bf : buf) : buf := set_b_prev 0 (set_b_next 0 bf).

Lemma total_alter (f : buf -> buf) (bs : list buf) i j :
  (i < length bs)%nat ->
  alter f i bs !!! j = if decide (i = j) then f (bs !!! i) else bs !!! j.
Proof.
  intros Hi. rewrite list_lookup_total_alter. repeat case_decide; try done; naive_solver.
Qed.

Lemma nx_set_next v i bs j : (i < length bs)%nat -> nx (alter (set_b_next v) i bs) j = fupd (nx bs) i v j.
Proof. intros. unfold nx, fupd. rewrite total_alter by done. by repeat case_decide. Qed.

Lemma pv_set_prev v i bs j : (i < length bs)%nat -> pv (alter (set_b_prev v) i bs) j = fupd (pv bs) i v j.
Proof. intros. unfold pv, fupd. rewrite total_alter by done. by repeat case_decide. Qed.

(** An update that leaves the pointers alone. *)
Definition keeps_links (f : buf -> buf) : Prop :=
  forall bf, b_next (f bf) = b_next bf /\ b_prev (f bf) = b_prev bf.

Lemma nx_keep (f : buf -> buf) i bs j :
  (forall bf, b_next (f bf) = b_next bf) -> (i < length bs)%nat -> nx (alter f i bs) j = nx bs j.
Proof. intros H Hi. unfold nx. rewrite total_alter by done. case_decide; subst; by rewrite ?H. Qed.

Lemma pv_keep (f : buf -> buf) i bs j :
  (forall bf, b_prev (f bf) = b_prev bf) -> (i < length bs)%nat -> pv (alter f i bs) j = pv bs j.
Proof. intros H Hi. unfold pv. rewrite total_alter by done. case_decide; subst; by rewrite ?H. Qed.

Lemma lru_alter f i bs l :
  (forall bf, b_next (f bf) = b_next bf) -> (forall bf, b_prev (f bf) = b_prev bf) ->
  (i < length bs)%nat -> lru bs l -> lru (alter f i bs) l.
Proof.
  intros H1 H2 Hi [Hlen Hp Hl]. split; [by rewrite length_alter|done|].
  eapply links_ext; [| |exact Hl]; intros; [by apply nx_keep|by apply pv_keep].
Qed.

Definition to_front (b : nat) (l : list nat) : list nat := b :: filter (fun x => x <> b) l.

(** The four assignments that put [b] at the head of the list. *)
Definition push_front (b : nat) (bs : list buf) : list buf :=
  let h := nx bs HEAD in
  alter (set_b_next b) HEAD
    (alter (set_b_prev b) h (alter (set_b_prev HEAD) b (alter (set_b_next h) b bs))).

Lemma push_front_links b bs l :
  links (nx bs) (pv bs) HEAD l HEAD -> NoDup (HEAD :: b :: l) -> length bs = S HEAD ->
  (forall x, x ∈ b :: l -> (x < HEAD)%nat) ->
  links (nx (push_front b bs)) (pv (push_front b bs)) HEAD (b :: l) HEAD.
Proof.
  intros Hl Hnd Hlen Hlt. assert (b < HEAD)%nat as Hb by (apply Hlt; set_solver).
  assert (nx bs HEAD < length bs)%nat as Hh.
  { destruct l as [|y l]; cbn in Hl; destruct Hl as [-> _]; [lia|].
    assert (y < HEAD)%nat by (apply Hlt; set_solver). lia. }
  unfold push_front. eapply links_ext; [| |apply (links_insert _ _ _ _ _ Hl Hnd)]; intros x _.
  - rewrite nx_set_next by (rewrite !length_alter; lia). unfold fupd.
    case_decide; [done|]. rewrite !nx_keep by (rewrite ?length_alter; lia || done).
    rewrite nx_set_next by lia. done.
  - rewrite pv_keep by (rewrite ?length_alter; lia || done).
    rewrite pv_set_prev by (rewrite ?length_alter; lia). unfold fupd.
    case_decide; [done|]. rewrite pv_set_prev by (rewrite ?length_alter; lia). unfold fupd.
    case_decide; [done|]. by rewrite pv_keep by (rewrite ?length_alter; lia || done).
Qed.

Lemma length_push_front b bs : length (push_front b bs) = length bs.
Proof. unfold push_front. by rewrite !length_alter. Qed.

(** The six assignments with which brelse() moves [b] to the head of the list. *)
Definition relink (b : nat) (bs : list buf) : list buf :=
  push_front b
    (alter (set_b_next (nx bs b)) (pv bs b) (alter (set_b_prev (pv bs b)) (nx bs b) bs)).

Lemma filter_ne_notin (b : nat) (l : list nat) : b ∉ l -> filter (fun x => x <> b) l = l.
Proof.
  induction l as [|x l IH]; intros Hb; [done|]. rewrite filter_cons, decide_True by set_solver.
  rewrite IH; [done|set_solver].
Qed.

Lemma to_front_middle b l1 l2 :
  NoDup (HEAD :: l1 ++ b :: l2) -> to_front b (l1 ++ b :: l2) = b :: l1 ++ l2.
Proof.
  intros Hnd. unfold to_front. f_equal. apply list.NoDup_cons in Hnd as [_ Hnd].
  apply list.NoDup_app in Hnd as (_ & H12 & H2). apply list.NoDup_cons in H2 as [H2 _].
  rewrite list.filter_app, filter_cons, decide_False by tauto.
  rewrite !filter_ne_notin by set_solver. done.
Qed.

Lemma relink_lru b bs l : lru bs l -> b ∈ l -> lru (relink b bs) (to_front b l).
Proof.
  intros Hl Hb. pose proof (lru_nodup _ _ Hl) as Hnd. destruct Hl as [Hlen Hp Hl].
  assert (forall x, x ∈ l -> (x < HEAD)%nat) as Hlt.
  { intros x. rewrite Hp, elem_of_seq. lia. }
  apply list_elem_of_split in Hb as (l1 & l2 & ->). rewrite (to_front_middle _ _ _ Hnd).
  pose proof (links_remove _ _ _ _ _ _ Hl Hnd) as Hrm.
  assert (nx bs b < length bs)%nat as Hnx.
  { rewrite links_app in Hl. destruct Hl as [_ Hl]. destruct l2 as [|y l2]; cbn in Hl;
      destruct Hl as [-> _]; [lia|]. assert (y < HEAD)%nat by (apply Hlt; set_solver). lia. }
  assert (pv bs b < length bs)%nat as Hpv.
  { rewrite links_app in Hl. destruct Hl as [Hl _]. destruct l1 as [|y l1 _] using rev_ind.
    - destruct Hl as [_ ->]. lia.
    - rewrite links_app in Hl. destruct Hl as (_ & _ & ->).
      assert (y < HEAD)%nat by (apply Hlt; set_solver). lia. }
  unfold relink. set (bs2 := alter _ (pv bs b) _).
  assert (length bs2 = S HEAD) as Hlen2 by (unfold bs2; by rewrite !length_alter).
  split.
  - by rewrite length_push_front.
  - rewrite <- Hp. apply Permutation_middle.
  - apply push_front_links; [|by rewrite Permutation_middle|done|set_solver].
    eapply links_ext; [| |exact Hrm]; intros x _; unfold bs2.
    + rewrite nx_set_next by (by rewrite length_alter). unfold fupd.
      case_decide; [done|]. by rewrite nx_keep.
    + rewrite pv_keep by (rewrite ?length_alter; done). by rewrite pv_set_prev.
Qed.

Lemma content_alter (f : buf -> buf) (l : list buf) j i :
  (forall bf, content (f bf) = content bf) -> content (alter f j l !!! i) = content (l !!! i).
Proof.
  intros Hf. rewrite list_lookup_total_alter. case_decide as D; [|done].
  destruct D as [-> _]. apply Hf.
Qed.

Lemma push_front_content b bs i : content (push_front b bs !!! i) = content (bs !!! i).
Proof. unfold push_front. by rewrite !content_alter. Qed.

Lemma relink_content b bs i : content (relink b bs !!! i) = content (bs !!! i).
Proof. unfold relink. by rewrite push_front_content, !content_alter. Qed.

(** What brelse() does to the buffer it releases. *)
Definition ref_down (bf : buf) : buf :=
  set_b_refcnt (u32 (b_refcnt bf - 1)) (set_b_lock (mk_sleeplock 0 0) bf).

Definition bio_ready (p : nat) (k : K) : Prop :=
  k_proc k = Some p /\ wake_ready k /\ L_bcache ∉ k_held k /\
  forall b, L_sleep (SL_buf b) ∉ k_held k.

(** The sleep-lock of buffer [b] is held by process [p]. *)
Definition locked_by (p : nat) (b : nat) (k : K) : Prop :=
  b_lock (k_bufs k !!! b) = mk_sleeplock 1 (p_pid (k_procs k !!! p)).

Lemma holdingsleep_mine p b k :
  bio_ready p k -> locked_by p b k -> holdingsleep (SL_buf b) k = Ok true k.
Proof.
  intros (Hp & _ & _ & Hs) Hb. rewrite (holdingsleep_run _ p) by auto. unfold locked_by in Hb.
  cbn [get_sleeplock]. rewrite Hb. cbn. by rewrite Z.eqb_refl.
Qed.

Lemma bwrite_run p b k :
  bio_ready p k -> locked_by p b k ->
  bwrite b k =
    Ok tt (let bf := k_bufs k !!! b in
           set_k_writes ((b_blockno bf, b_data bf) :: k_writes k)
             (set_k_disk (<[b_blockno bf := b_data bf]> (k_disk k)) k)).
Proof.
  intros Hr Hb. unfold bwrite.
  eapply bind_eq; [by apply (holdingsleep_mine p)|]. done.
Qed.

Definition relink_if (c : bool) (b : nat) (bs : list buf) : list buf :=
  if c then relink b bs else bs.

Lemma brelse_run p l b k :
  bio_ready p k -> locked_by p b k -> lru (k_bufs k) l -> b ∈ l ->
  brelse b k =
    Ok tt (set_k_bufs
             (relink_if (u32 (b_refcnt (k_bufs k !!! b) - 1) =? 0) b (alter ref_down b (k_bufs k)))
             (set_k_procs (wake_all (Ch_sleeplock (SL_buf b)) (k_proc k) (k_procs k)) k)).
Proof.
  intros Hr Hb Hl Hin. pose proof (lru_length _ _ Hl) as Hlen.
  assert (b < length (k_bufs k))%nat as Hlt.
  { rewrite (lru_elem _ _ _ Hl) in Hin. lia. }
  unfold brelse. eapply bind_eq; [by apply (holdingsleep_mine p)|]. cbn [negb].
  destruct Hr as (Hp & Hw & Hc & Hs).
  eapply bind_eq; [rewrite releasesleep_run by auto; reflexivity|].
  kstep. kstep. kstep. cbn [k_bufs set_k_bufs set_k_procs set_k_held k_procs].
  match goal with |- context [alter ?f b (alter ?g b ?bs)] =>
    replace (alter f b (alter g b bs)) with (alter ref_down b bs) by (by rewrite alter_alter)
  end.
  replace (b_refcnt (alter ref_down b (k_bufs k) !!! b) =? 0)
    with (u32 (b_refcnt (k_bufs k !!! b) - 1) =? 0)
    by (by rewrite total_alter, decide_True by done).
  destruct (_ =? 0); cbn [when relink_if].
  - repeat kstep. cbn. rewrite held_add_del by done. done.
  - repeat kstep. cbn. rewrite held_add_del by done. done.
Qed.

(** * binit() *)

Definition unlock_buf (bf : buf) : buf := set_b_lock (mk_sleeplock 0 0) bf.

(** One turn of binit()'s loop. *)
Lemma binit_body b k :
  (b < HEAD)%nat -> length (k_bufs k) = S HEAD -> L_sleep (SL_buf b) ∉ k_held k ->
  (let* head := get_buf HEAD in
   upd_buf b (set_b_next (b_next head)) ;;;
   upd_buf b (set_b_prev HEAD) ;;;
   initsleeplock (SL_buf b) ;;;
   let* head := get_buf HEAD in
   upd_buf (b_next head) (set_b_prev b) ;;;
   upd_buf HEAD (set_b_next b)) k =
  Ok tt (set_k_bufs (push_front b (alter unlock_buf b (k_bufs k))) k).
Proof.
  intros Hb Hlen Hh. unfold initsleeplock, initlock. cbn [upd_sleeplock]. repeat kstep.
  unfold upd_buf at 1, modify. cbn. rewrite difference_disjoint_L by set_solver.
  assert (forall f g, nx (alter f b (alter g b (k_bufs k))) HEAD = nx (k_bufs k) HEAD) as Hne.
  { intros f g. unfold nx. rewrite !list_lookup_total_alter_ne by lia. done. }
  assert (forall f, nx (alter f b (k_bufs k)) HEAD = nx (k_bufs k) HEAD) as Hne1.
  { intros f. unfold nx. by rewrite list_lookup_total_alter_ne by lia. }
  unfold push_front. rewrite Hne1. rewrite !alter_alter.
  match goal with |- context [b_next (alter ?f b ?l !!! HEAD)] =>
    change (b_next (alter f b l !!! HEAD)) with (nx (alter f b l) HEAD); rewrite Hne1 end.
  done.
Qed.

Lemma binit_loop n : forall a k,
  (a + n)%nat = HEAD -> length (k_bufs k) = S HEAD -> (forall b, L_sleep (SL_buf b) ∉ k_held k) ->
  links (nx (k_bufs k)) (pv (k_bufs k)) HEAD (rev (seq 0 a)) HEAD ->
  exists bs', for_ (seq a n) (fun b =>
    let* head := get_buf HEAD in
    upd_buf b (set_b_next (b_next head)) ;;;
    upd_buf b (set_b_prev HEAD) ;;;
    initsleeplock (SL_buf b) ;;;
    let* head := get_buf HEAD in
    upd_buf (b_next head) (set_b_prev b) ;;;
    upd_buf HEAD (set_b_next b)) k = Ok tt (set_k_bufs bs' k) /\
    lru bs' (rev (seq 0 HEAD)) /\
    forall i, content (bs' !!! i) =
      content (if decide (a <= i < HEAD)%nat then unlock_buf (k_bufs k !!! i) else k_bufs k !!! i).
Proof.
  induction n as [|n IH]; intros a k Hn Hlen Hh Hl; cbn [for_ seq].
  - assert (a = HEAD) as -> by lia. exists (k_bufs k). split_and!; [done| |].
    + split; [done| |done]. symmetry. apply Permutation_rev.
    + intros i. by rewrite decide_False by lia.
  - set (bs1 := push_front a (alter unlock_buf a (k_bufs k))).
    assert (length bs1 = S HEAD) as Hlen1 by (unfold bs1; by rewrite length_push_front, length_alter).
    destruct (IH (S a) (set_k_bufs bs1 k)) as (bs' & E & Hl' & Hc); [lia|done|done| |].
    + rewrite seq_S, rev_app_distr. cbn [rev app]. apply push_front_links.
      * eapply links_ext; [| |exact Hl]; intros x _; [apply nx_keep|apply pv_keep]; done || lia.
      * apply list.NoDup_cons. split.
        -- intros Hin. apply elem_of_cons in Hin as [?|Hin]; [lia|].
           rewrite <- Permutation_rev in Hin. apply elem_of_seq in Hin. lia.
        -- apply list.NoDup_cons. split.
           ++ rewrite <- Permutation_rev, elem_of_seq. lia.
           ++ rewrite <- Permutation_rev. apply NoDup_seq.
      * by rewrite length_alter.
      * intros x Hin. apply elem_of_cons in Hin as [->|Hin]; [lia|].
        rewrite <- Permutation_rev in Hin. apply elem_of_seq in Hin. lia.
    + exists bs'. split_and!; [|done|].
      * eapply bind_eq; [apply binit_body; [lia|done|auto]|]. exact E.
      * intros i. rewrite Hc. cbn [k_bufs set_k_bufs]. unfold bs1.
        destruct (decide (i = a)) as [->|Hne].
        -- rewrite decide_False, decide_True by lia. rewrite push_front_content.
           by rewrite total_alter, decide_True by lia.
        -- assert (content (push_front a (alter unlock_buf a (k_bufs k)) !!! i)
                   = content (k_bufs k !!! i)) as Ei.
           { rewrite push_front_content. by rewrite total_alter, decide_False by lia. }
           repeat case_decide; try lia; [|done].
           transitivity (unlock_buf (content (push_front a (alter unlock_buf a (k_bufs k)) !!! i)));
             [done|]. by rewrite Ei.
Qed.

(** binit() links the NBUF buffers into the list, buf[NBUF-1] first. *)
Lemma binit_run k :
  length (k_bufs k) = S HEAD -> L_bcache ∉ k_held k -> (forall b, L_sleep (SL_buf b) ∉ k_held k) ->
  exists bs', binit k = Ok tt (set_k_bufs bs' k) /\ lru bs' (rev (seq 0 HEAD)) /\
    forall i, (i < HEAD)%nat -> content (bs' !!! i) = content (unlock_buf (k_bufs k !!! i)).
Proof.
  intros Hlen Hb Hh. assert (k_held k ∖ {[L_bcache]} = k_held k) as Ek by set_solver. set (bs0 := alter (set_b_next HEAD) HEAD (alter (set_b_prev HEAD) HEAD (k_bufs k))).
  destruct (binit_loop HEAD 0 (set_k_bufs bs0 k)) as (bs' & E & Hl & Hc);
    [done|unfold bs0; cbn; by rewrite !length_alter|done| |].
  - cbn [seq rev links]. unfold bs0. cbn [k_bufs set_k_bufs]. split.
    + rewrite nx_set_next by (rewrite length_alter; lia). apply fupd_eq.
    + rewrite pv_keep by (rewrite ?length_alter; lia || done).
      rewrite pv_set_prev by lia. apply fupd_eq.
  - exists bs'. split_and!; [|done|].
    + unfold binit, initlock. kstep. kstep. kstep. rewrite Ek.
      match goal with |- for_ _ _ ?k1 = _ => change k1 with (set_k_bufs bs0 k) end.
      fold HEAD. exact E.
    + intros i Hi. rewrite Hc, decide_True by lia. cbn [k_bufs set_k_bufs]. unfold bs0.
      by rewrite !list_lookup_total_alter_ne by lia.
Qed.

End bio.
