(* ===== verification/Bcache.v ===== *)
(** The buffer cache as its clients see it: an interface, and the proof that
    kernel/bio.c implements it.

    A client sees the contents of a block ([view]: what the cache holds, else
    what is on disk), how often the block is referenced ([refs]), and which
    buffers it holds locked. *)
From S2P Require Import Prelude CInt KState KString Riscv Kalloc Vm Proc Bio.

(** * What wakeups inside the cache may do to the rest of the state *)

(** The process tables agree but for the states of processes other than [me]. *)
Definition procs_rel (me : option nat) (ps ps' : list proc) : Prop :=
  length ps' = length ps /\
  forall i, set_p_state UNUSED (ps' !!! i) = set_p_state UNUSED (ps !!! i) /\
            (me = Some i -> ps' !!! i = ps !!! i).

Lemma procs_rel_refl me ps : procs_rel me ps ps.
Proof. by split. Qed.

Lemma procs_rel_trans me ps1 ps2 ps3 :
  procs_rel me ps1 ps2 -> procs_rel me ps2 ps3 -> procs_rel me ps1 ps3.
Proof.
  intros [L1 H1] [L2 H2]. split; [congruence|]. intros i.
  destruct (H1 i) as [A1 B1], (H2 i) as [A2 B2]. split; [congruence|].
  intros E. by rewrite B2, B1.
Qed.

Lemma procs_rel_wake_all ch me ps : procs_rel me ps (wake_all ch me ps).
Proof.
  split; [by unfold wake_all; rewrite length_imap|]. intros i. unfold wake_all.
  destruct (ps !! i) as [pr|] eqn:E.
  - rewrite (list_lookup_total_correct _ _ _ E).
    erewrite list_lookup_total_correct; [|by rewrite list_lookup_imap, E].
    unfold wake_one, wake_proc. repeat case_decide; naive_solver.
  - rewrite !list_lookup_total_alt, list_lookup_imap, E. done.
Qed.

(** [k'] is [k] but for the buffers and other processes' states. *)
Definition bio_frame (k k' : K) : Prop :=
  exists bs ps, k' = set_k_bufs bs (set_k_procs ps k) /\ procs_rel (k_proc k) (k_procs k) ps.

Lemma bio_frame_bufs bs k : bio_frame k (set_k_bufs bs k).
Proof. exists bs, (k_procs k). split; [done|apply procs_rel_refl]. Qed.

#[export] Instance bio_frame_preorder : PreOrder bio_frame.
Proof.
  split.
  - intros k. exists (k_bufs k), (k_procs k). split; [done|apply procs_rel_refl].
  - intros k1 k2 k3 (bs & ps & -> & H1) (bs' & ps' & -> & H2). exists bs', ps'. split; [done|].
    by eapply procs_rel_trans.
Qed.

Lemma bio_frame_ready `{Platform} p k k' : bio_frame k k' -> bio_ready p k -> bio_ready p k'.
Proof.
  intros (bs & ps & -> & Hl & _) (Hp & [Hw1 Hw2] & Hb & Hs).
  split_and!; try done. split; [cbn; congruence|done].
Qed.

(** * The interface *)

Definition fn_upd {A} (f : Z -> A) (x : Z) (v : A) : Z -> A :=
  fun y => if decide (y = x) then v else f y.

(** What a client of the cache relies on: [cinv k H] is the cache's invariant
    with the buffers [H] locked by the client, each with its block number. *)
Class BlockCache {P : Platform} (dev : Z) (p : nat) := {
  view : K -> Z -> list Z;
  refs : K -> Z -> Z;
  cinv : K -> gmap nat Z -> Prop;

  cinv_refs k H bno : cinv k H -> 0 <= refs k bno < 2 ^ 32;
  cinv_size k H bno : cinv k H -> length (view k bno) = Z.to_nat BSIZE;
  cinv_data k H b bno : cinv k H -> H !! b = Some bno -> b_data (k_bufs k !!! b) = view k bno;
  cinv_blockno k H b bno : cinv k H -> H !! b = Some bno -> b_blockno (k_bufs k !!! b) = bno;
  cinv_held k H b bno : cinv k H -> H !! b = Some bno -> refs k bno <> 0;
  cinv_clean k H bno : cinv k H -> refs k bno = 0 -> view k bno = disk_block (k_disk k) bno;

  (** The cache depends on nothing else of the state. *)
  cinv_frame k k' H :
    cinv k H -> k_bufs k' = k_bufs k -> k_disk k' = k_disk k ->
    p_pid (k_procs k' !!! p) = p_pid (k_procs k !!! p) ->
    cinv k' H /\ (forall x, view k' x = view k x) /\ (forall x, refs k' x = refs k x);

  (** bread() succeeds if the block is referenced or fewer blocks than there
      are buffers are. *)
  bread_law k H bno :
    bio_ready p k -> cinv k H -> (forall b, H !! b <> Some bno) -> refs k bno + 1 < 2 ^ 32 ->
    (refs k bno <> 0 \/
     exists X : gset Z, (size X < Z.to_nat NBUF)%nat /\ forall x, refs k x <> 0 -> x ∈ X) ->
    exists b k', bread dev bno k = Ok b k' /\ bio_frame k k' /\
      cinv k' (<[b := bno]> H) /\ H !! b = None /\
      (forall x, view k' x = view k x) /\
      (forall x, refs k' x = fn_upd (refs k) bno (refs k bno + 1) x);

  (** Changing the contents of a buffer one holds. *)
  store_law k H b bno d :
    cinv k H -> H !! b = Some bno -> length d = Z.to_nat BSIZE ->
    let k' := upd_bufs b (set_b_data d) k in
    cinv k' H /\ (forall x, view k' x = fn_upd (view k) bno d x) /\
    (forall x, refs k' x = refs k x);

  bwrite_law k H b bno :
    bio_ready p k -> cinv k H -> H !! b = Some bno ->
    exists k', bwrite b k = Ok tt k' /\
      k' = set_k_writes ((bno, view k bno) :: k_writes k)
             (set_k_disk (<[bno := view k bno]> (k_disk k)) k) /\
      cinv k' H /\ (forall x, view k' x = view k x) /\ (forall x, refs k' x = refs k x);

  (** A buffer that nobody references any more must agree with the disk. *)
  brelse_law k H b bno :
    bio_ready p k -> cinv k H -> H !! b = Some bno ->
    (refs k bno = 1 -> view k bno = disk_block (k_disk k) bno) ->
    exists k', brelse b k = Ok tt k' /\ bio_frame k k' /\
      cinv k' (delete b H) /\ (forall x, view k' x = view k x) /\
      (forall x, refs k' x = fn_upd (refs k) bno (refs k bno - 1) x);

  bpin_law k H b bno :
    bio_ready p k -> cinv k H -> H !! b = Some bno -> refs k bno + 1 < 2 ^ 32 ->
    exists k', bpin b k = Ok tt k' /\ bio_frame k k' /\
      cinv k' H /\ (forall x, view k' x = view k x) /\
      (forall x, refs k' x = fn_upd (refs k) bno (refs k bno + 1) x);

  bunpin_law k H b bno :
    bio_ready p k -> cinv k H -> H !! b = Some bno -> 1 < refs k bno ->
    exists k', bunpin b k = Ok tt k' /\ bio_frame k k' /\
      cinv k' H /\ (forall x, view k' x = view k x) /\
      (forall x, refs k' x = fn_upd (refs k) bno (refs k bno - 1) x);
}.

(** * kernel/bio.c implements it *)

Section bcache.
Context {P : Platform} (dev : Z) (p : nat).

Definition find_buf (bs : list buf) (bno : Z) : option nat :=
  List.find (is_block bs dev bno) (seq 0 HEAD).

Definition buf_view (d : gmap Z (list Z)) (bf : buf) : list Z :=
  if b_valid bf =? 0 then disk_block d (b_blockno bf) else b_data bf.

Definition bc_view (k : K) (bno : Z) : list Z :=
  match find_buf (k_bufs k) bno with
  | Some i => buf_view (k_disk k) (k_bufs k !!! i)
  | None => disk_block (k_disk k) bno
  end.

Definition bc_refs (k : K) (bno : Z) : Z :=
  match find_buf (k_bufs k) bno with
  | Some i => b_refcnt (k_bufs k !!! i)
  | None => 0
  end.

(** Buffer [i] is assigned to block [bno] of the device. *)
Definition caches (bs : list buf) (i : nat) (bno : Z) : Prop :=
  (i < HEAD)%nat /\ b_dev (bs !!! i) = dev /\ b_blockno (bs !!! i) = bno.

Record bc_inv (k : K) (H : gmap nat Z) : Prop := mk_bc_inv {
  bc_lru : exists l, lru (k_bufs k) l;
  bc_uniq : forall i j bno, caches (k_bufs k) i bno -> caches (k_bufs k) j bno -> i = j;
  bc_refcnt : forall i, (i < HEAD)%nat -> 0 <= b_refcnt (k_bufs k !!! i) < 2 ^ 32;
  bc_dev : forall i, (i < HEAD)%nat -> b_refcnt (k_bufs k !!! i) <> 0 -> b_dev (k_bufs k !!! i) = dev;
  bc_clean : forall i bno, caches (k_bufs k) i bno -> b_refcnt (k_bufs k !!! i) = 0 ->
    buf_view (k_disk k) (k_bufs k !!! i) = disk_block (k_disk k) bno;
  bc_held : forall i bno, H !! i = Some bno ->
    caches (k_bufs k) i bno /\ b_valid (k_bufs k !!! i) <> 0 /\
    b_refcnt (k_bufs k !!! i) <> 0 /\ locked_by p i k;
  bc_unlocked : forall i, (i < HEAD)%nat -> H !! i = None -> sl_locked (b_lock (k_bufs k !!! i)) = 0;
  bc_size : forall i, (i < HEAD)%nat -> length (b_data (k_bufs k !!! i)) = Z.to_nat BSIZE;
  bc_dsize : forall bno, length (disk_block (k_disk k) bno) = Z.to_nat BSIZE;
}.

Lemma find_buf_Some bs bno i : find_buf bs bno = Some i -> caches bs i bno.
Proof.
  intros E. apply List.find_some in E as [Hin E]. unfold is_block in E. b2p.
  apply in_seq in Hin. split_and!; [lia|done|done].
Qed.

Lemma find_buf_None bs bno i : find_buf bs bno = None -> ~ caches bs i bno.
Proof.
  intros E (Hi & Hd & Hb). eapply List.find_none in E; [|apply in_seq; split; [lia|exact Hi]].
  unfold is_block in E. rewrite Hd, Hb, !Z.eqb_refl in E. done.
Qed.

Lemma find_buf_caches k H i bno :
  bc_inv k H -> caches (k_bufs k) i bno -> find_buf (k_bufs k) bno = Some i.
Proof.
  intros I Hc. destruct (find_buf (k_bufs k) bno) as [j|] eqn:E.
  - apply find_buf_Some in E. f_equal. by eapply (bc_uniq _ _ I).
  - by apply find_buf_None with (i := i) in E.
Qed.

Lemma bc_view_caches k H i bno :
  bc_inv k H -> caches (k_bufs k) i bno -> bc_view k bno = buf_view (k_disk k) (k_bufs k !!! i).
Proof. intros I Hc. unfold bc_view. by rewrite (find_buf_caches _ _ _ _ I Hc). Qed.

Lemma bc_refs_caches k H i bno :
  bc_inv k H -> caches (k_bufs k) i bno -> bc_refs k bno = b_refcnt (k_bufs k !!! i).
Proof. intros I Hc. unfold bc_refs. by rewrite (find_buf_caches _ _ _ _ I Hc). Qed.

Lemma bc_view_none k bno :
  (forall i, ~ caches (k_bufs k) i bno) -> bc_view k bno = disk_block (k_disk k) bno.
Proof.
  intros Hn. unfold bc_view. destruct (find_buf _ _) eqn:E; [|done].
  apply find_buf_Some in E. by apply Hn in E.
Qed.

Lemma bc_refs_none k bno : (forall i, ~ caches (k_bufs k) i bno) -> bc_refs k bno = 0.
Proof.
  intros Hn. unfold bc_refs. destruct (find_buf _ _) eqn:E; [|done].
  apply find_buf_Some in E. by apply Hn in E.
Qed.

Lemma caches_dec bs bno : (exists i, caches bs i bno) \/ (forall i, ~ caches bs i bno).
Proof.
  destruct (find_buf bs bno) as [i|] eqn:E; [left; exists i; by apply find_buf_Some|].
  right. intros i. by apply find_buf_None.
Qed.

(** Two states with the same buffers, but for their places on the list, and
    the same disk. *)
Lemma bc_same k k' :
  (forall i, content (k_bufs k' !!! i) = content (k_bufs k !!! i)) -> k_disk k' = k_disk k ->
  (forall x, bc_view k' x = bc_view k x) /\ (forall x, bc_refs k' x = bc_refs k x).
Proof.
  intros Hc Hd.
  assert (forall i {A} (f : buf -> A), (forall bf, f (content bf) = f bf) ->
            f (k_bufs k' !!! i) = f (k_bufs k !!! i)) as Hf.
  { intros i A f Hf. by rewrite <- Hf, Hc, Hf. }
  assert (forall i, b_dev (k_bufs k' !!! i) = b_dev (k_bufs k !!! i)) as Hdev.
  { intros i. by apply (Hf i _ (fun bf => b_dev bf)). }
  assert (forall i, b_blockno (k_bufs k' !!! i) = b_blockno (k_bufs k !!! i)) as Hbno.
  { intros i. by apply (Hf i _ (fun bf => b_blockno bf)). }
  assert (forall x, find_buf (k_bufs k') x = find_buf (k_bufs k) x) as Hfind.
  { intros x. unfold find_buf. induction (seq 0 HEAD) as [|i l IH]; [done|]. cbn.
    rewrite IH. unfold is_block. by rewrite Hdev, Hbno. }
  split; intros x.
  - unfold bc_view. rewrite Hfind, Hd. destruct (find_buf _ x) as [i|]; [|done].
    by apply (Hf i _ (fun bf => buf_view (k_disk k) bf)).
  - unfold bc_refs. rewrite Hfind. destruct (find_buf _ x) as [i|]; [|done].
    by apply (Hf i _ (fun bf => b_refcnt bf)).
Qed.

(** * Changing one buffer *)

Lemma bufs_alter b F k j :
  (b < length (k_bufs k))%nat ->
  k_bufs (upd_bufs b F k) !!! j = if decide (b = j) then F (k_bufs k !!! b) else k_bufs k !!! j.
Proof. apply total_alter. Qed.

Lemma caches_alter_ne b F k i bno :
  b <> i -> (b < length (k_bufs k))%nat ->
  caches (k_bufs (upd_bufs b F k)) i bno <-> caches (k_bufs k) i bno.
Proof. intros Hne Hb. unfold caches. by rewrite bufs_alter, decide_False. Qed.

(** What has to hold of the new buffer [bf'] for the invariant to be kept. *)
Record buf_ok (k : K) (b : nat) (h : option Z) (bf' : buf) : Prop := mk_buf_ok {
  bo_uniq : b_dev bf' = dev -> forall i, i <> b -> ~ caches (k_bufs k) i (b_blockno bf');
  bo_refcnt : 0 <= b_refcnt bf' < 2 ^ 32;
  bo_dev : b_refcnt bf' <> 0 -> b_dev bf' = dev;
  bo_clean : b_refcnt bf' = 0 -> b_dev bf' = dev ->
    buf_view (k_disk k) bf' = disk_block (k_disk k) (b_blockno bf');
  bo_held : match h with
            | Some bno => b_dev bf' = dev /\ b_blockno bf' = bno /\ b_valid bf' <> 0 /\
                          b_refcnt bf' <> 0 /\ b_lock bf' = mk_sleeplock 1 (p_pid (k_procs k !!! p))
            | None => sl_locked (b_lock bf') = 0
            end;
  bo_size : length (b_data bf') = Z.to_nat BSIZE;
}.

Lemma bc_inv_alter k H H' b F :
  bc_inv k H -> (b < HEAD)%nat ->
  (forall bf, b_next (F bf) = b_next bf) -> (forall bf, b_prev (F bf) = b_prev bf) ->
  (forall i, i <> b -> H' !! i = H !! i) ->
  buf_ok k b (H' !! b) (F (k_bufs k !!! b)) -> bc_inv (upd_bufs b F k) H'.
Proof.
  intros I Hb Hn Hp HH B. destruct (bc_lru _ _ I) as [l Hl].
  pose proof (lru_length _ _ Hl) as Hlen. assert (b < length (k_bufs k))%nat as Hlt by lia.
  split.
  - exists l. by apply lru_alter.
  - intros i j bno. unfold caches. rewrite !bufs_alter by done.
    repeat case_decide; subst; try done; intros (Hi & Di & Bi) (Hj & Dj & Bj).
    + destruct (bo_uniq _ _ _ _ B Di j); [done|]. split_and!; [done|done|congruence].
    + destruct (bo_uniq _ _ _ _ B Dj i); [done|]. split_and!; [done|done|congruence].
    + apply (bc_uniq _ _ I i j (b_blockno (k_bufs k !!! j))); split_and!; try done; congruence.
  - intros i Hi. rewrite bufs_alter by done. case_decide; [apply B|by apply I].
  - intros i Hi. rewrite bufs_alter by done. case_decide; [apply B|by apply I].
  - intros i bno (Hi & Di & Bi). rewrite bufs_alter in * by done. case_decide.
    + subst bno. intros. by apply B.
    + apply (bc_clean _ _ I). done.
  - intros i bno Hi. destruct (decide (i = b)) as [->|Hne].
    + pose proof (bo_held _ _ _ _ B) as Bh. rewrite Hi in Bh. destruct Bh as (? & ? & ? & ? & ?).
      unfold caches, locked_by. rewrite bufs_alter, decide_True by done. done.
    + rewrite HH in Hi by done. destruct (bc_held _ _ I _ _ Hi) as (? & ? & ? & ?).
      unfold caches, locked_by. rewrite bufs_alter, decide_False by done. done.
  - intros i Hi Hh. rewrite bufs_alter by done. case_decide as E.
    + subst. pose proof (bo_held _ _ _ _ B) as Bh. by rewrite Hh in Bh.
    + apply I; [done|]. by rewrite <- HH.
  - intros i Hi. rewrite bufs_alter by done. case_decide; [apply B|by apply I].
  - apply I.
Qed.

(** The contents and references of block [x] after the change. *)
Lemma bc_alter_spec k H H' b F x :
  bc_inv k H -> bc_inv (upd_bufs b F k) H' -> (b < HEAD)%nat ->
  let bf := k_bufs k !!! b in
  if decide (b_dev (F bf) = dev /\ b_blockno (F bf) = x) then
    bc_view (upd_bufs b F k) x = buf_view (k_disk k) (F bf) /\
    bc_refs (upd_bufs b F k) x = b_refcnt (F bf)
  else if decide (b_dev bf = dev /\ b_blockno bf = x) then
    bc_view (upd_bufs b F k) x = disk_block (k_disk k) x /\ bc_refs (upd_bufs b F k) x = 0
  else
    bc_view (upd_bufs b F k) x = bc_view k x /\ bc_refs (upd_bufs b F k) x = bc_refs k x.
Proof.
  intros I I' Hb bf. destruct (bc_lru _ _ I) as [l Hl].
  pose proof (lru_length _ _ Hl) as Hlen. assert (b < length (k_bufs k))%nat as Hlt by lia.
  case_decide as D1; [|case_decide as D2].
  - assert (caches (k_bufs (upd_bufs b F k)) b x) as Hc.
    { unfold caches. by rewrite bufs_alter, decide_True. }
    rewrite (bc_view_caches _ _ _ _ I' Hc), (bc_refs_caches _ _ _ _ I' Hc).
    by rewrite bufs_alter, decide_True.
  - assert (forall i, ~ caches (k_bufs (upd_bufs b F k)) i x) as Hn.
    { intros i. destruct (decide (b = i)) as [<-|Hne].
      - unfold caches. rewrite bufs_alter, decide_True by done. tauto.
      - rewrite caches_alter_ne by done. intros Hc. apply Hne.
        eapply (bc_uniq _ _ I); [|exact Hc]. split; [done|exact D2]. }
    by rewrite bc_view_none, bc_refs_none.
  - destruct (caches_dec (k_bufs k) x) as [[i Hi]|Hn].
    + assert (b <> i) as Hne by (intros ->; destruct Hi as (_ & ? & ?); tauto).
      assert (caches (k_bufs (upd_bufs b F k)) i x) as Hi' by by apply caches_alter_ne.
      rewrite (bc_view_caches _ _ _ _ I Hi), (bc_refs_caches _ _ _ _ I Hi).
      rewrite (bc_view_caches _ _ _ _ I' Hi'), (bc_refs_caches _ _ _ _ I' Hi').
      by rewrite bufs_alter, decide_False.
    + assert (forall i, ~ caches (k_bufs (upd_bufs b F k)) i x) as Hn'.
      { intros i. destruct (decide (b = i)) as [<-|Hne]; [|by rewrite caches_alter_ne].
        unfold caches. rewrite bufs_alter, decide_True by done. tauto. }
      by rewrite !bc_view_none, !bc_refs_none.
Qed.

(** * The operations *)

(** What bread() leaves in the buffer that bget() gave it as [bf]. *)
Definition fill (k : K) (bf : buf) : buf :=
  set_b_valid (if b_valid bf =? 0 then 1 else b_valid bf)
    (set_b_data (buf_view (k_disk k) bf)
       (set_b_lock (mk_sleeplock 1 (p_pid (k_procs k !!! p))) bf)).

Lemma bread_found k b g bno :
  bio_ready p k -> (b < length (k_bufs k))%nat ->
  bget dev bno k = (acquiresleep (SL_buf b) ;;; ret b) (upd_bufs b g k) ->
  sl_locked (b_lock (g (k_bufs k !!! b))) = 0 ->
  bread dev bno k = Ok b (upd_bufs b (fun bf => fill k (g bf)) k).
Proof.
  intros (Hp & _ & _ & Hs) Hb Hg Hl.
  assert (bget dev bno k = Ok b (upd_bufs b (fun bf => set_b_lock
            (mk_sleeplock 1 (p_pid (k_procs k !!! p))) (g bf)) k)) as Hg'.
  { rewrite Hg. eapply bind_eq.
    - rewrite (acquiresleep_run _ p); [reflexivity|done|apply Hs|].
      cbn [get_sleeplock]. rewrite bufs_alter, decide_True by done. done.
    - unfold ret, upd_bufs. cbn. by rewrite alter_alter. }
  unfold bread. eapply bind_eq; [exact Hg'|]. kstep.
  rewrite bufs_alter, decide_True by done.
  set (bf := g (k_bufs k !!! b)). cbn [b_valid set_b_lock].
  assert (forall h, h (k_bufs k !!! b) = fill k bf ->
     Ok b (upd_bufs b h k) = Ok b (upd_bufs b (fun bf => fill k (g bf)) k)) as Hend.
  { intros h Hh. unfold upd_bufs. do 2 f_equal. apply list_eq. intros j.
    rewrite !list_lookup_alter. case_decide; [subst|done].
    destruct (lookup_lt_is_Some_2 _ _ Hb) as [x Hx]. rewrite Hx. cbn. f_equal.
    by rewrite <- (list_lookup_total_correct _ _ _ Hx). }
  destruct (b_valid bf =? 0) eqn:Ev; cbn [when].
  - unfold virtio_disk_rw. repeat kstep. rewrite bufs_alter, decide_True by done.
    unfold ret, upd_bufs at 1. cbn [k_bufs set_k_bufs k_disk upd_bufs]. rewrite !alter_alter.
    apply Hend. unfold fill, buf_view. by rewrite Ev.
  - kstep. apply Hend. unfold fill, buf_view. by rewrite Ev.
Qed.

Lemma bc_lock_free k H i bno :
  bc_inv k H -> caches (k_bufs k) i bno -> (forall b, H !! b <> Some bno) -> H !! i = None.
Proof.
  intros I Hc Hn. destruct (H !! i) as [bno'|] eqn:E; [|done].
  destruct (bc_held _ _ I _ _ E) as ((_ & _ & <-) & _). destruct Hc as (_ & _ & <-).
  by apply Hn in E.
Qed.

(** A list without duplicates that fits into a set. *)
Lemma nodup_size (l : list Z) (X : gset Z) : NoDup l -> (forall x, x ∈ l -> x ∈ X) -> (length l <= size X)%nat.
Proof.
  intros Hnd Hin. rewrite <- (size_list_to_set (C := gset Z) l) by done.
  apply subseteq_size. intros x. rewrite elem_of_list_to_set. apply Hin.
Qed.

(** If fewer blocks than there are buffers are referenced, a buffer is free. *)
Lemma bc_room k H (X : gset Z) :
  bc_inv k H -> (size X < Z.to_nat NBUF)%nat -> (forall x, bc_refs k x <> 0 -> x ∈ X) ->
  exists i, (i < HEAD)%nat /\ b_refcnt (k_bufs k !!! i) = 0.
Proof.
  intros I Hsz HX.
  destruct (decide (Exists (fun i => b_refcnt (k_bufs k !!! i) = 0) (seq 0 HEAD))) as [E|E].
  - apply list.Exists_exists in E as (i & Hi & E). exists i. split; [|done].
    apply elem_of_seq in Hi. lia.
  - exfalso. assert (forall i, (i < HEAD)%nat -> b_refcnt (k_bufs k !!! i) <> 0) as Hr.
    { intros i Hi Ei. apply E. apply list.Exists_exists. exists i. split; [|done].
      apply elem_of_seq. lia. }
    assert (length (map (fun i => b_blockno (k_bufs k !!! i)) (seq 0 HEAD)) <= size X)%nat as Hc.
    { apply nodup_size.
      - apply NoDup_fmap_2_strong; [|apply NoDup_seq]. intros i j Hi Hj Eb.
        apply elem_of_seq in Hi, Hj. eapply (bc_uniq _ _ I); (split_and!; [lia| |]).
        1,3: apply (bc_dev _ _ I); [|apply Hr]; lia. 1: exact Eb. done.
      - intros x Hx. apply list_elem_of_fmap in Hx as (i & -> & Hi). apply elem_of_seq in Hi.
        apply HX. erewrite (bc_refs_caches _ _ i); [apply Hr; lia|exact I|].
        split_and!; [lia| |done]. apply (bc_dev _ _ I); [|apply Hr]; lia. }
    rewrite length_map, length_seq in Hc. unfold HEAD in Hc. lia.
Qed.

Lemma bc_view_size k H bno : bc_inv k H -> length (bc_view k bno) = Z.to_nat BSIZE.
Proof.
  intros I. destruct (caches_dec (k_bufs k) bno) as [[i Hi]|Hn].
  - rewrite (bc_view_caches _ _ _ _ I Hi). unfold buf_view. case_if; apply I. apply Hi.
  - rewrite bc_view_none by done. apply I.
Qed.

Lemma buf_view_size k H i : bc_inv k H -> (i < HEAD)%nat ->
  length (buf_view (k_disk k) (k_bufs k !!! i)) = Z.to_nat BSIZE.
Proof. intros I Hi. unfold buf_view. case_if; by apply I. Qed.

Lemma buf_view_fill k bf : buf_view (k_disk k) (fill k bf) = buf_view (k_disk k) bf.
Proof.
  unfold buf_view at 1, fill. cbn [b_valid b_data b_blockno set_b_valid set_b_data set_b_lock].
  destruct (b_valid bf =? 0) eqn:E; cbn; [done|]. by rewrite E.
Qed.

Lemma bc_clean_refs k H bno :
  bc_inv k H -> bc_refs k bno = 0 -> bc_view k bno = disk_block (k_disk k) bno.
Proof.
  intros I Hr. destruct (caches_dec (k_bufs k) bno) as [[i Hi]|Hn].
  - rewrite (bc_refs_caches _ _ _ _ I Hi) in Hr. rewrite (bc_view_caches _ _ _ _ I Hi).
    by apply (bc_clean _ _ I).
  - by apply bc_view_none.
Qed.

Definition bread_post (k : K) (H : gmap nat Z) (bno : Z) : Prop :=
  exists b k', bread dev bno k = Ok b k' /\ bio_frame k k' /\
    bc_inv k' (<[b := bno]> H) /\ H !! b = None /\
    (forall x, bc_view k' x = bc_view k x) /\
    (forall x, bc_refs k' x = fn_upd (bc_refs k) bno (bc_refs k bno + 1) x).

Lemma bc_bread_cached k H bno i :
  bio_ready p k -> bc_inv k H -> (forall b, H !! b <> Some bno) -> bc_refs k bno + 1 < 2 ^ 32 ->
  caches (k_bufs k) i bno -> bread_post k H bno.
Proof.
  intros Hr I Hn Hw Hc. destruct (bc_lru _ _ I) as [l Hl]. pose proof (lru_length _ _ Hl) as Hlen.
  pose proof (bc_lock_free _ _ _ _ I Hc Hn) as Hfree. pose proof Hc as (Hi & Di & Bi).
  pose proof (bc_refs_caches _ _ _ _ I Hc) as Er. rewrite Er in Hw.
  pose proof (bc_refcnt _ _ I i Hi) as Hrc.
  assert (u32 (b_refcnt (k_bufs k !!! i) + 1) = b_refcnt (k_bufs k !!! i) + 1) as Eu
    by (apply u32_small; lia).
  assert (bread dev bno k = Ok i (upd_bufs i (fun bf => fill k (ref_up bf)) k)) as Hrun.
  { apply bread_found; [done|lia| |].
    - rewrite (bget_run l) by (done || apply Hr).
      destruct (List.find (is_block _ _ _) l) as [j|] eqn:E.
      + apply List.find_some in E as [Hj E]. apply list_elem_of_In in Hj.
        rewrite (lru_elem _ _ _ Hl) in Hj. unfold is_block in E. b2p.
        by rewrite (bc_uniq _ _ I i j bno).
      + apply List.find_none with (x := i) in E.
        * unfold is_block in E. rewrite Di, Bi, !Z.eqb_refl in E. done.
        * apply list_elem_of_In. by rewrite (lru_elem _ _ _ Hl).
    - by apply (bc_unlocked _ _ I). }
  assert (bc_inv (upd_bufs i (fun bf => fill k (ref_up bf)) k) (<[i := bno]> H)) as I'.
  { apply (bc_inv_alter k H); try done; [by intros; rewrite lookup_insert_ne by done|].
    rewrite lookup_insert_eq. split; cbn.
    - intros _ j Hj Hcj. apply Hj. by apply (bc_uniq _ _ I _ _ (b_blockno (k_bufs k !!! i))).
    - lia.
    - done.
    - lia.
    - split_and!; try done; [|lia]. by destruct (b_valid _ =? 0) eqn:E; b2p.
    - by apply (buf_view_size _ H). }
  exists i, (upd_bufs i (fun bf => fill k (ref_up bf)) k). split_and!; try done.
  - apply bio_frame_bufs.
  - intros x. pose proof (bc_alter_spec k H _ i _ x I I' Hi) as Hx. cbv zeta in Hx.
    case_decide as D1; [|case_decide as D2; [cbn in D1; tauto|apply Hx]].
    destruct Hx as [-> _]. cbn in D1. destruct D1 as [_ D1].
    rewrite buf_view_fill, (bc_view_caches _ _ i _ I) by (split_and!; done). done.
  - intros x. pose proof (bc_alter_spec k H _ i _ x I I' Hi) as Hx. cbv zeta in Hx. unfold fn_upd.
    case_decide as D1; [|case_decide as D2; [cbn in D1; tauto|]].
    + destruct Hx as [_ ->]. cbn in D1 |- *. destruct D1 as [_ D1].
      rewrite decide_True by congruence. by rewrite Er, Eu.
    + destruct Hx as [_ ->]. cbn in D1. by rewrite decide_False by naive_solver.
Qed.

Lemma bc_bread_recycle k H bno :
  bio_ready p k -> bc_inv k H -> (forall i, ~ caches (k_bufs k) i bno) ->
  (exists i, (i < HEAD)%nat /\ b_refcnt (k_bufs k !!! i) = 0) -> bread_post k H bno.
Proof.
  intros Hr I Hn (f & Hf & Ef). destruct (bc_lru _ _ I) as [l Hl].
  pose proof (lru_length _ _ Hl) as Hlen.
  destruct (List.find (is_unused (k_bufs k)) (rev l)) as [i|] eqn:E; swap 1 2.
  { apply List.find_none with (x := f) in E; [unfold is_unused in E; by rewrite Ef in E|].
    rewrite <- in_rev. apply list_elem_of_In. by rewrite (lru_elem _ _ _ Hl). }
  apply List.find_some in E as E'. destruct E' as [Hin Hu]. rewrite <- in_rev in Hin.
  apply list_elem_of_In in Hin. rewrite (lru_elem _ _ _ Hl) in Hin. unfold is_unused in Hu. b2p.
  assert (H !! i = None) as Hfree.
  { destruct (H !! i) as [y|] eqn:Ei; [|done]. by destruct (bc_held _ _ I _ _ Ei) as (_ & _ & ? & _). }
  assert (bread dev bno k = Ok i (upd_bufs i (fun bf => fill k (recycle dev bno bf)) k)) as Hrun.
  { apply bread_found; [done|lia| |].
    - rewrite (bget_run l) by (done || apply Hr).
      destruct (List.find (is_block _ _ _) l) as [j|] eqn:Ej; [|by rewrite E].
      apply List.find_some in Ej as [Hj Ej]. apply list_elem_of_In in Hj.
      rewrite (lru_elem _ _ _ Hl) in Hj. unfold is_block in Ej. b2p. by destruct (Hn j).
    - by apply (bc_unlocked _ _ I). }
  assert (bc_inv (upd_bufs i (fun bf => fill k (recycle dev bno bf)) k) (<[i := bno]> H)) as I'.
  { apply (bc_inv_alter k H); try done; [by intros; rewrite lookup_insert_ne by done|].
    rewrite lookup_insert_eq. split; cbn; [intros _ j _; apply Hn|lia|done|lia|done|apply I]. }
  exists i, (upd_bufs i (fun bf => fill k (recycle dev bno bf)) k). split_and!; try done.
  - apply bio_frame_bufs.
  - intros x. pose proof (bc_alter_spec k H _ i _ x I I' Hin) as Hx. cbv zeta in Hx.
    case_decide as D1; [|case_decide as D2; [|apply Hx]]; destruct Hx as [-> _]; cbn in D1.
    + destruct D1 as [_ <-]. by rewrite bc_view_none.
    + symmetry. apply (bc_clean_refs _ H); [done|].
      rewrite (bc_refs_caches _ _ i _ I); [done|by split].
  - intros x. pose proof (bc_alter_spec k H _ i _ x I I' Hin) as Hx. cbv zeta in Hx. unfold fn_upd.
    case_decide as D1; [|case_decide as D2]; destruct Hx as [_ ->]; cbn in D1.
    + destruct D1 as [_ <-]. rewrite decide_True by done. by rewrite bc_refs_none.
    + rewrite decide_False by naive_solver. by rewrite (bc_refs_caches _ _ i _ I) by (by split).
    + by rewrite decide_False by naive_solver.
Qed.

Lemma bc_bread k H bno :
  bio_ready p k -> bc_inv k H -> (forall b, H !! b <> Some bno) -> bc_refs k bno + 1 < 2 ^ 32 ->
  (bc_refs k bno <> 0 \/
   exists X : gset Z, (size X < Z.to_nat NBUF)%nat /\ forall x, bc_refs k x <> 0 -> x ∈ X) ->
  bread_post k H bno.
Proof.
  intros Hr I Hn Hw Hroom. destruct (caches_dec (k_bufs k) bno) as [[i Hi]|Hc].
  - by apply (bc_bread_cached k H bno i).
  - apply bc_bread_recycle; [done|done|done|]. destruct Hroom as [Hroom|(X & Hs & HX)].
    + by rewrite bc_refs_none in Hroom.
    + by apply (bc_room _ H X).
Qed.

Lemma bc_inv_same k k' H :
  bc_inv k H -> (exists l, lru (k_bufs k') l) ->
  (forall i, content (k_bufs k' !!! i) = content (k_bufs k !!! i)) -> k_disk k' = k_disk k ->
  p_pid (k_procs k' !!! p) = p_pid (k_procs k !!! p) -> bc_inv k' H.
Proof.
  intros I Hl Hc Hd Hp.
  assert (forall i {A} (f : buf -> A), (forall bf, f (content bf) = f bf) ->
            f (k_bufs k' !!! i) = f (k_bufs k !!! i)) as Hf.
  { intros i A f Hf. by rewrite <- Hf, Hc, Hf. }
  assert (forall i bno, caches (k_bufs k') i bno <-> caches (k_bufs k) i bno) as Hca.
  { intros i bno. unfold caches.
    by rewrite (Hf i _ (fun bf => b_dev bf) ltac:(done)), (Hf i _ (fun bf => b_blockno bf) ltac:(done)). }
  split; intros.
  - done.
  - rewrite Hca in *. by eapply (bc_uniq _ _ I).
  - rewrite (Hf i _ (fun bf => b_refcnt bf) ltac:(done)). by apply I.
  - rewrite (Hf i _ (fun bf => b_refcnt bf) ltac:(done)) in *.
    rewrite (Hf i _ (fun bf => b_dev bf) ltac:(done)). by apply I.
  - rewrite Hca in *. rewrite (Hf i _ (fun bf => b_refcnt bf) ltac:(done)) in *. rewrite Hd.
    rewrite (Hf i _ (fun bf => buf_view (k_disk k) bf) ltac:(done)). by apply (bc_clean _ _ I).
  - unfold locked_by. rewrite Hca, Hp, (Hf i _ (fun bf => b_refcnt bf) ltac:(done)),
      (Hf i _ (fun bf => b_valid bf) ltac:(done)), (Hf i _ (fun bf => b_lock bf) ltac:(done)).
    by apply I.
  - rewrite (Hf i _ (fun bf => b_lock bf) ltac:(done)). by apply I.
  - rewrite (Hf i _ (fun bf => b_data bf) ltac:(done)). by apply I.
  - rewrite Hd. apply I.
Qed.

Lemma bc_frame k k' H :
  bc_inv k H -> k_bufs k' = k_bufs k -> k_disk k' = k_disk k ->
  p_pid (k_procs k' !!! p) = p_pid (k_procs k !!! p) ->
  bc_inv k' H /\ (forall x, bc_view k' x = bc_view k x) /\ (forall x, bc_refs k' x = bc_refs k x).
Proof.
  intros I Hb Hd Hp. split.
  - apply (bc_inv_same k); [done|rewrite Hb; apply I|by rewrite Hb|done|done].
  - apply bc_same; [by rewrite Hb|done].
Qed.

Lemma bc_store k H b bno d :
  bc_inv k H -> H !! b = Some bno -> length d = Z.to_nat BSIZE ->
  let k' := upd_bufs b (set_b_data d) k in
  bc_inv k' H /\ (forall x, bc_view k' x = fn_upd (bc_view k) bno d x) /\
  (forall x, bc_refs k' x = bc_refs k x).
Proof.
  intros I Hb Hd k'. destruct (bc_held _ _ I _ _ Hb) as (Hc & Hv & Hr & Hl).
  pose proof Hc as (Hlt & Dd & Bb).
  assert (bc_inv k' H) as I'.
  { apply (bc_inv_alter k H); try done. rewrite Hb. split; cbn; try done.
    - intros _ j Hj Hcj. apply Hj. eapply (bc_uniq _ _ I); [exact Hcj|done].
    - by apply I. }
  split; [done|]. split; intros x; pose proof (bc_alter_spec k H _ b _ x I I' Hlt) as Hx;
    cbv zeta in Hx; case_decide as D1; try (case_decide as D2; [cbn in D1; tauto|]);
    destruct Hx as [E1 E2]; fold k' in E1, E2; unfold fn_upd; cbn in D1.
  - rewrite decide_True by naive_solver. rewrite E1. unfold buf_view.
    cbn [b_valid b_data set_b_data]. case_if; done.
  - by rewrite decide_False by naive_solver.
  - rewrite E2. by rewrite (bc_refs_caches _ _ b _ I) by (split_and!; naive_solver).
  - done.
Qed.

Lemma disk_block_ne d bno v x : x <> bno -> disk_block (<[bno := v]> d) x = disk_block d x.
Proof. intros. unfold disk_block. by rewrite lookup_insert_ne. Qed.

Lemma disk_block_eq d bno v : disk_block (<[bno := v]> d) bno = v.
Proof. unfold disk_block. by rewrite lookup_insert_eq. Qed.

Lemma bc_bwrite k H b bno :
  bio_ready p k -> bc_inv k H -> H !! b = Some bno ->
  exists k', bwrite b k = Ok tt k' /\
    k' = set_k_writes ((bno, bc_view k bno) :: k_writes k)
           (set_k_disk (<[bno := bc_view k bno]> (k_disk k)) k) /\
    bc_inv k' H /\ (forall x, bc_view k' x = bc_view k x) /\ (forall x, bc_refs k' x = bc_refs k x).
Proof.
  intros Hr I Hb. destruct (bc_held _ _ I _ _ Hb) as (Hc & Hv & Hrc & Hl).
  pose proof Hc as (Hlt & Dd & Bb). eexists. split; [by apply (bwrite_run p)|].
  assert (b_data (k_bufs k !!! b) = bc_view k bno) as Ed.
  { rewrite (bc_view_caches _ _ _ _ I Hc). unfold buf_view. case_if; done. }
  cbv zeta. rewrite Bb, Ed. set (k' := set_k_writes _ _). split; [done|].
  assert (forall i x, caches (k_bufs k) i x -> i = b \/ x <> bno) as Hne.
  { intros i x Hi. destruct (decide (x = bno)) as [->|]; [left|by right].
    by apply (bc_uniq _ _ I _ _ bno). }
  assert (forall i x, caches (k_bufs k) i x ->
            buf_view (k_disk k') (k_bufs k !!! i) = buf_view (k_disk k) (k_bufs k !!! i)) as Hbv.
  { intros i x Hi. pose proof (Hne _ _ Hi) as Hn. destruct Hi as (_ & _ & <-).
    unfold buf_view. cbn [k' k_disk set_k_writes set_k_disk]. case_if; [|done].
    destruct Hn as [-> |Hn]; [done|]. by apply disk_block_ne. }
  split_and!.
  - split; try apply I.
    + intros i x Hi H0. etransitivity; [apply (Hbv _ _ Hi)|].
      rewrite (bc_clean _ _ I _ _ Hi H0). cbn.
      destruct (Hne _ _ Hi) as [-> |Hn]; [done|by rewrite disk_block_ne].
    + intros x. cbn. destruct (decide (x = bno)) as [->|].
      * rewrite disk_block_eq. by apply (bc_view_size _ H).
      * rewrite disk_block_ne by done. apply I.
  - intros x. destruct (caches_dec (k_bufs k) x) as [[i Hi]|Hn].
    + rewrite (bc_view_caches _ _ _ _ I Hi). unfold bc_view. cbn [k' k_bufs set_k_writes set_k_disk].
      rewrite (find_buf_caches _ _ _ _ I Hi). by rewrite <- (Hbv _ _ Hi).
    + rewrite !bc_view_none by done. cbn. apply disk_block_ne. intros ->. by apply Hn in Hc.
  - done.
Qed.

(** A change of the reference count only, of a buffer one holds. *)
Lemma bc_recount k H b bno r :
  bc_inv k H -> H !! b = Some bno -> 0 < r < 2 ^ 32 ->
  let k' := upd_bufs b (set_b_refcnt r) k in
  bc_inv k' H /\ (forall x, bc_view k' x = bc_view k x) /\
  (forall x, bc_refs k' x = fn_upd (bc_refs k) bno r x).
Proof.
  intros I Hb Hr k'. destruct (bc_held _ _ I _ _ Hb) as (Hc & Hv & Hrc & Hl).
  pose proof Hc as (Hlt & Dd & Bb).
  assert (bc_inv k' H) as I'.
  { apply (bc_inv_alter k H); try done. rewrite Hb. split; cbn; try done; [|lia|lia| |].
    - intros _ j Hj Hcj. apply Hj. eapply (bc_uniq _ _ I); [exact Hcj|done].
    - split_and!; [done|done|done|lia|done].
    - by apply I. }
  split; [done|]. split; intros x; pose proof (bc_alter_spec k H _ b _ x I I' Hlt) as Hx;
    cbv zeta in Hx; case_decide as D1; try (case_decide as D2; [cbn in D1; tauto|]);
    destruct Hx as [E1 E2]; fold k' in E1, E2; unfold fn_upd; cbn in D1.
  - rewrite E1. by rewrite (bc_view_caches _ _ b _ I) by (split_and!; naive_solver).
  - done.
  - by rewrite decide_True by naive_solver.
  - by rewrite decide_False by naive_solver.
Qed.

Lemma bc_refs_held k H b bno :
  bc_inv k H -> H !! b = Some bno -> bc_refs k bno = b_refcnt (k_bufs k !!! b) /\ 0 < bc_refs k bno < 2 ^ 32.
Proof.
  intros I Hb. destruct (bc_held _ _ I _ _ Hb) as (Hc & _ & Hr & _).
  rewrite (bc_refs_caches _ _ _ _ I Hc). pose proof (bc_refcnt _ _ I b ltac:(apply Hc)). lia.
Qed.

(** bpin() and bunpin(). *)
Lemma bc_pin k H b bno d :
  bio_ready p k -> bc_inv k H -> H !! b = Some bno -> 0 < bc_refs k bno + d < 2 ^ 32 ->
  exists k',
    (acquire L_bcache ;;;
     upd_buf b (fun bf => set_b_refcnt (u32 (b_refcnt bf + d)) bf) ;;;
     release L_bcache) k = Ok tt k' /\
    bio_frame k k' /\ bc_inv k' H /\ (forall x, bc_view k' x = bc_view k x) /\
    (forall x, bc_refs k' x = fn_upd (bc_refs k) bno (bc_refs k bno + d) x).
Proof.
  intros (Hp & Hw & Hh & Hs) I Hb Hd. destruct (bc_refs_held _ _ _ _ I Hb) as [Er _].
  destruct (bc_recount k H b bno (bc_refs k bno + d) I Hb Hd) as (I' & V & R).
  destruct (bc_lru _ _ I) as [l Hl]. pose proof (lru_length _ _ Hl) as Hlen.
  destruct (bc_held _ _ I _ _ Hb) as ((Hlt & _) & _).
  exists (upd_bufs b (set_b_refcnt (bc_refs k bno + d)) k). split_and!; try done.
  - repeat kstep. cbn. rewrite held_add_del by done. unfold upd_bufs. do 2 f_equal.
    transitivity (set_k_bufs (alter (fun bf => set_b_refcnt (u32 (b_refcnt bf + d)) bf) b (k_bufs k)) k);
      [done|]. f_equal.
    apply list_eq. intros j. rewrite !list_lookup_alter. case_decide; [subst|done].
    destruct (lookup_lt_is_Some_2 (k_bufs k) j) as [bf Hbf]; [lia|]. rewrite Hbf. cbn.
    rewrite (list_lookup_total_correct _ _ _ Hbf) in Er. rewrite Er in *.
    by rewrite u32_small by lia.
  - apply bio_frame_bufs.
Qed.

Lemma bc_brelse k H b bno :
  bio_ready p k -> bc_inv k H -> H !! b = Some bno ->
  (bc_refs k bno = 1 -> bc_view k bno = disk_block (k_disk k) bno) ->
  exists k', brelse b k = Ok tt k' /\ bio_frame k k' /\
    bc_inv k' (delete b H) /\ (forall x, bc_view k' x = bc_view k x) /\
    (forall x, bc_refs k' x = fn_upd (bc_refs k) bno (bc_refs k bno - 1) x).
Proof.
  intros Hr I Hb Hcl. destruct (bc_held _ _ I _ _ Hb) as (Hc & Hv & Hrc & Hlk).
  destruct (bc_refs_held _ _ _ _ I Hb) as [Er Hpos]. pose proof Hc as (Hlt & Dd & Bb).
  destruct (bc_lru _ _ I) as [l Hl]. pose proof (lru_length _ _ Hl) as Hlen.
  assert (u32 (b_refcnt (k_bufs k !!! b) - 1) = b_refcnt (k_bufs k !!! b) - 1) as Eu
    by (apply u32_small; lia).
  set (k1 := upd_bufs b ref_down k).
  assert (bc_inv k1 (delete b H)) as I1.
  { apply (bc_inv_alter k H); try done; [intros; by rewrite lookup_delete_ne by done|].
    rewrite lookup_delete_eq. split; cbn; try done.
    - intros _ j Hj Hcj. apply Hj. eapply (bc_uniq _ _ I); [exact Hcj|done].
    - lia.
    - intros E _. rewrite Bb, <- Hcl by lia. by rewrite (bc_view_caches _ _ b _ I).
    - by apply I. }
  assert (forall x, bc_view k1 x = bc_view k x /\
            bc_refs k1 x = fn_upd (bc_refs k) bno (bc_refs k bno - 1) x) as VR.
  { intros x. pose proof (bc_alter_spec k H _ b _ x I I1 Hlt) as Hx. cbv zeta in Hx.
    case_decide as D1; try (case_decide as D2; [cbn in D1; tauto|]); fold k1 in Hx;
      destruct Hx as [-> ->]; unfold fn_upd; cbn in D1.
    - rewrite decide_True by naive_solver. split.
      + by rewrite (bc_view_caches _ _ b _ I) by (split_and!; naive_solver).
      + cbn. lia.
    - by rewrite decide_False by naive_solver. }
  eexists. split; [apply (brelse_run p l); try done; by apply (lru_elem _ _ _ Hl)|].
  set (c := u32 _ =? 0). set (k' := set_k_bufs _ _).
  assert (forall i, content (k_bufs k' !!! i) = content (k_bufs k1 !!! i)) as Hcont.
  { intros i. cbn. unfold relink_if. destruct c; [apply relink_content|done]. }
  assert (exists l', lru (k_bufs k') l') as Hl'.
  { destruct (bc_lru _ _ I1) as [l1 Hl1]. cbn. unfold relink_if. destruct c; [|by exists l1].
    exists (to_front b l1). apply relink_lru; [done|]. by apply (lru_elem _ _ _ Hl1). }
  destruct (bc_same k1 k') as [V' R']; [done|done|]. split_and!.
  - eexists _, _. split; [done|]. apply procs_rel_wake_all.
  - apply (bc_inv_same k1); try done. cbn. by rewrite wake_all_pid.
  - intros x. by rewrite V', (proj1 (VR x)).
  - intros x. by rewrite R', (proj2 (VR x)).
Qed.

#[export] Instance bio_block_cache : BlockCache dev p.
Proof.
  refine {|
    view := bc_view; refs := bc_refs; cinv := bc_inv;
    cinv_refs := _; cinv_size := bc_view_size; cinv_data := _; cinv_blockno := _; cinv_held := _;
    cinv_clean := bc_clean_refs; cinv_frame := bc_frame; bread_law := bc_bread;
    store_law := bc_store; bwrite_law := bc_bwrite; brelse_law := bc_brelse;
    bpin_law := _; bunpin_law := _;
  |}.
  - intros k H bno I. unfold bc_refs. destruct (find_buf _ _) eqn:E; [|lia].
    apply find_buf_Some in E. by apply I, E.
  - intros k H b bno I Hb. destruct (bc_held _ _ I _ _ Hb) as (Hc & Hv & _).
    rewrite (bc_view_caches _ _ _ _ I Hc). unfold buf_view. case_if; done.
  - intros k H b bno I Hb. by destruct (bc_held _ _ I _ _ Hb) as ((_ & _ & ?) & _).
  - intros k H b bno I Hb. destruct (bc_refs_held _ _ _ _ I Hb). lia.
  - intros k H b bno Hr I Hb Hw. destruct (bc_refs_held _ _ _ _ I Hb).
    destruct (bc_pin k H b bno 1) as (k' & ?); [done|done|done|lia|]. by exists k'.
  - intros k H b bno Hr I Hb Hw. destruct (bc_refs_held _ _ _ _ I Hb).
    destruct (bc_pin k H b bno (-1)) as (k' & ?); [done|done|done|lia|]. by exists k'.
Defined.

Lemma bc_binit k :
  length (k_bufs k) = S HEAD -> L_bcache ∉ k_held k -> (forall b, L_sleep (SL_buf b) ∉ k_held k) ->
  (forall i, (i < HEAD)%nat -> b_dev (k_bufs k !!! i) <> dev /\ b_refcnt (k_bufs k !!! i) = 0 /\
                        length (b_data (k_bufs k !!! i)) = Z.to_nat BSIZE) ->
  (forall bno, length (disk_block (k_disk k) bno) = Z.to_nat BSIZE) ->
  exists bs, binit k = Ok tt (set_k_bufs bs k) /\ bc_inv (set_k_bufs bs k) ∅ /\
    lru bs (rev (seq 0 HEAD)) /\
    (forall x, bc_refs (set_k_bufs bs k) x = 0) /\
    (forall x, bc_view (set_k_bufs bs k) x = disk_block (k_disk k) x).
Proof.
  intros Hlen Hb Hs Hi Hd. destruct (binit_run k Hlen Hb Hs) as (bs & E & Hl & Hc).
  assert (forall (f : buf -> Z) i, (forall x, f (content x) = f x) ->
            (forall x, f (unlock_buf x) = f x) ->
            (i < HEAD)%nat -> f (bs !!! i) = f (k_bufs k !!! i)) as Hf.
  { intros f i F1 F2 H. by rewrite <- F1, Hc, F1, F2 by done. }
  assert (forall i bno, ~ caches bs i bno) as Hn.
  { intros i bno (H & D & _). rewrite (Hf (fun x => b_dev x) i) in D by (assumption || reflexivity).
    destruct (Hi i H) as [Hne _]. exact (Hne D). }
  exists bs. split_and!; [exact E| |exact Hl| |].
  - split; cbn [k_bufs set_k_bufs k_disk].
    + exists (rev (seq 0 HEAD)). exact Hl.
    + intros i j bno H. destruct (Hn _ _ H).
    + intros i H. rewrite (Hf (fun x => b_refcnt x) i) by (assumption || reflexivity). destruct (Hi i H) as (_ & -> & _). lia.
    + intros i H Hc'. destruct Hc'. rewrite (Hf (fun x => b_refcnt x) i) by (assumption || reflexivity). apply (Hi i H).
    + intros i bno H. destruct (Hn _ _ H).
    + intros i bno H. rewrite lookup_empty in H. discriminate H.
    + intros i H _. change (sl_locked (b_lock (content (bs !!! i))) = 0).
      rewrite (Hc i H). reflexivity.
    + intros i H. change (length (b_data (content (bs !!! i))) = Z.to_nat BSIZE). rewrite (Hc i H).
      apply (Hi i H).
    + exact Hd.
  - intros x. apply bc_refs_none. intros i. apply Hn.
  - intros x. apply (bc_view_none (set_k_bufs bs k)). intros i. apply Hn.
Qed.

(** binit() makes an empty, coherent cache.  On zeroed buffers it returns;
    afterwards the buffers form one circular list with buf[NBUF-1] at its head
    and buf[0] the next to be recycled, the cache's invariant holds with no
    buffer locked, no block is referenced, and every block reads as what is on
    the disk. *)
Theorem binit_coherent k :
  length (k_bufs k) = S HEAD -> L_bcache ∉ k_held k -> (forall b, L_sleep (SL_buf b) ∉ k_held k) ->
  (forall i, (i < HEAD)%nat -> b_dev (k_bufs k !!! i) <> dev /\ b_refcnt (k_bufs k !!! i) = 0 /\
                        length (b_data (k_bufs k !!! i)) = Z.to_nat BSIZE) ->
  (forall bno, length (disk_block (k_disk k) bno) = Z.to_nat BSIZE) ->
  exists k', binit k = Ok tt k' /\ bc_inv k' ∅ /\ lru (k_bufs k') (rev (seq 0 HEAD)) /\
    (forall x, bc_refs k' x = 0) /\ (forall x, bc_view k' x = disk_block (k_disk k) x).
Proof.
  intros Hlen Hb Hs Hi Hd. destruct (bc_binit k Hlen Hb Hs Hi Hd) as (bs & Hbs).
  exists (set_k_bufs bs k). exact Hbs.
Qed.

(** C12: bread() returns the current contents of a block.  Run alone, where the
    only buffers that are held are those of the process itself, for a block that
    it does not hold, with the block cached or a buffer left to recycle,
    bread() returns a buffer for the block which is locked by the process and
    holds the block's contents: those of the cache if the block is cached, and
    those on the disk otherwise.  No other block's contents change, nothing is
    written to the disk, and the block's reference count goes up by one. *)
Theorem bread_current k H bno :
  bio_ready p k -> bc_inv k H -> (forall b, H !! b <> Some bno) -> bc_refs k bno + 1 < 2 ^ 32 ->
  (bc_refs k bno <> 0 \/
   exists X : gset Z, (size X < Z.to_nat NBUF)%nat /\ forall x, bc_refs k x <> 0 -> x ∈ X) ->
  exists b k', bread dev bno k = Ok b k' /\
    b_data (k_bufs k' !!! b) = bc_view k bno /\ locked_by p b k' /\
    b_dev (k_bufs k' !!! b) = dev /\ b_blockno (k_bufs k' !!! b) = bno /\
    b_valid (k_bufs k' !!! b) <> 0 /\ H !! b = None /\ bc_inv k' (<[b := bno]> H) /\
    k_disk k' = k_disk k /\ k_writes k' = k_writes k /\
    (forall x, bc_view k' x = bc_view k x) /\
    (forall x, bc_refs k' x = if decide (x = bno) then bc_refs k bno + 1 else bc_refs k x).
Proof.
  intros Hr I Hn Hw Hroom.
  destruct (bc_bread k H bno Hr I Hn Hw Hroom) as (b & k' & E & (bs & ps & -> & _) & I' & Hb & V & R).
  exists b, (set_k_bufs bs (set_k_procs ps k)).
  destruct (bc_held _ _ I' b bno) as ((? & ? & ?) & Hv & ? & ?); [by rewrite lookup_insert_eq|].
  split_and!; try done. rewrite <- V, (bc_view_caches _ _ b _ I') by done.
  unfold buf_view. case_if; [done|]. done.
Qed.

(** C14: brelse() keeps the list in order of use.  When the last reference to a
    buffer goes away the buffer becomes the most recently used one, every other
    buffer keeps its place relative to the others, and while others still
    reference it the list does not change; the sleep-lock is free afterwards,
    and no buffer's data changes. *)
Theorem brelse_lru k l b :
  bio_ready p k -> lru (k_bufs k) l -> b ∈ l -> locked_by p b k ->
  exists k', brelse b k = Ok tt k' /\
    lru (k_bufs k') (if u32 (b_refcnt (k_bufs k !!! b) - 1) =? 0 then to_front b l else l) /\
    b_lock (k_bufs k' !!! b) = mk_sleeplock 0 0 /\
    b_refcnt (k_bufs k' !!! b) = u32 (b_refcnt (k_bufs k !!! b) - 1) /\
    (forall i, b_data (k_bufs k' !!! i) = b_data (k_bufs k !!! i)).
Proof.
  intros Hr Hl Hb Hk. eexists. split; [by apply (brelse_run p l)|].
  cbn [k_bufs set_k_bufs]. set (c := u32 _ =? 0). set (bs := alter ref_down b (k_bufs k)).
  assert (b < length (k_bufs k))%nat as Hlt.
  { rewrite (lru_elem _ _ _ Hl) in Hb. rewrite (lru_length _ _ Hl). lia. }
  assert (lru bs l) as Hbs by (by apply lru_alter).
  assert (forall i, content (relink_if c b bs !!! i) = content (bs !!! i)) as Hc.
  { intros i. destruct c; [apply relink_content|reflexivity]. }
  split_and!.
  - destruct c; [by apply relink_lru|done].
  - change (b_lock (content (relink_if c b bs !!! b)) = mk_sleeplock 0 0). rewrite Hc.
    unfold bs. rewrite total_alter, decide_True by done. done.
  - change (b_refcnt (content (relink_if c b bs !!! b)) = u32 (b_refcnt (k_bufs k !!! b) - 1)).
    rewrite Hc. unfold bs. rewrite total_alter, decide_True by done. done.
  - intros i. change (b_data (content (relink_if c b bs !!! i)) = b_data (k_bufs k !!! i)).
    rewrite Hc. unfold bs. rewrite total_alter by done. case_decide; [by subst|done].
Qed.

End bcache.

(** * A cache at boot *)

(** The state in which process 0 starts, with nothing on the disk but zeroes. *)
Definition boot0 : K := set_k_proc (Some 0%nat) bss.

Lemma bio_ready_boot0 bs : bio_ready 0 (set_k_bufs bs boot0).
Proof. split_and!; [done| |set_solver|set_solver]. split; [done|]. intros q _. cbn. set_solver. Qed.

Lemma boot0_buf i : (i < HEAD)%nat -> k_bufs boot0 !!! i = bss_buf.
Proof. intros Hi. apply (lookup_total_replicate_2 31). unfold HEAD, NBUF, MAXOPBLOCKS in Hi. lia. Qed.

Lemma boot0_zero i : (i < HEAD)%nat ->
  b_dev (k_bufs boot0 !!! i) <> ROOTDEV /\ b_refcnt (k_bufs boot0 !!! i) = 0 /\
  length (b_data (k_bufs boot0 !!! i)) = Z.to_nat BSIZE.
Proof. intros Hi. rewrite boot0_buf by exact Hi. split_and!; [discriminate|reflexivity..]. Qed.

Lemma binit_coherent_witness : exists k', binit boot0 = Ok tt k' /\
  bc_inv ROOTDEV 0 k' ∅ /\ lru (k_bufs k') (rev (seq 0 HEAD)) /\
  (forall x, bc_refs ROOTDEV k' x = 0) /\
  (forall x, bc_view ROOTDEV k' x = disk_block (k_disk boot0) x).
Proof.
  apply (binit_coherent ROOTDEV 0); [reflexivity|set_solver|set_solver|exact boot0_zero|reflexivity].
Defined.

(** The cache after binit(). *)
Lemma boot0_cache : exists bs, binit boot0 = Ok tt (set_k_bufs bs boot0) /\
  bc_inv ROOTDEV 0 (set_k_bufs bs boot0) ∅ /\ lru bs (rev (seq 0 HEAD)) /\
  (forall x, bc_refs ROOTDEV (set_k_bufs bs boot0) x = 0) /\
  (forall x, bc_view ROOTDEV (set_k_bufs bs boot0) x = disk_block (k_disk boot0) x).
Proof.
  apply (bc_binit ROOTDEV 0); [reflexivity|set_solver|set_solver|exact boot0_zero|reflexivity].
Qed.

Lemma bread_current_witness : exists k b k', binit boot0 = Ok tt k /\
  bread (P := two_pages) ROOTDEV 33 k = Ok b k' /\ locked_by 0 b k' /\
  b_data (k_bufs k' !!! b) = replicate (Z.to_nat BSIZE) 0.
Proof.
  destruct boot0_cache as (bs & E & I & _ & R & V).
  destruct (bread_current (P := two_pages) ROOTDEV 0 _ ∅ 33 (bio_ready_boot0 bs) I)
    as (b & k' & Eb & D & L & _).
  - intros b Hb. rewrite lookup_empty in Hb. discriminate Hb.
  - rewrite R. lia.
  - right. exists ∅. split; [by apply Nat.ltb_lt|]. intros x Hx. destruct (Hx (R x)).
  - exists (set_k_bufs bs boot0), b, k'. split_and!; [exact E|exact Eb|exact L|].
    rewrite D, V. reflexivity.
Defined.

Lemma brelse_lru_witness : exists k b k1 k' l, binit boot0 = Ok tt k /\
  bread (P := two_pages) ROOTDEV 33 k = Ok b k1 /\ brelse b k1 = Ok tt k' /\
  lru (k_bufs k') l.
Proof.
  destruct boot0_cache as (bs & E & I & _ & R & V).
  destruct (bc_bread (P := two_pages) ROOTDEV 0 _ ∅ 33 (bio_ready_boot0 bs) I)
    as (b & k' & Eb & F & I' & _).
  - intros b Hb. rewrite lookup_empty in Hb. discriminate Hb.
  - rewrite R. lia.
  - right. exists ∅. split; [by apply Nat.ltb_lt|]. intros x Hx. destruct (Hx (R x)).
  - destruct (bc_lru _ _ _ _ I') as [l Hl].
    destruct (bc_held _ _ _ _ I' b 33) as ((Hb & _) & _ & _ & L); [apply lookup_insert_eq|].
    destruct (brelse_lru 0 k' l b) as (k2 & E2 & H2 & _).
    + eapply (@bio_frame_ready two_pages); [exact F|apply (bio_ready_boot0 bs)].
    + exact Hl.
    + apply (lru_elem _ _ _ Hl). exact Hb.
    + exact L.
    + exists (set_k_bufs bs boot0), b, k', k2. eexists.
      split_and!; [exact E|exact Eb|exact E2|exact H2].
Defined.
