(* ===== verification/Log.v ===== *)
(** kernel/log.c: the write-ahead log.

    A system call brackets its disk writes by begin_op() and end_op(); the
    blocks it changes with log_write() reach their places on disk in commit(),
    all of them or, after a crash, none. *)
From S2P Require Import Prelude CInt KState KString Riscv Kalloc Vm Proc Uart Printf Bio.

Section log.
Context {P : Platform}.

(** * The header block, as struct logheader laid over a block's bytes *)

Definition hb_n (data : list Z) : Z := i32 (ldl32 data 0).
Definition hb_block (data : list Z) (i : Z) : Z := i32 (ldl32 data (4 + 4 * i)).
Definition set_hb_n (v : Z) (data : list Z) : list Z := stl32 data 0 v.
Definition set_hb_block (i v : Z) (data : list Z) : list Z := stl32 data (4 + 4 * i) v.

(** * The in-memory header *)

Definition get_lh : M logheader := gets (fun k => log_lh (k_log k)).
Definition upd_lh (f : logheader -> logheader) : M unit :=
  upd_log (fun l => set_log_lh (f (log_lh l)) l).

(** log.lh.block[i] = v; the array has LOGSIZE elements. *)
Definition set_lh_block_at (i v : Z) : M unit :=
  if (0 <=? i) && (i <? LOGSIZE)
  then upd_lh (fun lh => set_lh_block ((lh_block lh).[i <- v]) lh)
  else stuck.

Definition get_lh_block_at (i : Z) : M Z :=
  let* lh := get_lh in
  if (0 <=? i) && (i <? LOGSIZE) then ret (lh_block lh).[i] else stuck.

(** * The code *)

(** One turn of the loop of install_trans(). *)
Definition install_block (recovering : bool) (tail : Z) : M unit :=
  let* l := gets (fun k => k_log k) in
  let* lbuf := bread (log_dev l) (u32 (log_start l + tail + 1)) in (* read log block *)
  let* dst := get_lh_block_at tail in
  let* dbuf := bread (log_dev l) (u32 dst) in (* read dst *)
  let* lb := get_buf lbuf in
  upd_buf dbuf (set_b_data (b_data lb)) ;;; (* copy block to dst *)
  bwrite dbuf ;;; (* write dst to disk *)
  when (negb recovering) (bunpin dbuf) ;;;
  brelse lbuf ;;;
  brelse dbuf.

Fixpoint install_loop (n : nat) (recovering : bool) (tail : Z) : M unit :=
  match n with
  | O => ret tt
  | S n' => install_block recovering tail ;;; install_loop n' recovering (tail + 1)
  end.

(** Nothing in the body changes log.lh.n. *)
Definition install_trans (recovering : bool) : M unit :=
  let* lh := get_lh in
  install_loop (Z.to_nat (lh_n lh)) recovering 0.

Fixpoint read_head_loop (n : nat) (data : list Z) (i : Z) : M unit :=
  match n with
  | O => ret tt
  | S n' => set_lh_block_at i (hb_block data i) ;;; read_head_loop n' data (i + 1)
  end.

Definition read_head : M unit :=
  let* l := gets (fun k => k_log k) in
  let* b := bread (log_dev l) (u32 (log_start l)) in
  let* bf := get_buf b in
  upd_lh (set_lh_n (hb_n (b_data bf))) ;;;
  read_head_loop (Z.to_nat (hb_n (b_data bf))) (b_data bf) 0 ;;;
  brelse b.

Fixpoint write_head_loop (n : nat) (b : nat) (i : Z) : M unit :=
  match n with
  | O => ret tt
  | S n' =>
      let* v := get_lh_block_at i in
      upd_buf b (fun bf => set_b_data (set_hb_block i v (b_data bf)) bf) ;;;
      write_head_loop n' b (i + 1)
  end.

Definition write_head : M unit :=
  let* l := gets (fun k => k_log k) in
  let* b := bread (log_dev l) (u32 (log_start l)) in
  let* lh := get_lh in
  upd_buf b (fun bf => set_b_data (set_hb_n (lh_n lh) (b_data bf)) bf) ;;;
  write_head_loop (Z.to_nat (lh_n lh)) b 0 ;;;
  bwrite b ;;;
  brelse b.

Definition recover_from_log : M unit :=
  read_head ;;;
  install_trans true ;;; (* if committed, copy from log to disk *)
  upd_lh (set_lh_n 0) ;;;
  write_head. (* clear the log *)

Definition sizeof_logheader : Z := 4 + 4 * LOGSIZE.

Definition initlog (dev : Z) (sb : superblock) : M unit :=
  if BSIZE <=? sizeof_logheader then panic "initlog: too big logheader"
  else
    initlock L_log ;;;
    upd_log (set_log_start (i32 (sb_logstart sb))) ;;;
    upd_log (set_log_size (i32 (sb_nlog sb))) ;;;
    upd_log (set_log_dev dev) ;;;
    recover_from_log.

(** The condition under which begin_op() waits: a commit is going on, or this
    operation might exhaust the log's space. *)
Definition begin_op_waits (l : logst) : bool :=
  negb (log_committing l =? 0) ||
  (LOGSIZE <? lh_n (log_lh l) + (log_outstanding l + 1) * MAXOPBLOCKS).

Definition begin_op : M unit :=
  acquire L_log ;;;
  sleep_while (fun k => begin_op_waits (k_log k)) Ch_log L_log ;;;
  upd_log (fun l => set_log_outstanding (log_outstanding l + 1) l) ;;;
  release L_log.

Definition write_log_block (tail : Z) : M unit :=
  let* l := gets (fun k => k_log k) in
  let* to := bread (log_dev l) (u32 (log_start l + tail + 1)) in (* log block *)
  let* src := get_lh_block_at tail in
  let* from := bread (log_dev l) (u32 src) in (* cache block *)
  let* fb := get_buf from in
  upd_buf to (set_b_data (b_data fb)) ;;;
  bwrite to ;;; (* write the log *)
  brelse from ;;;
  brelse to.

Fixpoint write_log_loop (n : nat) (tail : Z) : M unit :=
  match n with
  | O => ret tt
  | S n' => write_log_block tail ;;; write_log_loop n' (tail + 1)
  end.

Definition write_log : M unit :=
  let* lh := get_lh in
  write_log_loop (Z.to_nat (lh_n lh)) 0.

Definition commit : M unit :=
  let* lh := get_lh in
  when (0 <? lh_n lh)
    (write_log ;;; (* Write modified blocks from cache to log *)
     write_head ;;; (* Write header to disk -- the real commit *)
     install_trans false ;;; (* Now install writes to home locations *)
     upd_lh (set_lh_n 0) ;;;
     write_head). (* Erase the transaction from the log *)

Definition end_op : M unit :=
  acquire L_log ;;;
  upd_log (fun l => set_log_outstanding (log_outstanding l - 1) l) ;;;
  let* l := gets (fun k => k_log k) in
  if negb (log_committing l =? 0) then panic "log.committing"
  else
    let do_commit := log_outstanding l =? 0 in
    (if do_commit then upd_log (set_log_committing 1)
     else
       (* begin_op() may be waiting for log space, and decrementing
          log.outstanding has decreased the amount of reserved space. *)
       wakeup Ch_log) ;;;
    release L_log ;;;
    when do_commit
      ((* call commit w/o holding locks, since not allowed to sleep with locks. *)
       commit ;;;
       acquire L_log ;;;
       upd_log (set_log_committing 0) ;;;
       wakeup Ch_log ;;;
       release L_log).

(** The index at which the loop of log_write() stops: that of the block, if it
    is in the log already, else lh.n. *)
Fixpoint log_find (n : nat) (blocks : list Z) (bno i : Z) : Z :=
  match n with
  | O => i
  | S n' => if u32 blocks.[i] =? bno then i (* log absorption *)
            else log_find n' blocks bno (i + 1)
  end.

Definition log_write (b : nat) : M unit :=
  acquire L_log ;;;
  let* l := gets (fun k => k_log k) in
  let lh := log_lh l in
  if (LOGSIZE <=? lh_n lh) || (log_size l - 1 <=? lh_n lh) then panic "too big a transaction"
  else if log_outstanding l <? 1 then panic "log_write outside of trans"
  else
    let* bf := get_buf b in
    let i := log_find (Z.to_nat (lh_n lh)) (lh_block lh) (b_blockno bf) 0 in
    set_lh_block_at i (i32 (b_blockno bf)) ;;;
    when (i =? lh_n lh) (* Add new block to log? *)
      (bpin b ;;;
       upd_lh (fun lh => set_lh_n (lh_n lh + 1) lh)) ;;;
    release L_log.

End log.
