(* ===== verification/LogSpec.v ===== *)
(** What kernel/log.c guarantees: a transaction's blocks reach their places on
    disk all together or, after a crash, not at all.

    The proofs use the buffer cache only through the interface of Bcache.v.  A
    crash is a prefix of the disk writes, which [k_writes] records. *)
From S2P Require Import Prelude CInt KState KString Riscv Kalloc Vm Proc Uart Printf Bio Bcache Log.

(** * Disk writes *)

Definition apply_writes (ws : list (Z * list Z)) (d : gmap Z (list Z)) : gmap Z (list Z) :=
  foldl (fun d w => <[w.1 := w.2]> d) d ws.

Arguments apply_writes : simpl never.

Lemma apply_writes_cons b v ws d : apply_writes ((b, v) :: ws) d = apply_writes ws (<[b := v]> d).
Proof. done. Qed.

Lemma apply_writes_app ws1 ws2 d :
  apply_writes (ws1 ++ ws2) d = apply_writes ws2 (apply_writes ws1 d).
Proof. apply foldl_app. Qed.

Lemma disk_block_snoc ws b v d : disk_block (apply_writes (ws ++ [(b, v)]) d) b = v.
Proof. rewrite apply_writes_app. apply disk_block_eq. Qed.

Lemma disk_block_apply_notin ws d b :
  b ∉ ws.*1 -> disk_block (apply_writes ws d) b = disk_block d b.
Proof.
  revert d. induction ws as [|[x v] ws IH]; intros d Hb; [done|]. cbn in Hb.
  rewrite apply_writes_cons, IH by set_solver. apply disk_block_ne. set_solver.
Qed.

Lemma disk_block_apply_in ws d i b v :
  NoDup ws.*1 -> ws !! i = Some (b, v) -> disk_block (apply_writes ws d) b = v.
Proof.
  revert d i. induction ws as [|[x u] ws IH]; intros d i Hnd Hi; [done|]. cbn in Hnd.
  rewrite apply_writes_cons. apply list.NoDup_cons in Hnd as [Hx Hnd]. destruct i as [|i]; cbn in Hi.
  - injection Hi as -> ->. rewrite disk_block_apply_notin by done. apply disk_block_eq.
  - by apply (IH _ i).
Qed.

(** [k'] is [k] but for the buffers, the disk (which has seen the writes [ws]
    in order) and other processes' states. *)
Definition io_frame (ws : list (Z * list Z)) (k k' : K) : Prop :=
  exists bs ps,
    k' = set_k_writes (rev ws ++ k_writes k)
           (set_k_disk (apply_writes ws (k_disk k)) (set_k_bufs bs (set_k_procs ps k))) /\
    procs_rel (k_proc k) (k_procs k) ps.

Lemma io_frame_bio k k' : bio_frame k k' -> io_frame [] k k'.
Proof. intros (bs & ps & -> & Hp). by exists bs, ps. Qed.

Lemma io_frame_trans ws1 ws2 k1 k2 k3 :
  io_frame ws1 k1 k2 -> io_frame ws2 k2 k3 -> io_frame (ws1 ++ ws2) k1 k3.
Proof.
  intros (bs & ps & -> & H1) (bs' & ps' & -> & H2). exists bs', ps'. split.
  - rewrite apply_writes_app, rev_app_distr, <- app_assoc. done.
  - by eapply procs_rel_trans.
Qed.

Lemma io_frame_write bno v k :
  io_frame [(bno, v)] k (set_k_writes ((bno, v) :: k_writes k)
                          (set_k_disk (<[bno := v]> (k_disk k)) k)).
Proof. exists (k_bufs k), (k_procs k). split; [done|apply procs_rel_refl]. Qed.

Lemma io_frame_ready `{Platform} p ws k k' : io_frame ws k k' -> bio_ready p k -> bio_ready p k'.
Proof.
  intros (bs & ps & -> & Hl & _) (Hp & [Hw1 Hw2] & Hb & Hs).
  split_and!; try done. split; [cbn; congruence|done].
Qed.

Lemma io_frame_log ws k k' : io_frame ws k k' -> k_log k' = k_log k.
Proof. by intros (bs & ps & -> & _). Qed.

Lemma io_frame_disk ws k k' : io_frame ws k k' -> k_disk k' = apply_writes ws (k_disk k).
Proof. by intros (bs & ps & -> & _). Qed.

Lemma io_frame_writes ws k k' : io_frame ws k k' -> k_writes k' = rev ws ++ k_writes k.
Proof. by intros (bs & ps & -> & _). Qed.

(** * Running the cache's operations *)

Section logspec.
Context {P : Platform} (dev : Z) (p : nat) {C : BlockCache dev p}.

(** From [k0], with the writes [ws] so far, to [k]: the buffers [H] are locked,
    the blocks' contents are [V] and their reference counts [R]. *)
Record st (k0 : K) (ws : list (Z * list Z)) (k : K) (H : gmap nat Z) (V : Z -> list Z)
    (R : Z -> Z) : Prop := mk_st {
  st_io : io_frame ws k0 k;
  st_ready : bio_ready p k;
  st_cinv : cinv k H;
  st_view : forall x, view k x = V x;
  st_refs : forall x, refs k x = R x;
}.

Lemma st_bread k0 ws k H V R bno :
  st k0 ws k H V R -> (forall b, H !! b <> Some bno) -> R bno + 1 < 2 ^ 32 ->
  (R bno <> 0 \/ exists X : gset Z, (size X < Z.to_nat NBUF)%nat /\ forall x, R x <> 0 -> x ∈ X) ->
  exists b k', bread dev bno k = Ok b k' /\ H !! b = None /\
    st k0 ws k' (<[b := bno]> H) V (fn_upd R bno (R bno + 1)).
Proof.
  intros [F Hr I HV HR] Hn Hw Hroom. rewrite <- HR in Hw.
  destruct (bread_law k H bno) as (b & k' & E & F' & I' & Nb & V' & R'); try done.
  { destruct Hroom as [?|(X & ? & HX)]; [left; by rewrite HR|right].
    exists X. split; [done|]. intros x. rewrite HR. apply HX. }
  exists b, k'. split_and!; [done|done|]. split.
  - rewrite <- (app_nil_r ws). eapply io_frame_trans; [exact F|by apply io_frame_bio].
  - by eapply bio_frame_ready.
  - done.
  - intros x. by rewrite V'.
  - intros x. rewrite R', HR. unfold fn_upd. by case_decide.
Qed.

Lemma st_store k0 ws k H V R b bno d :
  st k0 ws k H V R -> H !! b = Some bno -> length d = Z.to_nat BSIZE ->
  st k0 ws (upd_bufs b (set_b_data d) k) H (fn_upd V bno d) R.
Proof.
  intros [F Hr I HV HR] Hb Hd. destruct (store_law k H b bno d) as (I' & V' & R'); try done.
  pose proof (bio_frame_bufs (alter (set_b_data d) b (k_bufs k)) k) as F'. split.
  - rewrite <- (app_nil_r ws). eapply io_frame_trans; [exact F|by apply io_frame_bio].
  - by eapply bio_frame_ready.
  - done.
  - intros x. rewrite V'. unfold fn_upd. by case_decide.
  - intros x. by rewrite R'.
Qed.

Lemma st_bwrite k0 ws k H V R b bno :
  st k0 ws k H V R -> H !! b = Some bno ->
  exists k', bwrite b k = Ok tt k' /\ st k0 (ws ++ [(bno, V bno)]) k' H V R.
Proof.
  intros [F Hr I HV HR] Hb. destruct (bwrite_law k H b bno) as (k' & E & Ek & I' & V' & R'); try done.
  exists k'. split; [done|].
  assert (io_frame [(bno, V bno)] k k') as F' by (rewrite Ek, HV; apply io_frame_write).
  split; [by eapply io_frame_trans|by eapply io_frame_ready|done| |].
  - intros x. by rewrite V'.
  - intros x. by rewrite R'.
Qed.

Lemma st_brelse k0 ws k H V R b bno :
  st k0 ws k H V R -> H !! b = Some bno ->
  (R bno = 1 -> V bno = disk_block (apply_writes ws (k_disk k0)) bno) ->
  exists k', brelse b k = Ok tt k' /\ st k0 ws k' (delete b H) V (fn_upd R bno (R bno - 1)).
Proof.
  intros [F Hr I HV HR] Hb Hcl.
  destruct (brelse_law k H b bno) as (k' & E & F' & I' & V' & R'); try done.
  { rewrite HR, HV, (io_frame_disk _ _ _ F). done. }
  exists k'. split; [done|]. split.
  - rewrite <- (app_nil_r ws). eapply io_frame_trans; [exact F|by apply io_frame_bio].
  - by eapply bio_frame_ready.
  - done.
  - intros x. by rewrite V'.
  - intros x. rewrite R', HR. unfold fn_upd. by case_decide.
Qed.

Lemma st_bunpin k0 ws k H V R b bno :
  st k0 ws k H V R -> H !! b = Some bno -> 1 < R bno ->
  exists k', bunpin b k = Ok tt k' /\ st k0 ws k' H V (fn_upd R bno (R bno - 1)).
Proof.
  intros [F Hr I HV HR] Hb Hlt. rewrite <- HR in Hlt.
  destruct (bunpin_law k H b bno) as (k' & E & F' & I' & V' & R'); try done.
  exists k'. split; [done|]. split.
  - rewrite <- (app_nil_r ws). eapply io_frame_trans; [exact F|by apply io_frame_bio].
  - by eapply bio_frame_ready.
  - done.
  - intros x. by rewrite V'.
  - intros x. rewrite R', HR. unfold fn_upd. by case_decide.
Qed.

(** The block's bytes in a locked buffer. *)
Lemma st_data k0 ws k H V R b bno :
  st k0 ws k H V R -> H !! b = Some bno ->
  b_data (k_bufs k !!! b) = V bno /\ length (V bno) = Z.to_nat BSIZE.
Proof.
  intros S Hb. rewrite <- (st_view _ _ _ _ _ _ S). split.
  - by apply (cinv_data _ _ _ _ (st_cinv _ _ _ _ _ _ S)).
  - by apply (cinv_size _ _ _ (st_cinv _ _ _ _ _ _ S)).
Qed.

Lemma st_ext k0 ws k H H' V V' R R' :
  st k0 ws k H V R -> H = H' -> (forall x, V x = V' x) -> (forall x, R x = R' x) -> st k0 ws k H' V' R'.
Proof. intros [F Hr I HV HR] <- EV ER. split; try done; intros x; by rewrite <- ?EV, <- ?ER. Qed.

(** * One block of write_log() and of install_trans() *)

(** The log is at [start] on the device and names the blocks [B]; the home
    blocks are outside of the log. *)
Record log_at (start : Z) (B : list Z) (l : logst) : Prop := mk_log_at {
  la_dev : log_dev l = dev;
  la_start : log_start l = start;
  la_range : 0 <= start /\ start + LOGSIZE < 2 ^ 31;
  la_n : lh_n (log_lh l) = Z.of_nat (length B);
  la_len : length (lh_block (log_lh l)) = Z.to_nat LOGSIZE;
  la_blocks : forall i b, B !! i = Some b -> u32 (nth i (lh_block (log_lh l)) 0) = b;
  la_nodup : NoDup B;
  la_home : forall b, b ∈ B -> b < start \/ start + LOGSIZE <= b;
  la_max : (length B < Z.to_nat LOGSIZE)%nat;
}.

Lemma get_lh_block_at_run start B k i b :
  log_at start B (k_log k) -> B !! i = Some b ->
  exists v, get_lh_block_at (Z.of_nat i) k = Ok v k /\ u32 v = b.
Proof.
  intros L Hb. pose proof (la_max _ _ _ L). apply lookup_lt_Some in Hb as Hi.
  exists (nth i (lh_block (log_lh (k_log k))) 0). split; [|by apply L].
  unfold get_lh_block_at, get_lh. kstep.
  replace ((0 <=? Z.of_nat i) && (Z.of_nat i <? LOGSIZE)) with true by (unfold LOGSIZE in *; lia).
  by rewrite Nat2Z.id.
Qed.

(** The number of the [i]-th block of the log. *)
Definition log_block (start : Z) (i : nat) : Z := start + Z.of_nat i + 1.

Lemma log_block_inj start i j : log_block start i = log_block start j -> i = j.
Proof. unfold log_block. lia. Qed.

Lemma log_block_home start B l i b :
  log_at start B l -> (i < length B)%nat -> b ∈ B -> log_block start i <> b.
Proof.
  intros L Hi Hb. pose proof (la_home _ _ _ L _ Hb). pose proof (la_max _ _ _ L).
  unfold log_block. unfold LOGSIZE in *. lia.
Qed.

Lemma log_block_u32 start B l i :
  log_at start B l -> (i < length B)%nat -> u32 (log_start l + Z.of_nat i + 1) = log_block start i.
Proof.
  intros L Hi. rewrite (la_start _ _ _ L). pose proof (la_range _ _ _ L). pose proof (la_max _ _ _ L).
  unfold log_block, LOGSIZE in *. apply u32_small. lia.
Qed.

(** The reference counts when the blocks of [Q] are pinned, once each. *)
Definition pins (Q : list Z) : Z -> Z := fun x => if decide (x ∈ Q) then 1 else 0.

Lemma pins_in Q x : x ∈ Q -> pins Q x = 1.
Proof. intros. unfold pins. by rewrite decide_True. Qed.

Lemma pins_out Q x : x ∉ Q -> pins Q x = 0.
Proof. intros. unfold pins. by rewrite decide_False. Qed.

Lemma pins_room (Q : list Z) :
  (length Q < Z.to_nat NBUF)%nat ->
  exists X : gset Z, (size X < Z.to_nat NBUF)%nat /\ forall x, pins Q x <> 0 -> x ∈ X.
Proof.
  intros HQ. exists (list_to_set Q). split.
  - assert (size (list_to_set Q : gset Z) <= length Q)%nat; [|lia].
    clear. induction Q as [|x Q IH]; cbn; [by rewrite size_empty|].
    pose proof (size_union_alt {[x]} (list_to_set Q : gset Z)) as E.
    rewrite size_singleton in E.
    assert (size ((list_to_set Q : gset Z) ∖ {[x]}) <= size (list_to_set Q : gset Z))%nat
      by (apply subseteq_size; set_solver).
    lia.
  - intros x. unfold pins. case_decide; [|done]. set_solver.
Qed.

Lemma fn_upd_eq {A} (f : Z -> A) x v : fn_upd f x v x = v.
Proof. unfold fn_upd. by rewrite decide_True. Qed.

Lemma fn_upd_ne {A} (f : Z -> A) x v y : y <> x -> fn_upd f x v y = f y.
Proof. intros. unfold fn_upd. by rewrite decide_False. Qed.

Lemma write_log_block_spec start B Q k0 ws k V i b :
  st k0 ws k ∅ V (pins Q) -> log_at start B (k_log k0) -> (length Q < Z.to_nat NBUF)%nat ->
  B !! i = Some b -> b ∈ Q -> log_block start i ∉ Q ->
  wp (write_log_block (Z.of_nat i)) (fun _ k' =>
    st k0 (ws ++ [(log_block start i, V b)]) k' ∅ (fn_upd V (log_block start i) (V b)) (pins Q)) k.
Proof.
  intros S L HQ Hb HbQ HtQ. apply lookup_lt_Some in Hb as Hi.
  assert (log_at start B (k_log k)) as Lk by by rewrite (io_frame_log _ _ _ (st_io _ _ _ _ _ _ S)).
  pose proof (log_block_home _ _ _ _ _ L Hi (list_elem_of_lookup_2 _ _ _ Hb)) as Hne.
  unfold write_log_block. wstep. rewrite (la_dev _ _ _ Lk), (log_block_u32 _ _ _ _ Lk Hi).
  set (t := log_block start i) in *.
  destruct (st_bread _ _ _ _ _ _ t S) as (to & k1 & E1 & _ & S1);
    [done|by rewrite pins_out|right; by apply pins_room|].
  eapply wp_bind_ok; [exact E1|].
  assert (log_at start B (k_log k1)) as L1 by by rewrite (io_frame_log _ _ _ (st_io _ _ _ _ _ _ S1)).
  destruct (get_lh_block_at_run _ _ _ _ _ L1 Hb) as (v & Ev & Hv).
  eapply wp_bind_ok; [exact Ev|]. rewrite Hv.
  assert (forall x, x <> t -> fn_upd (pins Q) t (pins Q t + 1) x = pins Q x) as Hx
    by (intros; by apply fn_upd_ne).
  destruct (st_bread _ _ _ _ _ _ b S1) as (fr & k2 & E2 & Nfr & S2);
    [by intros b'; rewrite lookup_insert_Some, lookup_empty; naive_solver
    |rewrite Hx, pins_in by done; lia|left; by rewrite Hx, pins_in by done|].
  eapply wp_bind_ok; [exact E2|]. wstep.
  assert (fr <> to) as Hft by (intros ->; by rewrite lookup_insert_eq in Nfr).
  destruct (st_data _ _ _ _ _ _ fr b S2) as [-> Hlen]; [apply lookup_insert_eq|].
  eapply (st_store _ _ _ _ _ _ to t) in S2 as S3; [|by rewrite lookup_insert_ne, lookup_insert_eq|done].
  wstep. destruct (st_bwrite _ _ _ _ _ _ to t S3) as (k4 & E4 & S4);
    [by rewrite lookup_insert_ne, lookup_insert_eq|].
  eapply wp_bind_ok; [exact E4|].
  destruct (st_brelse _ _ _ _ _ _ fr b S4) as (k5 & E5 & S5);
    [apply lookup_insert_eq|rewrite fn_upd_eq, Hx, pins_in by done; lia|].
  eapply wp_bind_ok; [exact E5|].
  destruct (st_brelse _ _ _ _ _ _ to t S5) as (k6 & E6 & S6).
  { by rewrite lookup_delete_ne, lookup_insert_ne, lookup_insert_eq. }
  { intros _. by rewrite disk_block_snoc. }
  eapply wp_ok; [exact E6|]. rewrite fn_upd_eq in S6. eapply st_ext; [exact S6| |done|].
  - rewrite delete_insert_id by done. by rewrite delete_insert_id.
  - intros x. rewrite fn_upd_eq. unfold fn_upd. repeat case_decide; subst; try done.
    + rewrite pins_out by done. lia.
    + rewrite pins_in by done. lia.
Qed.

(** bunpin(), unless the log is being recovered; [r] is the count after it. *)
Lemma st_unpin_if (recovering : bool) k0 ws k H V R b bno :
  st k0 ws k H V R -> H !! b = Some bno -> R bno = (if recovering then 1 else 2) ->
  exists k', when (negb recovering) (bunpin b) k = Ok tt k' /\ st k0 ws k' H V (fn_upd R bno 1).
Proof.
  intros S Hb HR. destruct recovering; cbn [negb when].
  - exists k. split; [done|]. eapply st_ext; [exact S|done|done|].
    intros x. unfold fn_upd. case_decide; congruence.
  - destruct (st_bunpin _ _ _ _ _ _ _ _ S Hb) as (k' & E & S'); [lia|]. exists k'. split; [done|].
    by rewrite HR in S'.
Qed.

Lemma install_block_spec (recovering : bool) start B Q k0 ws k V i b :
  st k0 ws k ∅ V (pins Q) -> log_at start B (k_log k0) -> (length Q < Z.to_nat NBUF)%nat ->
  B !! i = Some b -> (if recovering then Q = [] else b ∈ Q) -> log_block start i ∉ Q ->
  V (log_block start i) = disk_block (apply_writes ws (k_disk k0)) (log_block start i) ->
  wp (install_block recovering (Z.of_nat i)) (fun _ k' =>
    st k0 (ws ++ [(b, V (log_block start i))]) k' ∅ (fn_upd V b (V (log_block start i)))
      (fn_upd (pins Q) b 0)) k.
Proof.
  intros S L HQ Hb HbQ HtQ Hcl. apply lookup_lt_Some in Hb as Hi.
  assert (log_at start B (k_log k)) as Lk by by rewrite (io_frame_log _ _ _ (st_io _ _ _ _ _ _ S)).
  pose proof (log_block_home _ _ _ _ _ L Hi (list_elem_of_lookup_2 _ _ _ Hb)) as Hne.
  unfold install_block. wstep. rewrite (la_dev _ _ _ Lk), (log_block_u32 _ _ _ _ Lk Hi).
  set (t := log_block start i) in *.
  destruct (st_bread _ _ _ _ _ _ t S) as (lb & k1 & E1 & _ & S1);
    [done|by rewrite pins_out|right; by apply pins_room|].
  eapply wp_bind_ok; [exact E1|]. rewrite pins_out in S1 by done.
  assert (log_at start B (k_log k1)) as L1 by by rewrite (io_frame_log _ _ _ (st_io _ _ _ _ _ _ S1)).
  destruct (get_lh_block_at_run _ _ _ _ _ L1 Hb) as (v & Ev & Hv).
  eapply wp_bind_ok; [exact Ev|]. rewrite Hv.
  destruct (st_bread _ _ _ _ _ _ b S1) as (db & k2 & E2 & Ndb & S2).
  { by intros b'; rewrite lookup_insert_Some, lookup_empty; naive_solver. }
  { rewrite fn_upd_ne by done. unfold pins. case_decide; lia. }
  { rewrite fn_upd_ne by done. destruct recovering; [right|left; by rewrite pins_in].
    destruct (pins_room [t]) as (X & HX & HX'); [by apply Nat.ltb_lt|]. exists X. split; [done|]. intros x Hx.
    apply HX'. unfold fn_upd, pins in *. subst Q. repeat case_decide; set_solver. }
  eapply wp_bind_ok; [exact E2|]. wstep. rewrite fn_upd_ne in S2 by done.
  assert (db <> lb) as Hdl by (intros ->; by rewrite lookup_insert_eq in Ndb).
  set (H2 := <[db := b]> (<[lb := t]> ∅)) in *.
  assert (H2 !! db = Some b) as Hdb by apply lookup_insert_eq.
  assert (H2 !! lb = Some t) as Hlb by (unfold H2; by rewrite lookup_insert_ne, lookup_insert_eq).
  destruct (st_data _ _ _ _ _ _ lb t S2) as [-> Hlen]; [done|].
  eapply (st_store _ _ _ _ _ _ db b) in S2 as S3; [|done|done]. wstep.
  destruct (st_bwrite _ _ _ _ _ _ db b S3) as (k4 & E4 & S4); [done|].
  eapply wp_bind_ok; [exact E4|]. rewrite fn_upd_eq in S4.
  destruct (st_unpin_if recovering _ _ _ _ _ _ db b S4) as (k5 & E5 & S5); [done| |].
  { rewrite fn_upd_eq. destruct recovering; [subst Q; done|by rewrite pins_in]. }
  eapply wp_bind_ok; [exact E5|].
  destruct (st_brelse _ _ _ _ _ _ lb t S5) as (k6 & E6 & S6); [done| |].
  { intros _. rewrite fn_upd_ne, apply_writes_app by done. by rewrite disk_block_apply_notin by set_solver. }
  eapply wp_bind_ok; [exact E6|].
  destruct (st_brelse _ _ _ _ _ _ db b S6) as (k7 & E7 & S7).
  { by rewrite lookup_delete_ne. }
  { intros _. by rewrite fn_upd_eq, disk_block_snoc. }
  eapply wp_ok; [exact E7|]. eapply st_ext; [exact S7| |done|].
  - apply map_eq. intros j. unfold H2. rewrite !lookup_delete, !lookup_insert, lookup_empty.
    by repeat case_decide.
  - intros x. unfold fn_upd. repeat case_decide; subst; try done. rewrite pins_out by done. lia.
Qed.

(** * The loops *)

Definition vapply (ws : list (Z * list Z)) (V : Z -> list Z) : Z -> list Z :=
  foldl (fun V w => fn_upd V w.1 w.2) V ws.

Arguments vapply : simpl never.

Lemma vapply_cons b v ws V : vapply ((b, v) :: ws) V = vapply ws (fn_upd V b v).
Proof. done. Qed.

Lemma vapply_notin ws V x : x ∉ ws.*1 -> vapply ws V x = V x.
Proof.
  revert V. induction ws as [|[b v] ws IH]; intros V Hx; [done|]. cbn in Hx.
  rewrite vapply_cons, IH by set_solver. apply fn_upd_ne. set_solver.
Qed.

(** What write_log() writes when the blocks' contents are [V]. *)
Definition log_writes (start : Z) (V : Z -> list Z) (B : list Z) : list (Z * list Z) :=
  imap (fun i b => (log_block start i, V b)) B.

(** What install_trans() writes when the log blocks' contents are [V]. *)
Definition home_writes (start : Z) (V : Z -> list Z) (B : list Z) : list (Z * list Z) :=
  imap (fun i b => (b, V (log_block start i))) B.

Lemma drop_imap_S {A B} (f : nat -> A -> B) (l : list A) i a :
  l !! i = Some a -> drop i (imap f l) = f i a :: drop (S i) (imap f l).
Proof. intros H. apply drop_S. by rewrite list_lookup_imap, H. Qed.

Lemma write_log_loop_spec start B Q V k0 n : forall i k ws W,
  (i + n)%nat = length B -> st k0 ws k ∅ W (pins Q) -> (forall b, b ∈ B -> W b = V b) ->
  log_at start B (k_log k0) -> (length Q < Z.to_nat NBUF)%nat -> (forall b, b ∈ B -> b ∈ Q) ->
  (forall j, (j < length B)%nat -> log_block start j ∉ Q) ->
  wp (write_log_loop n (Z.of_nat i)) (fun _ k' =>
    st k0 (ws ++ drop i (log_writes start V B)) k' ∅
      (vapply (drop i (log_writes start V B)) W) (pins Q)) k.
Proof.
  induction n as [|n IH]; intros i k ws W Hn S HW L HQ HBQ Hlog; cbn [write_log_loop].
  - rewrite drop_ge by (unfold log_writes; rewrite length_imap; lia). rewrite app_nil_r. done.
  - destruct (lookup_lt_is_Some_2 B i) as [b Hb]; [lia|].
    assert (b ∈ B) as HbB by by apply list_elem_of_lookup_2 in Hb.
    apply wp_bind. eapply wp_mono; [|apply (write_log_block_spec start B Q k0 ws k W i b); auto;
      apply Hlog; lia].
    intros [] k1 S1. replace (Z.of_nat i + 1) with (Z.of_nat (Datatypes.S i)) by lia.
    unfold log_writes. rewrite (drop_imap_S _ _ _ _ Hb), <- HW by done.
    rewrite vapply_cons, (cons_middle _ ws), app_assoc.
    apply IH; [lia|done| |done|done|done|done].
    intros b' Hb'. rewrite fn_upd_ne; [by apply HW|].
    intros E. eapply (log_block_home start B _ i); [done|lia|exact Hb'|done].
Qed.

(** The pinned blocks when install_trans() is at its [i]-th block. *)
Definition still_pinned (recovering : bool) (B : list Z) (i : nat) : list Z :=
  if recovering then [] else drop i B.

Lemma still_pinned_in recovering B i x : x ∈ still_pinned recovering B i -> x ∈ B.
Proof.
  destruct recovering; cbn; [set_solver|]. intros H.
  apply list_elem_of_lookup in H as [j H]. rewrite lookup_drop in H. by apply list_elem_of_lookup_2 in H.
Qed.

Lemma install_loop_spec recovering start B V k0 n : forall i k ws W,
  (i + n)%nat = length B -> st k0 ws k ∅ W (pins (still_pinned recovering B i)) ->
  (forall j, (j < length B)%nat -> W (log_block start j) = V (log_block start j) /\
     W (log_block start j) = disk_block (apply_writes ws (k_disk k0)) (log_block start j)) ->
  log_at start B (k_log k0) ->
  wp (install_loop n recovering (Z.of_nat i)) (fun _ k' =>
    st k0 (ws ++ drop i (home_writes start V B)) k' ∅
      (vapply (drop i (home_writes start V B)) W) (pins [])) k.
Proof.
  induction n as [|n IH]; intros i k ws W Hn S HW L; cbn [install_loop].
  - rewrite drop_ge by (unfold home_writes; rewrite length_imap; lia). rewrite app_nil_r.
    eapply st_ext; [exact S|done|done|]. intros x. unfold still_pinned.
    destruct recovering; [done|]. by rewrite drop_ge by lia.
  - destruct (lookup_lt_is_Some_2 B i) as [b Hb]; [lia|].
    assert (b ∈ B) as HbB by by apply list_elem_of_lookup_2 in Hb.
    pose proof (la_max _ _ _ L) as Hmax. destruct (HW i) as [HWi HDi]; [lia|].
    apply wp_bind. eapply wp_mono; [|apply (install_block_spec recovering start B
      (still_pinned recovering B i) k0 ws k W i b); [done|done| |done| | |done]].
    + intros [] k1 S1. replace (Z.of_nat i + 1) with (Z.of_nat (Datatypes.S i)) by lia.
      unfold home_writes. rewrite (drop_imap_S _ _ _ _ Hb), <- HWi.
      rewrite vapply_cons, (cons_middle _ ws), app_assoc.
      apply IH; [lia| | |done].
      * eapply st_ext; [exact S1|done|done|]. intros x. unfold fn_upd, still_pinned.
        destruct recovering; [by case_decide|]. case_decide as D.
        -- subst. rewrite pins_out; [done|]. pose proof (la_nodup _ _ _ L) as Hnd.
           rewrite <- (take_drop_middle _ _ _ Hb) in Hnd. apply list.NoDup_app in Hnd as (_ & _ & Hnd).
           by apply list.NoDup_cons in Hnd as [? _].
        -- unfold pins. rewrite (drop_S _ _ _ Hb). repeat case_decide; set_solver.
      * intros j Hj. pose proof (log_block_home _ _ _ _ _ L Hj HbB) as Hne.
        rewrite fn_upd_ne, apply_writes_app by done.
        rewrite disk_block_apply_notin by set_solver. by apply HW.
    + unfold still_pinned. destruct recovering; cbn [length].
      * by apply Nat.ltb_lt.
      * rewrite length_drop. unfold LOGSIZE, NBUF in *. lia.
    + unfold still_pinned. destruct recovering; [done|]. rewrite (drop_S _ _ _ Hb). set_solver.
    + intros Hin. apply still_pinned_in in Hin.
      eapply (log_block_home start B _ i); [done|lia|exact Hin|done].
Qed.

(** * The header block *)

(** The loop of write_head() on the bytes of the block. *)
Fixpoint head_loop (n : nat) (blocks : list Z) (i : Z) (d : list Z) : list Z :=
  match n with
  | O => d
  | S n' => head_loop n' blocks (i + 1) (set_hb_block i blocks.[i] d)
  end.

Definition head_data (lh : logheader) (d : list Z) : list Z :=
  head_loop (Z.to_nat (lh_n lh)) (lh_block lh) 0 (set_hb_n (lh_n lh) d).

(** The blocks a header names. *)
Definition hdr_blocks (d : list Z) : list Z :=
  map (fun i => u32 (hb_block d (Z.of_nat i))) (seq 0 (Z.to_nat (hb_n d))).

Lemma length_head_loop n blocks i d : length (head_loop n blocks i d) = length d.
Proof.
  revert i d. induction n as [|n IH]; intros i d; cbn [head_loop]; [done|]. rewrite IH. apply length_stl.
Qed.

Lemma length_head_data lh d : length (head_data lh d) = length d.
Proof. unfold head_data. rewrite length_head_loop. apply length_stl. Qed.

Lemma head_loop_out n blocks i d off :
  0 <= i -> 0 <= off -> off + 4 <= 4 + 4 * i -> ldl32 (head_loop n blocks i d) off = ldl32 d off.
Proof.
  revert i d. induction n as [|n IH]; intros i d H1 H2 H3; cbn [head_loop]; [done|].
  rewrite IH by lia. unfold set_hb_block. by apply ldl32_stl32_ne; lia.
Qed.

Lemma head_loop_in n blocks i d j :
  0 <= i -> 4 + 4 * (i + Z.of_nat n) <= Z.of_nat (length d) -> i <= j < i + Z.of_nat n ->
  u32 (hb_block (head_loop n blocks i d) j) = u32 blocks.[j].
Proof.
  revert i d. induction n as [|n IH]; intros i d H1 H2 H3; [lia|]. cbn [head_loop].
  destruct (decide (j = i)) as [->|].
  - unfold hb_block. rewrite head_loop_out by lia. unfold set_hb_block.
    rewrite ldl32_stl32_eq, u32_i32 by lia. unfold u32. by rewrite Z.mod_mod by lia.
  - apply IH; [lia| |lia]. unfold set_hb_block, stl32. rewrite length_stl. lia.
Qed.

(** The header write_head() writes names the blocks of the log. *)
Lemma hdr_blocks_head start B l d :
  log_at start B l -> length d = Z.to_nat BSIZE -> hdr_blocks (head_data (log_lh l) d) = B.
Proof.
  intros L Hd. pose proof (la_n _ _ _ L) as Hn. pose proof (la_max _ _ _ L) as Hm.
  unfold BSIZE, LOGSIZE, MAXOPBLOCKS in *.
  assert (hb_n (head_data (log_lh l) d) = Z.of_nat (length B)) as Hhn.
  { unfold hb_n, head_data. rewrite head_loop_out by lia. unfold set_hb_n.
    rewrite ldl32_stl32_eq, i32_u32, Hn by lia. apply i32_small. lia. }
  unfold hdr_blocks. rewrite Hhn, Nat2Z.id. apply list_eq. intros i. rewrite list_lookup_fmap.
  destruct (decide (i < length B)%nat) as [Hi|Hi].
  - rewrite lookup_seq_lt by done. cbn. destruct (lookup_lt_is_Some_2 _ _ Hi) as [b Hb].
    rewrite Hb. f_equal. rewrite <- (la_blocks _ _ _ L i b Hb).
    unfold head_data. rewrite head_loop_in.
    + by rewrite Nat2Z.id.
    + lia.
    + unfold set_hb_n, stl32. rewrite length_stl. lia.
    + lia.
  - rewrite lookup_seq_ge by lia. cbn. symmetry. apply lookup_ge_None. lia.
Qed.

Lemma upd_bufs_data b (f : list Z -> list Z) k :
  upd_bufs b (fun bf => set_b_data (f (b_data bf)) bf) k =
  upd_bufs b (set_b_data (f (b_data (k_bufs k !!! b)))) k.
Proof.
  unfold upd_bufs. f_equal. apply list_eq. intros j. rewrite !list_lookup_alter.
  case_decide; [subst|done]. destruct (k_bufs k !! j) as [bf|] eqn:E; [|done]. cbn.
  by rewrite (list_lookup_total_correct _ _ _ E).
Qed.

Lemma write_head_loop_run n b : forall i k,
  0 <= i -> i + Z.of_nat n <= LOGSIZE ->
  write_head_loop n b i k =
    Ok tt (upd_bufs b (fun bf =>
             set_b_data (head_loop n (lh_block (log_lh (k_log k))) i (b_data bf)) bf) k).
Proof.
  induction n as [|n IH]; intros i k H1 H2; cbn [write_head_loop head_loop].
  - unfold ret, upd_bufs. by rewrite alter_same by done.
  - unfold get_lh_block_at, get_lh. rewrite bind_assoc. kstep.
    replace ((0 <=? i) && (i <? LOGSIZE)) with true by lia. kstep. kstep.
    rewrite IH by lia. unfold upd_bufs. cbn. by rewrite alter_alter.
Qed.

Lemma write_head_spec start B Q k0 ws k V :
  st k0 ws k ∅ V (pins Q) -> log_at start B (k_log k0) -> (length Q < Z.to_nat NBUF)%nat ->
  start ∉ Q ->
  let hd := head_data (log_lh (k_log k0)) (V start) in
  wp write_head (fun _ k' => st k0 (ws ++ [(start, hd)]) k' ∅ (fn_upd V start hd) (pins Q)) k.
Proof.
  intros S L HQ HsQ hd. pose proof (io_frame_log _ _ _ (st_io _ _ _ _ _ _ S)) as EL.
  assert (log_at start B (k_log k)) as Lk by by rewrite EL.
  pose proof (la_range _ _ _ L) as Hr. pose proof (la_max _ _ _ L) as Hm. pose proof (la_n _ _ _ L) as Hn.
  unfold write_head. wstep. rewrite (la_dev _ _ _ Lk), (la_start _ _ _ Lk).
  rewrite (u32_small start) by (unfold LOGSIZE in *; lia).
  destruct (st_bread _ _ _ _ _ _ start S) as (b & k1 & E1 & _ & S1);
    [done|by rewrite pins_out|right; by apply pins_room|].
  eapply wp_bind_ok; [exact E1|]. unfold get_lh. wstep.
  rewrite (io_frame_log _ _ _ (st_io _ _ _ _ _ _ S1)).
  destruct (st_data _ _ _ _ _ _ b start S1) as [Hbd Hlen]; [apply lookup_insert_eq|].
  wstep. eapply wp_bind_ok; [apply write_head_loop_run; [lia|unfold LOGSIZE in *; lia]|].
  match goal with |- wp _ _ ?k2 =>
    replace k2 with (upd_bufs b (set_b_data hd) k1) by
      (unfold hd, head_data; rewrite <- Hbd;
       rewrite <- (upd_bufs_data b (fun d => head_loop _ _ 0 (set_hb_n _ d)));
       unfold upd_bufs; cbn; rewrite alter_alter, (io_frame_log _ _ _ (st_io _ _ _ _ _ _ S1)); done)
  end.
  eapply (st_store _ _ _ _ _ _ b start hd) in S1 as S2;
    [|apply lookup_insert_eq|unfold hd; by rewrite length_head_data].
  destruct (st_bwrite _ _ _ _ _ _ b start S2) as (k3 & E3 & S3); [apply lookup_insert_eq|].
  eapply wp_bind_ok; [exact E3|]. rewrite fn_upd_eq in S3.
  destruct (st_brelse _ _ _ _ _ _ b start S3) as (k4 & E4 & S4);
    [apply lookup_insert_eq|intros _; by rewrite fn_upd_eq, disk_block_snoc|].
  eapply wp_ok; [exact E4|]. eapply st_ext; [exact S4| |done|].
  - by rewrite delete_insert_id.
  - intros x. unfold fn_upd. case_decide; [|done]. subst. rewrite pins_out by done. by rewrite decide_True.
Qed.

(** * commit() *)

Lemma vapply_in ws V i b v : NoDup ws.*1 -> ws !! i = Some (b, v) -> vapply ws V b = v.
Proof.
  revert V i. induction ws as [|[x u] ws IH]; intros V i Hnd Hi; [done|]. cbn in Hnd.
  rewrite vapply_cons. apply list.NoDup_cons in Hnd as [Hx Hnd]. destruct i as [|i]; cbn in Hi.
  - injection Hi as -> ->. rewrite vapply_notin by done. apply fn_upd_eq.
  - by apply (IH _ i).
Qed.

(** Outside of the log. *)
Definition home (start x : Z) : Prop := x < start \/ start + LOGSIZE <= x.

Lemma log_writes_keys start V B : (log_writes start V B).*1 = map (log_block start) (seq 0 (length B)).
Proof.
  unfold log_writes. rewrite fmap_imap. apply list_eq. intros i.
  rewrite list_lookup_imap, list_lookup_fmap. destruct (decide (i < length B)%nat) as [Hi|Hi].
  - rewrite lookup_seq_lt by done. destruct (lookup_lt_is_Some_2 _ _ Hi) as [b ->]. done.
  - rewrite lookup_seq_ge by lia. by rewrite lookup_ge_None_2 by lia.
Qed.

Lemma log_writes_nodup start V B : NoDup (log_writes start V B).*1.
Proof.
  rewrite log_writes_keys. apply NoDup_fmap_2_strong; [|apply NoDup_seq].
  intros i j _ _ E. by apply log_block_inj in E.
Qed.

Lemma log_writes_key_range start V B x :
  x ∈ (log_writes start V B).*1 -> start < x <= start + Z.of_nat (length B).
Proof.
  rewrite log_writes_keys, list_elem_of_fmap. intros (i & -> & Hi). apply elem_of_seq in Hi.
  unfold log_block. lia.
Qed.

Lemma log_writes_lookup start V B i b :
  B !! i = Some b -> log_writes start V B !! i = Some (log_block start i, V b).
Proof. intros Hb. unfold log_writes. by rewrite list_lookup_imap, Hb. Qed.

Definition block_writes (V : Z -> list Z) (B : list Z) : list (Z * list Z) := map (fun b => (b, V b)) B.

Lemma block_writes_keys V B : (block_writes V B).*1 = B.
Proof. unfold block_writes. rewrite <- list_fmap_compose. apply list_fmap_id. Qed.

Lemma home_writes_block start V W B :
  (forall j b, B !! j = Some b -> W (log_block start j) = V b) -> home_writes start W B = block_writes V B.
Proof.
  intros H. apply list_eq. intros i. unfold home_writes, block_writes.
  rewrite list_lookup_imap, list_lookup_fmap. destruct (B !! i) eqn:E; [|done]. cbn. by rewrite (H i z).
Qed.

(** The disk writes of a transaction. *)
Definition tx_writes (start : Z) (lh : logheader) (V : Z -> list Z) (B : list Z) : list (Z * list Z) :=
  let hd := head_data lh (V start) in
  (log_writes start V B ++ [(start, hd)]) ++
  block_writes V B ++ [(start, head_data (set_lh_n 0 lh) hd)].

Definition clear_lh (l : logst) : logst := set_log_lh (set_lh_n 0 (log_lh l)) l.

Lemma st_log l k0 ws k H V R :
  st k0 ws k H V R -> st (set_k_log l k0) ws (set_k_log l k) H V R.
Proof.
  intros [F Hr I HV HR].
  destruct (cinv_frame k (set_k_log l k) H) as (I' & V' & R'); try done.
  destruct F as (bs & ps & -> & Hp). split; [by exists bs, ps|done|done| |].
  - intros x. by rewrite V'.
  - intros x. by rewrite R'.
Qed.

Lemma log_at_clear start B l : log_at start B l -> log_at start [] (clear_lh l).
Proof.
  intros []. split; try done; [apply NoDup_nil_2|set_solver|by apply Nat.ltb_lt].
Qed.

Lemma log_at_start start B l : log_at start B l -> start ∉ B.
Proof. intros L Hin. apply (la_home _ _ _ L) in Hin. unfold LOGSIZE, MAXOPBLOCKS in *. lia. Qed.

(** install_trans(), and the header cleared: the end of commit() and of
    recover_from_log().  [U] is what the log holds for each block. *)
Lemma install_clear_spec (recovering : bool) start B U k0 ws k W :
  st k0 ws k ∅ W (pins (if recovering then [] else B)) -> log_at start B (k_log k0) ->
  (forall j b, B !! j = Some b -> W (log_block start j) = U b /\
     disk_block (apply_writes ws (k_disk k0)) (log_block start j) = U b) ->
  let hd := head_data (set_lh_n 0 (log_lh (k_log k0))) (W start) in
  wp (install_trans recovering ;;; upd_lh (set_lh_n 0) ;;; write_head) (fun _ k' =>
    st (set_k_log (clear_lh (k_log k0)) k0) (ws ++ block_writes U B ++ [(start, hd)]) k' ∅
      (fn_upd (vapply (block_writes U B) W) start hd) (pins [])) k.
Proof.
  intros S L HU hd. unfold install_trans, get_lh. wstep. wstep. apply wp_bind.
  rewrite (io_frame_log _ _ _ (st_io _ _ _ _ _ _ S)), (la_n _ _ _ L), Nat2Z.id.
  eapply wp_mono; [|apply (install_loop_spec recovering start B W k0 _ 0 k ws W); [done| | |done]].
  - intros [] k1 S1. rewrite drop_0 in S1.
    rewrite (home_writes_block start U W B) in S1 by (intros; by apply HU).
    unfold upd_lh. wstep. pose proof (io_frame_log _ _ _ (st_io _ _ _ _ _ _ S1)) as E1.
    apply (st_log (clear_lh (k_log k0))) in S1. rewrite E1.
    eapply wp_mono; [|apply (write_head_spec start [] [] _ _ _ _ S1)].
    + intros [] k2 S2. cbv zeta in S2. rewrite vapply_notin in S2.
      * by rewrite app_assoc.
      * rewrite block_writes_keys. by apply (log_at_start _ _ _ L).
    + by apply (log_at_clear start B).
    + by apply Nat.ltb_lt.
    + set_solver.
  - unfold still_pinned. by destruct recovering.
  - intros j Hj. destruct (lookup_lt_is_Some_2 _ _ Hj) as [b Hb]. by destruct (HU j b Hb) as [-> ->].
Qed.

Lemma st_refl k H : bio_ready p k -> cinv k H -> st k [] k H (view k) (refs k).
Proof.
  intros Hr I. split; [|done..]. exists (k_bufs k), (k_procs k). split; [done|apply procs_rel_refl].
Qed.

Lemma commit_spec start B k :
  bio_ready p k -> cinv k ∅ -> (forall x, refs k x = pins B x) -> log_at start B (k_log k) ->
  B <> [] ->
  wp commit (fun _ k' => exists V',
    st (set_k_log (clear_lh (k_log k)) k) (tx_writes start (log_lh (k_log k)) (view k) B) k' ∅ V'
      (pins []) /\ forall x, home start x -> V' x = view k x) k.
Proof.
  intros Hr I HR L HB. pose proof (la_n _ _ _ L) as Hn. pose proof (log_at_start _ _ _ L) as HsB.
  assert (st k [] k ∅ (view k) (pins B)) as S by (by eapply st_ext; [by apply st_refl|..]).
  assert (length B < Z.to_nat NBUF)%nat as HQ by apply (la_max _ _ _ L).
  unfold commit, get_lh. wstep.
  replace (0 <? lh_n (log_lh (k_log k))) with true by (destruct B; [done|cbn in Hn; lia]).
  cbn [when]. unfold write_log, get_lh. wstep. wstep.
  apply wp_bind. rewrite Hn, Nat2Z.id.
  eapply wp_mono; [|apply (write_log_loop_spec start B B (view k) k _ 0 k []); try done;
    intros j Hj Hin; by eapply (log_block_home start B _ j)].
  intros [] k1 S1. rewrite drop_0 in S1. cbn [app] in S1.
  apply wp_bind. eapply wp_mono; [|by apply (write_head_spec start B B)].
  intros [] k2 S2. cbv zeta in S2. rewrite (vapply_notin _ _ start) in S2
    by (intros Hin; apply log_writes_key_range in Hin; lia).
  set (hd := head_data (log_lh (k_log k)) (view k start)) in *.
  set (V1 := vapply (log_writes start (view k) B) (view k)) in *.
  eapply wp_mono; [|apply (install_clear_spec false start B (view k) k _ k2 _ S2 L)].
  - intros [] k3 S3. cbv zeta in S3. rewrite fn_upd_eq in S3. eexists. split; [exact S3|].
    intros x Hx. rewrite fn_upd_ne by (unfold home, LOGSIZE, MAXOPBLOCKS in *; lia).
    destruct (decide (x ∈ B)) as [Hin|Hin].
    + apply list_elem_of_lookup in Hin as [j Hj]. apply (vapply_in _ _ j).
      * rewrite block_writes_keys. apply L.
      * unfold block_writes. by rewrite list_lookup_fmap, Hj.
    + rewrite vapply_notin by (by rewrite block_writes_keys).
      rewrite fn_upd_ne by (unfold home, LOGSIZE, MAXOPBLOCKS in *; lia). apply vapply_notin.
      intros Hin'. apply log_writes_key_range in Hin'. pose proof (la_max _ _ _ L).
      unfold home, LOGSIZE, MAXOPBLOCKS in *. lia.
  - intros j b Hb. split.
    + rewrite fn_upd_ne by (unfold log_block; lia).
      apply (vapply_in _ _ j); [apply log_writes_nodup|by apply log_writes_lookup].
    + rewrite apply_writes_app, disk_block_apply_notin.
      * apply (disk_block_apply_in _ _ j); [apply log_writes_nodup|by apply log_writes_lookup].
      * cbn. unfold log_block. set_solver by lia.
Qed.

(** * log_write() *)

Lemma st_bpin k0 ws k H V R b bno :
  st k0 ws k H V R -> H !! b = Some bno -> R bno + 1 < 2 ^ 32 ->
  exists k', bpin b k = Ok tt k' /\ st k0 ws k' H V (fn_upd R bno (R bno + 1)).
Proof.
  intros [F Hr I HV HR] Hb Hlt. rewrite <- HR in Hlt.
  destruct (bpin_law k H b bno) as (k' & E & F' & I' & V' & R'); try done.
  exists k'. split; [done|]. split.
  - rewrite <- (app_nil_r ws). eapply io_frame_trans; [exact F|by apply io_frame_bio].
  - by eapply bio_frame_ready.
  - done.
  - intros x. by rewrite V'.
  - intros x. rewrite R', HR. unfold fn_upd. by case_decide.
Qed.

(** Taking and releasing the log's lock. *)
Lemma st_held h k0 ws k H V R :
  bio_ready p (set_k_held h k) -> st k0 ws k H V R -> st (set_k_held h k0) ws (set_k_held h k) H V R.
Proof.
  intros Hr' [F Hr I HV HR].
  destruct (cinv_frame k (set_k_held h k) H) as (I' & V' & R'); try done.
  destruct F as (bs & ps & -> & Hp). split; [by exists bs, ps|done|done| |].
  - intros x. by rewrite V'.
  - intros x. by rewrite R'.
Qed.

(** The loop of log_write() finds the block's place in the log, or the end. *)
Lemma log_find_spec blocks bno n : forall i,
  let j := log_find n blocks bno (Z.of_nat i) in
  Z.of_nat i <= j <= Z.of_nat (i + n) /\
  (forall m, (i <= m)%nat -> Z.of_nat m < j -> u32 (nth m blocks 0) <> bno) /\
  (j < Z.of_nat (i + n) -> u32 blocks.[j] = bno).
Proof.
  induction n as [|n IH]; intros i; cbn [log_find]; cbv zeta.
  - split_and!; lia.
  - rewrite Nat2Z.id. destruct (u32 (nth i blocks 0) =? bno) eqn:E; b2p.
    + split_and!; [lia|lia|lia|]. intros _. by rewrite Nat2Z.id.
    + specialize (IH (Datatypes.S i)). cbv zeta in IH.
      replace (Z.of_nat i + 1) with (Z.of_nat (Datatypes.S i)) by lia.
      destruct IH as (H1 & H2 & H3). split_and!; [lia|lia| |].
      * intros m Hm Hlt. destruct (decide (m = i)) as [->|]; [done|]. apply H2; lia.
      * intros Hlt. apply H3. lia.
Qed.

(** The blocks of the log after [bno] was written. *)
Definition log_add (B : list Z) (bno : Z) : list Z := if decide (bno ∈ B) then B else B ++ [bno].

Lemma log_find_at start B l bno :
  log_at start B l ->
  log_find (Z.to_nat (lh_n (log_lh l))) (lh_block (log_lh l)) bno 0 =
    match list_find (fun x => x = bno) B with
    | Some (j, _) => Z.of_nat j
    | None => lh_n (log_lh l)
    end.
Proof.
  intros L. pose proof (la_n _ _ _ L) as Hn. rewrite Hn, Nat2Z.id.
  destruct (log_find_spec (lh_block (log_lh l)) bno (length B) 0) as (H1 & H2 & H3).
  change (Z.of_nat 0) with 0 in *. set (j := log_find _ _ _ 0) in *.
  assert (forall m b, B !! m = Some b -> u32 (nth m (lh_block (log_lh l)) 0) = b) as HB by apply L.
  destruct (list_find _ B) as [[m b]|] eqn:E.
  - apply list_find_Some in E as (Hm & -> & Hfirst). apply lookup_lt_Some in Hm as Hlt.
    destruct (Z.lt_trichotomy j (Z.of_nat m)) as [Hj|[Hj|Hj]]; [|done|].
    + destruct (lookup_lt_is_Some_2 B (Z.to_nat j)) as [b Hb]; [lia|].
      destruct (Hfirst _ _ Hb); [lia|]. rewrite <- (HB _ _ Hb). apply H3. lia.
    + destruct (H2 m); [lia|lia|]. by apply HB.
  - rewrite list_find_None, list.Forall_forall in E.
    destruct (decide (j = Z.of_nat (length B))) as [Hj|Hj]; [done|].
    destruct (lookup_lt_is_Some_2 B (Z.to_nat j)) as [b Hb]; [lia|].
    destruct (E b (list_elem_of_lookup_2 _ _ _ Hb)). rewrite <- (HB _ _ Hb). apply H3. lia.
Qed.

(** The log's state after log_write(). *)
Definition log_written (B : list Z) (bno : Z) (l : logst) : logst :=
  let lh := log_lh l in
  match list_find (fun x => x = bno) B with
  | Some (j, _) => set_log_lh (set_lh_block (<[j := i32 bno]> (lh_block lh)) lh) l
  | None =>
      set_log_lh (mk_logheader (lh_n lh + 1) (<[length B := i32 bno]> (lh_block lh))) l
  end.

Lemma log_at_written start B bno l :
  log_at start B l -> 0 <= bno < 2 ^ 32 -> home start bno ->
  (length (log_add B bno) < Z.to_nat LOGSIZE)%nat ->
  log_at start (log_add B bno) (log_written B bno l).
Proof.
  intros L Hr Hh Hm. unfold log_written, log_add in *.
  destruct (list_find _ B) as [[j b]|] eqn:E.
  - apply list_find_Some in E as (Hj & -> & _). pose proof (list_elem_of_lookup_2 _ _ _ Hj) as Hin.
    rewrite decide_True in Hm |- * by done. destruct L. split; try done; cbn.
    + by rewrite length_insert.
    + intros i b Hb. rewrite nth_lookup, list_lookup_insert. case_decide as D.
      * destruct D as [<- _]. cbn. rewrite u32_i32, u32_small by done. congruence.
      * rewrite <- nth_lookup. auto.
  - rewrite list_find_None, list.Forall_forall in E.
    assert (bno ∉ B) as Hnin by (intros Hin; by destruct (E _ Hin)).
    rewrite decide_False in * by done. rewrite length_app in Hm. cbn in Hm.
    destruct L. split; try done; cbn.
    + rewrite length_app. cbn. lia.
    + by rewrite length_insert.
    + intros i b Hb. apply lookup_snoc_Some in Hb as [[Hi Hb]|[-> <-]].
      * rewrite nth_lookup, list_lookup_insert_ne by lia. rewrite <- nth_lookup. auto.
      * rewrite nth_lookup, list_lookup_insert_eq by lia. cbn. by rewrite u32_i32, u32_small.
    + apply list.NoDup_app. split_and!; [done|set_solver|apply NoDup_singleton].
    + intros b Hb. apply elem_of_app in Hb as [Hb|Hb]; [auto|]. apply list_elem_of_singleton in Hb. by subst.
    + rewrite length_app. cbn. lia.
Qed.

Lemma bio_ready_log k :
  bio_ready p k -> bio_ready p (set_k_held ({[L_log]} ∪ k_held k) k).
Proof.
  intros (Hp & [Hw1 Hw2] & Hb & Hs). split_and!; [done| |cbn; set_solver|cbn; set_solver].
  split; [done|]. intros q Hq. specialize (Hw2 q Hq). cbn. set_solver.
Qed.

Lemma io_frame_held ws k k' : io_frame ws k k' -> k_held k' = k_held k.
Proof. by intros (bs & ps & -> & _). Qed.

Definition upd_blocks (f : list Z -> list Z) (k : K) : K :=
  set_k_log (set_log_lh (set_lh_block (f (lh_block (log_lh (k_log k)))) (log_lh (k_log k))) (k_log k)) k.

Lemma set_lh_block_at_run i v k :
  (i < Z.to_nat LOGSIZE)%nat ->
  set_lh_block_at (Z.of_nat i) v k = Ok tt (upd_blocks (fun bl => <[i := v]> bl) k).
Proof.
  intros Hi. unfold set_lh_block_at.
  replace ((0 <=? Z.of_nat i) && (Z.of_nat i <? LOGSIZE)) with true by (unfold LOGSIZE in *; lia).
  unfold upd_lh, upd_log, modify, upd_blocks. by rewrite Nat2Z.id.
Qed.

(** Leaving the critical section of log.lock. *)
Lemma st_release_log k0 ws k2 H V R l' :
  L_log ∉ k_held k0 ->
  st (set_k_log l' (set_k_held ({[L_log]} ∪ k_held k0) k0)) ws k2 H V R ->
  release L_log k2 = Ok tt (set_k_held (k_held k0) k2) /\
  st (set_k_log l' k0) ws (set_k_held (k_held k0) k2) H V R.
Proof.
  intros Hl S. pose proof (io_frame_held _ _ _ (st_io _ _ _ _ _ _ S)) as E.
  split; [by apply release_acquired|].
  apply (st_held (k_held k0)) in S as S'; [exact S'|].
  destruct (st_ready _ _ _ _ _ _ S) as (A1 & [A2 A3] & A4 & A5).
  assert (k_held k0 ⊆ k_held k2) as Hsub by (rewrite E; cbn; set_solver).
  split_and!; [done| |cbn; set_solver|cbn; set_solver]. split; [done|]. cbn. set_solver.
Qed.

(** log_write() of a locked buffer: the block is in the log once, and pinned
    once by it. *)
Lemma log_write_spec start B k0 ws k H V R b bno :
  st k0 ws k H V R -> H !! b = Some bno -> L_log ∉ k_held k0 ->
  log_at start B (k_log k0) -> 0 <= bno < 2 ^ 32 -> home start bno ->
  lh_n (log_lh (k_log k0)) < log_size (k_log k0) - 1 -> log_size (k_log k0) <= LOGSIZE ->
  1 <= log_outstanding (k_log k0) -> R bno + 1 < 2 ^ 32 ->
  wp (log_write b) (fun _ k' =>
    st (set_k_log (log_written B bno (k_log k0)) k0) ws k' H V
      (if decide (bno ∈ B) then R else fn_upd R bno (R bno + 1)) /\
    log_at start (log_add B bno) (log_written B bno (k_log k0))) k.
Proof.
  intros S Hb Hl L Hbno Hh Hsz Hmax Hout Hw.
  pose proof (io_frame_log _ _ _ (st_io _ _ _ _ _ _ S)) as EL.
  pose proof (io_frame_held _ _ _ (st_io _ _ _ _ _ _ S)) as EH.
  pose proof (cinv_blockno _ _ _ _ (st_cinv _ _ _ _ _ _ S) Hb) as Ebno.
  pose proof (la_n _ _ _ L) as Hn.
  assert (log_at start (log_add B bno) (log_written B bno (k_log k0))) as L'.
  { apply log_at_written; [done|done|done|]. unfold log_add. case_decide; [apply L|].
    rewrite length_app. cbn. unfold LOGSIZE, MAXOPBLOCKS in *. lia. }
  unfold log_write. wstep. wstep. cbn [k_log set_k_held]. rewrite EL.
  replace (_ || _) with false by (unfold LOGSIZE, MAXOPBLOCKS in *; lia).
  replace (log_outstanding (k_log k0) <? 1) with false by lia.
  wstep. cbn [k_bufs set_k_held]. rewrite Ebno, (log_find_at start B _ _ L).
  set (k1 := set_k_held ({[L_log]} ∪ k_held k) k).
  assert (st (set_k_held ({[L_log]} ∪ k_held k0) k0) ws k1 H V R) as S1.
  { unfold k1. rewrite EH. apply st_held; [|done]. rewrite <- EH. apply bio_ready_log, S. }
  unfold log_written in *. destruct (list_find _ B) as [[j x]|] eqn:E.
  - apply list_find_Some in E as (Hj & -> & _). apply lookup_lt_Some in Hj as Hlt.
    pose proof (la_max _ _ _ L). eapply wp_bind_ok; [apply set_lh_block_at_run; lia|].
    replace (Z.of_nat j =? lh_n (log_lh (k_log k0))) with false by lia. wstep.
    rewrite decide_True by (by apply list_elem_of_lookup_2 in Hj).
    unfold upd_blocks. cbn [k_log set_k_held k1]. rewrite EL.
    match goal with |- wp _ _ (set_k_log ?l _) =>
      destruct (st_release_log _ _ _ _ _ _ _ Hl (st_log l _ _ _ _ _ _ S1)) as [E3 S3] end.
    eapply wp_ok; [exact E3|]. split; [exact S3|done].
  - rewrite list_find_None, list.Forall_forall in E.
    rewrite decide_False by (intros Hin; by destruct (E _ Hin)).
    pose proof (la_max _ _ _ L). rewrite Hn.
    eapply wp_bind_ok; [apply set_lh_block_at_run; lia|]. rewrite Z.eqb_refl. cbn [when].
    unfold upd_blocks. cbn [k_log set_k_held k1]. rewrite EL. apply wp_assoc.
    match goal with |- wp _ _ (set_k_log ?l _) =>
      destruct (st_bpin _ _ _ _ _ _ b bno (st_log l _ _ _ _ _ _ S1)) as (k4 & E4 & S4) end; [done|done|].
    eapply wp_bind_ok; [exact E4|]. unfold upd_lh, upd_log. wstep.
    pose proof (io_frame_log _ _ _ (st_io _ _ _ _ _ _ S4)) as EL4. cbn in EL4. rewrite EL4.
    match goal with |- wp _ _ (set_k_log ?l _) =>
      destruct (st_release_log _ _ _ _ _ _ _ Hl (st_log l _ _ _ _ _ _ S4)) as [E5 S5] end.
    eapply wp_ok; [exact E5|]. rewrite <- Hn. split; [exact S5|]. done.
Qed.

(** * What a disk means: the committed log applied to it *)

Definition hdr (start : Z) (d : gmap Z (list Z)) : list Z := hdr_blocks (disk_block d start).

Definition logical (start : Z) (d : gmap Z (list Z)) (x : Z) : list Z :=
  match list_find (fun b => b = x) (hdr start d) with
  | Some (i, _) => disk_block d (log_block start i)
  | None => disk_block d x
  end.

(** The header on disk fits the log and names distinct home blocks. *)
Record log_wf (start : Z) (d : gmap Z (list Z)) : Prop := mk_log_wf {
  lw_n : 0 <= hb_n (disk_block d start) < LOGSIZE;
  lw_nodup : NoDup (hdr start d);
  lw_home : forall b, b ∈ hdr start d -> home start b;
}.

Lemma length_hdr start d : 0 <= hb_n (disk_block d start) ->
  Z.of_nat (length (hdr start d)) = hb_n (disk_block d start).
Proof. intros H. unfold hdr, hdr_blocks. rewrite length_map, length_seq. lia. Qed.

Lemma logical_in start d i b :
  NoDup (hdr start d) -> hdr start d !! i = Some b -> logical start d b = disk_block d (log_block start i).
Proof.
  intros Hnd Hb. unfold logical. destruct (list_find _ _) as [[j b']|] eqn:E.
  - apply list_find_Some in E as (Hj & -> & _). by rewrite (NoDup_lookup _ i j b Hnd Hb Hj).
  - rewrite list_find_None, list.Forall_forall in E.
    by destruct (E b (list_elem_of_lookup_2 _ _ _ Hb)).
Qed.

Lemma logical_out start d x : x ∉ hdr start d -> logical start d x = disk_block d x.
Proof.
  intros Hx. unfold logical. destruct (list_find _ _) as [[j b']|] eqn:E; [|done].
  apply list_find_Some in E as (Hj & -> & _). by apply list_elem_of_lookup_2 in Hj.
Qed.

Lemma hdr_empty start d : hb_n (disk_block d start) = 0 -> hdr start d = [].
Proof. intros E. unfold hdr, hdr_blocks. by rewrite E. Qed.

Lemma log_wf_empty start d : hb_n (disk_block d start) = 0 -> log_wf start d.
Proof.
  intros E. split; rewrite ?hdr_empty, ?E by done;
    [unfold LOGSIZE, MAXOPBLOCKS; lia|apply NoDup_nil_2|set_solver].
Qed.

Lemma block_writes_prefix_keys V B j x : x ∈ (take j (block_writes V B)).*1 -> x ∈ B.
Proof.
  rewrite fmap_take, block_writes_keys. intros H. apply elem_of_take in H as (i & Hi & _).
  by apply list_elem_of_lookup_2 in Hi.
Qed.

(** Installing the blocks the header names, up to any point, changes nothing of
    what the disk means; so does clearing the header when all are installed. *)
Lemma install_prefix_blocks start d j :
  log_wf start d ->
  let d' := apply_writes (take j (block_writes (logical start d) (hdr start d))) d in
  disk_block d' start = disk_block d start /\ log_wf start d' /\
  forall x, home start x -> logical start d' x = logical start d x.
Proof.
  intros [Hn Hnd Hh] d'.
  assert (forall x, x ∉ hdr start d -> disk_block d' x = disk_block d x) as Hout.
  { intros x Hx. apply disk_block_apply_notin. intros Hin. by apply block_writes_prefix_keys in Hin. }
  assert (disk_block d' start = disk_block d start) as Es.
  { apply Hout. intros Hin. apply Hh in Hin. unfold home, LOGSIZE, MAXOPBLOCKS in *. lia. }
  assert (hdr start d' = hdr start d) as Eh by (unfold hdr; by rewrite Es).
  split_and!; [done|split; rewrite ?Es, ?Eh; done|].
  intros x Hx. destruct (decide (x ∈ hdr start d)) as [Hin|Hin].
  - apply list_elem_of_lookup in Hin as [i Hi]. pose proof (lookup_lt_Some _ _ _ Hi) as Hlt.
    rewrite (logical_in start d' i) by (rewrite ?Eh; done).
    rewrite (logical_in start d i) by done. apply Hout. intros Hl. apply Hh in Hl.
    pose proof (length_hdr start d). unfold home, log_block, LOGSIZE, MAXOPBLOCKS in *. lia.
  - rewrite !logical_out by (rewrite ?Eh; done). by apply Hout.
Qed.

Lemma install_all start d h0 :
  log_wf start d -> hb_n h0 = 0 ->
  let d' := apply_writes (block_writes (logical start d) (hdr start d) ++ [(start, h0)]) d in
  disk_block d' start = h0 /\ forall x, home start x -> disk_block d' x = logical start d x.
Proof.
  intros [Hn Hnd Hh] H0 d'. split; [apply disk_block_snoc|]. intros x Hx.
  unfold d'. rewrite apply_writes_app, disk_block_apply_notin
    by (cbn; unfold home, LOGSIZE, MAXOPBLOCKS in *; set_solver by lia).
  destruct (decide (x ∈ hdr start d)) as [Hin|Hin].
  - apply list_elem_of_lookup in Hin as [i Hi]. apply (disk_block_apply_in _ _ i).
    + by rewrite block_writes_keys.
    + unfold block_writes. by rewrite list_lookup_fmap, Hi.
  - rewrite disk_block_apply_notin by (by rewrite block_writes_keys). by rewrite logical_out.
Qed.

Lemma install_prefix start d h0 j :
  log_wf start d -> hb_n h0 = 0 ->
  let ws := block_writes (logical start d) (hdr start d) ++ [(start, h0)] in
  let d' := apply_writes (take j ws) d in
  log_wf start d' /\ forall x, home start x -> logical start d' x = logical start d x.
Proof.
  intros W H0 ws d'. unfold d', ws.
  destruct (decide (j <= length (block_writes (logical start d) (hdr start d)))%nat) as [Hj|Hj].
  - rewrite take_app_le by done. apply install_prefix_blocks. done.
  - rewrite take_ge by (rewrite length_app; cbn; lia).
    destruct (install_all start d h0 W H0) as [E1 E2].
    assert (hb_n (disk_block (apply_writes (block_writes (logical start d) (hdr start d)
              ++ [(start, h0)]) d) start) = 0) as E by by rewrite E1.
    split; [by apply log_wf_empty|]. intros x Hx.
    rewrite logical_out by (rewrite hdr_empty by done; set_solver). by apply E2.
Qed.

Lemma log_writes_home start V B l d ws x :
  log_at start B l -> (forall w, w ∈ ws -> w ∈ log_writes start V B) -> home start x \/ x = start ->
  disk_block (apply_writes ws d) x = disk_block d x.
Proof.
  intros L Hws Hx. pose proof (la_max _ _ _ L). apply disk_block_apply_notin. intros Hin.
  apply list_elem_of_fmap in Hin as (w & -> & Hw). apply Hws in Hw.
  assert (w.1 ∈ (log_writes start V B).*1) as Hk by (apply list_elem_of_fmap; eauto).
  apply log_writes_key_range in Hk. unfold home, LOGSIZE, MAXOPBLOCKS in *. lia.
Qed.

Lemma hb_n_head lh d :
  0 <= lh_n lh < LOGSIZE -> length d = Z.to_nat BSIZE -> hb_n (head_data lh d) = lh_n lh.
Proof.
  intros Hn Hd. unfold hb_n, head_data. unfold BSIZE, LOGSIZE, MAXOPBLOCKS in *.
  rewrite head_loop_out by lia. unfold set_hb_n. rewrite ldl32_stl32_eq, i32_u32 by lia.
  apply i32_small. lia.
Qed.

(** Once the header is on disk, the transaction is part of what the disk means. *)
Lemma tx_committed start B l V d :
  log_at start B l -> length (V start) = Z.to_nat BSIZE -> (forall x, x ∉ B -> V x = disk_block d x) ->
  let hd := head_data (log_lh l) (V start) in
  let d1 := apply_writes (log_writes start V B ++ [(start, hd)]) d in
  disk_block d1 start = hd /\ hdr start d1 = B /\ log_wf start d1 /\
  forall x, home start x -> logical start d1 x = V x.
Proof.
  intros L Hlen HV hd d1. pose proof (la_max _ _ _ L) as Hm. pose proof (la_n _ _ _ L) as Hn.
  assert (disk_block d1 start = hd) as E1 by apply disk_block_snoc.
  assert (hdr start d1 = B) as EB by (unfold hdr; rewrite E1; by apply (hdr_blocks_head start)).
  split_and!; [done|done| |].
  - split; rewrite ?EB, ?E1; [|apply L|apply L]. unfold hd.
    rewrite hb_n_head; unfold LOGSIZE, MAXOPBLOCKS in *; [lia|lia|done].
  - intros x Hx. unfold d1. destruct (decide (x ∈ B)) as [Hin|Hin].
    + apply list_elem_of_lookup in Hin as [i Hi]. fold d1.
      rewrite (logical_in start d1 i) by (rewrite EB; first [done|apply L]).
      unfold d1. rewrite apply_writes_app, disk_block_apply_notin.
      * apply (disk_block_apply_in _ _ i); [apply log_writes_nodup|by apply log_writes_lookup].
      * cbn. unfold log_block. set_solver by lia.
    + fold d1. rewrite logical_out by (by rewrite EB). rewrite HV by done. unfold d1.
      rewrite apply_writes_app, disk_block_apply_notin
        by (cbn; unfold home, LOGSIZE, MAXOPBLOCKS in *; set_solver by lia).
      apply (log_writes_home start V B l); auto.
Qed.

(** At every point of a transaction's disk writes the disk means what it meant
    before, or what the transaction makes of it. *)
Lemma tx_prefix start B l V d j :
  log_at start B l -> length (V start) = Z.to_nat BSIZE -> hb_n (disk_block d start) = 0 ->
  (forall x, x ∉ B -> V x = disk_block d x) ->
  let d' := apply_writes (take j (tx_writes start (log_lh l) V B)) d in
  log_wf start d' /\
  ((forall x, home start x -> logical start d' x = disk_block d x) \/
   (forall x, home start x -> logical start d' x = V x)).
Proof.
  intros L Hlen H0 HV. unfold tx_writes. cbv zeta.
  set (hd := head_data (log_lh l) (V start)).
  set (h0 := head_data (set_lh_n 0 (log_lh l)) hd).
  destruct (decide (j <= length (log_writes start V B))%nat) as [Hj|Hj].
  - rewrite <- app_assoc, take_app_le by done. set (d' := apply_writes _ d).
    assert (forall x, home start x \/ x = start -> disk_block d' x = disk_block d x) as Hd'.
    { intros x. apply (log_writes_home start V B l); [done|].
      intros w Hw. apply elem_of_take in Hw as (i & Hi & _). by apply list_elem_of_lookup_2 in Hi. }
    assert (hb_n (disk_block d' start) = 0) as E by (rewrite Hd'; auto).
    split; [by apply log_wf_empty|]. left. intros x Hx.
    rewrite logical_out by (rewrite hdr_empty by done; set_solver). auto.
  - rewrite take_app_ge by (rewrite length_app; cbn; lia). rewrite apply_writes_app.
    destruct (tx_committed start B l V d L Hlen HV) as (E1 & EB & W1 & LV). fold hd in E1, EB, W1, LV.
    set (d1 := apply_writes (log_writes start V B ++ [(start, hd)]) d) in *.
    assert (block_writes V B = block_writes (logical start d1) (hdr start d1)) as ->.
    { rewrite EB. apply list_fmap_ext. intros i b Hb. f_equal. symmetry. apply LV.
      apply (la_home _ _ _ L). by apply list_elem_of_lookup_2 in Hb. }
    destruct (install_prefix start d1 h0 (j - length (log_writes start V B ++ [(start, hd)])) W1) as [W2 L2].
    + unfold h0. rewrite hb_n_head; [done|unfold LOGSIZE, MAXOPBLOCKS; cbn; lia|].
      unfold hd. by rewrite length_head_data.
    + split; [done|]. right. intros x Hx. by rewrite L2, LV.
Qed.

(** * Recovery *)

(** The loop of read_head() on the array. *)
Fixpoint read_loop (n : nat) (data : list Z) (i : Z) (blocks : list Z) : list Z :=
  match n with
  | O => blocks
  | S n' => read_loop n' data (i + 1) (blocks.[i <- hb_block data i])
  end.

Lemma length_read_loop n data i blocks : length (read_loop n data i blocks) = length blocks.
Proof.
  revert i blocks. induction n as [|n IH]; intros i blocks; cbn [read_loop]; [done|].
  rewrite IH. apply length_insert.
Qed.

Lemma read_loop_out n data i blocks (j : nat) :
  Z.of_nat j < i -> nth j (read_loop n data i blocks) 0 = nth j blocks 0.
Proof.
  revert i blocks. induction n as [|n IH]; intros i blocks Hj; cbn [read_loop]; [done|].
  rewrite IH by lia. rewrite !nth_lookup, list_lookup_insert_ne by lia. done.
Qed.

Lemma read_loop_in n data i blocks (j : nat) :
  0 <= i -> i <= Z.of_nat j < i + Z.of_nat n -> i + Z.of_nat n <= Z.of_nat (length blocks) ->
  nth j (read_loop n data i blocks) 0 = hb_block data (Z.of_nat j).
Proof.
  revert i blocks. induction n as [|n IH]; intros i blocks H0 Hj Hl; [lia|]. cbn [read_loop].
  destruct (decide (Z.of_nat j = i)) as [<-|].
  - rewrite read_loop_out by lia. rewrite nth_lookup, Nat2Z.id, list_lookup_insert_eq by lia. done.
  - apply IH; [lia|lia|]. rewrite length_insert. lia.
Qed.

Lemma read_head_loop_run n data : forall i k,
  0 <= i -> i + Z.of_nat n <= LOGSIZE ->
  read_head_loop n data i k = Ok tt (upd_blocks (read_loop n data i) k).
Proof.
  induction n as [|n IH]; intros i k H1 H2; cbn [read_head_loop read_loop]; [done|].
  unfold set_lh_block_at. replace ((0 <=? i) && (i <? LOGSIZE)) with true by lia.
  unfold upd_lh. kstep. rewrite IH by lia. done.
Qed.

(** The log's place on the device is known. *)
Record log_conf (start : Z) (l : logst) : Prop := mk_log_conf {
  lc_dev : log_dev l = dev;
  lc_start : log_start l = start;
  lc_range : 0 <= start /\ start + LOGSIZE < 2 ^ 31;
  lc_len : length (lh_block (log_lh l)) = Z.to_nat LOGSIZE;
}.

(** The in-memory header that read_head() makes of the header block [d]. *)
Definition lh_of (d : list Z) (lh : logheader) : logheader :=
  mk_logheader (hb_n d) (read_loop (Z.to_nat (hb_n d)) d 0 (lh_block lh)).

Lemma log_at_read start d l :
  log_conf start l -> 0 <= hb_n d < LOGSIZE -> NoDup (hdr_blocks d) ->
  (forall b, b ∈ hdr_blocks d -> home start b) ->
  log_at start (hdr_blocks d) (set_log_lh (lh_of d (log_lh l)) l).
Proof.
  intros [Cd Cs Cr Cl] Hn Hnd Hh.
  assert (length (hdr_blocks d) = Z.to_nat (hb_n d)) as Hlen
    by (unfold hdr_blocks; by rewrite length_map, length_seq).
  split; try done; cbn.
  - rewrite Hlen. lia.
  - by rewrite length_read_loop.
  - intros i b Hb. pose proof (lookup_lt_Some _ _ _ Hb) as Hi. rewrite Hlen in Hi.
    unfold hdr_blocks in Hb. rewrite list_lookup_fmap, lookup_seq_lt in Hb by done.
    injection Hb as <-. rewrite read_loop_in by (unfold LOGSIZE in *; lia). done.
  - rewrite Hlen. lia.
Qed.

Lemma read_head_spec start k0 ws k V :
  st k0 ws k ∅ V (pins []) -> log_conf start (k_log k0) -> 0 <= hb_n (V start) < LOGSIZE ->
  V start = disk_block (apply_writes ws (k_disk k0)) start ->
  wp read_head (fun _ k' =>
    st (set_k_log (set_log_lh (lh_of (V start) (log_lh (k_log k0))) (k_log k0)) k0) ws k' ∅ V
      (pins [])) k.
Proof.
  intros S L Hn Hcl. pose proof (io_frame_log _ _ _ (st_io _ _ _ _ _ _ S)) as EL.
  destruct L as [Cd Cs Cr Cl].
  unfold read_head. wstep. rewrite EL, Cd, Cs.
  rewrite (u32_small start) by (unfold LOGSIZE in *; lia).
  destruct (st_bread _ _ _ _ _ _ start S) as (b & k1 & E1 & _ & S1);
    [done|done|right; apply pins_room; by apply Nat.ltb_lt|].
  eapply wp_bind_ok; [exact E1|]. wstep.
  destruct (st_data _ _ _ _ _ _ b start S1) as [-> _]; [apply lookup_insert_eq|].
  pose proof (io_frame_log _ _ _ (st_io _ _ _ _ _ _ S1)) as EL1.
  unfold upd_lh. wstep. eapply wp_bind_ok; [apply read_head_loop_run; lia|].
  unfold upd_blocks. cbn [k_log set_k_log log_lh set_log_lh lh_block set_lh_n].
  match goal with |- wp _ _ ?k2 =>
    replace k2 with (set_k_log (set_log_lh (lh_of (V start) (log_lh (k_log k0))) (k_log k0)) k1)
      by (rewrite EL1; done)
  end.
  apply (st_log (set_log_lh (lh_of (V start) (log_lh (k_log k0))) (k_log k0))) in S1 as S2.
  destruct (st_brelse _ _ _ _ _ _ b start S2) as (k3 & E3 & S3);
    [apply lookup_insert_eq|by intros _|].
  eapply wp_ok; [exact E3|]. eapply st_ext; [exact S3|by rewrite delete_insert_id|done|].
  intros x. unfold fn_upd, pins. repeat case_decide; set_solver.
Qed.

(** What recovery writes to the disk. *)
Definition rec_writes (start : Z) (lh : logheader) (d : gmap Z (list Z)) : list (Z * list Z) :=
  block_writes (logical start d) (hdr start d) ++
  [(start, head_data (set_lh_n 0 (lh_of (disk_block d start) lh)) (disk_block d start))].

Lemma recover_spec start k :
  bio_ready p k -> cinv k ∅ -> (forall x, refs k x = 0) -> log_conf start (k_log k) ->
  log_wf start (k_disk k) ->
  wp recover_from_log (fun _ k' => exists l V',
    st (set_k_log l k) (rec_writes start (log_lh (k_log k)) (k_disk k)) k' ∅ V' (pins []) /\
    log_at start [] l /\ forall x, V' x = disk_block (k_disk k') x) k.
Proof.
  intros Hr I HR L [Hn Hnd Hh].
  assert (forall x, view k x = disk_block (k_disk k) x) as HV by (intros; by apply (cinv_clean k ∅)).
  assert (st k [] k ∅ (view k) (pins [])) as S.
  { eapply st_ext; [by apply st_refl|done|done|]. intros x. by rewrite HR, pins_out by set_solver. }
  unfold recover_from_log. apply wp_bind.
  eapply wp_mono; [|apply (read_head_spec start k [] k (view k) S L)]; rewrite ?HV; [|done|done].
  intros [] k1 S1. set (lh := lh_of (disk_block (k_disk k) start) (log_lh (k_log k))) in *.
  pose proof (log_at_read start _ _ L Hn Hnd Hh) as La.
  eapply wp_mono; [|apply (install_clear_spec true start (hdr start (k_disk k))
    (logical start (k_disk k)) _ _ _ _ S1)]; [|exact La|].
  - intros [] k2 S2. cbv zeta in S2. rewrite HV in S2. cbn [k_log set_k_log log_lh set_log_lh] in S2.
    eexists _, (view k2). split_and!; [|apply (log_at_clear _ _ _ La)|].
    + eapply st_ext; [exact S2|done| |done]. intros x. symmetry. apply S2.
    + intros x. apply (cinv_clean k2 ∅); [apply S2|]. rewrite (st_refs _ _ _ _ _ _ S2).
      by rewrite pins_out by set_solver.
  - intros j b Hb. rewrite HV. by rewrite (logical_in start (k_disk k) j).
Qed.

(** The kernel has just booted with disk [d]: nothing is referenced. *)
Record boot_state (d : gmap Z (list Z)) (k : K) : Prop := mk_boot_state {
  bs_ready : bio_ready p k;
  bs_log : L_log ∉ k_held k;
  bs_cinv : cinv k ∅;
  bs_refs : forall x, refs k x = 0;
  bs_disk : k_disk k = d;
  bs_len : length (lh_block (log_lh (k_log k))) = Z.to_nat LOGSIZE;
}.

Lemma initlog_spec sb start d k :
  boot_state d k -> sb_logstart sb = start -> 0 <= start -> start + LOGSIZE < 2 ^ 31 ->
  log_wf start d ->
  wp (initlog dev sb) (fun _ k' => exists l lh V',
    st (set_k_log l k) (rec_writes start lh d) k' ∅ V' (pins []) /\
    length (lh_block lh) = Z.to_nat LOGSIZE /\
    log_at start [] l /\ forall x, V' x = disk_block (k_disk k') x) k.
Proof.
  intros [Hr Hl I HR Hd Hlen] Hs H0 H1 W. unfold initlog.
  replace (BSIZE <=? sizeof_logheader) with false by reflexivity. unfold initlock. do 4 wstep.
  set (l1 := set_log_dev dev _). set (k1 := set_k_log l1 _).
  replace k1 with (set_k_log l1 k) by (unfold k1; cbn; rewrite difference_disjoint_L by set_solver; done).
  destruct (cinv_frame k (set_k_log l1 k) ∅) as (I1 & V1 & R1); try done.
  eapply wp_mono; [|apply (recover_spec start (set_k_log l1 k))].
  - intros [] k' (l & V' & S & La & HV). eexists l, _, V'.
    split_and!; [|exact Hlen|exact La|exact HV]. cbn in S. rewrite Hd in S. exact S.
  - done.
  - done.
  - intros x. by rewrite R1.
  - split; cbn; try done. rewrite Hs. apply i32_small. unfold LOGSIZE, MAXOPBLOCKS in *. lia.
  - cbn. by rewrite Hd.
Qed.

(** Boot after boot: a boot may crash anywhere in the recovery; the last one
    goes through. *)
Inductive recovered (sb : superblock) : gmap Z (list Z) -> gmap Z (list Z) -> Prop :=
| recovered_done d k k' :
    boot_state d k -> initlog dev sb k = Ok tt k' -> recovered sb d (k_disk k')
| recovered_crash d k k' ws j d' :
    boot_state d k -> initlog dev sb k = Ok tt k' -> k_writes k' = rev ws ++ k_writes k ->
    recovered sb (apply_writes (take j ws) d) d' -> recovered sb d d'.

Lemma initlog_writes sb start d k k' :
  boot_state d k -> sb_logstart sb = start -> 0 <= start -> start + LOGSIZE < 2 ^ 31 ->
  log_wf start d -> initlog dev sb k = Ok tt k' ->
  exists h0, hb_n h0 = 0 /\
    let ws := block_writes (logical start d) (hdr start d) ++ [(start, h0)] in
    k_writes k' = rev ws ++ k_writes k /\ k_disk k' = apply_writes ws d.
Proof.
  intros Hb Hs H0 H1 W E.
  destruct (wp_inv _ _ _ (initlog_spec sb start d k Hb Hs H0 H1 W))
    as ([] & k'' & E' & l & lh & V' & S & Hlen & La & HV).
  rewrite E in E'. injection E' as <-. eexists. split; swap 1 2.
  - pose proof (st_io _ _ _ _ _ _ S) as F. split; [exact (io_frame_writes _ _ _ F)|].
    etransitivity; [exact (io_frame_disk _ _ _ F)|]. cbn. by rewrite (bs_disk _ _ Hb).
  - apply hb_n_head; [cbn; unfold LOGSIZE, MAXOPBLOCKS; lia|].
    rewrite <- (bs_disk _ _ Hb), <- (cinv_clean k ∅); [|apply Hb|apply Hb].
    apply (cinv_size k ∅), Hb.
Qed.

Lemma recovered_logical sb start d d' :
  recovered sb d d' -> sb_logstart sb = start -> 0 <= start -> start + LOGSIZE < 2 ^ 31 ->
  log_wf start d -> forall x, home start x -> disk_block d' x = logical start d x.
Proof.
  intros R Hs H0 H1. induction R as [d k k' Hb E|d k k' ws j d' Hb E Hw R IH]; intros W x Hx;
    destruct (initlog_writes sb start d k k' Hb Hs H0 H1 W E) as (h0 & Hh & Ew & Ed).
  - rewrite Ed. by apply (install_all start d h0).
  - rewrite Ew in Hw. apply app_inv_tail in Hw. apply (f_equal (@rev _)) in Hw.
    rewrite !rev_involutive in Hw. subst ws.
    destruct (install_prefix start d h0 j W Hh) as [W' L']. by rewrite IH, L'.
Qed.

End logspec.

Section crash.
Context {P : Platform} (dev : Z) (p : nat).

(** C1: commit() is atomic with respect to crashes.  Let commit() run on a
    transaction of the blocks [B], which are pinned in the cache, with the log
    on disk empty.  It returns, and if the machine stops after any number [j]
    of the disk writes that commit() does, and then boots, possibly stopping
    any number of times in the middle of the recovery, then after the recovery
    that goes through every block outside of the log is as it was before the
    transaction, or every one is as the transaction left it in the cache. *)
Theorem commit_crash_atomic sb start B k :
  bio_ready p k -> bc_inv dev p k ∅ -> (forall x, bc_refs dev k x = pins B x) ->
  log_at dev start B (k_log k) -> hb_n (disk_block (k_disk k) start) = 0 ->
  sb_logstart sb = start ->
  exists k' ws, commit k = Ok tt k' /\ k_writes k' = rev ws ++ k_writes k /\
    forall j d', recovered dev p sb (apply_writes (take j ws) (k_disk k)) d' ->
      (forall x, home start x -> disk_block d' x = disk_block (k_disk k) x) \/
      (forall x, home start x -> disk_block d' x = bc_view dev k x).
Proof.
  intros Hr I HR L H0 Hs. destruct (la_range _ _ _ _ L) as [R0 R1].
  destruct (decide (B = [])) as [->|HB].
  - exists k, []. split_and!; [|done|].
    + unfold commit, get_lh. kstep. by rewrite (la_n _ _ _ _ L).
    + intros j d' Hrec. left. intros x Hx. rewrite take_nil in Hrec.
      rewrite (recovered_logical dev p sb start _ _ Hrec Hs R0 R1 (log_wf_empty _ _ H0) x Hx).
      cbn. rewrite logical_out by (rewrite hdr_empty by done; set_solver). done.
  - destruct (wp_inv _ _ _ (commit_spec dev p (C := bio_block_cache dev p) start B k Hr I HR L HB)) as ([] & k' & E & V' & S & _).
    exists k', (tx_writes start (log_lh (k_log k)) (bc_view dev k) B). split_and!; [done| |].
    + by rewrite (io_frame_writes _ _ _ (st_io _ _ _ _ _ _ _ _ S)).
    + intros j d' Hrec.
      destruct (tx_prefix dev start B (k_log k) (bc_view dev k) (k_disk k) j L) as [W HL].
      * by apply (bc_view_size dev p k ∅).
      * done.
      * intros x Hx. apply (bc_clean_refs dev p k ∅); [done|]. by rewrite HR, pins_out.
      * pose proof (recovered_logical dev p sb start _ _ Hrec Hs R0 R1 W) as Hd.
        destruct HL as [HL|HL]; [left|right]; intros x Hx; by rewrite Hd, HL.
Qed.

(** commit() as a whole: the transaction is on disk and the log is empty. *)
Lemma commit_run start B k :
  bio_ready p k -> bc_inv dev p k ∅ -> (forall x, bc_refs dev k x = pins B x) ->
  log_at dev start B (k_log k) -> hb_n (disk_block (k_disk k) start) = 0 ->
  exists k' ws, commit k = Ok tt k' /\ io_frame ws (set_k_log (clear_lh (k_log k)) k) k' /\
    bio_ready p k' /\ bc_inv dev p k' ∅ /\ (forall x, bc_refs dev k' x = 0) /\
    hb_n (disk_block (k_disk k') start) = 0 /\
    forall x, home start x -> disk_block (k_disk k') x = bc_view dev k x.
Proof.
  intros Hr I HR L H0. pose proof (la_n _ _ _ _ L) as Hn. destruct (decide (B = [])) as [->|HB].
  - exists k, []. split_and!; try done.
    + unfold commit, get_lh. kstep. by rewrite Hn.
    + exists (k_bufs k), (k_procs k). split; [|apply procs_rel_refl]. unfold clear_lh.
      change (Z.of_nat (length [])) with 0 in Hn. rewrite <- Hn. done.
    + intros x _. symmetry. apply (bc_clean_refs dev p k ∅); [done|]. by rewrite HR.
  - destruct (wp_inv _ _ _ (commit_spec dev p (C := bio_block_cache dev p) start B k Hr I HR L HB))
      as ([] & k' & E & V' & [F Hr' I' HV HR'] & Hh).
    change (forall x, home start x -> V' x = bc_view dev k x) in Hh. cbn in HV, HR', I'.
    assert (forall x, bc_refs dev k' x = 0) as R0 by (intros x; rewrite HR'; by apply pins_out; set_solver).
    exists k', (tx_writes start (log_lh (k_log k)) (bc_view dev k) B). split_and!; try done.
    + rewrite (io_frame_disk _ _ _ F). cbn [k_disk set_k_log]. unfold tx_writes.
      rewrite app_assoc, disk_block_snoc. apply hb_n_head; [cbn; unfold LOGSIZE, MAXOPBLOCKS; lia|].
      rewrite length_head_data. by apply (bc_view_size dev p k ∅).
    + intros x Hx. rewrite <- (Hh x Hx), <- HV. symmetry. by apply (bc_clean_refs dev p k' ∅).
Qed.

(** C3: the end of the last system call in progress makes its writes durable.
    When end_op() is called by the only system call in the log, with the
    blocks [B] logged and pinned and the log on disk empty, it returns, and
    then every block outside of the log is on disk as it was in the cache, the
    log on disk and in memory is empty again, nothing stays pinned, and new
    system calls may begin. *)
Theorem end_op_durable start B k :
  bio_ready p k -> bc_inv dev p k ∅ -> (forall x, bc_refs dev k x = pins B x) ->
  log_at dev start B (k_log k) -> hb_n (disk_block (k_disk k) start) = 0 ->
  L_log ∉ k_held k -> log_outstanding (k_log k) = 1 -> log_committing (k_log k) = 0 ->
  exists k', end_op k = Ok tt k' /\
    (forall x, home start x -> disk_block (k_disk k') x = bc_view dev k x) /\
    hb_n (disk_block (k_disk k') start) = 0 /\ log_at dev start [] (k_log k') /\
    log_outstanding (k_log k') = 0 /\ log_committing (k_log k') = 0 /\
    bc_inv dev p k' ∅ /\ (forall x, bc_refs dev k' x = 0) /\ k_held k' = k_held k.
Proof.
  intros Hr I HR L H0 Hl Ho Hc. unfold end_op. 
  set (l1 := set_log_committing 1 (set_log_outstanding 0 (k_log k))).
  destruct (bc_frame dev p k (set_k_log l1 k) ∅) as (I1 & V1 & R1); try done.
  destruct (commit_run start B (set_k_log l1 k)) as (k2 & ws & E2 & F2 & Hr2 & I2 & R2 & H2 & D2);
    [done|done|intros x; by rewrite R1|by destruct L; split|done|].
  pose proof (io_frame_held _ _ _ F2) as Eh2. cbn in Eh2.
  set (k3 := set_k_procs (wake_all Ch_log (k_proc k2) (k_procs k2))
               (set_k_log (set_log_committing 0 (clear_lh l1)) k2)).
  pose proof (io_frame_log _ _ _ F2) as El2. cbn in El2.
  destruct (bc_frame dev p k2 k3 ∅) as (I3 & V3 & R3); [done|done|done| |].
  { cbn. apply wake_all_pid. }
  exists k3. split_and!; try done.
  - kstep. kstep. kstep. cbn [k_log set_k_log set_k_held log_committing set_log_outstanding log_outstanding].
    rewrite Hc, Ho. change (1 - 1 =? 0) with true. change (negb (0 =? 0)) with false. cbv iota. kstep.
    eapply bind_eq; [by apply (release_acquired _ k)|].
    cbn [when].
    match goal with |- _ ?k1 = _ => replace k1 with (set_k_log l1 k) by done end.
    eapply bind_eq; [exact E2|]. kstep. kstep.
    eapply bind_eq; [apply wakeup_run|].
    + destruct Hr2 as (_ & [A B'] & _). split; [done|]. intros q Hq. specialize (B' q Hq). cbn. set_solver.
    + rewrite (release_acquired _ k2); [|by rewrite Eh2|done].
      unfold k3. rewrite <- El2. done.
  - apply (log_at_clear dev p (C := bio_block_cache dev p) start B (set_log_committing 0 l1)). destruct L. split; assumption.
Qed.

(** C2: recovery completes what was committed.  Booting with a disk [d] whose
    log header is well formed, initlog() returns, and then every block outside
    of the log is what [d] means: the log's copy for the blocks the header
    names and the block itself for all others.  The log is empty on disk and
    in memory, and the cache agrees with the disk. *)
Theorem initlog_recovers sb start d k :
  boot_state dev p (C := bio_block_cache dev p) d k -> sb_logstart sb = start -> 0 <= start ->
  start + LOGSIZE < 2 ^ 31 -> log_wf start d ->
  exists k', initlog dev sb k = Ok tt k' /\
    (forall x, home start x -> disk_block (k_disk k') x = logical start d x) /\
    hb_n (disk_block (k_disk k') start) = 0 /\ log_at dev start [] (k_log k') /\
    bc_inv dev p k' ∅ /\ (forall x, bc_refs dev k' x = 0) /\
    (forall x, bc_view dev k' x = disk_block (k_disk k') x).
Proof.
  intros Hb Hs H0 H1 W.
  destruct (wp_inv _ _ _ (initlog_spec dev p sb start d k Hb Hs H0 H1 W))
    as ([] & k' & E & l & lh & V' & [F Hr' I' HV HR'] & _ & La & HD). cbn in HV, HR', I'.
  destruct (initlog_writes dev p sb start d k k' Hb Hs H0 H1 W E) as (h0 & Hh & _ & Ed).
  assert (forall x, bc_refs dev k' x = 0) as R0 by (intros x; rewrite HR'; by apply pins_out; set_solver).
  exists k'. split_and!; try done.
  - intros x Hx. by apply (recovered_logical dev p sb start d (k_disk k') (recovered_done _ _ sb d k k' Hb E)).
  - rewrite Ed. by rewrite disk_block_snoc.
  - by rewrite (io_frame_log _ _ _ F).
  - intros x. by rewrite HV, HD.
Qed.

(** C13: log_write() records a block once.  In a transaction with room, logging
    a locked buffer puts its block at the end of the log and pins the buffer
    in the cache; if the block is in the log already (log absorption) neither
    the list of blocks nor the pins change.  Nothing is written to the disk
    and no block's contents change. *)
Theorem log_write_absorbs start B H k b bno :
  bio_ready p k -> bc_inv dev p k H -> H !! b = Some bno -> L_log ∉ k_held k ->
  log_at dev start B (k_log k) -> 0 <= bno < 2 ^ 32 -> home start bno ->
  lh_n (log_lh (k_log k)) < log_size (k_log k) - 1 -> log_size (k_log k) <= LOGSIZE ->
  1 <= log_outstanding (k_log k) -> bc_refs dev k bno + 1 < 2 ^ 32 ->
  exists k', log_write b k = Ok tt k' /\
    log_at dev start (if decide (bno ∈ B) then B else B ++ [bno]) (k_log k') /\
    bc_inv dev p k' H /\ k_disk k' = k_disk k /\ k_writes k' = k_writes k /\
    (forall x, bc_view dev k' x = bc_view dev k x) /\
    (forall x, bc_refs dev k' x =
       if decide (x = bno /\ bno ∉ B) then bc_refs dev k x + 1 else bc_refs dev k x).
Proof.
  intros Hr I Hb Hl L Hbno Hh Hsz Hmax Hout Hw.
  destruct (wp_inv _ _ _ (log_write_spec dev p (C := bio_block_cache dev p) start B k [] k H
    (bc_view dev k) (bc_refs dev k) b bno (st_refl dev p (C := bio_block_cache dev p) k H Hr I) Hb Hl L Hbno Hh Hsz Hmax Hout Hw))
    as ([] & k' & E & [F Hr' I' HV HR'] & L').
  exists k'. split_and!; try done.
  - by rewrite (io_frame_log _ _ _ F).
  - by rewrite (io_frame_disk _ _ _ F).
  - by rewrite (io_frame_writes _ _ _ F).
  - intros x. cbn in HR'. rewrite HR'. clear. unfold fn_upd.
    destruct (decide (bno ∈ B)), (decide (x = bno)); case_decide; subst; reflexivity || tauto.
Qed.

End crash.

(** * A transaction of one block *)

Section one_block.
Let P0 : Platform := two_pages.
Existing Instance P0.
Let C0 : BlockCache ROOTDEV 0 := bio_block_cache ROOTDEV 0.
Existing Instance C0.

(** The log of a disk that mkfs made: it starts at block 2.  One system call
    is in progress. *)
Definition log1 : logst := mk_logst 2 30 1 0 ROOTDEV (mk_logheader 0 (replicate 30 0)).
Definition ones : list Z := replicate (Z.to_nat BSIZE) 1.

Lemma log_at_log1 : log_at ROOTDEV 2 [] log1.
Proof.
  split; try reflexivity; [done|intros i b Hb; discriminate Hb|apply NoDup_nil_2| |by apply Nat.ltb_lt].
  intros b Hb. apply elem_of_nil in Hb. destruct Hb.
Qed.

Definition tx_ready (B : list Z) (H : gmap nat Z) (k : K) : Prop :=
  bio_ready 0 k /\ bc_inv ROOTDEV 0 k H /\ log_at ROOTDEV 2 B (k_log k) /\
  hb_n (disk_block (k_disk k) 2) = 0 /\ L_log ∉ k_held k /\
  log_outstanding (k_log k) = 1 /\ log_committing (k_log k) = 0 /\ log_size (k_log k) = 30.

(** Block 100 is read and overwritten in the cache. *)
Lemma tx_start : exists b k, tx_ready [] {[b := 100]} k /\
  bc_view ROOTDEV k 100 = ones /\ k_disk k = ∅ /\
  forall x, bc_refs ROOTDEV k x = pins [100] x.
Proof.
  destruct boot0_cache as (bs & _ & I & _ & R & V).
  set (k0 := set_k_log log1 (set_k_bufs bs boot0)).
  destruct (bc_frame ROOTDEV 0 _ k0 ∅ I) as (I0 & V0 & R0); [reflexivity..|].
  assert (st ROOTDEV 0 k0 [] k0 ∅ (bc_view ROOTDEV k0) (pins [])) as S0.
  { eapply st_ext; [apply st_refl; [apply (bio_ready_boot0 bs)|exact I0]|reflexivity|reflexivity|].
    intros x. cbn. rewrite R0, R. symmetry. apply pins_out. set_solver. }
  destruct (st_bread _ _ _ _ _ _ _ _ 100 S0) as (b & k1 & _ & _ & S1).
  - intros b. rewrite lookup_empty. discriminate.
  - reflexivity.
  - right. apply pins_room. by apply Nat.ltb_lt.
  - apply (st_store _ _ _ _ _ _ _ _ b 100 ones) in S1; [|apply lookup_insert_eq|reflexivity].
    exists b. eexists. destruct S1 as [F Hr I1 V1 R1]. destruct F as (bs' & ps & Ek & Hp).
    split_and!; [|etransitivity; [apply V1|apply fn_upd_eq]|rewrite Ek; reflexivity|].
    + split_and!; [exact Hr|exact I1|rewrite Ek; apply log_at_log1|..]; rewrite Ek; try reflexivity.
      set_solver.
    + intros x. etransitivity; [apply R1|]. unfold fn_upd. case_decide; [by subst|].
      unfold pins. rewrite !decide_False by set_solver. reflexivity.
Qed.

(** ... and logged and released. *)
Lemma tx_logged : exists k, tx_ready [100] ∅ k /\
  bc_view ROOTDEV k 100 = ones /\ k_disk k = ∅ /\
  forall x, bc_refs ROOTDEV k x = pins [100] x.
Proof.
  destruct tx_start as (b & k & (Hr & I & L & H0 & Hl & Ho & Hc & Hs) & V & D & R).
  assert (st ROOTDEV 0 k [] k {[b := 100]} (bc_view ROOTDEV k) (pins [100])) as S.
  { eapply st_ext; [apply st_refl; [exact Hr|exact I]|reflexivity|reflexivity|exact R]. }
  pose proof (log_write_spec ROOTDEV 0 2 [] k [] k _ _ _ b 100 S (lookup_singleton_eq _ _) Hl L)
    as W. rewrite Hs, Ho, (la_n _ _ _ _ L) in W.
  destruct (wp_inv _ _ _ (W ltac:(lia) ltac:(right; vm_compute; discriminate) ltac:(reflexivity)
    ltac:(vm_compute; discriminate) ltac:(lia) ltac:(reflexivity))) as ([] & k1 & _ & S1 & L1).
  destruct (st_brelse _ _ _ _ _ _ _ _ b 100 S1 (lookup_singleton_eq _ _)) as (k2 & _ & S2).
  - intros Hx. vm_compute in Hx. discriminate Hx.
  - exists k2. destruct S2 as [F Hr2 I2 V2 R2]. rewrite delete_singleton_eq in I2.
    pose proof (io_frame_log _ _ _ F) as El. pose proof (io_frame_disk _ _ _ F) as Ed.
    cbn [k_log set_k_log k_disk] in El, Ed. change (k_disk k2 = k_disk k) in Ed.
    split_and!; [|rewrite <- V; apply V2|by rewrite Ed|].
    + split_and!; [exact Hr2|exact I2|rewrite El; exact L1|by rewrite Ed| |rewrite El..];
        [|exact Ho|exact Hc|exact Hs].
      rewrite (io_frame_held _ _ _ F). exact Hl.
    + intros x. etransitivity; [apply R2|]. destruct (decide (x = 100)) as [->|Hx];
        [vm_compute; reflexivity|]. rewrite !fn_upd_ne by done. reflexivity.
Qed.

(** Committing and recovering it. *)
Lemma commit_crash_atomic_witness : exists k k' ws,
  bc_view ROOTDEV k 100 <> disk_block (k_disk k) 100 /\
  commit k = Ok tt k' /\ k_writes k' = rev ws ++ k_writes k /\
  forall j d', recovered ROOTDEV 0 (mk_superblock 0 0 0 0 0 2 0 0) (apply_writes (take j ws) (k_disk k)) d' ->
    (forall x, home 2 x -> disk_block d' x = disk_block (k_disk k) x) \/
    (forall x, home 2 x -> disk_block d' x = bc_view ROOTDEV k x).
Proof.
  destruct tx_logged as (k & (Hr & I & L & H0 & _) & V & D & R).
  destruct (commit_crash_atomic ROOTDEV 0 (mk_superblock 0 0 0 0 0 2 0 0) 2 [100] k Hr I R L H0
    ltac:(reflexivity)) as (k' & ws & E & Ew & H).
  exists k, k', ws. split; [rewrite V, D; vm_compute; discriminate|]. exact (conj E (conj Ew H)).
Defined.

Lemma end_op_durable_witness : exists k k', end_op k = Ok tt k' /\
  disk_block (k_disk k) 100 <> ones /\ disk_block (k_disk k') 100 = ones /\
  log_outstanding (k_log k') = 0.
Proof.
  destruct tx_logged as (k & (Hr & I & L & H0 & Hl & Ho & Hc & _) & V & D & R).
  destruct (end_op_durable ROOTDEV 0 2 [100] k Hr I R L H0 Hl Ho Hc) as (k' & E & Hd & _ & _ & O & _).
  exists k, k'. split; [exact E|]. split; [rewrite D; vm_compute; discriminate|].
  split; [|exact O]. rewrite <- V. apply Hd. right. vm_compute. discriminate.
Defined.

Lemma log_write_absorbs_witness : exists b k k', log_write b k = Ok tt k' /\
  lh_n (log_lh (k_log k)) = 0 /\ lh_n (log_lh (k_log k')) = 1.
Proof.
  destruct tx_start as (b & k & (Hr & I & L & H0 & Hl & Ho & Hc & Hs) & V & D & R).
  pose proof (log_write_absorbs ROOTDEV 0 2 [] _ k b 100 Hr I (lookup_singleton_eq _ _) Hl L) as W.
  rewrite Hs, Ho, (la_n _ _ _ _ L), R in W.
  destruct (W ltac:(lia) ltac:(right; vm_compute; discriminate) ltac:(reflexivity)
    ltac:(vm_compute; discriminate) ltac:(lia) ltac:(reflexivity)) as (k' & E & L' & _).
  exists b, k, k'. split; [exact E|]. split; [apply (la_n _ _ _ _ L)|apply (la_n _ _ _ _ L')].
Defined.

(** A disk with a committed transaction: the header names block 100, whose new
    contents are in the first block of the log. *)
Definition crashed_disk : gmap Z (list Z) :=
  <[2 := head_data (mk_logheader 1 [100]) (replicate (Z.to_nat BSIZE) 0)]> {[3 := ones]}.

Lemma initlog_recovers_witness : exists k k',
  initlog ROOTDEV (mk_superblock 0 0 0 0 0 2 0 0) k = Ok tt k' /\ k_disk k = crashed_disk /\
  disk_block (k_disk k') 100 = ones.
Proof.
  assert (log_wf 2 crashed_disk) as W.
  { assert (hdr 2 crashed_disk = [100]) as E by (vm_compute; reflexivity).
    split; rewrite ?E; [vm_compute; split; [discriminate|reflexivity]|apply NoDup_singleton|].
    intros b Hb. apply list_elem_of_singleton in Hb as ->. right. vm_compute. discriminate. }
  destruct (bc_binit ROOTDEV 0 (set_k_disk crashed_disk boot0)) as (bs & _ & I & _ & R & V);
    [reflexivity|set_solver|set_solver|exact boot0_zero| |].
  { intros bno. unfold disk_block, crashed_disk. cbn [k_disk set_k_disk].
    rewrite lookup_insert. case_decide; [reflexivity|].
    destruct (decide (3 = bno)) as [<-|]; [by rewrite lookup_singleton_eq|].
    rewrite lookup_singleton_ne by done. reflexivity. }
  set (k := set_k_bufs bs (set_k_disk crashed_disk boot0)) in *.
  destruct (initlog_recovers ROOTDEV 0 (mk_superblock 0 0 0 0 0 2 0 0) 2 crashed_disk k)
    as (k' & E & D & _); [|reflexivity|lia|vm_compute; reflexivity|exact W|].
  - split; [|set_solver|exact I|exact R|reflexivity|reflexivity]. apply (bio_ready_boot0 bs).
  - exists k, k'. split; [exact E|]. split; [reflexivity|].
    rewrite D by (right; vm_compute; discriminate). vm_compute. reflexivity.
Defined.

End one_block.
