(* ===== verification/Fs.v ===== *)
(** kernel/fs.c: the file system, in five layers: blocks (allocator), log
    (Log.v), files (inode allocator, reading, writing), directories, and path
    names. *)
From S2P Require Import Prelude CInt KState KString Riscv Kalloc Vm Proc Uart Printf Bio Log.

(** * kernel/fs.h *)

Definition sizeof_dinode : Z := 64.
Definition IPB : Z := BSIZE / sizeof_dinode.
Definition IBLOCK (i : Z) (sb : superblock) : Z := u32 (i / IPB + sb_inodestart sb).
Definition BPB : Z := BSIZE * 8.
Definition BBLOCK (b : Z) (sb : superblock) : Z := u32 (b / BPB + sb_bmapstart sb).
Definition sizeof_dirent : Z := 16.

(** struct superblock, struct dinode and struct dirent as bytes. *)
Definition superblock_of (d : list Z) : superblock :=
  mk_superblock (ldl32 d 0) (ldl32 d 4) (ldl32 d 8) (ldl32 d 12) (ldl32 d 16) (ldl32 d 20)
    (ldl32 d 24) (ldl32 d 28).

Definition dinode_of (d : list Z) (at_ : Z) : dinode :=
  mk_dinode (i16 (ldl16 d at_)) (i16 (ldl16 d (at_ + 2))) (i16 (ldl16 d (at_ + 4)))
    (i16 (ldl16 d (at_ + 6))) (ldl32 d (at_ + 8))
    (map (fun i => ldl32 d (at_ + 12 + 4 * Z.of_nat i)) (seq 0 13)).

Definition dinode_bytes (di : dinode) : list Z :=
  le_bytes 2 (d_type di) ++ le_bytes 2 (d_major di) ++ le_bytes 2 (d_minor di) ++
  le_bytes 2 (d_nlink di) ++ le_bytes 4 (d_size di) ++ concat (map (le_bytes 4) (d_addrs di)).

Definition dirent_of (d : list Z) : dirent := mk_dirent (ldl16 d 0) (ldl d 2 DIRSIZ).
Definition dirent_bytes (de : dirent) : list Z := le_bytes 2 (de_inum de) ++ de_name de.

Section fs.
Context {P : Platform}.

(** * Super block *)

Definition readsb (dev : Z) : M unit :=
  let* bp := bread dev 1 in
  let* bf := get_buf bp in
  modify (set_k_sb (superblock_of (b_data bf))) ;;;
  brelse bp.

Definition fsinit (dev : Z) : M unit :=
  readsb dev ;;;
  let* sb := gets (fun k => k_sb k) in
  if negb (sb_magic sb =? FSMAGIC) then panic "invalid file system"
  else initlog dev sb.

(** * Blocks *)

Definition upd_data (b : nat) (f : list Z -> list Z) : M unit :=
  upd_buf b (fun bf => set_b_data (f (b_data bf)) bf).

(** Zero a block. *)
Definition bzero (dev bno : Z) : M unit :=
  let* bp := bread dev (u32 bno) in
  upd_data bp (fun _ => replicate (Z.to_nat BSIZE) 0) ;;;
  log_write bp ;;;
  brelse bp.

(** The inner loop of balloc(): the first bit at or after [bi] that is clear in
    the bitmap block [data], for a block below [size]. *)
Fixpoint balloc_scan (n : nat) (data : list Z) (b bi size : Z) : option Z :=
  match n with
  | O => None
  | S n' =>
      if (bi <? BPB) && (b + bi <? size) then
        let m := Z.shiftl 1 (bi mod 8) in
        if Z.land data.[bi / 8] m =? 0 then Some bi (* Is block free? *)
        else balloc_scan n' data b (bi + 1) size
      else None
  end.

(** The outer loop, a bitmap block per turn; [n] bounds the bitmap blocks. *)
Fixpoint balloc_loop (n : nat) (dev b : Z) : M Z :=
  let* sb := gets (fun k => k_sb k) in
  if b <? sb_size sb then
    match n with
    | O => stuck
    | S n' =>
        let* bp := bread dev (BBLOCK b sb) in
        let* bf := get_buf bp in
        match balloc_scan (Z.to_nat BPB) (b_data bf) b 0 (sb_size sb) with
        | Some bi =>
            upd_data bp (fun d => d.[bi / 8 <- Z.lor d.[bi / 8] (Z.shiftl 1 (bi mod 8))]) ;;;
            log_write bp ;;; (* Mark block in use. *)
            brelse bp ;;;
            bzero dev (b + bi) ;;;
            ret (b + bi)
        | None =>
            brelse bp ;;;
            balloc_loop n' dev (b + BPB)
        end
    end
  else
    printf (bstr "balloc: out of blocks" ++ [10]) [] ;;;
    ret 0.

Definition balloc (dev : Z) : M Z :=
  let* sb := gets (fun k => k_sb k) in
  balloc_loop (Z.to_nat (sb_size sb / BPB + 1)) dev 0.

Definition bfree (dev b : Z) : M unit :=
  let* sb := gets (fun k => k_sb k) in
  let* bp := bread dev (BBLOCK b sb) in
  let* bf := get_buf bp in
  let bi := b mod BPB in
  let m := Z.shiftl 1 (bi mod 8) in
  if Z.land (b_data bf).[bi / 8] m =? 0 then panic "freeing free block"
  else
    upd_data bp (fun d => d.[bi / 8 <- Z.land d.[bi / 8] (u8 (Z.lnot m))]) ;;;
    log_write bp ;;;
    brelse bp.

(** * Inodes *)

Definition iinit : M unit :=
  initlock L_itable ;;;
  for_ (seq 0 (Z.to_nat NINODE)) (fun i => initsleeplock (SL_inode i)).

(** The loop of iget(): the entry for the inode, or else the first free entry. *)
Fixpoint iget_scan (l : list nat) (dev inum : Z) (empty : option nat) : M (nat + option nat) :=
  match l with
  | [] => ret (inr empty)
  | i :: l' =>
      let* ip := get_inode i in
      if (0 <? i_ref ip) && (i_dev ip =? dev) && (i_inum ip =? inum) then ret (inl i)
      else
        iget_scan l' dev inum
          (match empty with
           | Some e => Some e
           | None => if i_ref ip =? 0 then Some i else None (* Remember empty slot. *)
           end)
  end.

Definition iget (dev inum : Z) : M nat :=
  acquire L_itable ;;;
  let* r := iget_scan (seq 0 (Z.to_nat NINODE)) dev inum None in
  match r with
  | inl ip =>
      upd_inode ip (fun i => set_i_ref (i_ref i + 1) i) ;;;
      release L_itable ;;;
      ret ip
  | inr None => panic "iget: no inodes"
  | inr (Some ip) =>
      (* Recycle an inode entry. *)
      upd_inode ip (set_i_dev dev) ;;;
      upd_inode ip (set_i_inum inum) ;;;
      upd_inode ip (set_i_ref 1) ;;;
      upd_inode ip (set_i_valid 0) ;;;
      release L_itable ;;;
      ret ip
  end.

(** The loop of ialloc() from inode [inum] on. *)
Fixpoint ialloc_loop (n : nat) (dev type inum : Z) : M (option nat) :=
  let* sb := gets (fun k => k_sb k) in
  if inum <? sb_ninodes sb then
    match n with
    | O => stuck
    | S n' =>
        let* bp := bread dev (IBLOCK inum sb) in
        let* bf := get_buf bp in
        let at_ := inum mod IPB * sizeof_dinode in
        if d_type (dinode_of (b_data bf) at_) =? 0 then (* a free inode *)
          upd_data bp (fun d => stl d at_ (replicate (Z.to_nat sizeof_dinode) 0)) ;;;
          upd_data bp (fun d => stl d at_ (le_bytes 2 type)) ;;;
          log_write bp ;;; (* mark it allocated on the disk *)
          brelse bp ;;;
          let* ip := iget dev inum in
          ret (Some ip)
        else
          brelse bp ;;;
          ialloc_loop n' dev type (inum + 1)
    end
  else
    printf (bstr "ialloc: no inodes" ++ [10]) [] ;;;
    ret None.

Definition ialloc (dev type : Z) : M (option nat) :=
  let* sb := gets (fun k => k_sb k) in
  ialloc_loop (Z.to_nat (sb_ninodes sb)) dev type 1.

(** The in-memory copy of an inode's fields that live on disk. *)
Definition inode_dinode (ip : inode) : dinode :=
  mk_dinode (i_type ip) (i_major ip) (i_minor ip) (i_nlink ip) (i_size ip) (i_addrs ip).

Definition iupdate (ip : nat) : M unit :=
  let* i := get_inode ip in
  let* sb := gets (fun k => k_sb k) in
  let* bp := bread (i_dev i) (IBLOCK (i_inum i) sb) in
  upd_data bp (fun d => stl d (i_inum i mod IPB * sizeof_dinode) (dinode_bytes (inode_dinode i))) ;;;
  log_write bp ;;;
  brelse bp.

Definition idup (ip : nat) : M nat :=
  acquire L_itable ;;;
  upd_inode ip (fun i => set_i_ref (i_ref i + 1) i) ;;;
  release L_itable ;;;
  ret ip.

Definition ilock (ip : nat) : M unit :=
  let* i := get_inode ip in
  if i_ref i <? 1 then panic "ilock"
  else
    acquiresleep (SL_inode ip) ;;;
    let* i := get_inode ip in
    when (i_valid i =? 0)
      (let* sb := gets (fun k => k_sb k) in
       let* bp := bread (i_dev i) (IBLOCK (i_inum i) sb) in
       let* bf := get_buf bp in
       let dip := dinode_of (b_data bf) (i_inum i mod IPB * sizeof_dinode) in
       upd_inode ip (set_i_type (d_type dip)) ;;;
       upd_inode ip (set_i_major (d_major dip)) ;;;
       upd_inode ip (set_i_minor (d_minor dip)) ;;;
       upd_inode ip (set_i_nlink (d_nlink dip)) ;;;
       upd_inode ip (set_i_size (d_size dip)) ;;;
       upd_inode ip (set_i_addrs (d_addrs dip)) ;;;
       brelse bp ;;;
       upd_inode ip (set_i_valid 1) ;;;
       let* i := get_inode ip in
       if i_type i =? 0 then panic "ilock: no type" else ret tt).

Definition iunlock (ip : nat) : M unit :=
  let* h := holdingsleep (SL_inode ip) in
  let* i := get_inode ip in
  if negb h || (i_ref i <? 1) then panic "iunlock"
  else releasesleep (SL_inode ip).

(** * Inode content *)

Definition bmap (ip : nat) (bn : Z) : M Z :=
  let* i := get_inode ip in
  if bn <? NDIRECT then
    let addr := (i_addrs i).[bn] in
    if addr =? 0 then
      let* addr := balloc (i_dev i) in
      if addr =? 0 then ret 0
      else
        upd_inode ip (fun i => set_i_addrs ((i_addrs i).[bn <- addr]) i) ;;;
        ret addr
    else ret addr
  else
    let bn := bn - NDIRECT in
    if bn <? NINDIRECT then
      (* Load indirect block, allocating if necessary. *)
      let addr := (i_addrs i).[NDIRECT] in
      let* addr :=
        (if addr =? 0 then
           let* addr := balloc (i_dev i) in
           when (negb (addr =? 0))
             (upd_inode ip (fun i => set_i_addrs ((i_addrs i).[NDIRECT <- addr]) i)) ;;;
           ret addr
         else ret addr) in
      if addr =? 0 then ret 0
      else
        let* bp := bread (i_dev i) addr in
        let* bf := get_buf bp in
        let addr := ldl32 (b_data bf) (4 * bn) in
        let* addr :=
          (if addr =? 0 then
             let* addr := balloc (i_dev i) in
             when (negb (addr =? 0))
               (upd_data bp (fun d => stl32 d (4 * bn) addr) ;;;
                log_write bp) ;;;
             ret addr
           else ret addr) in
        brelse bp ;;;
        ret addr
    else panic "bmap: out of range".

Definition itrunc (ip : nat) : M unit :=
  for_ (seq 0 (Z.to_nat NDIRECT)) (fun j =>
    let* i := get_inode ip in
    let a := (i_addrs i).[Z.of_nat j] in
    when (negb (a =? 0))
      (bfree (i_dev i) a ;;;
       upd_inode ip (fun i => set_i_addrs ((i_addrs i).[Z.of_nat j <- 0]) i))) ;;;
  let* i := get_inode ip in
  let ind := (i_addrs i).[NDIRECT] in
  when (negb (ind =? 0))
    (let* bp := bread (i_dev i) ind in
     for_ (seq 0 (Z.to_nat NINDIRECT)) (fun j =>
       let* bf := get_buf bp in
       let a := ldl32 (b_data bf) (4 * Z.of_nat j) in
       when (negb (a =? 0)) (bfree (i_dev i) a)) ;;;
     brelse bp ;;;
     bfree (i_dev i) ind ;;;
     upd_inode ip (fun i => set_i_addrs ((i_addrs i).[NDIRECT <- 0]) i)) ;;;
  upd_inode ip (set_i_size 0) ;;;
  iupdate ip.

Definition iput (ip : nat) : M unit :=
  acquire L_itable ;;;
  let* i := get_inode ip in
  when ((i_ref i =? 1) && negb (i_valid i =? 0) && (i_nlink i =? 0))
    ((* inode has no links and no other references: truncate and free. *)
     acquiresleep (SL_inode ip) ;;;
     release L_itable ;;;
     itrunc ip ;;;
     upd_inode ip (set_i_type 0) ;;;
     iupdate ip ;;;
     upd_inode ip (set_i_valid 0) ;;;
     releasesleep (SL_inode ip) ;;;
     acquire L_itable) ;;;
  upd_inode ip (fun i => set_i_ref (i_ref i - 1) i) ;;;
  release L_itable.

Definition iunlockput (ip : nat) : M unit :=
  iunlock ip ;;;
  iput ip.

(** struct stat at address [st]: dev, ino, type, nlink, (padding,) size. *)
Definition stati (ip : nat) (st : Z) : M unit :=
  let* i := get_inode ip in
  upd_mem (fun m => stbytes m st (le_bytes 4 (i_dev i))) ;;;
  upd_mem (fun m => stbytes m (st + 4) (le_bytes 4 (i_inum i))) ;;;
  upd_mem (fun m => stbytes m (st + 8) (le_bytes 2 (i_type i))) ;;;
  upd_mem (fun m => stbytes m (st + 10) (le_bytes 2 (i_nlink i))) ;;;
  upd_mem (fun m => stbytes m (st + 16) (le_bytes 8 (i_size i))).

(** The loop of readi(), a block per turn. *)
Fixpoint readi_loop (f : nat) (ip : nat) (user_dst : bool) (dst off n tot : Z) : M Z :=
  if tot <? n then
    match f with
    | O => stuck
    | S f' =>
        let* addr := bmap ip (off / BSIZE) in
        if addr =? 0 then ret (i32 tot)
        else
          let* i := get_inode ip in
          let* bp := bread (i_dev i) addr in
          let m := Z.min (u32 (n - tot)) (BSIZE - off mod BSIZE) in
          let* bf := get_buf bp in
          let* r := either_copyout user_dst dst (ldl (b_data bf) (off mod BSIZE) m) in
          brelse bp ;;;
          if r =? -1 then ret (-1)
          else readi_loop f' ip user_dst (u64 (dst + m)) (u32 (off + m)) n (u32 (tot + m))
    end
  else ret (i32 tot).

(** [n] bytes touch at most [n / BSIZE + 2] blocks. *)
Definition rw_fuel (n : Z) : nat := Z.to_nat (n / BSIZE + 2).

Definition readi (ip : nat) (user_dst : bool) (dst off n : Z) : M Z :=
  let* i := get_inode ip in
  if (i_size i <? off) || (u32 (off + n) <? off) then ret 0
  else
    let n := if i_size i <? u32 (off + n) then u32 (i_size i - off) else n in
    readi_loop (rw_fuel n) ip user_dst dst off n 0.

(** The loop of writei(): the number of bytes written, and the final offset. *)
Fixpoint writei_loop (f : nat) (ip : nat) (user_src : bool) (src off n tot : Z) : M (Z * Z) :=
  if tot <? n then
    match f with
    | O => stuck
    | S f' =>
        let* addr := bmap ip (off / BSIZE) in
        if addr =? 0 then ret (tot, off)
        else
          let* i := get_inode ip in
          let* bp := bread (i_dev i) addr in
          let m := Z.min (u32 (n - tot)) (BSIZE - off mod BSIZE) in
          let* '(r, bs) := either_copyin user_src src m in
          upd_data bp (fun d => stl d (off mod BSIZE) bs) ;;;
          if r =? -1 then brelse bp ;;; ret (tot, off)
          else
            log_write bp ;;;
            brelse bp ;;;
            writei_loop f' ip user_src (u64 (src + m)) (u32 (off + m)) n (u32 (tot + m))
    end
  else ret (tot, off).

Definition writei (ip : nat) (user_src : bool) (src off n : Z) : M Z :=
  let* i := get_inode ip in
  if (i_size i <? off) || (u32 (off + n) <? off) then ret (-1)
  else if MAXFILE * BSIZE <? u32 (off + n) then ret (-1)
  else
    let* '(tot, off) := writei_loop (rw_fuel n) ip user_src src off n 0 in
    let* i := get_inode ip in
    when (i_size i <? off) (upd_inode ip (set_i_size off)) ;;;
    (* write the i-node back to disk even if the size didn't change because
       the loop above might have called bmap() and added a new block *)
    iupdate ip ;;;
    ret (i32 tot).

(** * Directories *)

Definition namecmp (s t : list Z) : Z := strncmp (at_arr s) (at_arr t) DIRSIZ.

(** A struct dirent at address [de]. *)
Definition get_dirent (de : Z) : M dirent :=
  gets (fun k => dirent_of (ldbytes (k_mem k) de (Z.to_nat sizeof_dirent))).

(** The loop of dirlookup() from offset [off]: the inode, and the offset of its
    entry. *)
Fixpoint dirlookup_loop (f : nat) (dp : nat) (name : list Z) (de off : Z) : M (option (nat * Z)) :=
  let* d := get_inode dp in
  if off <? i_size d then
    match f with
    | O => stuck
    | S f' =>
        let* r := readi dp false de off sizeof_dirent in
        if negb (r =? sizeof_dirent) then panic "dirlookup read"
        else
          let* e := get_dirent de in
          if de_inum e =? 0 then dirlookup_loop f' dp name de (u32 (off + sizeof_dirent))
          else if namecmp name (de_name e) =? 0 then
            (* entry matches path element *)
            let* d := get_inode dp in
            let* ip := iget (i_dev d) (de_inum e) in
            ret (Some (ip, off))
          else dirlookup_loop f' dp name de (u32 (off + sizeof_dirent))
    end
  else ret None.

Definition dir_fuel (size : Z) : nat := Z.to_nat (size / sizeof_dirent + 1).

Definition dirlookup (dp : nat) (name : list Z) : M (option (nat * Z)) :=
  let* d := get_inode dp in
  if negb (i_type d =? T_DIR) then panic "dirlookup not DIR"
  else local sizeof_dirent (fun de => dirlookup_loop (dir_fuel (i_size d)) dp name de 0).

(** The offset of the first empty dirent from [off] on, or the directory's end. *)
Fixpoint dirlink_loop (f : nat) (dp : nat) (de off : Z) : M Z :=
  let* d := get_inode dp in
  if off <? i_size d then
    match f with
    | O => stuck
    | S f' =>
        let* r := readi dp false de off sizeof_dirent in
        if negb (r =? sizeof_dirent) then panic "dirlink read"
        else
          let* e := get_dirent de in
          if de_inum e =? 0 then ret off
          else dirlink_loop f' dp de (off + sizeof_dirent)
    end
  else ret off.

Definition dirlink (dp : nat) (name : list Z) (inum : Z) : M Z :=
  local sizeof_dirent (fun de =>
    (* Check that name is not present. *)
    let* r := dirlookup dp name in
    match r with
    | Some (ip, _) => iput ip ;;; ret (-1)
    | None =>
        (* Look for an empty dirent. *)
        let* d := get_inode dp in
        let* off := dirlink_loop (dir_fuel (i_size d)) dp de 0 in
        upd_mem (fun m => stbytes m (de + 2) (strncpy (at_arr name) DIRSIZ)) ;;;
        upd_mem (fun m => stbytes m de (le_bytes 2 (u16 inum))) ;;;
        let* r := writei dp false de off sizeof_dirent in
        ret (if negb (r =? sizeof_dirent) then -1 else 0)
    end).

(** * Paths *)

(** The loop that skips slashes. *)
Fixpoint skip_slashes (path : list Z) : list Z :=
  match path with
  | c :: path' => if c =? 47 then skip_slashes path' else path
  | [] => []
  end.

(** The loop up to the next slash or the end: the bytes passed over, the rest. *)
Fixpoint split_elem (path : list Z) : list Z * list Z :=
  match path with
  | [] => ([], [])
  | c :: path' =>
      if (c =? 47) || (c =? 0) then ([], path)
      else let '(s, rest) := split_elem path' in (c :: s, rest)
  end.

(** A path is the bytes of a C string without its NUL; [name] is the array
    char name[DIRSIZ] as it is before the call.  The result is the rest of the
    path and the array after the call. *)
Definition skipelem (path name : list Z) : option (list Z * list Z) :=
  let path := skip_slashes path in
  match path with
  | [] => None
  | _ =>
      let '(s, rest) := split_elem path in
      let name' :=
        if DIRSIZ <=? Z.of_nat (length s) then take (Z.to_nat DIRSIZ) s
        else stl (stl name 0 s) (Z.of_nat (length s)) [0] in
      Some (skip_slashes rest, name')
  end.

(** The loop of namex(); every turn shortens the path. *)
Fixpoint namex_loop (f : nat) (ip : nat) (path : list Z) (nameiparent : bool) (name : list Z)
    : M (option (nat * list Z)) :=
  match skipelem path name with
  | None =>
      if nameiparent then iput ip ;;; ret None
      else ret (Some (ip, name))
  | Some (path', name') =>
      match f with
      | O => stuck
      | S f' =>
          ilock ip ;;;
          let* i := get_inode ip in
          if negb (i_type i =? T_DIR) then iunlockput ip ;;; ret None
          else if nameiparent && bool_decide (path' = []) then
            (* Stop one level early. *)
            iunlock ip ;;; ret (Some (ip, name'))
          else
            let* next := dirlookup ip name' in
            match next with
            | None => iunlockput ip ;;; ret None
            | Some (next, _) =>
                iunlockput ip ;;;
                namex_loop f' next path' nameiparent name'
            end
      end
  end.

Definition namex (path : list Z) (nameiparent : bool) (name : list Z)
    : M (option (nat * list Z)) :=
  let* ip :=
    (if path.[0] =? 47 then iget ROOTDEV ROOTINO
     else
       let* p := mypr in
       let* pr := get_proc p in
       match p_cwd pr with
       | Some cwd => idup cwd
       | None => panic "kerneltrap"
       end) in
  namex_loop (length path) ip path nameiparent name.

(** The contents of namei()'s own array do not matter: namex() writes it before
    it reads it. *)
Definition namei (path : list Z) : M (option nat) :=
  let* r := namex path false (replicate (Z.to_nat DIRSIZ) 0) in
  ret (option_map fst r).

Definition nameiparent (path name : list Z) : M (option (nat * list Z)) :=
  namex path true name.

End fs.
