(* ===== verification/FsSpec.v ===== *)
(** Blocks inside a transaction, for the file system: reading, storing, logging
    and releasing them, and the block allocator of kernel/fs.c on top.

    The buffer cache is used through the interface of Bcache.v, the log through
    [log_write_spec]. *)
From S2P Require Import Prelude CInt KState KString Riscv Kalloc Vm Proc Uart Printf Bio Bcache Log LogSpec Fs.

(** * What the file system's operations leave alone *)

(** [k'] is [k] but for the buffers, the log and other processes' states. *)
Definition fs_frame (k k' : K) : Prop :=
  exists bs ps l,
    k' = set_k_bufs bs (set_k_procs ps (set_k_log l k)) /\
    procs_rel (k_proc k) (k_procs k) ps /\ log_size l = log_size (k_log k).

#[export] Instance fs_frame_preorder : PreOrder fs_frame.
Proof.
  split.
  - intros k. exists (k_bufs k), (k_procs k), (k_log k).
    split_and!; [by destruct k|apply procs_rel_refl|done].
  - intros k1 k2 k3 (bs & ps & l & -> & H1 & E1) (bs' & ps' & l' & -> & H2 & E2).
    exists bs', ps', l'. split_and!; [done|by eapply procs_rel_trans|]. by rewrite E2.
Qed.

Lemma fs_frame_io l k k' :
  io_frame [] (set_k_log l k) k' -> log_size l = log_size (k_log k) -> fs_frame k k'.
Proof. intros (bs & ps & -> & Hp) Hl. by exists bs, ps, l. Qed.

Lemma fs_frame_inodes k k' : fs_frame k k' -> k_inodes k' = k_inodes k.
Proof. by intros (bs & ps & l & -> & _). Qed.

Lemma fs_frame_proc p k k' : fs_frame k k' -> k_proc k = Some p ->
  k_proc k' = Some p /\ k_procs k' !!! p = k_procs k !!! p.
Proof. intros (bs & ps & l & -> & [_ H] & _) Hp. split; [done|]. by apply H. Qed.

Lemma fs_frame_sb k k' : fs_frame k k' -> k_sb k' = k_sb k.
Proof. by intros (bs & ps & l & -> & _). Qed.

Lemma fs_frame_mem k k' : fs_frame k k' -> k_mem k' = k_mem k.
Proof. by intros (bs & ps & l & -> & _). Qed.

Lemma fs_frame_disk k k' : fs_frame k k' -> k_disk k' = k_disk k /\ k_writes k' = k_writes k.
Proof. by intros (bs & ps & l & -> & _). Qed.

Lemma fs_frame_logsize k k' : fs_frame k k' -> log_size (k_log k') = log_size (k_log k).
Proof. by intros (bs & ps & l & -> & _ & E). Qed.

(** * The free map *)

(** Bit [j] of a bitmap block. *)
Definition bit (d : list Z) (j : Z) : bool := Z.testbit d.[j / 8] (j mod 8).
Definition set_bit (d : list Z) (j : Z) : list Z := d.[j / 8 <- Z.lor d.[j / 8] (Z.shiftl 1 (j mod 8))].
Definition clear_bit (d : list Z) (j : Z) : list Z :=
  d.[j / 8 <- Z.land d.[j / 8] (u8 (Z.lnot (Z.shiftl 1 (j mod 8))))].

Lemma length_set_bit d j : length (set_bit d j) = length d.
Proof. apply length_insert. Qed.

Lemma length_clear_bit d j : length (clear_bit d j) = length d.
Proof. apply length_insert. Qed.

Lemma bit_byte d j v j' : 0 <= j < 8 * Z.of_nat (length d) -> 0 <= j' ->
  bit (d.[j / 8 <- v]) j' = if j' / 8 =? j / 8 then Z.testbit v (j' mod 8) else bit d j'.
Proof.
  intros Hj Hj'. unfold bit. rewrite !nth_lookup, list_lookup_insert.
  destruct (j' / 8 =? j / 8) eqn:E; b2p.
  - by rewrite decide_True by zdm.
  - rewrite decide_False by zdm. done.
Qed.

Lemma bit_land d j : (Z.land d.[j / 8] (Z.shiftl 1 (j mod 8)) =? 0) = negb (bit d j).
Proof.
  unfold bit. assert (0 <= j mod 8) as H by zdm. rewrite Z.shiftl_1_l. destruct (Z.testbit _ _) eqn:E; cbn.
  - apply Z.eqb_neq. intros H0. apply (f_equal (fun z => Z.testbit z (j mod 8))) in H0.
    by rewrite Z.land_spec, E, Z.pow2_bits_true, Z.bits_0 in H0.
  - apply Z.eqb_eq, Z.bits_inj'. intros n Hn. rewrite Z.land_spec, Z.bits_0, Z.pow2_bits_eqb by done.
    destruct (j mod 8 =? n) eqn:En; b2p; [by rewrite <- En, E|apply andb_false_r].
Qed.

Lemma bit_set d j j' : 0 <= j < 8 * Z.of_nat (length d) -> 0 <= j' ->
  bit (set_bit d j) j' = (j' =? j) || bit d j'.
Proof.
  intros Hj Hj'. unfold set_bit. rewrite bit_byte by done. destruct (j' / 8 =? j / 8) eqn:E; b2p.
  - unfold bit. rewrite E, Z.lor_spec, Z.shiftl_1_l, Z.pow2_bits_eqb, orb_comm by zdm. f_equal.
    apply eq_true_iff_eq. rewrite !Z.eqb_eq. zdm.
  - replace (j' =? j) with false; [done|]. symmetry. apply Z.eqb_neq. congruence.
Qed.

Lemma bit_clear d j j' : 0 <= j < 8 * Z.of_nat (length d) -> 0 <= j' ->
  bit (clear_bit d j) j' = negb (j' =? j) && bit d j'.
Proof.
  intros Hj Hj'. unfold clear_bit. rewrite bit_byte by done. destruct (j' / 8 =? j / 8) eqn:E; b2p.
  - unfold bit. rewrite E, Z.land_spec, andb_comm. f_equal. unfold u8.
    rewrite Z.mod_pow2_bits_low, Z.lnot_spec, Z.shiftl_1_l, Z.pow2_bits_eqb by zdm. f_equal.
    apply eq_true_iff_eq. rewrite !Z.eqb_eq. zdm.
  - replace (j' =? j) with false; [done|]. symmetry. apply Z.eqb_neq. congruence.
Qed.

(** The layout that mkfs writes: boot block, super block, log, inodes, free
    map, data. *)
Definition data_start (sb : superblock) : Z := sb_bmapstart sb + sb_size sb / BPB + 1.

Record geometry (start : Z) (sb : superblock) : Prop := mk_geometry {
  geo_log : 0 <= start /\ start + LOGSIZE <= sb_inodestart sb;
  geo_inodes : 0 <= sb_ninodes sb /\ sb_inodestart sb + sb_ninodes sb / IPB + 1 <= sb_bmapstart sb;
  geo_size : data_start sb <= sb_size sb < 2 ^ 31;
}.

Lemma geometry_home start sb x : geometry start sb -> sb_inodestart sb <= x -> home start x.
Proof. intros [] ?. right. lia. Qed.

Lemma bblock_range start sb b : geometry start sb -> 0 <= b < sb_size sb ->
  BBLOCK b sb = b / BPB + sb_bmapstart sb /\ sb_bmapstart sb <= BBLOCK b sb < data_start sb /\
  0 <= sb_inodestart sb <= sb_bmapstart sb.
Proof.
  intros [[G1 G2] [G3 G4] G5] Hb. change IPB with 16 in G4.
  unfold BBLOCK, data_start, BPB, BSIZE, LOGSIZE, MAXOPBLOCKS in *. rewrite u32_small; zdm.
Qed.

Lemma bblock_same sb b bi : b mod BPB = 0 -> 0 <= bi < BPB ->
  BBLOCK (b + bi) sb = BBLOCK b sb /\ (b + bi) mod BPB = bi.
Proof.
  unfold BBLOCK, BPB, BSIZE. intros Hb Hbi. split; [f_equal|]; zdm.
Qed.

(** Block [b] is in use, by the free map. *)
Definition block_used (V : Z -> list Z) (sb : superblock) (b : Z) : bool :=
  bit (V (BBLOCK b sb)) (b mod BPB).

Definition zeros : list Z := replicate (Z.to_nat BSIZE) 0.

(** The blocks after balloc() has returned [a], and after bfree() of [a]. *)
Definition allocated (V : Z -> list Z) (sb : superblock) (a : Z) : Z -> list Z :=
  fn_upd (fn_upd V (BBLOCK a sb) (set_bit (V (BBLOCK a sb)) (a mod BPB))) a zeros.
Definition freed (V : Z -> list Z) (sb : superblock) (a : Z) : Z -> list Z :=
  fn_upd V (BBLOCK a sb) (clear_bit (V (BBLOCK a sb)) (a mod BPB)).

(** The first block that is not in use. *)
Definition first_free (V : Z -> list Z) (sb : superblock) (a : Z) : Prop :=
  0 <= a < sb_size sb /\ block_used V sb a = false /\ forall x, 0 <= x < a -> block_used V sb x = true.

(** The blocks below the data area are marked in use. *)
Definition meta_used (V : Z -> list Z) (sb : superblock) : Prop :=
  forall x, 0 <= x < data_start sb -> block_used V sb x = true.

Lemma first_free_data V sb a : meta_used V sb -> first_free V sb a -> data_start sb <= a < sb_size sb.
Proof.
  intros M (Ha & Hf & _). destruct (decide (data_start sb <= a)); [lia|].
  rewrite M in Hf by lia. discriminate.
Qed.

Lemma bblock_inj start sb a x : geometry start sb -> 0 <= a < sb_size sb -> 0 <= x < sb_size sb ->
  BBLOCK x sb = BBLOCK a sb -> x mod BPB = a mod BPB -> x = a.
Proof.
  intros G Ha Hx. destruct (bblock_range _ _ _ G Ha) as (-> & _), (bblock_range _ _ _ G Hx) as (-> & _).
  unfold BPB, BSIZE. zdm.
Qed.

Lemma used_allocated start sb V a x :
  geometry start sb -> data_start sb <= a < sb_size sb -> 0 <= x < sb_size sb ->
  (forall y, length (V y) = Z.to_nat BSIZE) ->
  block_used (allocated V sb a) sb x = (x =? a) || block_used V sb x.
Proof.
  intros G Ha Hx HV. unfold block_used, allocated.
  assert (0 <= a) as Ha0 by (destruct G, (bblock_range start sb x); [done|lia|lia]).
  destruct (bblock_range _ _ x G Hx) as (_ & H1 & _), (bblock_range _ _ a G ltac:(lia)) as (_ & H2 & _).
  rewrite fn_upd_ne by lia. destruct (decide (BBLOCK x sb = BBLOCK a sb)) as [E|E].
  - rewrite E, fn_upd_eq, bit_set by (rewrite ?HV; unfold BPB, BSIZE; zdm). f_equal.
    apply eq_true_iff_eq. rewrite !Z.eqb_eq. split; [|congruence]. eapply bblock_inj; [done|lia|done..].
  - rewrite fn_upd_ne by done. replace (x =? a) with false; [done|]. symmetry. apply Z.eqb_neq. congruence.
Qed.

Lemma used_freed start sb V a x :
  geometry start sb -> 0 <= a < sb_size sb -> 0 <= x < sb_size sb ->
  (forall y, length (V y) = Z.to_nat BSIZE) ->
  block_used (freed V sb a) sb x = negb (x =? a) && block_used V sb x.
Proof.
  intros G Ha Hx HV. unfold block_used, freed.
  destruct (decide (BBLOCK x sb = BBLOCK a sb)) as [E|E].
  - rewrite E, fn_upd_eq, bit_clear by (rewrite ?HV; unfold BPB, BSIZE; zdm). f_equal. f_equal.
    apply eq_true_iff_eq. rewrite !Z.eqb_eq. split; [|congruence]. by eapply bblock_inj.
  - rewrite fn_upd_ne by done. replace (x =? a) with false; [done|]. symmetry. apply Z.eqb_neq. congruence.
Qed.

(** The inner loop of balloc(). *)
Lemma balloc_scan_spec n data b size : forall bi, 0 <= bi ->
  match balloc_scan n data b bi size with
  | Some j => bi <= j < BPB /\ b + j < size /\ bit data j = false /\
              forall x, bi <= x < j -> bit data x = true
  | None => forall x, bi <= x < bi + Z.of_nat n -> x < BPB -> b + x < size -> bit data x = true
  end.
Proof.
  induction n as [|n IH]; intros bi Hbi; cbn [balloc_scan]; [lia|].
  destruct (_ && _) eqn:E; b2p; [|intros; lia].
  rewrite bit_land. destruct (bit data bi) eqn:Eb; cbn [negb].
  - specialize (IH (bi + 1) ltac:(lia)). destruct (balloc_scan _ _ _ _ _) as [j|].
    + destruct IH as (H1 & H2 & H3 & H4). split_and!; try lia; [done|]. intros x Hx.
      destruct (decide (x = bi)) as [->|]; [done|]. apply H4. lia.
    + intros x Hx. destruct (decide (x = bi)) as [->|]; [done|]. apply IH; lia.
  - split_and!; try lia. done.
Qed.

Section fsspec.
Context {P : Platform} (dev start : Z) (p : nat) {C : BlockCache dev p}.

(** * Inside a transaction *)

(** The transaction has logged the blocks [B], the process holds the buffers
    [hs] with their block numbers, and the blocks' contents are [V]. *)
Record tx (k : K) (hs : list (nat * Z)) (B : list Z) (V : Z -> list Z) : Prop := mk_tx {
  tx_st : st dev p k [] k (list_to_map hs) V (fun x => pins B x + pins hs.*2 x);
  tx_bufs : NoDup hs.*1;
  tx_blocks : NoDup hs.*2;
  tx_log : log_at dev start B (k_log k);
  tx_free : L_log ∉ k_held k;
  tx_size : log_size (k_log k) <= LOGSIZE;
  tx_out : 1 <= log_outstanding (k_log k);
}.

(** There is room for [n] more blocks in the log. *)
Definition log_room (n : Z) (B : list Z) (k : K) : Prop :=
  Z.of_nat (length B) + n < log_size (k_log k).

Lemma st_rebase k0 k H V R : st dev p k0 [] k H V R -> st dev p k [] k H V R.
Proof.
  intros [F Hr I HV HR]. split; [|done..]. exists (k_bufs k), (k_procs k).
  split; [by destruct k|apply procs_rel_refl].
Qed.

Lemma io_frame_nil_log k k' : io_frame [] k k' -> fs_frame k k'.
Proof. intros F. apply (fs_frame_io (k_log k)); [|done]. by destruct k. Qed.

(** Operations of the cache do not touch the log. *)
Lemma tx_step k k' hs hs' B V V' :
  tx k hs B V -> st dev p k [] k' (list_to_map hs') V' (fun x => pins B x + pins hs'.*2 x) ->
  NoDup hs'.*1 -> NoDup hs'.*2 -> tx k' hs' B V' /\ fs_frame k k'.
Proof.
  intros T S H1 H2. pose proof (st_io _ _ _ _ _ _ _ _ S) as F.
  pose proof (io_frame_log _ _ _ F) as EL. pose proof (io_frame_held _ _ _ F) as EH.
  split; [|by apply io_frame_nil_log].
  split; rewrite ?EL, ?EH; [by eapply st_rebase|done|done|apply T..].
Qed.

Lemma tx_room k hs B V : tx k hs B V -> (length B + length hs < Z.to_nat NBUF)%nat ->
  exists X : gset Z, (size X < Z.to_nat NBUF)%nat /\ forall x, pins B x + pins hs.*2 x <> 0 -> x ∈ X.
Proof.
  intros T Hlen. destruct (pins_room (B ++ hs.*2)) as (X & HX & H).
  { by rewrite length_app, length_fmap. }
  exists X. split; [done|]. intros x Hx. apply H. clear -Hx. unfold pins in *.
  repeat case_decide; set_solver.
Qed.

Lemma held_lookup (b : nat) (bno : Z) hs : NoDup ((b, bno) :: hs).*1 ->
  (list_to_map ((b, bno) :: hs) : gmap nat Z) !! b = Some bno /\
  delete b (list_to_map ((b, bno) :: hs) : gmap nat Z) = list_to_map hs.
Proof.
  intros Hnd. cbn in *. apply list.NoDup_cons in Hnd as [Hb _]. split; [apply lookup_insert_eq|].
  rewrite delete_insert_id; [done|]. by apply not_elem_of_list_to_map_1.
Qed.

Lemma tx_bread k hs B V bno :
  tx k hs B V -> bno ∉ hs.*2 -> (length B + length hs < Z.to_nat NBUF)%nat ->
  exists b k', bread dev bno k = Ok b k' /\ tx k' ((b, bno) :: hs) B V /\ fs_frame k k' /\
    (bno ∉ B -> V bno = disk_block (k_disk k') bno).
Proof.
  intros T Hn Hroom. pose proof (tx_st _ _ _ _ T) as S.
  destruct (st_bread _ _ _ _ _ _ _ _ bno S) as (b & k' & E & Hb & S').
  - intros b Hb. apply elem_of_list_to_map_2 in Hb. apply Hn, list_elem_of_fmap. by exists (b, bno).
  - unfold pins. repeat case_decide; lia.
  - right. by eapply tx_room.
  - exists b, k'. split; [done|]. apply not_elem_of_list_to_map_2 in Hb.
    destruct (tx_step k k' hs ((b, bno) :: hs) B V V T) as [T' F].
    + eapply st_ext; [exact S'|done|done|]. intros x. cbn. unfold fn_upd, pins.
      clear -Hn. repeat case_decide; set_solver by lia.
    + cbn. apply list.NoDup_cons. split; [done|apply T].
    + cbn. apply list.NoDup_cons. split; [done|apply T].
    + split_and!; [done..|]. intros HB. rewrite (proj1 (fs_frame_disk _ _ F)).
      rewrite <- (st_view _ _ _ _ _ _ _ _ S). eapply cinv_clean; [apply S|].
      rewrite (st_refs _ _ _ _ _ _ _ _ S). rewrite !pins_out; done.
Qed.

(** A block that the transaction has not logged must be released as it is on
    disk. *)
Lemma tx_brelse k b bno hs B V :
  tx k ((b, bno) :: hs) B V -> (bno ∉ B -> V bno = disk_block (k_disk k) bno) ->
  exists k', brelse b k = Ok tt k' /\ tx k' hs B V /\ fs_frame k k'.
Proof.
  intros T Hcl. pose proof (held_lookup b bno hs (tx_bufs _ _ _ _ T)) as [Hb Hd].
  pose proof (tx_blocks _ _ _ _ T) as Hnd. cbn in Hnd. apply list.NoDup_cons in Hnd as [Hbno Hnd].
  destruct (st_brelse _ _ _ _ _ _ _ _ b bno (tx_st _ _ _ _ T) Hb) as (k' & E & S').
  { intros H1. apply Hcl. intros HB. rewrite !pins_in in H1 by set_solver. lia. }
  exists k'. split; [done|]. rewrite Hd in S'. eapply tx_step; [exact T| | |done].
  - eapply st_ext; [exact S'|done|done|]. intros x. cbn. unfold fn_upd, pins.
    clear -Hbno. repeat case_decide; set_solver by lia.
  - pose proof (tx_bufs _ _ _ _ T) as H1. cbn in H1. by apply list.NoDup_cons in H1 as [_ H1].
Qed.

Lemma tx_data k b bno hs B V :
  tx k ((b, bno) :: hs) B V -> b_data (k_bufs k !!! b) = V bno.
Proof.
  intros T. eapply st_data; [apply T|]. apply held_lookup, T.
Qed.

Lemma tx_len k hs B V x : tx k hs B V -> length (V x) = Z.to_nat BSIZE.
Proof.
  intros T. rewrite <- (st_view _ _ _ _ _ _ _ _ (tx_st _ _ _ _ T)). eapply cinv_size. apply T.
Qed.

(** [upd_data] with a function that keeps the length. *)
Lemma tx_store k b bno hs B V (f : list Z -> list Z) :
  tx k ((b, bno) :: hs) B V -> length (f (V bno)) = Z.to_nat BSIZE ->
  exists k', upd_data b f k = Ok tt k' /\ tx k' ((b, bno) :: hs) B (fn_upd V bno (f (V bno))) /\ fs_frame k k'.
Proof.
  intros T Hlen. eexists. split; [reflexivity|].
  change (set_k_bufs _ k) with (upd_bufs b (fun bf => set_b_data (f (b_data bf)) bf) k).
  rewrite upd_bufs_data, (tx_data _ _ _ _ _ _ T).
  eapply tx_step; [exact T| |apply T..]. eapply st_store; [apply T|apply held_lookup, T|done].
Qed.

Lemma log_written_size B bno l : log_size (log_written B bno l) = log_size l.
Proof. unfold log_written. by destruct (list_find _ _) as [[]|]. Qed.

Lemma log_written_out B bno l : log_outstanding (log_written B bno l) = log_outstanding l.
Proof. unfold log_written. by destruct (list_find _ _) as [[]|]. Qed.

Lemma tx_log_write k b bno hs B V :
  tx k ((b, bno) :: hs) B V -> 0 <= bno < 2 ^ 32 -> home start bno -> log_room 1 B k ->
  exists k', log_write b k = Ok tt k' /\ tx k' ((b, bno) :: hs) (log_add B bno) V /\ fs_frame k k'.
Proof.
  intros T Hb Hh Hroom. pose proof (la_n _ _ _ _ (tx_log _ _ _ _ T)) as Hn. unfold log_room in Hroom.
  destruct (wp_inv _ _ _ (log_write_spec dev p start B k [] k _ _ _ b bno (tx_st _ _ _ _ T)
    (proj1 (held_lookup _ _ _ (tx_bufs _ _ _ _ T))) (tx_free _ _ _ _ T) (tx_log _ _ _ _ T) Hb Hh
    ltac:(lia) (tx_size _ _ _ _ T) (tx_out _ _ _ _ T) ltac:(cbv beta; unfold pins; repeat case_decide; lia)))
    as ([] & k' & E & S & L).
  exists k'. split; [done|]. pose proof (st_io _ _ _ _ _ _ _ _ S) as F.
  pose proof (io_frame_log _ _ _ F) as EL. pose proof (io_frame_held _ _ _ F) as EH. cbn in EL, EH.
  split; [|eapply fs_frame_io; [exact F|apply log_written_size]].
  split; rewrite ?EL, ?EH; [|apply T|apply T|done|apply T| |].
  - apply st_rebase in S. eapply st_ext; [exact S|done|done|]. intros x. unfold log_add, fn_upd, pins. clear.
    repeat case_decide; set_solver by lia.
  - rewrite log_written_size. apply T.
  - rewrite log_written_out. apply T.
Qed.

(** The inodes, the memory and the stack are not the transaction's business. *)
Ltac tx_keeps k k' hs :=
  let S := fresh "S" in
  intros [S ? ? ? ? ? ?]; split; try done; destruct S as [F Hr I HV HR];
  destruct (cinv_frame k k' (list_to_map hs)) as (I' & V' & R'); try done;
  split; [|done|done|intros x; by rewrite V'|intros x; by rewrite R'];
  exists (k_bufs k), (k_procs k); split; [by destruct k|apply procs_rel_refl].

Lemma tx_inodes ns k hs B V : tx k hs B V -> tx (set_k_inodes ns k) hs B V.
Proof. tx_keeps k (set_k_inodes ns k) hs. Qed.

Lemma tx_mem m k hs B V : tx k hs B V -> tx (set_k_mem m k) hs B V.
Proof. tx_keeps k (set_k_mem m k) hs. Qed.

Lemma tx_sp a k hs B V : tx k hs B V -> tx (set_k_sp a k) hs B V.
Proof. tx_keeps k (set_k_sp a k) hs. Qed.

Lemma tx_ext k hs B V V' : tx k hs B V -> (forall x, V x = V' x) -> tx k hs B V'.
Proof. intros [] HV. split; try done. by eapply st_ext. Qed.

(** The idiom of the file system: change a buffer, log it, release it. *)
Lemma tx_update k b bno hs B V f :
  tx k ((b, bno) :: hs) B V -> length (f (V bno)) = Z.to_nat BSIZE -> 0 <= bno < 2 ^ 32 -> home start bno ->
  log_room 1 B k ->
  exists k', (upd_data b f ;;; log_write b ;;; brelse b) k = Ok tt k' /\
    tx k' hs (log_add B bno) (fn_upd V bno (f (V bno))) /\ fs_frame k k'.
Proof.
  intros T Hf Hb Hh Hroom. destruct (tx_store _ _ _ _ _ _ f T Hf) as (k1 & E1 & T1 & F1).
  destruct (tx_log_write _ _ _ _ _ _ T1 Hb Hh) as (k2 & E2 & T2 & F2).
  { unfold log_room in *. by rewrite (fs_frame_logsize _ _ F1). }
  destruct (tx_brelse _ _ _ _ _ _ T2) as (k3 & E3 & T3 & F3).
  { intros Hn. destruct Hn. unfold log_add. case_decide; set_solver. }
  exists k3. split; [|split; [done|by do 2 (etransitivity; [eassumption|])]].
  eapply bind_eq; [exact E1|]. eapply bind_eq; [exact E2|]. done.
Qed.

Lemma tx_small k hs B V : tx k hs B V -> log_room 1 B k -> (length hs <= 1)%nat ->
  (length B + length hs < Z.to_nat NBUF)%nat.
Proof.
  intros T Hr Hh. pose proof (tx_size _ _ _ _ T). unfold log_room, NBUF, LOGSIZE, MAXOPBLOCKS in *. lia.
Qed.

Lemma bzero_run k hs B V a :
  tx k hs B V -> a ∉ hs.*2 -> (length hs <= 1)%nat -> 0 <= a < 2 ^ 32 -> home start a -> log_room 1 B k ->
  exists k', bzero dev a k = Ok tt k' /\ tx k' hs (log_add B a) (fn_upd V a zeros) /\ fs_frame k k'.
Proof.
  intros T Hn Hh Ha Hm Hroom. unfold bzero. rewrite u32_small by done.
  destruct (tx_bread k hs B V a T Hn) as (b & k1 & E1 & T1 & F1 & _); [by eapply tx_small|].
  destruct (tx_update k1 b a hs B V (fun _ => zeros) T1) as (k2 & E2 & T2 & F2); try done.
  { unfold log_room in *. by rewrite (fs_frame_logsize _ _ F1). }
  exists k2. split; [|split; [done|by etransitivity]]. eapply bind_eq; [exact E1|exact E2].
Qed.

Lemma length_log_add B x : (length (log_add B x) <= length B + 1)%nat.
Proof. unfold log_add. case_decide; [|rewrite length_app; cbn]; lia. Qed.

Lemma log_room_add n B x k k' :
  log_room (n + 1) B k -> fs_frame k k' -> log_room n (log_add B x) k'.
Proof.
  unfold log_room. intros H F. rewrite (fs_frame_logsize _ _ F). pose proof (length_log_add B x). lia.
Qed.

Lemma log_room_frame n B k k' : log_room n B k -> fs_frame k k' -> log_room n B k'.
Proof. unfold log_room. intros H F. by rewrite (fs_frame_logsize _ _ F). Qed.

Section alloc.
Context (sb : superblock) (G : geometry start sb).

Lemma balloc_loop_run n a V B hs : forall b k,
  tx k hs B V -> k_sb k = sb -> (length hs <= 1)%nat -> log_room 2 B k ->
  meta_used V sb -> first_free V sb a ->
  (forall x, x ∈ hs.*2 -> data_start sb <= x /\ x <> a) ->
  0 <= b <= a -> b mod BPB = 0 -> a < b + Z.of_nat n * BPB ->
  exists k', balloc_loop n dev b k = Ok a k' /\
    tx k' hs (log_add (log_add B (BBLOCK a sb)) a) (allocated V sb a) /\ fs_frame k k'.
Proof.
  induction n as [|n IH]; intros b k T Hsb Hhs Hroom HM Ha Hh Hb Hmod Hn; [lia|].
  pose proof (first_free_data _ _ _ HM Ha) as Had. destruct Ha as (Ha & Hfree & Hfirst).
  destruct (bblock_range _ _ b G ltac:(lia)) as (_ & Hbb & Hi).
  destruct (tx_bread k hs B V (BBLOCK b sb) T) as (bp & k1 & E1 & T1 & F1 & Hcl).
  { intros Hin. apply Hh in Hin. lia. }
  { eapply tx_small; [done| |done]. unfold log_room in *. lia. }
  assert (log_room 2 B k1) as Hroom1 by (by eapply log_room_frame).
  pose proof (geo_size _ _ G) as Hsz.
  pose proof (balloc_scan_spec (Z.to_nat BPB) (V (BBLOCK b sb)) b (sb_size sb) 0 ltac:(lia)) as Hscan.
  assert (forall x, 0 <= x < BPB -> bit (V (BBLOCK b sb)) x = block_used V sb (b + x)) as Hbit.
  { intros x Hx. unfold block_used. by destruct (bblock_same sb b x Hmod Hx) as [-> ->]. }
  cut (exists k', match balloc_scan (Z.to_nat BPB) (V (BBLOCK b sb)) b 0 (sb_size sb) with
        | Some bi => upd_data bp (fun d => d.[bi / 8 <- Z.lor d.[bi / 8] (Z.shiftl 1 (bi mod 8))]) ;;;
            log_write bp ;;; brelse bp ;;; bzero dev (b + bi) ;;; ret (b + bi)
        | None => brelse bp ;;; balloc_loop n dev (b + BPB) end k1 = Ok a k' /\
      tx k' hs (log_add (log_add B (BBLOCK a sb)) a) (allocated V sb a) /\ fs_frame k k').
  { intros (k' & E' & T' & F'). exists k'. split; [|done]. cbn [balloc_loop]. kstep. rewrite Hsb.
    replace (b <? sb_size sb) with true by lia. eapply bind_eq; [exact E1|]. kstep.
    by rewrite (tx_data _ _ _ _ _ _ T1). }
  destruct (balloc_scan _ _ _ _ _) as [bi|].
  - destruct Hscan as (H1 & H2 & H3 & H4). rewrite Hbit in H3 by lia.
    assert (b + bi = a) as Ea.
    { destruct (decide (b + bi < a)); [rewrite Hfirst in H3 by lia; discriminate|].
      destruct (decide (a < b + bi)); [|lia]. specialize (H4 (a - b) ltac:(lia)).
      rewrite Hbit in H4 by lia. replace (b + (a - b)) with a in H4 by lia. congruence. }
    destruct (bblock_same sb b bi Hmod ltac:(lia)) as [Eb Em]. rewrite Ea in Eb, Em.
    destruct (tx_update k1 bp (BBLOCK b sb) hs B V (fun d => set_bit d bi) T1) as (k2 & E2 & T2 & F2).
    { rewrite length_set_bit. by eapply tx_len. } { lia. } { eapply geometry_home; [done|lia]. }
    { unfold log_room in *. lia. }
    destruct (bzero_run k2 hs _ _ a T2) as (k3 & E3 & T3 & F3).
    { intros Hin. by apply Hh in Hin as [_ []]. } { done. } { lia. } { eapply geometry_home; [done|lia]. }
    { eapply (log_room_add 1); [|done]. done. }
    exists k3. rewrite Ea. split; [|split].
    + rewrite <- bind_assoc. rewrite <- bind_assoc. eapply bind_eq; [|eapply bind_eq; [exact E3|done]].
      rewrite bind_assoc. exact E2.
    + unfold allocated. by rewrite Eb, Em.
    + by do 2 (etransitivity; [eassumption|]).
  - assert (b + BPB <= a) as Hba.
    { destruct (decide (b + BPB <= a)); [done|]. specialize (Hscan (a - b) ltac:(unfold BPB, BSIZE in *; lia) ltac:(lia) ltac:(lia)).
      rewrite Hbit in Hscan by lia. replace (b + (a - b)) with a in Hscan by lia. congruence. }
    destruct (tx_brelse _ _ _ _ _ _ T1 Hcl) as (k2 & E2 & T2 & F2).
    assert (fs_frame k k2) as F12 by (by etransitivity).
    destruct (IH (b + BPB) k2 T2) as (k3 & E3 & T3 & F3); try done.
    { by rewrite (fs_frame_sb _ _ F12). } { by eapply log_room_frame. } { unfold BPB, BSIZE in *. lia. }
    { unfold BPB, BSIZE in *. zdm. } { lia. }
    exists k3. split; [by eapply bind_eq|]. split; [done|by etransitivity].
Qed.

(** balloc() returns the first free block, marked in use and zeroed. *)
Lemma balloc_run k hs B V a :
  tx k hs B V -> k_sb k = sb -> (length hs <= 1)%nat -> log_room 2 B k ->
  meta_used V sb -> first_free V sb a ->
  (forall x, x ∈ hs.*2 -> data_start sb <= x /\ x <> a) ->
  exists k', balloc dev k = Ok a k' /\
    tx k' hs (log_add (log_add B (BBLOCK a sb)) a) (allocated V sb a) /\ fs_frame k k'.
Proof.
  intros T Hsb Hhs Hroom HM Ha Hh. unfold balloc.
  assert (0 <= a < sb_size sb) as Hr by apply Ha.
  destruct (balloc_loop_run (Z.to_nat (sb_size sb / BPB + 1)) a V B hs 0 k) as (k' & E & H); try done.
  { lia. } { unfold BPB, BSIZE. zdm. }
  exists k'. split; [|done]. kstep. rewrite Hsb. exact E.
Qed.

(** bfree() of a block in use clears its bit. *)
Lemma bfree_run k hs B V a :
  tx k hs B V -> k_sb k = sb -> (length hs <= 1)%nat -> log_room 1 B k ->
  0 <= a < sb_size sb -> block_used V sb a = true -> (forall x, x ∈ hs.*2 -> data_start sb <= x) ->
  exists k', bfree dev a k = Ok tt k' /\ tx k' hs (log_add B (BBLOCK a sb)) (freed V sb a) /\ fs_frame k k'.
Proof.
  intros T Hsb Hhs Hroom Ha Hu Hh. destruct (bblock_range _ _ a G Ha) as (_ & Hbb & Hi).
  pose proof (geo_size _ _ G) as Hsz.
  destruct (tx_bread k hs B V (BBLOCK a sb) T) as (bp & k1 & E1 & T1 & F1 & _).
  { intros Hin. apply Hh in Hin. lia. } { by eapply tx_small. }
  destruct (tx_update k1 bp (BBLOCK a sb) hs B V (fun d => clear_bit d (a mod BPB)) T1) as (k2 & E2 & T2 & F2).
  { rewrite length_clear_bit. by eapply tx_len. } { lia. } { eapply geometry_home; [done|lia]. }
  { by eapply log_room_frame. }
  exists k2. split; [|split; [done|by etransitivity]]. unfold bfree. kstep. rewrite Hsb.
  eapply bind_eq; [exact E1|]. kstep. cbv zeta. rewrite (tx_data _ _ _ _ _ _ T1), bit_land.
  unfold block_used in Hu. by rewrite Hu.
Qed.

(** bfree() of a block that is free panics. *)
Lemma bfree_free k hs B V a :
  tx k hs B V -> k_sb k = sb -> (length hs <= 1)%nat -> log_room 1 B k ->
  0 <= a < sb_size sb -> block_used V sb a = false -> (forall x, x ∈ hs.*2 -> data_start sb <= x) ->
  exists k', bfree dev a k = Panic "freeing free block" k'.
Proof.
  intros T Hsb Hhs Hroom Ha Hu Hh. destruct (bblock_range _ _ a G Ha) as (_ & Hbb & Hi).
  destruct (tx_bread k hs B V (BBLOCK a sb) T) as (bp & k1 & E1 & T1 & F1 & _).
  { intros Hin. apply Hh in Hin. lia. } { by eapply tx_small. }
  exists k1. unfold bfree. kstep. rewrite Hsb.
  eapply bind_eq; [exact E1|]. kstep. cbv zeta. rewrite (tx_data _ _ _ _ _ _ T1), bit_land.
  unfold block_used in Hu. by rewrite Hu.
Qed.

(** C11: the block allocator.  In a transaction with room for it, where the free
    map marks the blocks below the data area, balloc() returns the first free
    block, which is a data block, zeroed and now marked in use, with every
    other mark as before; bfree() of it restores the free map exactly, and no
    block but it and its map block has changed; a second bfree() panics. *)
Theorem balloc_bfree k B V a :
  tx k [] B V -> k_sb k = sb -> log_room 4 B k -> meta_used V sb -> first_free V sb a ->
  exists k1 B1 V1 k2 B2 V2 k3,
    balloc dev k = Ok a k1 /\ tx k1 [] B1 V1 /\ data_start sb <= a < sb_size sb /\ V1 a = zeros /\
    (forall x, 0 <= x < sb_size sb -> block_used V1 sb x = (x =? a) || block_used V sb x) /\
    bfree dev a k1 = Ok tt k2 /\ tx k2 [] B2 V2 /\
    (forall x, 0 <= x < sb_size sb -> block_used V2 sb x = block_used V sb x) /\
    (forall x, x <> a -> x <> BBLOCK a sb -> V2 x = V x) /\
    bfree dev a k2 = Panic "freeing free block" k3.
Proof.
  intros T Hsb Hroom HM Ha. pose proof (first_free_data _ _ _ HM Ha) as Had. assert (0 <= a < sb_size sb) as Har by apply Ha.
  assert (forall x, length (V x) = Z.to_nat BSIZE) as HV by (intros; by eapply tx_len).
  destruct (balloc_run k [] B V a T Hsb) as (k1 & E1 & T1 & F1); [cbn; lia|unfold log_room in *; lia|done|done|cbn; set_solver|].
  pose proof (fun x Hx => used_allocated start sb V a x G Had Hx HV) as Hu1.
  set (B1 := log_add (log_add B (BBLOCK a sb)) a) in *. set (V1 := allocated V sb a) in *.
  assert (log_room 2 B1 k1) as Hr1.
  { unfold log_room in *. rewrite (fs_frame_logsize _ _ F1). pose proof (length_log_add B (BBLOCK a sb)).
    pose proof (length_log_add (log_add B (BBLOCK a sb)) a). unfold B1. lia. }
  assert (k_sb k1 = sb) as Hsb1 by (by rewrite (fs_frame_sb _ _ F1)).
  destruct (bfree_run k1 [] B1 V1 a T1 Hsb1) as (k2 & E2 & T2 & F2);
    [cbn; lia|unfold log_room in *; lia|done|by rewrite Hu1, Z.eqb_refl by done|cbn; set_solver|].
  assert (forall x, 0 <= x < sb_size sb -> block_used (freed V1 sb a) sb x = block_used V sb x) as Hu2.
  { intros x Hx. rewrite (used_freed start) by (done || (intros; by eapply tx_len)). rewrite Hu1 by done.
    destruct (x =? a) eqn:E; [|done]. b2p. subst x. symmetry. apply Ha. }
  destruct (bfree_free k2 [] _ _ a T2) as (k3 & E3);
    [by rewrite (fs_frame_sb _ _ F2)|cbn; lia|by eapply log_room_add|done|rewrite Hu2 by done; apply Ha|cbn; set_solver|].
  exists k1, B1, V1, k2, (log_add B1 (BBLOCK a sb)), (freed V1 sb a), k3. split_and!; try done; try lia.
  - apply fn_upd_eq.
  - intros x Hxa Hxb. unfold freed, V1, allocated. by rewrite !fn_upd_ne.
Qed.

End alloc.

End fsspec.
