(* ===== verification/FsFile.v ===== *)
(** Files: the bytes that an inode and its blocks stand for, and reading them
    with bmap() and readi() of kernel/fs.c. *)
From S2P Require Import Prelude CInt KState KString Riscv Kalloc Vm VmSpec Proc Uart Printf Bio Bcache Log LogSpec Fs FsSpec.

(** * The contents of a file *)

Definition ind (i : inode) : Z := (i_addrs i).[NDIRECT].

(** The number of block [bn] of the file, 0 if it has none. *)
Definition baddr (V : Z -> list Z) (i : inode) (bn : Z) : Z :=
  if bn <? NDIRECT then (i_addrs i).[bn]
  else if ind i =? 0 then 0
  else ldl32 (V (ind i)) (4 * (bn - NDIRECT)).

Definition fbyte (V : Z -> list Z) (i : inode) (off : Z) : Z :=
  let a := baddr V i (off / BSIZE) in
  if a =? 0 then 0 else (V a).[off mod BSIZE].

Definition bytes_at (V : Z -> list Z) (i : inode) (off n : Z) : list Z := map (fbyte V i) (seqZ off n).
Definition content (V : Z -> list Z) (i : inode) : list Z := bytes_at V i 0 (i_size i).

(** Every byte of the file is in a block. *)
Definition dense (V : Z -> list Z) (i : inode) : Prop :=
  i_size i <= MAXFILE * BSIZE /\
  forall off, 0 <= off < i_size i -> baddr V i (off / BSIZE) <> 0.

Lemma length_bytes_at V i off n : length (bytes_at V i off n) = Z.to_nat n.
Proof. unfold bytes_at. by rewrite length_map, length_seqZ. Qed.

Lemma bytes_at_app V i off n1 n2 : 0 <= n1 -> 0 <= n2 ->
  bytes_at V i off (n1 + n2) = bytes_at V i off n1 ++ bytes_at V i (off + n1) n2.
Proof. intros. unfold bytes_at. by rewrite seqZ_app, map_app. Qed.

Lemma bytes_at_lookup V i off n (j : nat) :
  bytes_at V i off n !! j = if decide (j < Z.to_nat n)%nat then Some (fbyte V i (off + Z.of_nat j)) else None.
Proof.
  unfold bytes_at. rewrite list_lookup_fmap. case_decide.
  - by rewrite lookup_seqZ_lt by lia.
  - by rewrite lookup_seqZ_ge by lia.
Qed.

Lemma content_ldl V i off n : 0 <= off -> 0 <= n -> off + n <= i_size i ->
  ldl (content V i) off n = bytes_at V i off n.
Proof.
  intros. unfold content. apply list_eq. intros j. rewrite lookup_ldl, !bytes_at_lookup.
  case_decide; [|done]. rewrite decide_True by lia. f_equal. f_equal. lia.
Qed.

(** The part of a block that a turn of the loops handles. *)
Lemma block_bytes V i off m :
  0 <= off -> 0 <= m <= BSIZE - off mod BSIZE -> baddr V i (off / BSIZE) <> 0 ->
  length (V (baddr V i (off / BSIZE))) = Z.to_nat BSIZE ->
  ldl (V (baddr V i (off / BSIZE))) (off mod BSIZE) m = bytes_at V i off m.
Proof.
  intros Ho Hm Ha Hlen. apply list_eq. intros j. rewrite lookup_ldl, bytes_at_lookup.
  case_decide; [|done]. unfold fbyte.
  assert ((off + Z.of_nat j) / BSIZE = off / BSIZE) as -> by (unfold BSIZE in *; zdm).
  assert ((off + Z.of_nat j) mod BSIZE = off mod BSIZE + Z.of_nat j) as -> by (unfold BSIZE in *; zdm).
  rewrite (proj2 (Z.eqb_neq _ _)) by done.
  assert (0 <= off mod BSIZE < BSIZE) by (unfold BSIZE; zdm).
  rewrite nth_lookup. replace (Z.to_nat (off mod BSIZE + Z.of_nat j)) with (Z.to_nat (off mod BSIZE) + j)%nat by lia.
  destruct (lookup_lt_is_Some_2 (V (baddr V i (off / BSIZE))) (Z.to_nat (off mod BSIZE) + j)) as [x ->]; [lia|done].
Qed.

(** * Copying out, to the kernel or to a process *)

(** What either_copyout() does to memory. *)
Definition put (user : bool) (pt : Z) (m0 m : mem) (a : Z) (bs : list Z) : Z * mem :=
  if user then user_write m0 m pt a bs else (0, stbytes m a bs).

Definition tables_kept (m0 : mem) (pt : Z) (m : mem) : Prop :=
  forall x, in_tables m0 pt x -> ld8 m x = ld8 m0 x.

(** The destination: no wrap-around for the kernel, not the page table itself
    for a process. *)
Definition put_ok (user : bool) (pt : Z) (m0 : mem) (a : Z) (n : nat) : Prop :=
  0 <= a < 2 ^ 64 /\
  if user then clear_of_tables m0 pt a n else a + Z.of_nat n < 2 ^ 64.

Lemma put_res user pt m0 m a bs : (put user pt m0 m a bs).1 = 0 \/ (put user pt m0 m a bs).1 = -1.
Proof.
  unfold put. destruct user; [|by left]. revert m a. induction bs as [|b bs IH]; intros m a; cbn; [by left|].
  case_if; [by right|apply IH].
Qed.

Lemma user_write_app m0 pt bs1 bs2 : forall m a,
  0 <= a < 2 ^ 64 ->
  user_write m0 m pt a (bs1 ++ bs2) =
    let '(r, m1) := user_write m0 m pt a bs1 in
    if r =? -1 then (-1, m1) else user_write m0 m1 pt (u64 (a + Z.of_nat (length bs1))) bs2.
Proof.
  induction bs1 as [|b bs1 IH]; intros m a Ha; cbn [app user_write length].
  - cbn. by rewrite Z.add_0_r, u64_small.
  - case_if; [done|]. rewrite IH by apply u64_range. destruct (user_write _ _ _ _ bs1) as [r m1].
    replace (u64 (u64 (a + 1) + Z.of_nat (length bs1))) with (u64 (a + Z.of_nat (S (length bs1)))); [done|].
    unfold u64. zdm.
Qed.

Lemma put_app user pt m0 m a bs1 bs2 : put_ok user pt m0 a (length bs1 + length bs2) ->
  put user pt m0 m a (bs1 ++ bs2) =
    let '(r, m1) := put user pt m0 m a bs1 in
    if r =? -1 then (-1, m1) else put user pt m0 m1 (u64 (a + Z.of_nat (length bs1))) bs2.
Proof.
  intros [Ha Hok]. unfold put. destruct user; [by apply user_write_app|]. cbn.
  rewrite stbytes_app, u64_small by lia. done.
Qed.

Lemma put_ok_app user pt m0 a n1 n2 : put_ok user pt m0 a (n1 + n2) ->
  put_ok user pt m0 a n1 /\ put_ok user pt m0 (u64 (a + Z.of_nat n1)) n2.
Proof.
  unfold put_ok. intros [Ha H]. destruct user.
  - split; (split; [done || apply u64_range|]).
    + intros i Hi. apply H. lia.
    + intros i Hi. specialize (H (n1 + i)%nat ltac:(lia)).
      replace (u64 (u64 (a + Z.of_nat n1) + Z.of_nat i)) with (u64 (a + Z.of_nat (n1 + i))); [done|].
      unfold u64. zdm.
  - rewrite u64_small; lia.
Qed.

Lemma user_write_keeps m0 pt bs : forall m a,
  0 <= a < 2 ^ 64 -> clear_of_tables m0 pt a (length bs) -> tables_kept m0 pt m ->
  tables_kept m0 pt (user_write m0 m pt a bs).2.
Proof.
  induction bs as [|b bs IH]; intros m a Ha Hc Hm; cbn [user_write length] in *; [done|].
  case_if; [done|]. apply IH; [apply u64_range| |].
  - intros i Hi. specialize (Hc (S i) ltac:(lia)).
    replace (u64 (u64 (a + 1) + Z.of_nat i)) with (u64 (a + Z.of_nat (S i))); [done|]. unfold u64. zdm.
  - intros x Hx. rewrite ld8_st8_ne; [by apply Hm|]. intros <-.
    specialize (Hc 0%nat ltac:(lia)). rewrite u64_idem in Hc by done. by apply Hc.
Qed.

Lemma put_keeps user pt m0 m a bs :
  put_ok user pt m0 a (length bs) -> (user = true -> tables_kept m0 pt m) ->
  user = true -> tables_kept m0 pt (put user pt m0 m a bs).2.
Proof. intros [Ha H] Hm ->. apply user_write_keeps; [done|done|by apply Hm]. Qed.

Section fsfile.
Context {P : Platform} (dev start : Z) (p : nat) {C : BlockCache dev p}.

Abbreviation tx := (tx dev start p).

Lemma either_copyout_run user pt m0 a bs k :
  k_proc k = Some p -> p_pagetable (k_procs k !!! p) = pt -> put_ok user pt m0 a (length bs) ->
  (user = true -> tables_kept m0 pt (k_mem k)) ->
  either_copyout user a bs k =
    Ok (put user pt m0 (k_mem k) a bs).1 (set_k_mem (put user pt m0 (k_mem k) a bs).2 k).
Proof.
  intros Hp Hpt [Ha Hok] Hm. unfold either_copyout, put. destruct user; [|done].
  eapply bind_eq; [unfold mypr, myproc; kstep; by rewrite Hp|]. kstep. rewrite Hpt. unfold copyout.
  rewrite (copyout_loop_run _ pt m0) by (done || lia || by apply Hm).
  by destruct (user_write _ _ _ _ _).
Qed.

Lemma fs_frame_set_mem m k k' : fs_frame k k' -> fs_frame (set_k_mem m k) (set_k_mem m k').
Proof. intros (bs & ps & l & -> & H). by exists bs, ps, l. Qed.

Lemma tx_proc k hs B V : tx k hs B V -> k_proc k = Some p.
Proof. intros T. apply (st_ready _ _ _ _ _ _ _ _ (tx_st _ _ _ _ _ _ _ T)). Qed.

(** * Reading *)

(** bmap() of a block that the file has. *)
Lemma bmap_get k B V ip i bn :
  tx k [] B V -> k_inodes k !!! ip = i -> i_dev i = dev -> 0 <= bn < MAXFILE -> baddr V i bn <> 0 ->
  exists k', bmap ip bn k = Ok (baddr V i bn) k' /\ tx k' [] B V /\ fs_frame k k'.
Proof.
  intros T Hi Hdev Hbn Ha. unfold bmap, baddr in *. destruct (bn <? NDIRECT) eqn:En; b2p.
  - exists k. split; [|done]. kstep. rewrite Hi. apply Z.eqb_neq in Ha. by rewrite Ha.
  - unfold ind in *. destruct ((i_addrs i).[NDIRECT] =? 0) eqn:E0; b2p; [done|].
    destruct (tx_bread dev start p k [] B V (i_addrs i).[NDIRECT] T) as (b & k1 & E1 & T1 & F1 & Hcl).
    { set_solver. } { rewrite Nat.add_0_r. apply (tx_log _ _ _ _ _ _ _ T). }
    destruct (tx_brelse dev start p _ _ _ _ _ _ T1 Hcl) as (k2 & E2 & T2 & F2).
    exists k2. split; [|split; [done|by etransitivity]]. kstep. rewrite Hi.
    replace (bn - NDIRECT <? NINDIRECT) with true by (unfold MAXFILE in *; lia).
    rewrite (proj2 (Z.eqb_neq _ _) E0). kstep. rewrite (proj2 (Z.eqb_neq _ _) E0), Hdev.
    eapply bind_eq; [exact E1|]. kstep. rewrite (tx_data _ _ _ _ _ _ _ _ _ T1), (proj2 (Z.eqb_neq _ _) Ha).
    kstep. eapply bind_eq; [exact E2|done].
Qed.

Section readi.
Context (V : Z -> list Z) (B : list Z) (ip : nat) (i : inode) (user : bool) (pt : Z) (m0 : mem).
Context (Hdev : i_dev i = dev) (Hdense : dense V i).

(** One turn of the loop. *)
Lemma readi_turn n f dst off tot k m :
  tx k [] B V -> k_inodes k !!! ip = i -> p_pagetable (k_procs k !!! p) = pt ->
  (user = true -> tables_kept m0 pt (k_mem k)) -> put_ok user pt m0 dst (Z.to_nat m) ->
  0 <= off < i_size i -> 0 <= tot < n -> n < 2 ^ 31 -> m = Z.min (n - tot) (BSIZE - off mod BSIZE) ->
  let '(r, m1) := put user pt m0 (k_mem k) dst (bytes_at V i off m) in
  exists k', tx k' [] B V /\ fs_frame (set_k_mem m1 k) k' /\
    readi_loop (S f) ip user dst off n tot k =
      (if r =? -1 then ret (-1)
       else readi_loop f ip user (u64 (dst + m)) (u32 (off + m)) n (u32 (tot + m))) k'.
Proof.
  intros T Hi Hpt Hm Hput Hoff Htot Hn Em. destruct Hdense as [Hmax Hd].
  assert (0 <= off mod BSIZE < BSIZE) as Hmod by (unfold BSIZE; zdm).
  assert (0 <= off / BSIZE < MAXFILE) as Hbn by (unfold MAXFILE, NINDIRECT, NDIRECT, BSIZE in *; zdm).
  specialize (Hd off Hoff) as Ha. pose proof (tx_proc _ _ _ _ T) as Hp.
  destruct (bmap_get k B V ip i (off / BSIZE) T Hi Hdev Hbn Ha) as (k1 & E1 & T1 & F1).
  destruct (tx_bread dev start p k1 [] B V (baddr V i (off / BSIZE)) T1) as (b & k2 & E2 & T2 & F2 & Hcl).
  { set_solver. } { rewrite Nat.add_0_r. apply (tx_log _ _ _ _ _ _ _ T1). }
  assert (fs_frame k k2) as F12 by (by etransitivity).
  destruct (fs_frame_proc p _ _ F12 Hp) as [Hp2 Hpr2]. pose proof (fs_frame_mem _ _ F12) as Hm2.
  pose proof (either_copyout_run user pt m0 dst (bytes_at V i off m) k2 Hp2 ltac:(by rewrite Hpr2)
    ltac:(by rewrite length_bytes_at) ltac:(by rewrite Hm2)) as E3.
  rewrite Hm2 in E3. destruct (put user pt m0 (k_mem k) dst _) as [r m1]. cbn [fst snd] in E3.
  destruct (tx_brelse dev start p (set_k_mem m1 k2) b (baddr V i (off / BSIZE)) [] B V) as (k4 & E4 & T4 & F4).
  { by apply tx_mem. } { done. }
  exists k4. split_and!; [done|etransitivity; [by apply fs_frame_set_mem|exact F4]|].
  cbn [readi_loop]. replace (tot <? n) with true by lia. eapply bind_eq; [exact E1|].
  rewrite (proj2 (Z.eqb_neq _ _) Ha). kstep. rewrite (fs_frame_inodes _ _ F1), Hi, Hdev.
  eapply bind_eq; [exact E2|]. cbv zeta. kstep.
  rewrite (tx_data _ _ _ _ _ _ _ _ _ T2), (u32_small (n - tot)), <- Em by lia.
  rewrite block_bytes by (done || lia || by eapply tx_len).
  eapply bind_eq; [exact E3|]. eapply bind_eq; [exact E4|done].
Qed.

Lemma readi_loop_run n f : forall dst off tot k,
  tx k [] B V -> k_inodes k !!! ip = i -> p_pagetable (k_procs k !!! p) = pt ->
  (user = true -> tables_kept m0 pt (k_mem k)) -> put_ok user pt m0 dst (Z.to_nat (n - tot)) ->
  0 <= off -> 0 <= tot <= n -> n < 2 ^ 31 -> off + (n - tot) <= i_size i ->
  (tot < n -> off mod BSIZE + (n - tot) <= Z.of_nat f * BSIZE) ->
  let '(r, m) := put user pt m0 (k_mem k) dst (bytes_at V i off (n - tot)) in
  exists k', readi_loop f ip user dst off n tot k = Ok (if r =? -1 then -1 else n) k' /\
    tx k' [] B V /\ fs_frame (set_k_mem m k) k'.
Proof.
  induction f as [|f IH]; intros dst off tot k T Hi Hpt Hm Hput Hoff Htot Hn Hsz Hf.
  all: assert (0 <= off mod BSIZE < BSIZE) as Hmod by (unfold BSIZE; zdm).
  all: destruct (decide (tot = n)) as [->|Hne].
  1,3: rewrite Z.sub_diag; replace (put _ _ _ _ _ _) with (0, k_mem k) by (by destruct user);
    exists k; split; [cbn [readi_loop]; by rewrite Z.ltb_irrefl; cbn; rewrite i32_small by lia|];
    split; [done|by destruct k].
  - lia.
  - set (m := Z.min (n - tot) (BSIZE - off mod BSIZE)).
    assert (0 < m <= n - tot /\ m <= BSIZE - off mod BSIZE) as Hmb by lia.
    replace (n - tot) with (m + (n - (tot + m))) in Hput |- * by lia.
    rewrite Z2Nat.inj_add in Hput by lia. destruct (put_ok_app _ _ _ _ _ _ Hput) as [Hput1 Hput2].
    pose proof (readi_turn n f dst off tot k m T Hi Hpt Hm Hput1 ltac:(lia) ltac:(lia) Hn eq_refl) as Hturn.
    pose proof (put_keeps user pt m0 (k_mem k) dst (bytes_at V i off m) ltac:(by rewrite length_bytes_at) Hm) as Hm1.
    rewrite bytes_at_app, put_app by (rewrite ?length_bytes_at; done || lia). rewrite length_bytes_at.
    replace (Z.of_nat (Z.to_nat m)) with m in * by lia.
    destruct (put user pt m0 (k_mem k) dst _) as [r m1]. destruct Hturn as (k1 & T1 & F1 & ->).
    destruct (r =? -1); [by exists k1|].
    destruct (fs_frame_proc p _ _ F1 (tx_proc _ _ _ _ T)) as [_ Hpr].
    specialize (IH (u64 (dst + m)) (off + m) (tot + m) k1 T1).
    rewrite (fs_frame_mem _ _ F1), (fs_frame_inodes _ _ F1) in IH. cbn [k_mem k_inodes set_k_mem] in IH.
    specialize (IH Hi ltac:(by rewrite Hpr) Hm1 Hput2 ltac:(lia) ltac:(lia) Hn ltac:(lia)
      ltac:(clear -Hf Hmb Hmod Htot Hoff; intros; unfold BSIZE in *; zdm)).
    destruct (put user pt m0 m1 _ _) as [r' m']. destruct IH as (k' & E' & T' & F').
    exists k'. split; [|split; [done|]].
    + rewrite (u32_small (off + m)), (u32_small (tot + m)); [done|lia|]. destruct Hdense as [Hmax _].
      unfold MAXFILE, NINDIRECT, NDIRECT, BSIZE in *. zdm.
    + etransitivity; [|exact F']. by apply (fs_frame_set_mem m' (set_k_mem m1 k)).
Qed.

End readi.

(** A read that starts inside the file. *)
Lemma readi_within k B V ip i user dst off n :
  tx k [] B V -> k_inodes k !!! ip = i -> i_dev i = dev -> dense V i ->
  0 <= off <= i_size i -> 0 <= n -> off + n < 2 ^ 32 ->
  let n' := Z.min n (i_size i - off) in
  let pt := p_pagetable (k_procs k !!! p) in
  put_ok user pt (k_mem k) dst (Z.to_nat n') ->
  let '(r, m) := put user pt (k_mem k) (k_mem k) dst (bytes_at V i off n') in
  exists k', readi ip user dst off n k = Ok (if r =? -1 then -1 else n') k' /\
    tx k' [] B V /\ fs_frame (set_k_mem m k) k'.
Proof.
  intros T Hi Hdev Hd Hoff Hn Hon n' pt Hput. unfold readi.
  assert (i_size i < 2 ^ 31) as Hmax.
  { destruct Hd as [Hd _]. unfold MAXFILE, NINDIRECT, NDIRECT, BSIZE in *. zdm. }
  replace n' with (n' - 0) in Hput |- * by lia.
  pose proof (readi_loop_run V B ip i user pt (k_mem k) Hdev Hd n' (rw_fuel n') dst off 0 k T Hi eq_refl
    ltac:(by intros _ x _) Hput ltac:(lia) ltac:(lia) ltac:(lia) ltac:(lia)
    ltac:(intros _; unfold rw_fuel, BSIZE; clear -Hoff Hn; zdm)) as H1.
  destruct (put _ _ _ _ _ _) as [r m]. destruct H1 as (k' & E1 & H1). exists k'. split; [|done].
  kstep. rewrite Hi, (u32_small (off + n)) by lia. replace (_ || _) with false by lia.
  rewrite Z.sub_0_r. rewrite <- E1. cbv zeta. replace (if _ <? _ then _ else _) with n'; [done|].
  unfold n'. case_if; [rewrite u32_small|]; lia.
Qed.

(** C7: readi() copies the bytes of the file.  Inside a transaction, with the
    blocks [V] as the process sees them, for a file that has all its bytes in
    blocks, and a destination outside of the page tables, reading [n] bytes at [off]
    transfers exactly the bytes of the file from [off] up to the end of the
    file at most, byte for byte as one copy to the destination would, through
    direct and indirect blocks alike.  It returns their number, 0 when the
    offset is past the end or off + n overflows, and -1 when the destination
    is not mapped.  No block, inode or log entry changes, and every buffer is
    released. *)
Theorem readi_correct k B V ip i user dst off n :
  tx k [] B V -> k_inodes k !!! ip = i -> i_dev i = dev -> dense V i -> 0 <= i_size i ->
  0 <= off < 2 ^ 32 -> 0 <= n < 2 ^ 32 ->
  let n' := if (i_size i <? off) || (2 ^ 32 <=? off + n) then 0 else Z.min n (i_size i - off) in
  let pt := p_pagetable (k_procs k !!! p) in
  put_ok user pt (k_mem k) dst (Z.to_nat n') ->
  let '(r, m) := put user pt (k_mem k) (k_mem k) dst (ldl (content V i) off n') in
  exists k', readi ip user dst off n k = Ok (if r =? -1 then -1 else n') k' /\
    tx k' [] B V /\ fs_frame (set_k_mem m k) k'.
Proof.
  intros T Hi Hdev Hd Hsz Hoff Hn n' pt Hput.
  destruct ((i_size i <? off) || (2 ^ 32 <=? off + n)) eqn:E.
  - replace (put _ _ _ _ _ _) with (0, k_mem k) by (by destruct user). exists k.
    split; [|split; [done|by destruct k]]. unfold readi. kstep. rewrite Hi.
    replace (_ || _) with true; [done|]. symmetry. apply orb_true_iff in E as [E|E]; [by rewrite E|].
    apply orb_true_iff. right. apply Z.ltb_lt. apply Z.leb_le in E. unfold u32. zdm.
  - b2p. rewrite content_ldl by lia. by apply readi_within; [..|lia|lia|lia|].
Qed.

End fsfile.
