(* ===== verification/FsWrite.v ===== *)
(** Writing files: bmap() with allocation, writei() and iupdate() of
    kernel/fs.c. *)
From S2P Require Import Prelude CInt KState KString Riscv Kalloc Vm VmSpec Proc Uart Printf Bio Bcache Log LogSpec Fs FsSpec FsFile.

(** * Files that own their blocks *)

Definition in_use (V : Z -> list Z) (sb : superblock) (x : Z) : Prop :=
  data_start sb <= x < sb_size sb /\ block_used V sb x = true.

(** The blocks of a file are data blocks in use, all different. *)
Record file_ok (V : Z -> list Z) (sb : superblock) (i : inode) : Prop := mk_file_ok {
  fo_len : length (i_addrs i) = 13%nat;
  fo_data : forall bn, 0 <= bn < MAXFILE -> baddr V i bn <> 0 -> in_use V sb (baddr V i bn);
  fo_ind : ind i <> 0 -> in_use V sb (ind i);
  fo_inj : forall bn bn', 0 <= bn < MAXFILE -> 0 <= bn' < MAXFILE ->
    baddr V i bn = baddr V i bn' -> baddr V i bn <> 0 -> bn = bn';
  fo_sep : forall bn, 0 <= bn < MAXFILE -> baddr V i bn <> 0 -> baddr V i bn <> ind i;
}.

Definition owns (V : Z -> list Z) (i : inode) (x : Z) : Prop :=
  x <> 0 /\ (x = ind i \/ exists bn, 0 <= bn < MAXFILE /\ baddr V i bn = x).

Lemma owns_in_use V sb i x : file_ok V sb i -> owns V i x -> in_use V sb x.
Proof. intros F [H0 [->|(bn & Hbn & <-)]]; [by apply F|by apply F]. Qed.

(** The file [i] on blocks [V] has become [i'] on [V']: it may have got new
    blocks, which were free; the blocks of others are as before. *)
Record extends (sb : superblock) (V : Z -> list Z) (i : inode) (V' : Z -> list Z) (i' : inode) : Prop := mk_extends {
  ex_ok : file_ok V' sb i';
  ex_meta : meta_used V' sb;
  ex_used : forall x, 0 <= x < sb_size sb ->
    block_used V' sb x = true <-> block_used V sb x = true \/ owns V' i' x;
  ex_owns : forall x, owns V i x -> owns V' i' x;
  ex_other : forall x, in_use V sb x -> ~ owns V i x -> V' x = V x /\ ~ owns V' i' x;
  ex_low : forall x, x < sb_bmapstart sb -> V' x = V x;
}.

Lemma extends_refl sb V i : 0 <= data_start sb -> file_ok V sb i -> meta_used V sb -> extends sb V i V i.
Proof.
  intros H0 F M. split; try done. intros x Hx. split; [by left|]. intros [H|H]; [done|].
  by apply (owns_in_use V sb i).
Qed.

Lemma extends_trans sb V1 i1 V2 i2 V3 i3 : 0 <= data_start sb ->
  extends sb V1 i1 V2 i2 -> extends sb V2 i2 V3 i3 -> extends sb V1 i1 V3 i3.
Proof.
  intros H0 E1 E2. split.
  - apply E2.
  - apply E2.
  - intros x Hx. rewrite (ex_used _ _ _ _ _ E2), (ex_used _ _ _ _ _ E1) by done.
    pose proof (ex_owns _ _ _ _ _ E2 x). tauto.
  - intros x Hx. by apply E2, E1.
  - intros x Hu Hx. destruct (ex_other _ _ _ _ _ E1 x Hu Hx) as [<- H1]. apply E2; [|done].
    destruct Hu as [Hr Hu]. split; [done|]. apply (ex_used _ _ _ _ _ E1); [lia|by left].
  - intros x Hx. rewrite (ex_low _ _ _ _ _ E2) by done. by apply (ex_low _ _ _ _ _ E1).
Qed.

(** The file's bytes from 0 to the largest size are as before. *)
Definition same_bytes (V : Z -> list Z) (i : inode) (V' : Z -> list Z) (i' : inode) : Prop :=
  forall off, 0 <= off < MAXFILE * BSIZE -> fbyte V' i' off = fbyte V i off.

Lemma off_block off : 0 <= off < MAXFILE * BSIZE -> 0 <= off / BSIZE < MAXFILE.
Proof. unfold MAXFILE, NINDIRECT, NDIRECT, BSIZE. zdm. Qed.

Lemma nth_zeros n j : nth j (replicate n 0) 0 = 0.
Proof. revert j. induction n as [|n IH]; intros [|j]; cbn; auto. Qed.

Lemma geometry_pos start sb : geometry start sb -> 0 < data_start sb.
Proof.
  intros [G1 G2 G3]. change IPB with 16 in G2. unfold data_start, BPB, BSIZE, LOGSIZE, MAXOPBLOCKS in *. zdm.
Qed.

Section grow.
Context (start : Z) (sb : superblock) (G : geometry start sb).
Context (V : Z -> list Z) (i : inode) (F : file_ok V sb i) (M : meta_used V sb).
Context (V' : Z -> list Z) (i' : inode) (a : Z).
Context (Ha : in_use V' sb a) (Hna : block_used V sb a = false).
Context (Hlen : length (i_addrs i') = 13%nat).
Context (Hused : forall x, 0 <= x < sb_size sb -> block_used V' sb x = (x =? a) || block_used V sb x).
Context (Hkeep : forall x, in_use V sb x -> x <> ind i -> V' x = V x) (Hzero : V' a = zeros).
Context (Hlow : forall x, x < sb_bmapstart sb -> V' x = V x).

Lemma in_use_grow x : in_use V sb x -> in_use V' sb x /\ x <> a.
Proof.
  pose proof (geometry_pos _ _ G). intros [Hr Hu]. split; [|congruence]. split; [done|].
  rewrite Hused, Hu by lia. apply orb_true_r.
Qed.

Lemma meta_grow : meta_used V' sb.
Proof. pose proof (geo_size _ _ G). intros x Hx. rewrite Hused, M by lia. apply orb_true_r. Qed.

Lemma owns_ne x : owns V i x -> x <> a.
Proof. intros Hx. by apply in_use_grow, (owns_in_use V sb i). Qed.

Lemma extends_own :
  file_ok V' sb i' -> (forall x, owns V' i' x <-> owns V i x \/ x = a) -> extends sb V i V' i'.
Proof.
  intros F' Hown. pose proof (geometry_pos _ _ G) as Hpos. split.
  - done.
  - apply meta_grow.
  - intros x Hx. rewrite Hused, Hown, orb_true_iff, Z.eqb_eq by done.
    split; [intros [->|H]; tauto|intros [H|[H| ->]]; [tauto| |tauto]].
    right. apply (owns_in_use V sb i); done.
  - intros x Hx. apply Hown. by left.
  - intros x Hu Hx. rewrite Hown. split.
    + apply Hkeep; [done|]. intros ->. apply Hx. split; [destruct Hu; lia|by left].
    + intros [|E]; [done|]. by apply in_use_grow in Hu as [_ []].
  - done.
Qed.

Lemma fbyte_kept off : 0 <= off < MAXFILE * BSIZE -> baddr V' i' (off / BSIZE) = baddr V i (off / BSIZE) ->
  fbyte V' i' off = fbyte V i off.
Proof.
  intros Hoff%off_block Hb. unfold fbyte. rewrite Hb.
  destruct (baddr V i (off / BSIZE) =? 0) eqn:E; [done|]. b2p. rewrite Hkeep; [done|by apply F|by apply F].
Qed.

(** Block [bn] of the file is new. *)
Lemma extends_block bn :
  0 <= bn < MAXFILE -> baddr V i bn = 0 -> ind i' = ind i ->
  (forall bn', 0 <= bn' < MAXFILE -> baddr V' i' bn' = if bn' =? bn then a else baddr V i bn') ->
  extends sb V i V' i' /\ same_bytes V i V' i'.
Proof.
  intros Hbn H0 Hind Hb. pose proof (geometry_pos _ _ G) as Hpos. assert (a <> 0) as Ha0 by (destruct Ha; lia).
  split; [apply extends_own|].
  - split; [done|..].
    + intros bn' Hr. rewrite Hb by done. case_if; [done|]. intros. by apply in_use_grow, F.
    + rewrite Hind. intros. by apply in_use_grow, F.
    + intros b1 b2 H1 H2. rewrite !Hb by done. repeat case_if; subst; intros E Hz; [done|..].
      * destruct (owns_ne a); [|done]. split; [done|]. right. by exists b2.
      * destruct (owns_ne a); [|done]. split; [done|]. right. by exists b1.
      * by apply F.
    + intros bn' Hr. rewrite Hb, Hind by done. case_if; [|by apply F].
      intros _ E. destruct (owns_ne a); [|done]. split; [done|by left].
  - intros x. unfold owns. rewrite Hind. split.
    + intros [Hx [->|(bn' & Hr & <-)]]; [tauto|]. rewrite Hb in * by done. case_if; [by right|].
      left. split; [done|]. right. by exists bn'.
    + intros [[Hx [->|(bn' & Hr & <-)]]| ->]; [tauto|..]; (split; [done|right]).
      * exists bn'. split; [done|]. rewrite Hb by done. case_if; [congruence|done].
      * exists bn. split; [done|]. by rewrite Hb, Z.eqb_refl.
  - intros off Hoff. pose proof (off_block _ Hoff) as Hbo. destruct (off / BSIZE =? bn) eqn:E.
    + unfold fbyte. rewrite Hb, E by done. b2p. rewrite E, H0, (proj2 (Z.eqb_neq _ _)), Hzero by done.
      apply nth_zeros.
    + apply fbyte_kept; [done|]. by rewrite Hb, E.
Qed.

(** The indirect block is new. *)
Lemma extends_ind :
  ind i = 0 -> ind i' = a -> (forall bn, 0 <= bn < MAXFILE -> baddr V' i' bn = baddr V i bn) ->
  extends sb V i V' i' /\ same_bytes V i V' i'.
Proof.
  intros H0 Hind Hb. pose proof (geometry_pos _ _ G) as Hpos. assert (a <> 0) as Ha0 by (destruct Ha; lia).
  split; [apply extends_own|].
  - split; [done|..].
    + intros bn' Hr. rewrite Hb by done. intros. by apply in_use_grow, F.
    + by rewrite Hind.
    + intros b1 b2 H1 H2. rewrite !Hb by done. by apply F.
    + intros bn' Hr. rewrite Hb, Hind by done. intros Hz. apply owns_ne. split; [done|]. right. by exists bn'.
  - intros x. unfold owns. rewrite Hind, H0. split.
    + intros [Hx [->|(bn' & Hr & <-)]]; [by right|]. rewrite Hb in * by done.
      left. split; [done|]. right. by exists bn'.
    + intros [[Hx [->|(bn' & Hr & <-)]]| ->]; [done|..|tauto]; (split; [done|right]).
      exists bn'. split; [done|]. by rewrite Hb.
  - intros off Hoff. apply fbyte_kept; [done|]. by apply Hb, off_block.
Qed.

End grow.

(** * Counting free blocks *)

Definition free_in (V : Z -> list Z) (sb : superblock) (x : Z) : Prop := block_used V sb x = false.
#[export] Instance free_in_dec V sb x : Decision (free_in V sb x).
Proof. unfold free_in. apply _. Defined.

Definition nfree (V : Z -> list Z) (sb : superblock) : nat :=
  length (filter (free_in V sb) (seqZ 0 (sb_size sb))).

Lemma filter_remove_one `{EqDecision A} (Q Q' : A -> Prop) `{!forall x, Decision (Q x), !forall x, Decision (Q' x)} (l : list A) a :
  NoDup l -> a ∈ l -> Q a -> (forall x, x ∈ l -> Q' x <-> Q x /\ x <> a) ->
  length (filter Q l) = S (length (filter Q' l)).
Proof.
  intros Hnd Ha HQ Hiff. change (S _) with (length (a :: filter Q' l)). apply Permutation_length, list.NoDup_Permutation.
  - by apply list.NoDup_filter.
  - apply list.NoDup_cons. split; [|by apply list.NoDup_filter]. rewrite list_elem_of_filter. naive_solver.
  - intros x. rewrite list.elem_of_cons, !list_elem_of_filter. destruct (decide (x = a)) as [->|]; naive_solver.
Qed.

Lemma nfree_alloc V V' sb a : 0 <= a < sb_size sb -> block_used V sb a = false ->
  (forall x, 0 <= x < sb_size sb -> block_used V' sb x = (x =? a) || block_used V sb x) ->
  nfree V sb = S (nfree V' sb).
Proof.
  intros Ha Hf Hu. apply (filter_remove_one _ _ _ a).
  - apply NoDup_seqZ.
  - apply elem_of_seqZ. lia.
  - done.
  - intros x Hx%elem_of_seqZ. unfold free_in. rewrite Hu, orb_false_iff, Z.eqb_neq by lia. tauto.
Qed.

Lemma nfree_ext V V' sb :
  (forall x, 0 <= x < sb_size sb -> block_used V' sb x = block_used V sb x) -> nfree V' sb = nfree V sb.
Proof.
  intros H. apply Permutation_length, list.NoDup_Permutation; [apply list.NoDup_filter, NoDup_seqZ..|].
  intros x. rewrite !list_elem_of_filter. unfold free_in. split; intros [Hf Hx]; (split; [|done]);
    apply elem_of_seqZ in Hx; by rewrite H in * by lia.
Qed.

Lemma first_free_exists V sb : (0 < nfree V sb)%nat -> exists a, first_free V sb a.
Proof.
  intros H. assert (forall n : nat, (forall x, 0 <= x < Z.of_nat n -> block_used V sb x = true) \/
    exists a, 0 <= a < Z.of_nat n /\ block_used V sb a = false /\ forall x, 0 <= x < a -> block_used V sb x = true) as Hn.
  { induction n as [|n [IH|(a & Ha & Hf)]]; [left; lia| |right; exists a; split; [lia|done]].
    destruct (block_used V sb (Z.of_nat n)) eqn:E; [left|right; exists (Z.of_nat n); split; [lia|done]].
    intros x Hx. destruct (decide (x = Z.of_nat n)) as [->|]; [done|apply IH; lia]. }
  destruct (Hn (Z.to_nat (sb_size sb))) as [Hall|(a & Ha & Hf)].
  - exfalso. unfold nfree in H. destruct (filter _ _) as [|x l] eqn:E; [cbn in H; lia|].
    assert (x ∈ filter (free_in V sb) (seqZ 0 (sb_size sb))) as Hx by (rewrite E; set_solver).
    apply list_elem_of_filter in Hx as [Hx Hr%elem_of_seqZ]. unfold free_in in Hx. rewrite Hall in Hx by lia. done.
  - exists a. split; [lia|done].
Qed.

(** * One allocation for a file *)

(** Free blocks that are left once the file has an indirect block. *)
Definition spare (V : Z -> list Z) (sb : superblock) (i : inode) : Z :=
  Z.of_nat (nfree V sb) - (if ind i =? 0 then 1 else 0).

(** The file has got blocks, [c] of them besides the indirect block; its bytes
    are the same. *)
Record grown (sb : superblock) (c : Z) (V : Z -> list Z) (i : inode) (V' : Z -> list Z) (i' : inode) : Prop := mk_grown {
  gr_ext : extends sb V i V' i';
  gr_bytes : same_bytes V i V' i';
  gr_inode : i' = set_i_addrs (i_addrs i') i;
  gr_keep : forall bn, 0 <= bn < MAXFILE -> baddr V i bn <> 0 -> baddr V' i' bn = baddr V i bn;
  gr_spare : spare V sb i <= spare V' sb i' + c;
}.

Lemma grown_trans sb c1 c2 V1 i1 V2 i2 V3 i3 : 0 <= data_start sb ->
  grown sb c1 V1 i1 V2 i2 -> grown sb c2 V2 i2 V3 i3 -> grown sb (c1 + c2) V1 i1 V3 i3.
Proof.
  intros H0 [E1 B1 I1 K1 S1] [E2 B2 I2 K2 S2]. split.
  - by eapply extends_trans.
  - intros off Hoff. by rewrite B2, B1.
  - rewrite I2, I1. done.
  - intros bn Hbn Hz. by rewrite K2, K1 by (rewrite ?K1; done).
  - lia.
Qed.

Lemma grown_refl sb V i : 0 <= data_start sb -> file_ok V sb i -> meta_used V sb -> grown sb 0 V i V i.
Proof. intros. split; [by apply extends_refl|done|by destruct i|done|lia]. Qed.

Section one.
Context (start : Z) (sb : superblock) (G : geometry start sb).
Context (V : Z -> list Z) (i : inode) (F : file_ok V sb i) (M : meta_used V sb).
Context (HV : forall x, length (V x) = Z.to_nat BSIZE).
Context (a : Z) (Ha : first_free V sb a).

Let V1 := allocated V sb a.

Lemma alloc_range : data_start sb <= a < sb_size sb /\ 0 < data_start sb.
Proof. split; [by eapply first_free_data|by eapply geometry_pos]. Qed.

Lemma alloc_used x : 0 <= x < sb_size sb -> block_used V1 sb x = (x =? a) || block_used V sb x.
Proof. intros Hx. eapply used_allocated; [done|apply alloc_range|done|done]. Qed.

Lemma alloc_in_use : in_use V1 sb a.
Proof.
  destruct alloc_range. split; [done|]. rewrite alloc_used, Z.eqb_refl by lia. done.
Qed.

Lemma alloc_zero : V1 a = zeros.
Proof. unfold V1, allocated. apply fn_upd_eq. Qed.

Lemma alloc_other x : x <> a -> x < sb_bmapstart sb \/ data_start sb <= x -> V1 x = V x.
Proof.
  destruct alloc_range. intros Hx Hr. unfold V1, allocated. rewrite fn_upd_ne by done. apply fn_upd_ne.
  destruct (bblock_range _ _ a G ltac:(lia)) as (_ & Hb & _). lia.
Qed.

Lemma alloc_keep x : in_use V sb x -> V1 x = V x.
Proof. intros [Hr Hu]. apply alloc_other; [|lia]. intros ->. destruct Ha as (_ & Hf & _). congruence. Qed.

Lemma alloc_low x : x < sb_bmapstart sb -> V1 x = V x.
Proof.
  destruct alloc_range as [Hr Hp]. destruct (bblock_range _ _ a G ltac:(lia)) as (_ & Hb & _).
  intros Hx. apply alloc_other; lia.
Qed.

Lemma alloc_nfree : nfree V sb = S (nfree V1 sb).
Proof. destruct alloc_range. apply (nfree_alloc V V1 sb a); [lia|apply Ha|apply alloc_used]. Qed.

Lemma alloc_baddr bn : baddr V1 i bn = baddr V i bn.
Proof.
  unfold baddr. case_if; [done|]. case_if; [done|]. rewrite alloc_keep; [done|]. by apply F.
Qed.

(** A direct block. *)
Lemma grown_direct bn i' :
  0 <= bn < NDIRECT -> baddr V i bn = 0 -> i' = set_i_addrs (i_addrs i).[bn <- a] i ->
  grown sb 1 V i V1 i' /\ baddr V1 i' bn = a /\ ind i' = ind i /\
  forall bn', 0 <= bn' -> bn' <> bn -> baddr V1 i' bn' = baddr V i bn'.
Proof.
  intros Hbn H0 Ei. pose proof (fo_len _ _ _ F) as Hl. unfold NDIRECT in *.
  assert (ind i' = ind i) as Hind.
  { subst. unfold ind, NDIRECT. cbn [i_addrs set_i_addrs]. rewrite !nth_lookup, list_lookup_insert_ne by lia. done. }
  assert (forall bn', 0 <= bn' -> baddr V1 i' bn' = if bn' =? bn then a else baddr V i bn') as Hb.
  { intros bn' Hbn'. rewrite <- (alloc_baddr bn'). unfold baddr. rewrite Hind. unfold NDIRECT. subst i'. cbn [i_addrs set_i_addrs].
    rewrite nth_lookup, list_lookup_insert. destruct (bn' =? bn) eqn:E; b2p.
    - subst. rewrite decide_True by lia. by replace (bn <? 12) with true by lia.
    - rewrite decide_False by lia. by rewrite <- nth_lookup. }
  destruct (extends_block start sb G V i F M V1 i' a) with (bn := bn) as [E S]; try done.
  { apply alloc_in_use. } { apply Ha. } { subst. cbn. by rewrite length_insert. } { apply alloc_used. }
  { intros. by apply alloc_keep. } { apply alloc_zero. } { apply alloc_low. }
  { unfold MAXFILE, NINDIRECT, NDIRECT, BSIZE. zdm. } { intros. apply Hb. lia. }
  split_and!; [split; try done| |done|].
  - by subst.
  - intros bn' Hr Hz. rewrite Hb by lia. case_if; congruence.
  - unfold spare. rewrite Hind, alloc_nfree. lia.
  - by rewrite Hb, Z.eqb_refl by lia.
  - intros bn' Hr Hne. rewrite Hb by lia. by case_if.
Qed.

Lemma ldl32_zeros off : ldl32 zeros off = 0.
Proof.
  unfold ldl32, ldl, zeros. rewrite drop_replicate, take_replicate.
  generalize (Z.to_nat 4 `min` (Z.to_nat BSIZE - Z.to_nat off))%nat. induction n as [|n IH]; cbn; lia.
Qed.

(** The indirect block. *)
Lemma grown_ind i' :
  ind i = 0 -> i' = set_i_addrs (i_addrs i).[NDIRECT <- a] i -> grown sb 0 V i V1 i' /\ ind i' = a /\
  forall bn, 0 <= bn -> baddr V1 i' bn = baddr V i bn.
Proof.
  intros H0 Ei. pose proof (fo_len _ _ _ F) as Hl. destruct alloc_range as [Hr Hp].
  assert (ind i' = a) as Hind.
  { subst. unfold ind, NDIRECT. cbn [i_addrs set_i_addrs]. rewrite nth_lookup, list_lookup_insert_eq by lia. done. }
  assert (forall bn, 0 <= bn -> baddr V1 i' bn = baddr V i bn) as Hb.
  { intros bn Hbn. unfold baddr. rewrite Hind, H0, alloc_zero, ldl32_zeros. unfold NDIRECT in *. case_if.
    - subst i'. cbn [i_addrs set_i_addrs]. rewrite !nth_lookup, list_lookup_insert_ne by lia. done.
    - by case_if. }
  destruct (extends_ind start sb G V i F M V1 i' a) as [E S]; try done.
  { apply alloc_in_use. } { apply Ha. } { subst. cbn. by rewrite length_insert. } { apply alloc_used. }
  { intros. by apply alloc_keep. } { apply alloc_low. } { intros. apply Hb. lia. }
  split_and!; [split; try done|done|done].
  - by subst.
  - intros bn' Hr' _. apply Hb. lia.
  - unfold spare. rewrite Hind, H0, alloc_nfree, (proj2 (Z.eqb_neq a 0)) by lia. cbn. lia.
Qed.

(** A block that the indirect block names. *)
Lemma grown_entry bn V2 :
  NDIRECT <= bn < MAXFILE -> ind i <> 0 -> baddr V i bn = 0 ->
  V2 = fn_upd V1 (ind i) (stl32 (V1 (ind i)) (4 * (bn - NDIRECT)) a) ->
  grown sb 1 V i V2 i /\ baddr V2 i bn = a /\
  forall bn', 0 <= bn' < MAXFILE -> bn' <> bn -> baddr V2 i bn' = baddr V i bn'.
Proof.
  intros Hbn Hi H0 EV. destruct alloc_range as [Hr Hp]. pose proof (fo_ind _ _ _ F Hi) as Hiu.
  pose proof (alloc_keep _ Hiu) as Hk. destruct Hiu as [Hir Hiu].
  assert (ind i <> a) as Hia by (intros E; rewrite E in Hiu; destruct Ha as (_ & Hf & _); congruence).
  destruct (geo_size _ _ G) as [_ Hsz].
  assert (forall x, x < data_start sb -> V2 x = V1 x) as Hbm by (intros; subst V2; apply fn_upd_ne; lia).
  assert (forall x, 0 <= x < sb_size sb -> block_used V2 sb x = (x =? a) || block_used V sb x) as Hu.
  { intros x Hx. rewrite <- alloc_used by done. unfold block_used. rewrite Hbm; [done|]. eapply bblock_range; done. }
  assert (forall bn', 0 <= bn' < MAXFILE -> baddr V2 i bn' = if bn' =? bn then a else baddr V i bn') as Hb.
  { intros bn' Hbn'. unfold baddr. rewrite (proj2 (Z.eqb_neq _ _) Hi). subst V2. rewrite fn_upd_eq, Hk.
    destruct (bn' =? bn) eqn:E; b2p.
    - subst. replace (bn <? NDIRECT) with false by lia. unfold MAXFILE, NINDIRECT, NDIRECT, BSIZE in *.
      rewrite ldl32_stl32_eq, u32_small; [done|lia|lia|]. rewrite HV. unfold BSIZE. zdm.
    - case_if; [done|]. apply ldl32_stl32_ne; lia. }
  destruct (extends_block start sb G V i F M V2 i a) with (bn := bn) as [E S]; try done.
  { split; [done|]. by rewrite Hu, Z.eqb_refl by lia. } { apply Ha. } { apply F. }
  { intros x Hx Hne. subst V2. rewrite fn_upd_ne by done. by apply alloc_keep. }
  { subst V2. rewrite fn_upd_ne by done. apply alloc_zero. }
  { intros x Hx. rewrite Hbm; [by apply alloc_low|]. destruct (bblock_range _ _ a G ltac:(lia)) as (_ & ? & _). lia. }
  { unfold NDIRECT in *. lia. }
  split_and!; [split; try done|..].
  - intros bn' Hr' Hz. rewrite Hb by lia. case_if; congruence.
  - unfold spare. rewrite (nfree_alloc V V2 sb a); [lia|lia|apply Ha|done].
  - unfold NDIRECT in *. rewrite Hb, Z.eqb_refl by lia. done.
  - intros bn' Hr' Hne. rewrite Hb by lia. by case_if.
Qed.

End one.

(** * The inode in memory *)

Definition set_inode (ip : nat) (i : inode) (k : K) : K := set_k_inodes (<[ip := i]> (k_inodes k)) k.

Lemma upd_inode_run ip f i k : k_inodes k !!! ip = i ->
  upd_inode ip f k = Ok tt (set_inode ip (f i) k).
Proof.
  intros <-. unfold upd_inode, modify, set_inode. f_equal. f_equal. apply list_eq. intros j.
  rewrite list_lookup_alter, list_lookup_insert. repeat case_decide; subst; try tauto.
  - destruct (k_inodes k !! j) eqn:E; cbn; [by rewrite (list_lookup_total_correct _ _ _ E)|].
    apply lookup_ge_None in E. lia.
  - by rewrite lookup_ge_None_2 by lia.
Qed.

Lemma inode_set_inode ip i k : (ip < length (k_inodes k))%nat -> k_inodes (set_inode ip i k) !!! ip = i.
Proof. intros. by apply list_lookup_total_insert_eq. Qed.

Lemma fs_frame_set_inode ip i k k' : fs_frame k k' -> fs_frame (set_inode ip i k) (set_inode ip i k').
Proof. intros (bs & ps & l & -> & H). by exists bs, ps, l. Qed.

Lemma set_inode_same ip i k : k_inodes k !!! ip = i -> set_inode ip i k = k.
Proof.
  intros <-. unfold set_inode. destruct (decide (ip < length (k_inodes k))%nat).
  - by rewrite list_insert_id by (by apply list_lookup_lookup_total_lt).
  - by rewrite list_insert_ge by lia.
Qed.

Lemma fs_frame_set_trans ip i1 i2 k k1 k2 :
  fs_frame (set_inode ip i1 k) k1 -> fs_frame (set_inode ip i2 k1) k2 -> fs_frame (set_inode ip i2 k) k2.
Proof.
  intros F1 F2. etransitivity; [|exact F2]. apply (fs_frame_set_inode ip i2) in F1.
  unfold set_inode in F1. cbn in F1. by rewrite list_insert_insert_eq in F1.
Qed.

(** * bmap() *)

(** What the log may have to take for the indirect block. *)
Definition ind_cost (B : list Z) (i : inode) : Z := if decide (ind i <> 0 /\ ind i ∈ B) then 0 else 2.
Definition log_cost (B : list Z) (i : inode) : Z := Z.of_nat (length B) + ind_cost B i.

Lemma log_cost_add B x i : log_cost (log_add B x) i <= log_cost B i + (if decide (x ∈ B) then 0 else 1).
Proof.
  unfold log_cost, ind_cost, log_add. destruct (decide (x ∈ B)); [lia|]. rewrite length_app. cbn.
  repeat case_decide; try lia. set_solver.
Qed.

Lemma log_add_in B x : x ∈ log_add B x.
Proof. unfold log_add. case_decide; set_solver. Qed.

Lemma log_add_mono B x y : y ∈ B -> y ∈ log_add B x.
Proof. unfold log_add. case_decide; set_solver. Qed.

Section bmap.
Context {P : Platform} (dev start : Z) (p : nat) {C : BlockCache dev p}.
Context (sb : superblock) (G : geometry start sb) (ip : nat).

Abbreviation tx := (tx dev start p).

(** A file [i] in the table at [ip], in a transaction with blocks [V]. *)
Record at_file (k : K) (B : list Z) (V : Z -> list Z) (i : inode) : Prop := mk_at_file {
  af_tx : tx k [] B V;
  af_sb : k_sb k = sb;
  af_inode : k_inodes k !!! ip = i;
  af_ip : (ip < length (k_inodes k))%nat;
  af_dev : i_dev i = dev;
  af_ok : file_ok V sb i;
  af_meta : meta_used V sb;
}.

Lemma at_file_next k B V i k' B' V' i' :
  at_file k B V i -> tx k' [] B' V' -> fs_frame (set_inode ip i' k) k' -> i_dev i' = i_dev i ->
  file_ok V' sb i' -> meta_used V' sb -> at_file k' B' V' i'.
Proof.
  intros A T F Hd Hok Hm. pose proof (fs_frame_inodes _ _ F) as Ei. split; try done.
  - rewrite (fs_frame_sb _ _ F). apply A.
  - rewrite Ei. apply inode_set_inode, A.
  - rewrite Ei. cbn. rewrite length_insert. apply A.
  - rewrite Hd. apply A.
Qed.

Lemma at_file_grown k B V i k' B' V' i' c :
  at_file k B V i -> tx k' [] B' V' -> fs_frame (set_inode ip i' k) k' -> grown sb c V i V' i' ->
  at_file k' B' V' i'.
Proof.
  intros A T F [E _ Ei _ _]. eapply at_file_next; try done; [by rewrite Ei|apply E|apply E].
Qed.

(** Loading the indirect block, allocating it if necessary. *)
Definition bmap_ind (i : inode) : M Z :=
  if (i_addrs i).[NDIRECT] =? 0 then
    let* addr := balloc (i_dev i) in
    when (negb (addr =? 0))
      (upd_inode ip (fun i => set_i_addrs ((i_addrs i).[NDIRECT <- addr]) i)) ;;;
    ret addr
  else ret (i_addrs i).[NDIRECT].

Lemma bmap_ind_run k B V i :
  at_file k B V i -> log_cost B i + 3 < log_size (k_log k) -> 0 <= spare V sb i ->
  exists V' B' i' k', bmap_ind i k = Ok (ind i') k' /\ ind i' <> 0 /\ at_file k' B' V' i' /\
    fs_frame (set_inode ip i' k) k' /\ grown sb 0 V i V' i' /\ log_cost B' i' <= log_cost B i.
Proof.
  intros A Hroom Hsp. pose proof (geometry_pos _ _ G) as Hpos. destruct A as [T Hsb Hi Hip Hd Hok Hm] eqn:EA. clear EA.
  unfold bmap_ind. fold (ind i). destruct (ind i =? 0) eqn:E0; b2p.
  - destruct (first_free_exists V sb) as [a Ha].
    { unfold spare in Hsp. rewrite E0 in Hsp. cbn in Hsp. lia. }
    assert (data_start sb <= a) as Had by (by apply (first_free_data V)).
    destruct (balloc_run dev start p sb G k [] B V a T Hsb) as (k1 & E1 & T1 & F1); try done.
    { cbn. lia. } { unfold log_room, log_cost, ind_cost in *. case_decide; lia. } { cbn. set_solver. }
    destruct (grown_ind start sb G V i Hok Hm ltac:(intros; by eapply tx_len) a Ha _ E0 eq_refl) as (Gr & Hind & _).
    set (i' := set_i_addrs (i_addrs i).[NDIRECT <- a] i) in *.
    exists (allocated V sb a), (log_add (log_add B (BBLOCK a sb)) a), i', (set_inode ip i' k1).
    assert (fs_frame (set_inode ip i' k) (set_inode ip i' k1)) as F2 by (by apply fs_frame_set_inode).
    rewrite Hind. split_and!; try done.
    + rewrite Hd. eapply bind_eq; [exact E1|]. rewrite (proj2 (Z.eqb_neq a 0)) by lia. cbn [negb when].
      eapply bind_eq; [apply upd_inode_run; by rewrite (fs_frame_inodes _ _ F1)|done].
    + lia.
    + eapply at_file_grown; [exact A|by apply tx_inodes|done|done].
    + pose proof (length_log_add B (BBLOCK a sb)). pose proof (length_log_add (log_add B (BBLOCK a sb)) a).
      unfold log_cost, ind_cost. rewrite Hind, E0, decide_True by (split; [lia|apply log_add_in]).
      rewrite decide_False by naive_solver. lia.
  - exists V, B, i, k. rewrite set_inode_same by done. split_and!; try done. by apply grown_refl; [lia|..].
Qed.

(** The entry of the indirect block at [addr] for block [bn] of the file. *)
Definition bmap_entry (d addr bn : Z) : M Z :=
  let* bp := bread d addr in
  let* bf := get_buf bp in
  let addr := ldl32 (b_data bf) (4 * bn) in
  let* addr :=
    (if addr =? 0 then
       let* addr := balloc d in
       when (negb (addr =? 0))
         (upd_data bp (fun d => stl32 d (4 * bn) addr) ;;;
          log_write bp) ;;;
       ret addr
     else ret addr) in
  brelse bp ;;;
  ret addr.

(** What the file and the log are like after bmap() has returned [a]. *)
Record mapped (k : K) (B : list Z) (V : Z -> list Z) (i : inode) (bn a : Z)
    (k' : K) (B' : list Z) (V' : Z -> list Z) (i' : inode) : Prop := mk_mapped {
  mp_file : at_file k' B' V' i';
  mp_frame : fs_frame (set_inode ip i' k) k';
  mp_grown : grown sb 1 V i V' i';
  mp_addr : baddr V' i' bn = a;
  mp_nz : a <> 0;
  mp_cost : log_cost (log_add B' a) i' <= log_cost B i + 2;
}.

Lemma grown_le c c' V i V' i' : grown sb c V i V' i' -> c <= c' -> grown sb c' V i V' i'.
Proof. intros [] ?. split; try done. lia. Qed.

Lemma mapped_same k B V i bn k' : at_file k B V i -> at_file k' B V i -> fs_frame k k' -> baddr V i bn <> 0 ->
  mapped k B V i bn (baddr V i bn) k' B V i.
Proof.
  intros A A' Fr Hb. pose proof (geometry_pos _ _ G). split; try done.
  - by rewrite set_inode_same by apply A.
  - apply (grown_le 0); [|lia]. apply grown_refl; [lia|apply A..].
  - pose proof (log_cost_add B (baddr V i bn) i). case_decide; lia.
Qed.

Lemma bmap_entry_found k B V i bn :
  at_file k B V i -> NDIRECT <= bn < MAXFILE -> baddr V i bn <> 0 -> ind i <> 0 ->
  exists k', bmap_entry dev (ind i) (bn - NDIRECT) k = Ok (baddr V i bn) k' /\ mapped k B V i bn (baddr V i bn) k' B V i.
Proof.
  intros A Hbn Hz Hind. pose proof (af_tx _ _ _ _ A) as T.
  destruct (tx_bread dev start p k [] B V (ind i) T) as (b & k1 & E1 & T1 & F1 & Hcl).
  { set_solver. } { rewrite Nat.add_0_r. apply (tx_log _ _ _ _ _ _ _ T). }
  destruct (tx_brelse dev start p _ _ _ _ _ _ T1 Hcl) as (k2 & E2 & T2 & F2).
  assert (fs_frame k k2) as F12 by (by etransitivity).
  exists k2. split.
  - unfold bmap_entry. eapply bind_eq; [exact E1|]. kstep. rewrite (tx_data _ _ _ _ _ _ _ _ _ T1).
    assert (baddr V i bn = ldl32 (V (ind i)) (4 * (bn - NDIRECT))) as Eb.
    { unfold baddr. replace (bn <? NDIRECT) with false by lia. by rewrite (proj2 (Z.eqb_neq _ _) Hind). }
    rewrite <- Eb. cbv zeta. rewrite (proj2 (Z.eqb_neq _ _) Hz). kstep. eapply bind_eq; [exact E2|done].
  - apply mapped_same; try done. eapply at_file_next; [exact A|done| |done|apply A..].
    by rewrite set_inode_same by apply A.
Qed.

Lemma bmap_entry_new k B V i bn :
  at_file k B V i -> NDIRECT <= bn < MAXFILE -> baddr V i bn = 0 -> ind i <> 0 ->
  log_cost B i + 3 < log_size (k_log k) -> 1 <= spare V sb i ->
  exists a V' B' k', bmap_entry dev (ind i) (bn - NDIRECT) k = Ok a k' /\ mapped k B V i bn a k' B' V' i.
Proof.
  intros A Hbn Hz Hind Hroom Hsp. pose proof (geometry_pos _ _ G) as Hpos. destruct A as [T Hsb Hi Hip Hd Hok Hm] eqn:EA. clear EA.
  assert (Z.of_nat (length B) + 3 < log_size (k_log k)) as Hlen by (unfold log_cost, ind_cost in *; case_decide; lia).
  destruct (tx_bread dev start p k [] B V (ind i) T) as (b & k1 & E1 & T1 & F1 & _).
  { set_solver. } { rewrite Nat.add_0_r. apply (tx_log _ _ _ _ _ _ _ T). }
  destruct (first_free_exists V sb) as [a Ha]; [unfold spare in Hsp; case_match; lia|].
  assert (data_start sb <= a) as Had by (by apply (first_free_data V)).
  destruct (fo_ind _ _ _ Hok Hind) as [Hir Hiu].
  destruct (balloc_run dev start p sb G k1 [(b, ind i)] B V a T1) as (k2 & E2 & T2 & F2); try done.
  { by rewrite (fs_frame_sb _ _ F1). } { unfold log_room. rewrite (fs_frame_logsize _ _ F1). lia. }
  { cbn. intros x Hx%list_elem_of_singleton. subst. split; [lia|]. intros E. rewrite E in Hiu. destruct Ha as (_ & Hf & _). congruence. }
  set (B2 := log_add (log_add B (BBLOCK a sb)) a) in *.
  assert (length B2 <= length B + 2)%nat as HB2.
  { pose proof (length_log_add B (BBLOCK a sb)). pose proof (length_log_add (log_add B (BBLOCK a sb)) a). unfold B2. lia. }
  destruct (tx_update dev start p k2 b (ind i) [] B2 _ (fun d => stl32 d (4 * (bn - NDIRECT)) a) T2) as (k3 & E3 & T3 & F3).
  { unfold stl32. rewrite length_stl. by eapply tx_len. } { destruct (geo_size _ _ G). lia. }
  { eapply geometry_home; [done|]. destruct (bblock_range _ _ a G) as (_ & ? & ?); [destruct Ha; lia|lia]. }
  { unfold log_room. rewrite (fs_frame_logsize _ _ F2), (fs_frame_logsize _ _ F1). lia. }
  destruct (grown_entry start sb G V i Hok Hm ltac:(intros; by eapply tx_len) a Ha bn _ Hbn Hind Hz eq_refl) as (Gr & Hb & _).
  assert (fs_frame k k3) as F13 by (by do 2 (etransitivity; [eassumption|])).
  do 3 eexists. exists k3. split; [|split].
  - unfold bmap_entry. eapply bind_eq; [exact E1|]. kstep. rewrite (tx_data _ _ _ _ _ _ _ _ _ T1). cbv zeta.
    assert (ldl32 (V (ind i)) (4 * (bn - NDIRECT)) = 0) as ->.
    { unfold baddr in Hz. replace (bn <? NDIRECT) with false in Hz by lia. by rewrite (proj2 (Z.eqb_neq _ _) Hind) in Hz. }
    rewrite Z.eqb_refl, bind_assoc. eapply bind_eq; [exact E2|]. rewrite (proj2 (Z.eqb_neq a 0)) by lia. cbn [negb when].
    apply bind_ok_inv in E3 as ([] & ka & Ea & E3). apply bind_ok_inv in E3 as ([] & kb & Eb & E3).
    rewrite !bind_assoc. eapply bind_eq; [exact Ea|]. eapply bind_eq; [exact Eb|]. kstep.
    eapply bind_eq; [exact E3|done].
  - eapply at_file_grown; [exact A|done|by rewrite set_inode_same|exact Gr].
  - by rewrite set_inode_same.
  - exact Gr.
  - exact Hb.
  - lia.
  - assert (a ∈ log_add B2 (ind i)) as Hin by apply log_add_mono, log_add_in.
    pose proof (log_cost_add (log_add B2 (ind i)) a i). rewrite decide_True in H by done.
    unfold log_cost, ind_cost in *. rewrite (decide_True _ _ (conj Hind (log_add_in B2 (ind i)))) in H.
    pose proof (length_log_add B2 (ind i)). destruct (decide (ind i <> 0 /\ ind i ∈ B)) as [[_ D]|]; [|lia].
    assert (length (log_add B2 (ind i)) = length B2); [|lia].
    unfold log_add at 1. rewrite decide_True; [done|]. by apply log_add_mono, log_add_mono.
Qed.

Lemma mapped_trans k B V i bn a k1 B1 V1 i1 k2 B2 V2 i2 :
  fs_frame (set_inode ip i1 k) k1 -> grown sb 0 V i V1 i1 -> log_cost B1 i1 <= log_cost B i ->
  mapped k1 B1 V1 i1 bn a k2 B2 V2 i2 -> mapped k B V i bn a k2 B2 V2 i2.
Proof.
  intros F1 G1 L1 [A F2 G2 Ha Hn L2]. pose proof (geometry_pos _ _ G). split; try done.
  - by eapply fs_frame_set_trans.
  - apply (grown_trans sb 0 1 V i V1 i1); [lia|done|done].
  - lia.
Qed.

Lemma bmap_direct_new k B V i bn :
  at_file k B V i -> 0 <= bn < NDIRECT -> baddr V i bn = 0 ->
  log_cost B i + 3 < log_size (k_log k) -> 1 <= spare V sb i ->
  exists a V' B' i' k', bmap ip bn k = Ok a k' /\ mapped k B V i bn a k' B' V' i'.
Proof.
  intros A Hbn Hz Hroom Hsp. pose proof (geometry_pos _ _ G) as Hpos. destruct A as [T Hsb Hi Hip Hd Hok Hm] eqn:EA. clear EA.
  destruct (first_free_exists V sb) as [a Ha]; [unfold spare in Hsp; case_match; lia|].
  assert (data_start sb <= a) as Had by (by apply (first_free_data V)).
  destruct (balloc_run dev start p sb G k [] B V a T Hsb) as (k1 & E1 & T1 & F1); try done.
  { cbn. lia. } { unfold log_room, log_cost, ind_cost in *. case_decide; lia. } { cbn. set_solver. }
  destruct (grown_direct start sb G V i Hok Hm ltac:(intros; by eapply tx_len) a Ha bn _ Hbn Hz eq_refl) as (Gr & Hb & _).
  set (i' := set_i_addrs (i_addrs i).[bn <- a] i) in *.
  assert (fs_frame (set_inode ip i' k) (set_inode ip i' k1)) as F2 by (by apply fs_frame_set_inode).
  exists a, (allocated V sb a), (log_add (log_add B (BBLOCK a sb)) a), i', (set_inode ip i' k1). split; [|split; try done].
  - unfold bmap. kstep. rewrite Hi. replace (bn <? NDIRECT) with true by lia.
    unfold baddr in Hz. replace (bn <? NDIRECT) with true in Hz by lia. rewrite Hz, Hd. cbn [Z.eqb].
    eapply bind_eq; [exact E1|]. rewrite (proj2 (Z.eqb_neq a 0)) by lia.
    eapply bind_eq; [apply upd_inode_run; by rewrite (fs_frame_inodes _ _ F1)|done].
  - eapply at_file_grown; [exact A|by apply tx_inodes|done|done].
  - lia.
  - assert (ind i' = ind i) as Hind.
    { pose proof (fo_len _ _ _ Hok). unfold ind, i', NDIRECT in *. cbn [i_addrs set_i_addrs].
      rewrite !nth_lookup, list_lookup_insert_ne by lia. done. }
    assert (forall B, log_cost B i' = log_cost B i) as -> by (intros; unfold log_cost, ind_cost; by rewrite Hind).
    pose proof (log_cost_add B (BBLOCK a sb) i). pose proof (log_cost_add (log_add B (BBLOCK a sb)) a i).
    pose proof (log_cost_add (log_add (log_add B (BBLOCK a sb)) a) a i) as H3.
    rewrite decide_True in H3 by apply log_add_in. repeat case_decide; lia.
Qed.

(** bmap() gives block [bn] of the file a place on disk. *)
Lemma bmap_run k B V i bn :
  at_file k B V i -> 0 <= bn < MAXFILE -> log_cost B i + 3 < log_size (k_log k) -> 1 <= spare V sb i ->
  exists a V' B' i' k', bmap ip bn k = Ok a k' /\ mapped k B V i bn a k' B' V' i'.
Proof.
  intros A Hbn Hroom Hsp. destruct (decide (bn < NDIRECT)) as [Hd|Hd].
  - destruct (decide (baddr V i bn = 0)) as [Hz|Hz]; [apply bmap_direct_new; done || lia|].
    destruct (bmap_get dev start p k B V ip i bn (af_tx _ _ _ _ A) (af_inode _ _ _ _ A) (af_dev _ _ _ _ A) Hbn Hz)
      as (k' & E & T & Fr).
    exists (baddr V i bn), V, B, i, k'. split; [done|]. apply mapped_same; try done.
    eapply at_file_next; [exact A|done| |done|apply A..]. by rewrite set_inode_same by apply A.
  - destruct (bmap_ind_run k B V i A Hroom ltac:(lia)) as (V1 & B1 & i1 & k1 & E1 & Hz1 & A1 & F1 & G1 & L1).
    assert (exists a V' B' i' k', bmap_entry dev (ind i1) (bn - NDIRECT) k1 = Ok a k' /\ mapped k1 B1 V1 i1 bn a k' B' V' i')
      as (a & V' & B' & i' & k' & E & M).
    { destruct (decide (baddr V1 i1 bn = 0)) as [Hz|Hz].
      - destruct (bmap_entry_new k1 B1 V1 i1 bn A1) as (a & V' & B' & k' & E & M); try done; [lia| |..].
        + rewrite (fs_frame_logsize _ _ F1). cbn. lia.
        + pose proof (gr_spare _ _ _ _ _ _ G1). lia.
        + by exists a, V', B', i1, k'.
      - destruct (bmap_entry_found k1 B1 V1 i1 bn A1) as (k' & E & M); try done; [lia|].
        by exists (baddr V1 i1 bn), V1, B1, i1, k'. }
    exists a, V', B', i', k'. split; [|by eapply mapped_trans].
    unfold bmap. kstep. rewrite (af_inode _ _ _ _ A). replace (bn <? NDIRECT) with false by lia. cbv zeta.
    replace (bn - NDIRECT <? NINDIRECT) with true by (unfold MAXFILE in *; lia).
    eapply bind_eq; [exact E1|]. rewrite (proj2 (Z.eqb_neq _ _) Hz1), (af_dev _ _ _ _ A). exact E.
Qed.

End bmap.

(** * Storing into a block of the file *)

Section store.
Context (start : Z) (sb : superblock) (G : geometry start sb).
Context (V : Z -> list Z) (i : inode) (F : file_ok V sb i) (M : meta_used V sb).
Context (bn : Z) (d : list Z) (Hbn : 0 <= bn < MAXFILE) (Ha : baddr V i bn <> 0).

Let V' := fn_upd V (baddr V i bn) d.

Lemma store_baddr bn' : baddr V' i bn' = baddr V i bn'.
Proof.
  unfold baddr at 1 2. destruct (bn' <? NDIRECT); [done|]. destruct (ind i =? 0); [done|].
  unfold V'. rewrite fn_upd_ne; [done|]. intros E. by destruct (fo_sep _ _ _ F bn Hbn Ha).
Qed.

Lemma store_used x : 0 <= x < sb_size sb -> block_used V' sb x = block_used V sb x.
Proof.
  intros Hx. unfold block_used, V'. rewrite fn_upd_ne; [done|].
  destruct (fo_data _ _ _ F bn Hbn Ha) as [H _]. destruct (bblock_range _ _ _ G Hx) as (_ & ? & _). lia.
Qed.

Lemma store_extends : extends sb V i V' i.
Proof.
  pose proof (geometry_pos _ _ G). destruct (geo_size _ _ G) as [Hsz _].
  assert (forall x, in_use V' sb x <-> in_use V sb x) as Hu.
  { intros x. unfold in_use. split; intros [Hr Hx]; (split; [done|]); by rewrite store_used in * by lia. }
  assert (forall x, owns V' i x <-> owns V i x) as Ho.
  { intros x. unfold owns. by setoid_rewrite store_baddr. }
  split.
  - split; [apply F|..].
    + intros bn' Hr. rewrite store_baddr, Hu. by apply F.
    + rewrite Hu. by apply F.
    + intros b1 b2. rewrite !store_baddr. by apply F.
    + intros bn'. rewrite store_baddr. by apply F.
  - intros x Hx. rewrite store_used by lia. by apply M.
  - intros x Hx. rewrite store_used, Ho by done. split; [by left|]. intros [|Hw]; [done|].
    by apply (owns_in_use V sb i).
  - intros x. by rewrite Ho.
  - intros x Hx Hn. rewrite Ho. split; [|done]. apply fn_upd_ne. intros ->. apply Hn. split; [done|]. right. by exists bn.
  - intros x Hx. apply fn_upd_ne. destruct (fo_data _ _ _ F bn Hbn Ha) as [Hr _].
    unfold data_start, BPB, BSIZE in *. zdm.
Qed.

Lemma store_spare : spare V' sb i = spare V sb i.
Proof.
  unfold spare. do 2 f_equal. apply nfree_ext, store_used.
Qed.

End store.

