(* ===== verification/Writei.v ===== *)
(** writei() of kernel/fs.c: the file is patched with the bytes written, and its
    inode is on disk. *)
From S2P Require Import Prelude CInt KState KString Riscv Kalloc Vm VmSpec Proc Uart Printf Bio Bcache Log LogSpec Fs FsSpec FsFile FsWrite.

(** * Copying in, from the kernel or from a process *)

Definition fetch (user : bool) (pt : Z) (m : mem) (a : Z) (n : nat) : Z * list Z :=
  if user then user_read m pt a n else (0, ldbytes m a n).

Definition fetch_ok (user : bool) (a : Z) (n : nat) : Prop :=
  0 <= a < 2 ^ 64 /\ (user = false -> a + Z.of_nat n < 2 ^ 64).

Lemma user_read_split m pt n1 n2 : forall a bs, 0 <= a < 2 ^ 64 ->
  user_read m pt a (n1 + n2) = (0, bs) ->
  user_read m pt a n1 = (0, take n1 bs) /\ user_read m pt (u64 (a + Z.of_nat n1)) n2 = (0, drop n1 bs).
Proof.
  induction n1 as [|n1 IH]; intros a bs Ha H; cbn [Nat.add user_read] in *.
  - by rewrite Z.add_0_r, u64_small, take_0, drop_0.
  - destruct (user_ld m pt a) as [b|]; [|done]. destruct (user_read m pt (u64 (a + 1)) (n1 + n2)) as [r bs'] eqn:E.
    injection H as -> <-. destruct (IH _ _ (u64_range _) E) as [-> H2]. split; [done|]. cbn. rewrite <- H2. f_equal.
    unfold u64. zdm.
Qed.

Lemma fetch_split user pt m a n1 n2 bs : fetch_ok user a (n1 + n2) ->
  fetch user pt m a (n1 + n2) = (0, bs) ->
  fetch user pt m a n1 = (0, take n1 bs) /\ fetch user pt m (u64 (a + Z.of_nat n1)) n2 = (0, drop n1 bs).
Proof.
  intros [Ha Hw] H. unfold fetch in *. destruct user; [by apply user_read_split|]. specialize (Hw eq_refl).
  injection H as <-. rewrite ldbytes_app, u64_small by lia.
  rewrite take_app_length', drop_app_length' by (by rewrite length_ldbytes). done.
Qed.

Lemma fetch_length user pt m n : forall a bs, fetch user pt m a n = (0, bs) -> length bs = n.
Proof.
  unfold fetch. destruct user; [|intros a bs H; injection H as <-; apply length_ldbytes].
  induction n as [|n IH]; intros a bs H; cbn in H; [by injection H as <-|].
  destruct (user_ld m pt a); [|done]. destruct (user_read m pt (u64 (a + 1)) n) as [r bs'] eqn:E.
  injection H as -> <-. cbn. f_equal. by apply (IH _ _ E).
Qed.

Lemma fetch_ok_split user a n1 n2 : fetch_ok user a (n1 + n2) ->
  fetch_ok user a n1 /\ fetch_ok user (u64 (a + Z.of_nat n1)) n2.
Proof.
  intros [Ha Hw]. split; (split; [done || apply u64_range|]); intros Hu; specialize (Hw Hu); [lia|].
  rewrite u64_small; lia.
Qed.

Lemma either_copyin_run `{Platform} p user a len k :
  k_proc k = Some p -> 0 <= a < 2 ^ 64 -> 0 <= len ->
  either_copyin user a len k = Ok (fetch user (p_pagetable (k_procs k !!! p)) (k_mem k) a (Z.to_nat len)) k.
Proof.
  intros Hp Ha Hlen. unfold either_copyin, fetch. destruct user; [|done].
  eapply bind_eq; [unfold mypr, myproc; kstep; by rewrite Hp|]. kstep. unfold copyin. apply copyin_loop_run; [done|done|lia].
Qed.

(** * Bytes overwritten *)

Definition patched (f : Z -> Z) (off : Z) (bs : list Z) (off' : Z) : Z :=
  if (off <=? off') && (off' <? off + Z.of_nat (length bs)) then bs.[off' - off] else f off'.

Lemma patched_in f off bs x : off <= x < off + Z.of_nat (length bs) -> patched f off bs x = bs.[x - off].
Proof. intros H. unfold patched. by replace (_ && _) with true by lia. Qed.

Lemma patched_out f off bs x : x < off \/ off + Z.of_nat (length bs) <= x -> patched f off bs x = f x.
Proof. intros H. unfold patched. by replace (_ && _) with false by lia. Qed.

Lemma patched_app f off bs1 bs2 x :
  patched (patched f off bs1) (off + Z.of_nat (length bs1)) bs2 x = patched f off (bs1 ++ bs2) x.
Proof.
  pose proof (length_app bs1 bs2) as L.
  destruct (decide (off <= x < off + Z.of_nat (length bs1))).
  - rewrite patched_out, !patched_in, app_nth1 by lia. done.
  - destruct (decide (off <= x < off + Z.of_nat (length (bs1 ++ bs2)))).
    + rewrite !patched_in, app_nth2 by lia. f_equal. lia.
    + by rewrite !patched_out by lia.
Qed.

(** Writing [bs] at [off] has turned the file [i] on [V] into [i'] on [V']. *)
Record wrote (sb : superblock) (off : Z) (bs : list Z) (V : Z -> list Z) (i : inode) (V' : Z -> list Z) (i' : inode) : Prop := mk_wrote {
  wr_ext : extends sb V i V' i';
  wr_inode : i' = set_i_addrs (i_addrs i') i;
  wr_bytes : forall x, 0 <= x < MAXFILE * BSIZE -> fbyte V' i' x = patched (fbyte V i) off bs x;
  wr_keep : forall bn, 0 <= bn < MAXFILE -> baddr V i bn <> 0 -> baddr V' i' bn = baddr V i bn;
  wr_new : forall x, off <= x < off + Z.of_nat (length bs) -> baddr V' i' (x / BSIZE) <> 0;
}.

Lemma wrote_trans sb off bs1 bs2 V1 i1 V2 i2 V3 i3 : 0 <= data_start sb ->
  0 <= off -> off + Z.of_nat (length (bs1 ++ bs2)) <= MAXFILE * BSIZE ->
  wrote sb off bs1 V1 i1 V2 i2 -> wrote sb (off + Z.of_nat (length bs1)) bs2 V2 i2 V3 i3 ->
  wrote sb off (bs1 ++ bs2) V1 i1 V3 i3.
Proof.
  intros H0 Ho Hm [E1 I1 B1 K1 N1] [E2 I2 B2 K2 N2]. rewrite length_app in Hm. split.
  - by eapply extends_trans.
  - rewrite I2, I1. done.
  - intros x Hx. rewrite B2, <- patched_app by done. unfold patched at 1 2. case_if; [done|by apply B1].
  - intros bn Hbn Hz. by rewrite K2, K1 by (rewrite ?K1; done).
  - intros x. rewrite length_app. intros Hx. destruct (decide (x < off + Z.of_nat (length bs1))); [|apply N2; lia].
    specialize (N1 x ltac:(lia)). rewrite K2; [done|apply off_block; lia|done].
Qed.

Lemma wrote_nil sb off V i : 0 <= data_start sb -> file_ok V sb i -> meta_used V sb -> wrote sb off [] V i V i.
Proof.
  intros. split; [by apply extends_refl|by destruct i| |done|cbn; lia].
  intros x Hx. rewrite patched_out by (cbn; lia). done.
Qed.

(** One store into a block of the file. *)
Lemma wrote_store start sb V i off bs :
  geometry start sb -> file_ok V sb i -> meta_used V sb -> (forall x, length (V x) = Z.to_nat BSIZE) ->
  0 <= off < MAXFILE * BSIZE -> Z.of_nat (length bs) <= BSIZE - off mod BSIZE ->
  let a := baddr V i (off / BSIZE) in a <> 0 ->
  wrote sb off bs V i (fn_upd V a (stl (V a) (off mod BSIZE) bs)) i.
Proof.
  intros G F M HV Hoff Hbs a Ha. pose proof (off_block _ Hoff) as Hbn.
  pose proof (store_baddr sb V i F _ (stl (V a) (off mod BSIZE) bs) Hbn Ha) as Hb. fold a in Hb.
  set (V' := fn_upd V a _) in *.
  split; [by apply (store_extends start)|by destruct i| |intros; apply Hb|].
  - intros x Hx. pose proof (off_block _ Hx) as Hbx. destruct (decide (x / BSIZE = off / BSIZE)) as [E|E].
    + assert (fbyte V' i x = (stl (V a) (off mod BSIZE) bs).[x mod BSIZE]) as ->.
      { unfold fbyte. rewrite Hb, E. fold a. rewrite (proj2 (Z.eqb_neq a 0)) by done. unfold V'. by rewrite fn_upd_eq. }
      unfold stl. rewrite nth_lookup. destruct (decide (off <= x < off + Z.of_nat (length bs))).
      * rewrite patched_in, list_lookup_inserts, nth_lookup by (rewrite ?HV; unfold BSIZE in *; zdm). do 2 f_equal.
        unfold BSIZE in *. zdm.
      * rewrite patched_out by lia. unfold fbyte. rewrite E. fold a. rewrite (proj2 (Z.eqb_neq a 0)), nth_lookup by done.
        f_equal. destruct (decide (x < off)).
        -- apply list_lookup_inserts_lt. unfold BSIZE in *. zdm.
        -- apply list_lookup_inserts_ge. unfold BSIZE in *. zdm.
    + rewrite patched_out by (unfold BSIZE in *; zdm). unfold fbyte. rewrite Hb.
      destruct (baddr V i (x / BSIZE) =? 0) eqn:E0; [done|]. b2p. unfold V'. rewrite fn_upd_ne; [done|].
      intros Eq. apply E. eapply (fo_inj _ _ _ F); done.
  - intros x Hx. rewrite Hb. replace (x / BSIZE) with (off / BSIZE); [done|]. unfold BSIZE in *. zdm.
Qed.

Lemma grown_wrote sb c off bs V i V1 i1 V2 : 0 <= data_start sb ->
  grown sb c V i V1 i1 -> wrote sb off bs V1 i1 V2 i1 -> wrote sb off bs V i V2 i1.
Proof.
  intros H0 [X1 X2 X3 X4 X5] [Y1 Y2 Y3 Y4 Y5]. split; [by eapply extends_trans|done| | |done].
  - intros x Hx. rewrite Y3 by done. unfold patched. case_if; [done|by apply X2].
  - intros bn Hb0 Hz. by rewrite Y4, X4 by (rewrite ?X4; done).
Qed.

(** * The inode on disk *)

(** The place of an inode in its block. *)
Definition slot (inum : Z) : Z := inum mod IPB * sizeof_dinode.

Record dinode_ok (di : dinode) : Prop := mk_dinode_ok {
  do_type : - 2 ^ 15 <= d_type di < 2 ^ 15;
  do_major : - 2 ^ 15 <= d_major di < 2 ^ 15;
  do_minor : - 2 ^ 15 <= d_minor di < 2 ^ 15;
  do_nlink : - 2 ^ 15 <= d_nlink di < 2 ^ 15;
  do_size : 0 <= d_size di < 2 ^ 32;
  do_addrs : length (d_addrs di) = 13%nat /\ Forall (fun a => 0 <= a < 2 ^ 32) (d_addrs di);
}.

Lemma ldl_stl_in d at_ bs o n : 0 <= at_ -> 0 <= o -> 0 <= n -> o + n <= Z.of_nat (length bs) ->
  at_ + Z.of_nat (length bs) <= Z.of_nat (length d) -> ldl (stl d at_ bs) (at_ + o) n = ldl bs o n.
Proof.
  intros. apply list_eq. intros j. rewrite !lookup_ldl. case_decide; [|done]. unfold stl.
  rewrite list_lookup_inserts by lia. f_equal. lia.
Qed.

Lemma i16_bytes v : - 2 ^ 15 <= v < 2 ^ 15 -> i16 (le_val (le_bytes 2 v)) = v.
Proof. intros. rewrite le_val_bytes. change (256 ^ Z.of_nat 2) with 65536. unfold i16. zdm. Qed.

Lemma u32_bytes v : 0 <= v < 2 ^ 32 -> le_val (le_bytes 4 v) = v.
Proof. intros. rewrite le_val_bytes. change (256 ^ Z.of_nat 4) with (2 ^ 32). by apply Z.mod_small. Qed.

(** The layout of struct dinode: what is stored is what is read. *)
Lemma dinode_of_bytes di : dinode_ok di -> dinode_of (dinode_bytes di) 0 = di /\ length (dinode_bytes di) = 64%nat.
Proof.
  destruct di as [t ma mi nl sz addrs]. intros [H1 H2 H3 H4 H5 [HL HA]]. cbn in H1, H2, H3, H4, H5, HL, HA.
  do 13 (destruct addrs as [|? addrs]; [discriminate HL|]). destruct addrs; [|discriminate HL]. split; [|reflexivity].
  unfold dinode_of, ldl16, ldl32, dinode_bytes. cbn [map concat d_type d_major d_minor d_nlink d_size d_addrs seq].
  f_equal; [by apply i16_bytes..|by apply u32_bytes|].
  repeat match goal with H : Forall _ (_ :: _) |- _ => apply list.Forall_cons in H as [? H] end.
  repeat (apply f_equal2; [by apply u32_bytes|]). done.
Qed.

Lemma dinode_of_ext d d' at_ at' :
  (forall o n, 0 <= o -> 0 <= n -> o + n <= 64 -> ldl d (at_ + o) n = ldl d' (at' + o) n) ->
  dinode_of d at_ = dinode_of d' at'.
Proof.
  intros H. pose proof (H 0 2 ltac:(lia) ltac:(lia) ltac:(lia)) as H0. rewrite !Z.add_0_r in H0.
  unfold dinode_of, ldl16, ldl32. rewrite H0, !H by lia. f_equal. apply map_ext_in. intros j Hj.
  apply in_seq in Hj. rewrite <- !Z.add_assoc, H by lia. done.
Qed.

Lemma dinode_of_stored d at_ di : dinode_ok di -> 0 <= at_ -> at_ + 64 <= Z.of_nat (length d) ->
  dinode_of (stl d at_ (dinode_bytes di)) at_ = di.
Proof.
  intros Hd Ha Hl. destruct (dinode_of_bytes di Hd) as [E L]. rewrite <- E at 2. apply dinode_of_ext.
  intros o n Ho Hn Hon. rewrite Z.add_0_l. apply ldl_stl_in; lia.
Qed.

Lemma dinode_of_other d at_ at' bs : length bs = 64%nat -> 0 <= at_ -> 0 <= at' -> at_ + 64 <= at' \/ at' + 64 <= at_ ->
  dinode_of (stl d at_ bs) at' = dinode_of d at'.
Proof. intros. apply dinode_of_ext. intros o n Ho Hn Hon. apply ldl_stl_ne; lia. Qed.

Lemma slot_range inum : 0 <= slot inum /\ slot inum + 64 <= BSIZE.
Proof. unfold slot. change IPB with 16. change sizeof_dinode with 64. unfold BSIZE. zdm. Qed.

Lemma iblock_range start sb j : geometry start sb -> 0 <= j < sb_ninodes sb ->
  IBLOCK j sb = j / IPB + sb_inodestart sb /\ sb_inodestart sb <= IBLOCK j sb < sb_bmapstart sb /\ sb_bmapstart sb < 2 ^ 31.
Proof.
  intros [[G1 G2] [G3 G4] G5] Hj. unfold IBLOCK. change IPB with 16 in *.
  unfold data_start, BPB, BSIZE, LOGSIZE, MAXOPBLOCKS in *. rewrite u32_small; zdm.
Qed.

(** Inodes in the same block have different places. *)
Lemma slot_apart start sb j inum : geometry start sb -> 0 <= j < sb_ninodes sb -> 0 <= inum < sb_ninodes sb ->
  j <> inum -> IBLOCK j sb = IBLOCK inum sb -> slot j + 64 <= slot inum \/ slot inum + 64 <= slot j.
Proof.
  intros G Hj Hi Hne. destruct (iblock_range _ _ j G Hj) as (-> & _), (iblock_range _ _ inum G Hi) as (-> & _).
  unfold slot. change IPB with 16. change sizeof_dinode with 64. zdm.
Qed.

(** * Changes that leave a file's blocks alone *)

Section kept.
Context (sb : superblock) (V V' : Z -> list Z) (i i' : inode) (F : file_ok V sb i).
Context (Hkeep : forall x, owns V i x -> V' x = V x /\ in_use V' sb x) (Hi : i_addrs i' = i_addrs i).

Lemma owns_block bn : 0 <= bn < MAXFILE -> baddr V i bn <> 0 -> owns V i (baddr V i bn).
Proof. intros Hbn Hz. split; [done|]. right. by exists bn. Qed.

Lemma kept_baddr bn : baddr V' i' bn = baddr V i bn.
Proof.
  unfold baddr, ind. rewrite Hi. case_if; [done|]. case_if; [done|].
  f_equal. apply Hkeep. split; [done|by left].
Qed.

Lemma kept_fbyte x : 0 <= x < MAXFILE * BSIZE -> fbyte V' i' x = fbyte V i x.
Proof.
  intros Hx%off_block. unfold fbyte. rewrite kept_baddr. destruct (_ =? 0) eqn:E; [done|]. b2p.
  by rewrite (proj1 (Hkeep _ (owns_block _ Hx E))).
Qed.

Lemma kept_owns x : owns V' i' x <-> owns V i x.
Proof. unfold owns, ind. rewrite Hi. by setoid_rewrite kept_baddr. Qed.

Lemma kept_file_ok : file_ok V' sb i'.
Proof.
  destruct F as [F1 F2 F3 F4 F5]. split.
  - by rewrite Hi.
  - intros bn Hbn. rewrite kept_baddr. intros Hz. by apply Hkeep, owns_block.
  - unfold ind. rewrite Hi. intros Hz. apply Hkeep. split; [done|by left].
  - intros b1 b2. rewrite !kept_baddr. by apply F4.
  - intros bn. rewrite kept_baddr. unfold ind. rewrite Hi. by apply F5.
Qed.

End kept.

(** Changing what is below the free map. *)
Section high.
Context (start : Z) (sb : superblock) (G : geometry start sb).
Context (V V' : Z -> list Z) (Hhigh : forall x, sb_bmapstart sb <= x -> V' x = V x).

Lemma high_used x : 0 <= x < sb_size sb -> block_used V' sb x = block_used V sb x.
Proof.
  intros Hx. unfold block_used. rewrite Hhigh; [done|]. destruct (bblock_range _ _ x G Hx) as (_ & ? & _). lia.
Qed.

Lemma high_kept i x : file_ok V sb i -> owns V i x -> V' x = V x /\ in_use V' sb x.
Proof.
  intros F Ho. pose proof (geometry_pos _ _ G). destruct (owns_in_use _ _ _ _ F Ho) as [Hr Hu]. split.
  - apply Hhigh. unfold data_start, BPB, BSIZE in Hr. destruct (geo_size _ _ G). zdm.
  - split; [done|]. by rewrite high_used by lia.
Qed.

Lemma high_meta : meta_used V sb -> meta_used V' sb.
Proof. destruct (geo_size _ _ G). intros M x Hx. rewrite high_used by lia. by apply M. Qed.

End high.

(** * The whole file *)

Lemma content_lookup V i (j : nat) :
  content V i !! j = if decide (Z.of_nat j < i_size i) then Some (fbyte V i (Z.of_nat j)) else None.
Proof.
  unfold content. rewrite bytes_at_lookup. repeat case_decide; try lia; done.
Qed.

Lemma content_patched V i V' i' off bs :
  0 <= off <= i_size i -> i_size i' = Z.max (i_size i) (off + Z.of_nat (length bs)) ->
  i_size i' <= MAXFILE * BSIZE ->
  (forall x, 0 <= x < MAXFILE * BSIZE -> fbyte V' i' x = patched (fbyte V i) off bs x) ->
  content V' i' = take (Z.to_nat off) (content V i) ++ bs ++ drop (Z.to_nat off + length bs) (content V i).
Proof.
  intros Hoff Hsz Hmax Hb. apply list_eq. intros j. rewrite content_lookup.
  assert (length (content V i) = Z.to_nat (i_size i)) as Hl by apply length_bytes_at.
  assert (length (take (Z.to_nat off) (content V i)) = Z.to_nat off) as Ht by (rewrite length_take; lia).
  rewrite !lookup_app, Ht. destruct (decide (j < Z.to_nat off)%nat) as [Hj|Hj].
  - rewrite decide_True, Hb, patched_out by lia. rewrite lookup_take, decide_True, content_lookup, decide_True by lia. done.
  - rewrite lookup_ge_None_2 by lia. cbn. destruct (bs !! (j - Z.to_nat off)%nat) as [b|] eqn:E.
    + apply lookup_lt_Some in E as Hlt. rewrite decide_True, Hb, patched_in by lia. f_equal.
      rewrite nth_lookup. replace (Z.to_nat (Z.of_nat j - off)) with (j - Z.to_nat off)%nat by lia. by rewrite E.
    + apply lookup_ge_None in E. rewrite lookup_drop, content_lookup.
      replace (Z.to_nat off + length bs + (j - Z.to_nat off - length bs))%nat with j by lia.
      repeat case_decide; try lia; [|done]. rewrite Hb, patched_out by lia. done.
Qed.

Section writei.
Context {P : Platform} (dev start : Z) (p : nat) {C : BlockCache dev p}.
Context (sb : superblock) (G : geometry start sb) (ip : nat).

Abbreviation tx := (tx dev start p).
Abbreviation at_file := (at_file dev start p sb ip).

(** One turn of the loop. *)
Lemma writei_turn user n f src off tot k B V i m bs :
  at_file k B V i -> log_cost B i + 3 < log_size (k_log k) -> 1 <= spare V sb i ->
  0 <= tot < n -> n < 2 ^ 31 -> 0 <= off < MAXFILE * BSIZE -> m = Z.min (n - tot) (BSIZE - off mod BSIZE) ->
  0 <= src < 2 ^ 64 -> fetch user (p_pagetable (k_procs k !!! p)) (k_mem k) src (Z.to_nat m) = (0, bs) ->
  exists k' B' V' i', at_file k' B' V' i' /\ fs_frame (set_inode ip i' k) k' /\ wrote sb off bs V i V' i' /\
    log_cost B' i' <= log_cost B i + 2 /\ spare V sb i - 1 <= spare V' sb i' /\
    writei_loop (S f) ip user src off n tot k =
      writei_loop f ip user (u64 (src + m)) (u32 (off + m)) n (u32 (tot + m)) k'.
Proof.
  intros A Hroom Hsp Htot Hn Hoff Em Hsrc Hf. pose proof (geometry_pos _ _ G) as Hpos.
  assert (0 <= off mod BSIZE < BSIZE) as Hmod by (unfold BSIZE; zdm).
  pose proof (off_block _ Hoff) as Hbn. pose proof (fetch_length _ _ _ _ _ _ Hf) as Hlb.
  destruct (bmap_run dev start p sb G ip k B V i (off / BSIZE) A Hbn Hroom Hsp) as (a & V1 & B1 & i1 & k1 & E1 & [A1 F1 G1 Ha Hnz L1]).
  pose proof (af_tx _ _ _ _ _ _ _ _ _ A1) as T1. pose proof (fs_frame_logsize _ _ F1) as Hls. cbn in Hls.
  pose proof (af_ok _ _ _ _ _ _ _ _ _ A1) as Ok1. pose proof (af_meta _ _ _ _ _ _ _ _ _ A1) as M1.
  assert (Z.of_nat (length B1) + 3 < log_size (k_log k) + 2) as HB1.
  { unfold log_cost, ind_cost, log_add in *. repeat case_decide; rewrite ?length_app in *; cbn in *; lia. }
  destruct (tx_bread dev start p k1 [] B1 V1 a T1) as (b & k2 & E2 & T2 & F2 & _).
  { set_solver. } { rewrite Nat.add_0_r. apply (tx_log _ _ _ _ _ _ _ T1). }
  assert (fs_frame (set_inode ip i1 k) k2) as F12 by (by etransitivity).
  pose proof (tx_proc dev start p _ _ _ _ (af_tx _ _ _ _ _ _ _ _ _ A)) as Hp.
  destruct (fs_frame_proc p _ _ F12 Hp) as [Hp2 Hpr2]. pose proof (fs_frame_mem _ _ F12) as Hm2. cbn in Hpr2, Hm2.
  pose proof (either_copyin_run p user src m k2 Hp2 Hsrc ltac:(lia)) as E3. rewrite Hpr2, Hm2, Hf in E3.
  destruct (fo_data _ _ _ Ok1 (off / BSIZE) Hbn ltac:(by rewrite Ha)) as [Har _]. rewrite Ha in Har.
  pose proof (geo_size _ _ G) as Hsz.
  destruct (tx_update dev start p k2 b a [] B1 V1 (fun d => stl d (off mod BSIZE) bs) T2) as (k3 & E4 & T3 & F3).
  { rewrite length_stl. by eapply tx_len. } { lia. }
  { eapply geometry_home; [done|]. destruct (bblock_range _ _ a G) as (_ & ? & ?); lia. }
  { unfold log_room. rewrite (fs_frame_logsize _ _ F2), Hls. lia. }
  pose proof (wrote_store start sb V1 i1 off bs G Ok1 M1 ltac:(intros; by eapply tx_len) Hoff ltac:(lia)) as W.
  cbv zeta in W. rewrite Ha in W. specialize (W Hnz).
  set (V2 := fn_upd V1 a (stl (V1 a) (off mod BSIZE) bs)) in *.
  assert (spare V2 sb i1 = spare V1 sb i1) as Es.
  { unfold V2. rewrite <- Ha at 1. apply (store_spare start sb G V1 i1 Ok1); [done|by rewrite Ha]. }
  assert (wrote sb off bs V i V2 i1) as W' by (eapply grown_wrote; [lia|done|done]).
  exists k3, (log_add B1 a), V2, i1. split_and!.
  - eapply at_file_next; [exact A|exact T3|etransitivity; [exact F12|exact F3]| |apply W'..].
    by rewrite (wr_inode _ _ _ _ _ _ _ W').
  - etransitivity; [exact F12|exact F3].
  - done.
  - done.
  - pose proof (gr_spare _ _ _ _ _ _ G1). lia.
  - cbn [writei_loop]. replace (tot <? n) with true by lia. eapply bind_eq; [exact E1|].
    rewrite (proj2 (Z.eqb_neq _ _) Hnz). kstep. rewrite (af_inode _ _ _ _ _ _ _ _ _ A1), (af_dev _ _ _ _ _ _ _ _ _ A1).
    eapply bind_eq; [exact E2|]. cbv zeta. rewrite (u32_small (n - tot)), <- Em by lia.
    eapply bind_eq; [exact E3|]. cbv beta iota.
    apply bind_ok_inv in E4 as ([] & ka & Ea & E4). apply bind_ok_inv in E4 as ([] & kb & Eb & E4).
    eapply bind_eq; [exact Ea|]. cbn [Z.eqb]. eapply bind_eq; [exact Eb|]. eapply bind_eq; [exact E4|done].
Qed.

Lemma writei_loop_run user n t : forall f src off tot k B V i bs,
  (t <= f)%nat -> at_file k B V i -> log_cost B i + 2 * Z.of_nat t + 1 < log_size (k_log k) ->
  Z.of_nat t <= spare V sb i -> 0 <= tot <= n -> n < 2 ^ 31 -> 0 <= off -> off + (n - tot) <= MAXFILE * BSIZE ->
  (tot < n -> off mod BSIZE + (n - tot) <= Z.of_nat t * BSIZE) -> fetch_ok user src (Z.to_nat (n - tot)) ->
  fetch user (p_pagetable (k_procs k !!! p)) (k_mem k) src (Z.to_nat (n - tot)) = (0, bs) ->
  exists k' B' V' i', writei_loop f ip user src off n tot k = Ok (n, off + (n - tot)) k' /\
    at_file k' B' V' i' /\ fs_frame (set_inode ip i' k) k' /\ wrote sb off bs V i V' i' /\
    log_cost B' i' <= log_cost B i + 2 * Z.of_nat t.
Proof.
  induction t as [|t IH]; intros f src off tot k B V i bs Hft A Hroom Hsp Htot Hn Hoff Hmax Ht Hsrc Hf.
  all: pose proof (geometry_pos _ _ G) as Hpos; assert (0 <= off mod BSIZE < BSIZE) as Hmod by (unfold BSIZE; zdm).
  all: destruct (decide (tot = n)) as [->|Hne].
  1,3: exists k, B, V, i; rewrite Z.sub_diag, Z.add_0_r in *;
    rewrite (set_inode_same ip i k) by apply (af_inode _ _ _ _ _ _ _ _ _ A);
    split_and!; [by destruct f; cbn [writei_loop]; rewrite Z.ltb_irrefl|done|done| |lia];
    replace bs with (@nil Z) by (symmetry; by apply nil_length_inv, (fetch_length _ _ _ _ _ _ Hf));
    apply wrote_nil; [lia|apply A..].
  - lia.
  - destruct f as [|f]; [lia|]. set (m := Z.min (n - tot) (BSIZE - off mod BSIZE)).
    assert (0 < m <= n - tot /\ m <= BSIZE - off mod BSIZE) as Hmb by lia.
    assert (Z.to_nat (n - tot) = (Z.to_nat m + Z.to_nat (n - (tot + m)))%nat) as El by lia. rewrite El in Hsrc, Hf.
    destruct (fetch_ok_split _ _ _ _ Hsrc) as [Hs1 Hs2]. destruct (fetch_split _ _ _ _ _ _ _ Hsrc Hf) as [Hf1 Hf2].
    replace (Z.of_nat (Z.to_nat m)) with m in * by lia.
    destruct (writei_turn user n f src off tot k B V i m _ A ltac:(lia) ltac:(lia) ltac:(lia) Hn ltac:(lia) eq_refl
      (proj1 Hs1) Hf1) as (k1 & B1 & V1 & i1 & A1 & F1 & W1 & L1 & S1 & ->).
    pose proof (fetch_length _ _ _ _ _ _ Hf1) as Hl1. pose proof (fetch_length _ _ _ _ _ _ Hf) as Hlb.
    destruct (fs_frame_proc p _ _ F1 (tx_proc dev start p _ _ _ _ (af_tx _ _ _ _ _ _ _ _ _ A))) as [_ Hpr]. cbn in Hpr.
    pose proof (fs_frame_mem _ _ F1) as Hm1. pose proof (fs_frame_logsize _ _ F1) as Hls. cbn in Hm1, Hls.
    destruct (IH f (u64 (src + m)) (off + m) (tot + m) k1 B1 V1 i1 (drop (Z.to_nat m) bs)) as (k2 & B2 & V2 & i2 & E2 & A2 & F2 & W2 & L2);
      try done; rewrite ?Hls, ?Hpr, ?Hm1; try done; try lia.
    { clear -Ht Hmb Hmod Htot Hoff. intros. unfold BSIZE in *. zdm. }
    exists k2, B2, V2, i2. split_and!; [|done|by eapply fs_frame_set_trans| |lia].
    + rewrite (u32_small (off + m)), (u32_small (tot + m)), E2; [do 2 f_equal; lia|lia|].
      unfold MAXFILE, NINDIRECT, NDIRECT, BSIZE in *. zdm.
    + rewrite <- (take_drop (Z.to_nat m) bs). eapply wrote_trans; [lia|done| |exact W1|].
      * rewrite take_drop. lia.
      * by replace (off + Z.of_nat (length (take (Z.to_nat m) bs))) with (off + m) by lia.
Qed.

Lemma iupdate_run k B V i :
  at_file k B V i -> 0 <= i_inum i < sb_ninodes sb -> log_room 1 B k ->
  let ib := IBLOCK (i_inum i) sb in
  exists k', iupdate ip k = Ok tt k' /\ fs_frame k k' /\
    tx k' [] (log_add B ib) (fn_upd V ib (stl (V ib) (slot (i_inum i)) (dinode_bytes (inode_dinode i)))).
Proof.
  intros A Hi Hroom ib. destruct (iblock_range _ _ _ G Hi) as (_ & Hib & Hs). fold ib in Hib.
  pose proof (af_tx _ _ _ _ _ _ _ _ _ A) as T. pose proof (geo_log _ _ G) as Hg.
  destruct (tx_bread dev start p k [] B V ib T) as (b & k1 & E1 & T1 & F1 & _).
  { set_solver. } { rewrite Nat.add_0_r. apply (tx_log _ _ _ _ _ _ _ T). }
  destruct (tx_update dev start p k1 b ib [] B V (fun d => stl d (slot (i_inum i)) (dinode_bytes (inode_dinode i))) T1)
    as (k2 & E2 & T2 & F2).
  { rewrite length_stl. by eapply tx_len. } { unfold LOGSIZE, MAXOPBLOCKS in *. lia. } { by eapply geometry_home, Hib. }
  { by eapply log_room_frame. }
  exists k2. split_and!; [|by etransitivity|done].
  unfold iupdate. kstep. kstep. rewrite (af_inode _ _ _ _ _ _ _ _ _ A), (af_sb _ _ _ _ _ _ _ _ _ A), (af_dev _ _ _ _ _ _ _ _ _ A).
  eapply bind_eq; [exact E1|exact E2].
Qed.

(** The number of blocks that [n] bytes at [off] are in, at most. *)
Definition nblocks (off n : Z) : Z := (off mod BSIZE + n + BSIZE - 1) / BSIZE.

Lemma file_dinode_ok V i : file_ok V sb i -> 0 <= i_size i < 2 ^ 32 ->
  - 2 ^ 15 <= i_type i < 2 ^ 15 -> - 2 ^ 15 <= i_major i < 2 ^ 15 -> - 2 ^ 15 <= i_minor i < 2 ^ 15 ->
  - 2 ^ 15 <= i_nlink i < 2 ^ 15 -> dinode_ok (inode_dinode i).
Proof.
  intros F Hs H1 H2 H3 H4. split; try done. split; [apply F|]. apply list.Forall_forall. intros a Ha.
  apply list_elem_of_lookup in Ha as [j Hj]. apply lookup_lt_Some in Hj as Hlt. cbn in Hj, Hlt. rewrite (fo_len _ _ _ F) in Hlt.
  pose proof (geometry_pos _ _ G). destruct (geo_size _ _ G) as [_ Hsz].
  destruct (decide (a = 0)) as [->|Hz]; [lia|]. assert (in_use V sb a) as [Hu _]; [|lia].
  assert ((i_addrs i).[Z.of_nat j] = a) as Ea by (rewrite Nat2Z.id, nth_lookup, Hj; done).
  destruct (decide (j = 12%nat)) as [->|Hne].
  - rewrite <- Ea. apply (fo_ind _ _ _ F). unfold ind, NDIRECT. change (Z.of_nat 12) with 12 in Ea. by rewrite Ea.
  - assert (baddr V i (Z.of_nat j) = a) as Eb by (unfold baddr, NDIRECT; by replace (_ <? 12) with true by lia).
    rewrite <- Eb. apply (fo_data _ _ _ F); [unfold MAXFILE, NINDIRECT, NDIRECT, BSIZE; zdm|by rewrite Eb].
Qed.

(** The state after a write of [bs] at [off]. *)
Record file_written (k : K) (B : list Z) (V : Z -> list Z) (i : inode) (off : Z) (bs : list Z)
    (k' : K) (B' : list Z) (V' : Z -> list Z) (i' : inode) : Prop := mk_file_written {
  (* only the inode, the cache and the log change *)
  fw_tx : tx k' [] B' V';
  fw_frame : fs_frame (set_inode ip i' k) k';
  fw_inode : i' = set_i_size (Z.max (i_size i) (off + Z.of_nat (length bs))) (set_i_addrs (i_addrs i') i);
  (* the file's contents *)
  fw_content : content V' i' =
    take (Z.to_nat off) (content V i) ++ bs ++ drop (Z.to_nat off + length bs) (content V i);
  fw_dense : dense V' i';
  fw_ok : file_ok V' sb i';
  fw_meta : meta_used V' sb;
  (* inodes on disk: this one is up to date, the others are as before *)
  fw_disk : dinode_of (V' (IBLOCK (i_inum i) sb)) (slot (i_inum i)) = inode_dinode i';
  fw_inodes : forall j, 0 <= j < sb_ninodes sb -> j <> i_inum i ->
    dinode_of (V' (IBLOCK j sb)) (slot j) = dinode_of (V (IBLOCK j sb)) (slot j);
  (* blocks: new ones were free, those of others are as before *)
  fw_used : forall x, 0 <= x < sb_size sb ->
    block_used V' sb x = true <-> block_used V sb x = true \/ owns V' i' x;
  fw_other : forall x, in_use V sb x -> ~ owns V i x -> V' x = V x /\ ~ owns V' i' x;
  fw_log : Z.of_nat (length B') <= Z.of_nat (length B) + 2 * nblocks off (Z.of_nat (length bs)) + 3;
}.

(** The end of writei(): the size and the inode on disk. *)
Definition writei_end (tot off : Z) : M Z :=
  let* i := get_inode ip in
  when (i_size i <? off) (upd_inode ip (set_i_size off)) ;;;
  iupdate ip ;;;
  ret (i32 tot).

Lemma writei_end_run k1 B1 V1 i1 tot off :
  at_file k1 B1 V1 i1 -> 0 <= i_inum i1 < sb_ninodes sb -> log_room 1 B1 k1 -> 0 <= tot < 2 ^ 31 ->
  let i' := set_i_size (Z.max (i_size i1) off) i1 in
  let ib := IBLOCK (i_inum i1) sb in
  exists k', writei_end tot off k1 = Ok tot k' /\ fs_frame (set_inode ip i' k1) k' /\
    tx k' [] (log_add B1 ib) (fn_upd V1 ib (stl (V1 ib) (slot (i_inum i1)) (dinode_bytes (inode_dinode i')))).
Proof.
  intros A Hi Hroom Htot i' ib. destruct (iupdate_run (set_inode ip i' k1) B1 V1 i') as (k' & E & F & T); [|done|done|].
  { eapply at_file_next; [exact A|apply tx_inodes, A|done|done| |apply A]. destruct (af_ok _ _ _ _ _ _ _ _ _ A). by split. }
  exists k'. split_and!; [|done|done]. unfold writei_end. kstep. rewrite (af_inode _ _ _ _ _ _ _ _ _ A).
  assert (when (i_size i1 <? off) (upd_inode ip (set_i_size off)) k1 = Ok tt (set_inode ip i' k1)) as E1.
  { unfold i'. destruct (i_size i1 <? off) eqn:Es; b2p; cbn [when].
    - rewrite Z.max_r by lia. by apply upd_inode_run, A.
    - rewrite Z.max_l by lia. rewrite set_inode_same; [done|]. rewrite (af_inode _ _ _ _ _ _ _ _ _ A). by destruct i1. }
  eapply bind_eq; [exact E1|]. eapply bind_eq; [exact E|]. unfold ret. by rewrite i32_small by lia.
Qed.

Lemma writei_written k B V i off bs k1 B1 V1 i1 k' :
  at_file k B V i -> dense V i -> 0 <= i_size i -> 0 <= i_inum i < sb_ninodes sb -> dinode_ok (inode_dinode i) ->
  0 <= off <= i_size i -> off + Z.of_nat (length bs) <= MAXFILE * BSIZE ->
  at_file k1 B1 V1 i1 -> fs_frame (set_inode ip i1 k) k1 -> wrote sb off bs V i V1 i1 ->
  Z.of_nat (length B1) <= Z.of_nat (length B) + 2 * nblocks off (Z.of_nat (length bs)) + 2 ->
  let i' := set_i_size (Z.max (i_size i1) (off + Z.of_nat (length bs))) i1 in
  let ib := IBLOCK (i_inum i1) sb in
  fs_frame (set_inode ip i' k1) k' ->
  let V' := fn_upd V1 ib (stl (V1 ib) (slot (i_inum i1)) (dinode_bytes (inode_dinode i'))) in
  tx k' [] (log_add B1 ib) V' ->
  file_written k B V i off bs k' (log_add B1 ib) V' i'.
Proof.
  intros A [Hd1 Hd2] Hs Hin Hdi Hoff Hmax A1 F1 W HB i' ib F' V' T'.
  assert (i_size i1 = i_size i /\ i_inum i1 = i_inum i) as [Es Ei] by (by rewrite (wr_inode _ _ _ _ _ _ _ W)).
  destruct W as [X1 X2 X3 X4 X5]. destruct (iblock_range _ _ _ G Hin) as (_ & Hib & _). rewrite <- Ei in Hib. fold ib in Hib.
  assert (forall x, sb_bmapstart sb <= x -> V' x = V1 x) as Hh by (intros; apply fn_upd_ne; lia).
  pose proof (ex_ok _ _ _ _ _ X1) as Ok1. pose proof (fun x => high_kept start sb G V1 V' Hh i1 x Ok1) as Hk.
  pose proof (kept_file_ok sb V1 V' i1 i' Ok1 Hk eq_refl) as Ok'.
  assert (0 <= i_size i' <= MAXFILE * BSIZE) as Hs' by (unfold i'; cbn; lia).
  assert (MAXFILE * BSIZE < 2 ^ 32) as H32 by done.
  assert (dinode_ok (inode_dinode i')) as Hdi'.
  { destruct Hdi as [Y1 Y2 Y3 Y4 _ _]. apply (file_dinode_ok V' i' Ok'); [lia|..]; unfold i'; rewrite X2; done. }
  assert (forall x, length (V1 x) = Z.to_nat BSIZE) as HV by (intros; eapply tx_len, A1).
  destruct (slot_range (i_inum i)) as [Hsl1 Hsl2]. split.
  - done.
  - by eapply fs_frame_set_trans.
  - unfold i'. rewrite Es. by rewrite X2 at 1.
  - apply content_patched; [done|unfold i'; cbn; by rewrite Es|lia|].
    intros x Hx. rewrite (kept_fbyte sb V1 V' i1 i' Hk eq_refl) by done. by apply X3.
  - split; [lia|]. intros x Hx. rewrite (kept_baddr sb V1 V' i1 i' Hk eq_refl).
    destruct (decide (x < i_size i)).
    + rewrite X4; [by apply Hd2; lia|apply off_block; lia|by apply Hd2; lia].
    + apply X5. unfold i' in Hx. cbn in Hx. lia.
  - done.
  - apply (high_meta start sb G V1 V' Hh), X1.
  - unfold V'. rewrite <- Ei. fold ib. rewrite fn_upd_eq. apply dinode_of_stored; [done|..]; rewrite ?HV, Ei; lia.
  - intros j Hj Hne. destruct (iblock_range _ _ j G Hj) as (_ & Hjb & _).
    rewrite <- (ex_low _ _ _ _ _ X1) by lia. unfold V'. destruct (decide (IBLOCK j sb = ib)) as [E|E].
    + rewrite E, fn_upd_eq. apply dinode_of_other; [by apply dinode_of_bytes| | |]; rewrite ?Ei; [lia|apply slot_range|].
      destruct (slot_apart start sb j (i_inum i)) as [?|?]; try done; [|lia|lia]. by rewrite E, <- Ei.
    + by rewrite fn_upd_ne.
  - intros x Hx. rewrite (high_used start sb G V1 V' Hh) by done.
    rewrite (kept_owns sb V1 V' i1 i' Hk eq_refl). by apply X1.
  - intros x Hx Ho. destruct (ex_other _ _ _ _ _ X1 x Hx Ho) as [<- Hno].
    rewrite (kept_owns sb V1 V' i1 i' Hk eq_refl). split; [|done]. apply Hh.
    destruct Hx as [Hx _]. unfold data_start, BPB, BSIZE in Hx. destruct (geo_size _ _ G). pose proof (geometry_pos _ _ G). unfold data_start, BPB, BSIZE in *. zdm.
  - pose proof (length_log_add B1 ib). lia.
Qed.

(** The case that writes. *)
Lemma writei_run k B V i user src off n bs :
  at_file k B V i -> dense V i -> 0 <= i_inum i < sb_ninodes sb -> dinode_ok (inode_dinode i) ->
  0 <= off <= i_size i -> 0 <= n -> off + n <= MAXFILE * BSIZE -> fetch_ok user src (Z.to_nat n) ->
  fetch user (p_pagetable (k_procs k !!! p)) (k_mem k) src (Z.to_nat n) = (0, bs) ->
  Z.of_nat (length B) + 2 * nblocks off n + 3 < log_size (k_log k) -> nblocks off n <= spare V sb i ->
  exists k' B' V' i', writei ip user src off n k = Ok n k' /\ file_written k B V i off bs k' B' V' i'.
Proof.
  intros A Hd Hin Hdi Hoff Hn Hon Hsrc Hf Hroom Hsp. unfold writei.
  pose proof (fetch_length _ _ _ _ _ _ Hf) as Hl.
  assert (0 <= nblocks off n) as Hnb by (unfold nblocks, BSIZE; zdm).
  assert (log_cost B i <= Z.of_nat (length B) + 2) as Hc by (unfold log_cost, ind_cost; case_decide; lia).
  assert (MAXFILE * BSIZE < 2 ^ 31) as Hm31 by done.
  destruct (writei_loop_run user n (Z.to_nat (nblocks off n)) (rw_fuel n) src off 0 k B V i bs)
    as (k1 & B1 & V1 & i1 & E1 & A1 & F1 & W1 & L1); rewrite ?Z.sub_0_r; try done; try lia.
  { unfold rw_fuel, nblocks, BSIZE. zdm. } { intros _. rewrite Z2Nat.id by done. unfold nblocks, BSIZE. zdm. }
  rewrite Z.sub_0_r in E1. rewrite Z2Nat.id in L1 by done.
  assert (i_inum i1 = i_inum i) as Ei by (by rewrite (wr_inode _ _ _ _ _ _ _ W1)).
  assert (Z.of_nat (length B1) <= log_cost B1 i1) as Hc1 by (unfold log_cost, ind_cost; case_decide; lia).
  pose proof (fs_frame_logsize _ _ F1) as Hls. cbn in Hls.
  destruct (writei_end_run k1 B1 V1 i1 n (off + n) A1) as (k' & E' & F' & T'); [by rewrite Ei|unfold log_room; lia|lia|].
  assert (off + n = off + Z.of_nat (length bs)) as Eon by lia. rewrite Eon in F', T'.
  do 4 eexists. split; [|eapply (writei_written k B V i off bs k1 B1 V1 i1 k'); try done; try lia].
  - kstep. rewrite (af_inode _ _ _ _ _ _ _ _ _ A), (u32_small (off + n)) by lia.
    replace ((i_size i <? off) || (off + n <? off)) with false by lia. replace (_ <? off + n) with false by lia.
    eapply bind_eq; [exact E1|]. exact E'.
  - by replace (Z.of_nat (length bs)) with n by lia; lia.
Qed.


End writei.

(** * A small file system *)

Section small.
Let P0 : Platform := two_pages.
Existing Instance P0.
Let C0 : BlockCache ROOTDEV 0 := bio_block_cache ROOTDEV 0.
Existing Instance C0.

(** 200 blocks; the log is at 2, the inodes at 32, the free map at 34.  The
    blocks up to 35 are in use; 35 is the only block of the file. *)
Definition small_sb : superblock := mk_superblock FSMAGIC 200 165 16 30 2 32 34.
Definition small_map : list Z := [255; 255; 255; 255; 15] ++ replicate 1019 0.
Definition small_disk : gmap Z (list Z) := <[34 := small_map]> {[35 := ones]}.
Definition small_file : inode := mk_inode ROOTDEV 1 1 (mk_sleeplock 1 0) 1 2 0 0 1 1024 (35 :: replicate 12 0).
Definition small_V (x : Z) : list Z := disk_block small_disk x.

Lemma small_geometry : geometry 2 small_sb.
Proof. split; vm_compute; split; discriminate || reflexivity. Qed.

Lemma small_length x : length (small_V x) = Z.to_nat BSIZE.
Proof.
  unfold small_V, disk_block, small_disk. rewrite lookup_insert. case_decide; [reflexivity|].
  destruct (decide (35 = x)) as [<-|]; [by rewrite lookup_singleton_eq|]. by rewrite lookup_singleton_ne.
Qed.

Lemma small_used x : 0 <= x < 200 -> block_used small_V small_sb x = (x <? 36).
Proof.
  intros Hx. revert x Hx. apply (small_cases 200 (fun x => block_used small_V small_sb x = (x <? 36))).
  apply (bool_decide_unpack _). vm_compute. exact I.
Qed.

Lemma small_baddr bn : 0 <= bn -> baddr small_V small_file bn = if bn =? 0 then 35 else 0.
Proof.
  intros Hbn. unfold baddr. destruct (bn <? NDIRECT) eqn:E; b2p.
  - unfold NDIRECT in E. revert bn Hbn E. 
    enough (forall bn, 0 <= bn < 12 -> (i_addrs small_file).[bn] = if bn =? 0 then 35 else 0) as H by (intros; by apply H).
    apply (small_cases 12). repeat constructor.
  - replace (bn =? 0) with false by (unfold NDIRECT in E; lia). reflexivity.
Qed.

Lemma small_file_ok : file_ok small_V small_sb small_file.
Proof.
  assert (in_use small_V small_sb 35) as Hu by (split; vm_compute; [split; discriminate || reflexivity|reflexivity]).
  split.
  - reflexivity.
  - intros bn [Hbn _]. rewrite small_baddr by done. by case_if.
  - intros H. by destruct H.
  - intros b1 b2 [H1 _] [H2 _]. rewrite !small_baddr by done. repeat case_if; lia.
  - intros bn [Hbn _]. rewrite small_baddr by done. by case_if.
Qed.

Lemma small_meta : meta_used small_V small_sb.
Proof.
  intros x Hx. change (data_start small_sb) with 35 in Hx. rewrite small_used by lia. apply Z.ltb_lt. lia.
Qed.

Lemma small_dense : dense small_V small_file.
Proof.
  split; [vm_compute; discriminate|]. intros off Hoff. change (i_size small_file) with 1024 in Hoff.
  replace (off / BSIZE) with 0 by (unfold BSIZE; zdm). vm_compute. discriminate.
Qed.

(** The file is open in a transaction; bytes 5 and 6 are in the kernel's memory. *)
Lemma small_state : exists k, at_file ROOTDEV 2 0 small_sb 0 k [] small_V small_file /\
  k_mem k = stbytes ∅ 4096 [5; 6] /\ log_size (k_log k) = 30 /\ L_itable ∉ k_held k.
Proof.
  destruct (bc_binit ROOTDEV 0 (set_k_disk small_disk boot0)) as (bs & _ & I & _ & R & V);
    [reflexivity|set_solver|set_solver|exact boot0_zero|exact small_length|].
  set (k0 := set_k_bufs bs (set_k_disk small_disk boot0)) in *.
  set (k := set_k_mem (stbytes ∅ 4096 [5; 6]) (set_k_inodes [small_file] (set_k_sb small_sb (set_k_log log1 k0)))).
  destruct (bc_frame ROOTDEV 0 k0 k ∅ I) as (I1 & V1 & R1); [reflexivity..|].
  exists k. split; [|split; [reflexivity|split; [reflexivity|cbn; set_solver]]]. split; [|reflexivity|reflexivity|cbn; lia|reflexivity|apply small_file_ok|apply small_meta].
  split; [|apply NoDup_nil_2|apply NoDup_nil_2|apply log_at_log1|cbn; set_solver|vm_compute; discriminate|vm_compute; discriminate].
  eapply st_ext; [apply st_refl; [apply (bio_ready_boot0 bs)|exact I1]|reflexivity| |].
  - intros x. cbn. rewrite V1. apply V.
  - intros x. cbn. rewrite R1, R. symmetry. rewrite pins_out; set_solver.
Qed.


Lemma readi_correct_witness : exists k k', readi 0 false 8192 1020 100 k = Ok 4 k' /\
  ldbytes (k_mem k') 8192 4 = [1; 1; 1; 1].
Proof.
  destruct small_state as (k & A & Hm & Hl & _).
  destruct (readi_correct ROOTDEV 2 0 k [] small_V 0 small_file false 8192 1020 100 (af_tx _ _ _ _ _ _ _ _ _ A)
    (af_inode _ _ _ _ _ _ _ _ _ A) (eq_refl) small_dense) as (k' & E & T & F).
  - vm_compute. discriminate.
  - lia.
  - lia.
  - split; [lia|vm_compute; reflexivity].
  - exists k, k'. split; [exact E|]. rewrite (fs_frame_mem _ _ F). cbn [k_mem set_k_mem]. rewrite Hm. vm_compute. reflexivity.
Defined.

Lemma balloc_bfree_witness : exists k k1 k2, balloc ROOTDEV k = Ok 36 k1 /\ bfree ROOTDEV 36 k1 = Ok tt k2.
Proof.
  destruct small_state as (k & A & Hm & Hl & _).
  destruct (balloc_bfree ROOTDEV 2 0 small_sb small_geometry k [] small_V 36 (af_tx _ _ _ _ _ _ _ _ _ A)
    (af_sb _ _ _ _ _ _ _ _ _ A)) as (k1 & B1 & V1 & k2 & B2 & V2 & k3 & E1 & _ & _ & _ & _ & E2 & _).
  - unfold log_room. rewrite Hl. reflexivity.
  - exact small_meta.
  - split; [cbn; lia|]. split; [rewrite small_used by lia; reflexivity|]. intros x Hx. rewrite small_used by lia. apply Z.ltb_lt. lia.
  - exists k, k1, k2. split; [exact E1|exact E2].
Defined.

End small.
