(* ===== verification/Dir.v ===== *)
(** Directories: what dirlookup() and dirlink() of kernel/fs.c do to the entries
    that the contents of a directory stand for. *)
From S2P Require Import Prelude CInt KState KString Riscv Kalloc Vm VmSpec Proc Uart Printf Bio Bcache Log LogSpec Fs FsSpec FsFile.
From S2P Require Import FsWrite Writei.

(** * Directories as lists of entries *)

Definition entry_at (c : list Z) (j : nat) : dirent :=
  dirent_of (ldl c (sizeof_dirent * Z.of_nat j) sizeof_dirent).

Definition entries (c : list Z) : list dirent := entry_at c <$> seq 0 (length c / 16).

(** The entry is in use and has this name. *)
Definition names (name : list Z) (e : dirent) : Prop := de_inum e <> 0 /\ namecmp name (de_name e) = 0.

#[export] Instance names_dec name e : Decision (names name e).
Proof. unfold names. apply _. Defined.

Lemma length_dirents c : length (entries c) = (length c / 16)%nat.
Proof. unfold entries. by rewrite length_fmap, length_seq. Qed.

Lemma lookup_entries c j : (j < length c / 16)%nat -> entries c !! j = Some (entry_at c j).
Proof. intros Hj. unfold entries. rewrite list_lookup_fmap, lookup_seq_lt by done. done. Qed.

Lemma entries_app c1 c2 n : length c1 = (16 * n)%nat -> entries (c1 ++ c2) = entries c1 ++ entries c2.
Proof.
  intros Hl. unfold entries. rewrite length_app, Hl, Nat.mul_comm, Nat.div_add_l, Nat.div_mul by lia.
  rewrite seq_app, fmap_app. f_equal.
  - apply list_fmap_ext. intros i x Hx. apply lookup_seq in Hx as [-> Hi]. unfold entry_at, ldl, sizeof_dirent. f_equal.
    rewrite drop_app_le by lia. apply take_app_le. rewrite length_drop. lia.
  - replace (seq (0 + n) _) with (Nat.add n <$> seq 0 (length c2 / 16)) by (rewrite fmap_add_seq; f_equal; lia).
    rewrite <- list_fmap_compose. apply list_fmap_ext. intros i x _. cbn.
    unfold entry_at, ldl, sizeof_dirent. do 2 f_equal.
    replace (Z.to_nat (16 * Z.of_nat (n + x))) with (length c1 + Z.to_nat (16 * Z.of_nat x))%nat by lia.
    apply drop_app_add.
Qed.

Lemma entries_one bs : length bs = 16%nat -> entries bs = [dirent_of bs].
Proof.
  intros Hl. unfold entries. rewrite Hl. cbn. unfold entry_at, ldl, sizeof_dirent. cbn. rewrite drop_0. 
  by rewrite take_ge by (rewrite Hl; lia).
Qed.

(** ** Finding in a list with one element replaced or added *)

Section find.
Context {A : Type} (Q : A -> Prop) `{forall x, Decision (Q x)}.

(** [x] put at [j]; at the end if [j] is the length. *)
Definition put_at (j : nat) (x : A) (l : list A) : list A := take j l ++ x :: drop (S j) l.

Lemma find_put_at j x (l : list A) : (j <= length l)%nat -> list_find Q l = None -> Q x ->
  list_find Q (put_at j x l) = Some (j, x).
Proof.
  intros Hj Hn Hx. apply list_find_None in Hn. unfold put_at.
  rewrite list_find_app_r by (apply list_find_None; by apply Forall_take). cbn [list_find].
  rewrite decide_True by done. cbn. rewrite length_take. do 2 f_equal. lia.
Qed.

Lemma find_put_other j x : forall l : list A, (j <= length l)%nat -> ~ Q x ->
  (forall y, l !! j = Some y -> ~ Q y) -> list_find Q (put_at j x l) = list_find Q l.
Proof.
  unfold put_at. induction j as [|j IH]; intros l Hj Hx Hy.
  - destruct l as [|y l]; cbn.
    + by rewrite decide_False.
    + by rewrite !decide_False by (done || by apply Hy).
  - destruct l as [|y l]; cbn in *; [lia|]. destruct (decide (Q y)); [done|]. by rewrite IH by (done || lia).
Qed.
End find.

(** A directory with one entry written. *)
Lemma entries_patched c bs n j : length c = (16 * n)%nat -> (j <= n)%nat -> length bs = 16%nat ->
  entries (take (16 * j) c ++ bs ++ drop (16 * j + 16) c) = put_at j (dirent_of bs) (entries c).
Proof.
  intros Hc Hj Hb. unfold put_at.
  assert (length (take (16 * j) c) = 16 * j)%nat as Ht by (rewrite length_take; lia).
  rewrite (entries_app _ _ j Ht), (entries_app bs _ 1), (entries_one bs) by lia. cbn [app].
  rewrite <- (take_drop (16 * j) c) at 3 4. rewrite (entries_app _ (drop _ c) j Ht).
  assert (length (entries (take (16 * j) c)) = j) as Hl.
  { rewrite length_dirents, Ht. by rewrite Nat.mul_comm, Nat.div_mul. }
  rewrite take_app_length' by done. do 2 f_equal.
  destruct (decide (j = n)) as [->|].
  { rewrite !(drop_ge c) by lia. rewrite app_nil_r, drop_ge by lia. done. }
  rewrite drop_app_ge by lia. rewrite Hl. replace (S j - j)%nat with 1%nat by lia.
  rewrite <- (take_drop 16 (drop (16 * j) c)), drop_drop.
  assert (length (take 16 (drop (16 * j) c)) = 16)%nat as H16 by (rewrite length_take, length_drop; lia).
  rewrite (entries_app _ _ 1 H16), (entries_one _ H16). reflexivity.
Qed.

(** ** Names *)

Lemma length_strncpy_copy t n : forall i, length (strncpy_copy n t i) = n.
Proof.
  induction n as [|n IH]; intros i; cbn; [done|]. f_equal. case_if; [apply IH|apply length_replicate].
Qed.

Lemma length_strncpy t n : length (strncpy t n) = Z.to_nat n.
Proof. apply length_strncpy_copy. Qed.

Lemma strncmp_copied t q n : forall i,
  (forall j, (j < n)%nat -> strncpy_copy n t i !! j = Some (q (i + Z.of_nat j))) -> strncmp_loop n t q i = 0.
Proof.
  induction n as [|n IH]; intros i Hq; cbn [strncmp_loop]; [done|].
  pose proof (Hq 0%nat ltac:(lia)) as H0. cbn in H0. rewrite Z.add_0_r in H0. injection H0 as H0.
  destruct (t i =? 0) eqn:E0; cbn [negb andb]; b2p; [rewrite <- H0, E0; done|].
  rewrite H0, Z.eqb_refl. apply IH. intros j Hj. specialize (Hq (S j) ltac:(lia)). cbn [strncpy_copy] in Hq.
  rewrite (proj2 (Z.eqb_neq _ _) E0) in Hq. cbn [negb] in Hq. rewrite lookup_cons in Hq.
  rewrite Hq. do 2 f_equal. lia.
Qed.

(** The name as dirlink() stores it compares equal to the name. *)
Lemma namecmp_strncpy name : namecmp name (strncpy (at_arr name) DIRSIZ) = 0.
Proof.
  unfold namecmp, strncmp. apply strncmp_copied. intros j Hj. unfold at_arr. rewrite Z.add_0_l.
  rewrite Nat2Z.id, nth_lookup. unfold strncpy.
  destruct (lookup_lt_is_Some_2 (strncpy_copy (Z.to_nat DIRSIZ) (fun i => name.[i]) 0) j) as [x Hx].
  { by rewrite length_strncpy_copy. }
  by rewrite Hx.
Qed.

(** * iget() *)

Section iget.
Context {P : Platform}.

Definition cached (dev inum : Z) (k : K) (j : nat) : Prop :=
  let i := k_inodes k !!! j in 0 < i_ref i /\ i_dev i = dev /\ i_inum i = inum.

Definition free_entry (k : K) (j : nat) : Prop := i_ref (k_inodes k !!! j) = 0.

#[export] Instance cached_dec dev inum k j : Decision (cached dev inum k j).
Proof. unfold cached. apply _. Defined.
#[export] Instance free_entry_dec k j : Decision (free_entry k j).
Proof. unfold free_entry. apply _. Defined.

Lemma iget_scan_run dev inum k : forall l empty,
  iget_scan l dev inum empty k =
    Ok (match list_find (cached dev inum k) l with
        | Some (_, j) => inl j
        | None => inr (match empty with Some e => Some e | None => snd <$> list_find (free_entry k) l end)
        end) k.
Proof.
  induction l as [|j l IH]; intros empty; cbn [iget_scan list_find].
  - by destruct empty.
  - kstep. destruct (decide (cached dev inum k j)) as [Hc|Hc].
    + unfold cached in Hc. cbv zeta in Hc. by replace (_ && _) with true by lia.
    + replace (_ && _) with false by (unfold cached in Hc; cbv zeta in Hc; lia).
      rewrite IH. destruct (list_find (cached dev inum k) l) as [[x y]|]; cbn; [done|].
      destruct empty; [done|]. destruct (decide (free_entry k j)) as [Hf|Hf].
      * unfold free_entry in Hf. by rewrite Hf.
      * rewrite (proj2 (Z.eqb_neq _ _) Hf). by destruct (list_find _ l) as [[]|].
Qed.

(** What iget() does to the inode cache. *)
Record igot (dev inum : Z) (k : K) (ip : nat) (k' : K) : Prop := {
  ig_only : exists i, k' = set_inode ip i k /\ i_dev i = dev /\ i_inum i = inum /\
    i_ref i = i_ref (k_inodes k !!! ip) + 1;
  ig_index : (ip < Z.to_nat NINODE)%nat;
  (* an entry that is in use is only taken for the inode that it is for *)
  ig_hit : cached dev inum k ip \/ free_entry k ip;
  (* there is no second entry for an inode *)
  ig_one : free_entry k ip -> forall j, (j < Z.to_nat NINODE)%nat -> ~ cached dev inum k j;
}.

Lemma unlocked l (held : gset lock) : l ∉ held -> ({[l]} ∪ held) ∖ {[l]} = held.
Proof. set_solver. Qed.

Lemma set_inode_twice ip i1 i2 k : set_inode ip i2 (set_inode ip i1 k) = set_inode ip i2 k.
Proof. unfold set_inode. destruct k; cbn. by rewrite list_insert_insert_eq. Qed.

Lemma iget_run dev inum k :
  L_itable ∉ k_held k -> length (k_inodes k) = Z.to_nat NINODE ->
  (exists j, (j < Z.to_nat NINODE)%nat /\ (cached dev inum k j \/ free_entry k j)) ->
  exists ip k', iget dev inum k = Ok ip k' /\ igot dev inum k ip k'.
Proof.
  intros Hl Hlen (j0 & Hj0 & Hsome). unfold iget.
  set (k1 := set_k_held ({[L_itable]} ∪ k_held k) k).
  pose proof (iget_scan_run dev inum k1 (seq 0 (Z.to_nat NINODE)) None) as Es.
  assert (forall ip i, (ip < Z.to_nat NINODE)%nat ->
    release L_itable (set_inode ip i k1) = Ok tt (set_inode ip i k)) as Er.
  { intros ip i Hip. rewrite release_ok by (cbn; by apply elem_of_union_l, elem_of_singleton). f_equal. unfold k1.
    destruct k; cbn in *. by rewrite unlocked. }
  destruct (list_find (cached dev inum k1) _) as [[n ip]|] eqn:E1.
  - apply list_find_Some in E1 as (Hn & Hc & _). apply lookup_seq in Hn as [-> Hn].
    eexists _, _. split.
    + kstep. eapply bind_eq; [exact Es|]. cbv beta iota. eapply bind_eq; [by apply upd_inode_run|].
      eapply bind_eq; [by apply Er|]. reflexivity.
    + split; [|done|by left|].
      * eexists. split; [reflexivity|]. destruct Hc as (_ & H1 & H2). done.
      * intros Hf. destruct Hc as [H0 _]. unfold free_entry in Hf. cbn in *. lia.
  - assert (forall j, (j < Z.to_nat NINODE)%nat -> ~ cached dev inum k j) as Hno.
    { intros j Hj. apply list_find_None in E1. rewrite list.Forall_forall in E1.
      apply (E1 j), elem_of_seq. lia. }
    destruct (list_find (free_entry k1) (seq 0 (Z.to_nat NINODE))) as [[n ip]|] eqn:E2.
    2:{ exfalso. apply list_find_None in E2. rewrite list.Forall_forall in E2.
        destruct Hsome as [Hc|Hf]; [by apply (Hno j0)|]. apply (E2 j0); [apply elem_of_seq; lia|done]. }
    apply list_find_Some in E2 as (Hn & Hf & _). apply lookup_seq in Hn as [-> Hn].
    eexists _, _. split.
    + kstep. eapply bind_eq; [exact Es|]. cbv beta iota. cbn [fmap option_fmap option_map snd].
      eapply bind_eq; [by apply upd_inode_run|].
      do 3 (eapply bind_eq; [apply upd_inode_run, inode_set_inode; cbn; rewrite ?length_insert; lia|]).
      rewrite !set_inode_twice. eapply bind_eq; [by apply Er|]. reflexivity.
    + split; [|done|by right|done].
      eexists. split; [reflexivity|]. unfold free_entry in Hf. cbn in *. rewrite Hf. done.
Qed.
End iget.

(** * Reading entries *)

Section dir.
Context {P : Platform} (dev start : Z) (p : nat) {C : BlockCache dev p}.
Abbreviation tx := (tx dev start p).

(** Only the cache, the log and the [n] bytes at [a] change. *)
Definition mem_frame (a n : Z) (k k' : K) : Prop :=
  fs_frame (set_k_mem (k_mem k') k) k' /\ same_but a n (k_mem k) (k_mem k').

Abbreviation dir_frame de := (mem_frame de sizeof_dirent).

Lemma dir_frame_refl a n k : mem_frame a n k k.
Proof. split; [by destruct k|done]. Qed.

Lemma dir_frame_trans a n k1 k2 k3 : mem_frame a n k1 k2 -> mem_frame a n k2 k3 -> mem_frame a n k1 k3.
Proof.
  intros [F1 S1] [F2 S2]. split; [|by eapply same_but_trans].
  etransitivity; [|exact F2]. apply (fs_frame_set_mem (k_mem k3)) in F1. by destruct k1.
Qed.

Lemma mem_frame_mono a n a' n' k k' : mem_frame a n k k' -> a' <= a -> a + n <= a' + n' -> mem_frame a' n' k k'.
Proof. intros [F S] H1 H2. split; [done|]. intros x Hx. apply S. lia. Qed.

(** readi() of one entry into a local variable. *)
Lemma read_entry k B V dp d de j :
  tx k [] B V -> k_inodes k !!! dp = d -> i_dev d = dev -> dense V d ->
  0 <= de -> de + sizeof_dirent < 2 ^ 64 -> sizeof_dirent * (Z.of_nat j + 1) <= i_size d ->
  exists k', readi dp false de (sizeof_dirent * Z.of_nat j) sizeof_dirent k = Ok sizeof_dirent k' /\
    tx k' [] B V /\ dir_frame de k k' /\ get_dirent de k' = Ok (entry_at (content V d) j) k'.
Proof.
  intros T Hi Hdev Hd Hde Hde2 Hj. unfold sizeof_dirent in *.
  assert (i_size d < 2 ^ 31) as Hmax.
  { destruct Hd as [Hd _]. unfold MAXFILE, NINDIRECT, NDIRECT, BSIZE in *. zdm. }
  destruct (readi_within dev start p k B V dp d false de (16 * Z.of_nat j) 16 T Hi Hdev Hd) as (k' & E & T' & F');
    [lia..|split; [lia|]; rewrite Z2Nat.id; lia|].
  rewrite Z.min_l in E, F' by lia. exists k'. split; [exact E|]. split; [done|].
  pose proof (fs_frame_mem _ _ F') as Em. cbn in Em. split.
  - split; rewrite Em; [exact F'|]. intros x Hx. apply ld8_stbytes_out. rewrite length_bytes_at. unfold sizeof_dirent in Hx. lia.
  - unfold get_dirent, gets, entry_at, sizeof_dirent. rewrite Em. do 2 f_equal. rewrite content_ldl by lia.
    replace (Z.to_nat 16) with (length (bytes_at V d (16 * Z.of_nat j) 16)) by apply length_bytes_at.
    apply ldbytes_stbytes.
Qed.

Section lookup.
Context (V : Z -> list Z) (B : list Z) (dp : nat) (d : inode) (name : list Z) (de : Z).
Context (Hdev : i_dev d = dev) (Hd : dense V d) (Hs : 0 <= i_size d) (Hal : i_size d mod sizeof_dirent = 0).
Context (Hde : 0 <= de) (Hde2 : de + sizeof_dirent < 2 ^ 64).

Let es := entries (content V d).

Lemma dir_length : Z.of_nat (length es) * sizeof_dirent = i_size d.
Proof.
  unfold es. rewrite length_dirents. unfold content. rewrite length_bytes_at. unfold sizeof_dirent in *.
  rewrite Nat2Z.inj_div, Z2Nat.id by done. change (Z.of_nat 16) with 16. zdm.
Qed.

Lemma dir_entry j e : es !! j = Some e -> e = entry_at (content V d) j /\ sizeof_dirent * (Z.of_nat j + 1) <= i_size d.
Proof.
  intros Hj. pose proof (lookup_lt_Some _ _ _ Hj) as Hlt. pose proof dir_length. split; [|unfold sizeof_dirent in *; lia].
  unfold es in *. rewrite lookup_entries in Hj by (by rewrite length_dirents in Hlt). congruence.
Qed.

Lemma dir_size_small : i_size d < 2 ^ 31.
Proof. destruct Hd as [H _]. unfold MAXFILE, NINDIRECT, NDIRECT, BSIZE in *. zdm. Qed.

(** The scan of dirlookup() from entry [j] on. *)
Lemma dirlookup_loop_run f : forall j k,
  tx k [] B V -> k_inodes k !!! dp = d -> (j <= length es)%nat -> (length es < f + j)%nat ->
  exists k1, tx k1 [] B V /\ dir_frame de k k1 /\
    dirlookup_loop f dp name de (sizeof_dirent * Z.of_nat j) k =
      match list_find (names name) (drop j es) with
      | None => Ok None k1
      | Some (n, e) =>
          (let* ip := iget dev (de_inum e) in ret (Some (ip, sizeof_dirent * Z.of_nat (j + n)))) k1
      end.
Proof.
  pose proof dir_length as Hlen. pose proof dir_size_small as Hmax. unfold sizeof_dirent in Hlen.
  induction f as [|f IH]; intros j k T Hi Hj Hf; [lia|].
  destruct (decide (j = length es)) as [->|Hne].
  { exists k. split; [done|]. split; [apply dir_frame_refl|]. rewrite drop_all. cbn [list_find dirlookup_loop].
    kstep. rewrite Hi. by replace (_ <? _) with false by (unfold sizeof_dirent; lia). }
  destruct (lookup_lt_is_Some_2 es j) as [e He]; [lia|]. destruct (dir_entry j e He) as [Ee Hb].
  destruct (read_entry k B V dp d de j T Hi Hdev Hd Hde Hde2 Hb) as (k1 & E1 & T1 & F1 & G1).
  assert (k_inodes k1 !!! dp = d) as Hi1 by (by rewrite (fs_frame_inodes _ _ (proj1 F1))).
  rewrite (drop_S _ _ _ He). cbn [list_find dirlookup_loop]. rewrite <- Ee in G1.
  destruct (IH (S j) k1 T1 Hi1 ltac:(lia) ltac:(lia)) as (k2 & T2 & F2 & E2).
  assert (u32 (sizeof_dirent * Z.of_nat j + sizeof_dirent) = sizeof_dirent * Z.of_nat (S j)) as Eu.
  { unfold sizeof_dirent in *. rewrite u32_small; lia. }
  destruct (decide (names name e)) as [[Hn Hc]|Hn].
  - exists k1. split; [done|]. split; [done|]. kstep. rewrite Hi.
    replace (_ <? _) with true by (unfold sizeof_dirent in *; lia). eapply bind_eq; [exact E1|]. cbn [negb Z.eqb].
    eapply bind_eq; [exact G1|]. cbv beta. rewrite (proj2 (Z.eqb_neq _ _) Hn), Hc. cbn [Z.eqb].
    kstep. rewrite Hi1, Hdev, Nat.add_0_r. done.
  - exists k2. split; [done|]. split; [by eapply dir_frame_trans|]. kstep. rewrite Hi.
    replace (_ <? _) with true by (unfold sizeof_dirent in *; lia). eapply bind_eq; [exact E1|].
    change (negb (sizeof_dirent =? sizeof_dirent)) with false. cbv iota.
    eapply bind_eq; [exact G1|]. cbv beta. rewrite Eu.
    replace (if de_inum e =? 0 then _ else _) with (dirlookup_loop f dp name de (sizeof_dirent * Z.of_nat (S j))).
    2:{ unfold names in Hn. destruct (de_inum e =? 0) eqn:E0; [done|]. b2p.
        destruct (namecmp name (de_name e) =? 0) eqn:Ec; [|done]. b2p. tauto. }
    rewrite E2. destruct (list_find _ _) as [[n e']|]; cbn; [|done]. by rewrite Nat.add_succ_r.
Qed.
End lookup.

(** * dirlookup() *)

(** The variable is on the stack for the time of the call. *)
Lemma dir_frame_sp de n a k k1 :
  mem_frame de n (set_k_sp a k) k1 -> mem_frame de n k (set_k_sp (k_sp k) k1).
Proof.
  intros [(bs & ps & l & E & H) S]. split; [|done]. exists bs, ps, l. split; [|exact H].
  rewrite E at 1. by destruct k.
Qed.

Lemma dirlookup_run k B V dp d name :
  tx k [] B V -> k_inodes k !!! dp = d -> i_type d = T_DIR -> i_dev d = dev -> dense V d ->
  0 <= i_size d -> i_size d mod sizeof_dirent = 0 -> sizeof_dirent <= k_sp k < 2 ^ 64 ->
  exists k1, tx k1 [] B V /\ dir_frame (k_sp k - sizeof_dirent) k (set_k_sp (k_sp k) k1) /\
    dirlookup dp name k =
      match list_find (names name) (entries (content V d)) with
      | None => Ok None (set_k_sp (k_sp k) k1)
      | Some (j, e) =>
          (let* ip := iget dev (de_inum e) in
           modify (set_k_sp (k_sp k)) ;;; ret (Some (ip, sizeof_dirent * Z.of_nat j))) k1
      end.
Proof.
  intros T Hi Ht Hdev Hd Hs Hal Hsp. unfold dirlookup, local.
  set (k0 := set_k_sp (k_sp k - sizeof_dirent) k).
  destruct (dirlookup_loop_run V B dp d name (k_sp k - sizeof_dirent) Hdev Hd Hs Hal) with (f := dir_fuel (i_size d)) (j := 0%nat) (k := k0)
    as (k1 & T1 & F1 & E1); [lia|lia|by apply tx_sp|done|lia| |].
  { pose proof (dir_length V d Hs Hal). unfold dir_fuel, sizeof_dirent in *. zdm. }
  exists k1. split; [done|]. split; [by eapply dir_frame_sp|].
  kstep. rewrite Hi, Ht. change (negb (T_DIR =? T_DIR)) with false. cbv iota beta. kstep. kstep. fold k0.
  rewrite drop_0, Z.mul_0_r in E1. unfold bind at 1. rewrite E1.
  destruct (list_find _ _) as [[j e]|]; [|done].
  rewrite Nat.add_0_l. unfold bind. by destruct (iget _ _ _).
Qed.

(** The same entry serves with the stack pointer back in place. *)
Lemma igot_sp a inum k ip k' : igot dev inum k ip k' -> igot dev inum (set_k_sp a k) ip (set_k_sp a k').
Proof.
  intros [(i & -> & Hi) H1 H2 H3]. split; [|done..]. exists i. split; [done|exact Hi].
Qed.

(** C9: dirlookup() finds the first entry in use with the name. It gives the
    offset of the entry and an inode from the cache for its inode number, with
    one reference more: the entry that the cache has for it, or else a free
    one, so that there are never two; one of these must exist, since iget()
    panics when the cache is full. When no entry has the name the result is
    null; a file that is no directory makes it panic. No block, log entry or
    other inode changes. *)
Theorem dirlookup_correct k B V dp d name :
  tx k [] B V -> k_inodes k !!! dp = d -> i_dev d = dev -> dense V d ->
  0 <= i_size d -> i_size d mod sizeof_dirent = 0 -> sizeof_dirent <= k_sp k < 2 ^ 64 ->
  L_itable ∉ k_held k -> length (k_inodes k) = Z.to_nat NINODE ->
  if decide (i_type d = T_DIR) then
    match list_find (names name) (entries (content V d)) with
    | None => exists k', dirlookup dp name k = Ok None k' /\ tx k' [] B V /\
        dir_frame (k_sp k - sizeof_dirent) k k'
    | Some (j, e) =>
        (exists n, (n < Z.to_nat NINODE)%nat /\ (cached dev (de_inum e) k n \/ free_entry k n)) ->
        exists ip k1 k', dirlookup dp name k = Ok (Some (ip, sizeof_dirent * Z.of_nat j)) k' /\
          tx k1 [] B V /\ dir_frame (k_sp k - sizeof_dirent) k k1 /\ igot dev (de_inum e) k1 ip k'
    end
  else dirlookup dp name k = Panic "dirlookup not DIR" k.
Proof.
  intros T Hi Hdev Hd Hs Hal Hsp Hl Hlen. case_decide as Ht.
  - destruct (dirlookup_run k B V dp d name) as (k1 & T1 & F1 & E1); [done..|].
    rewrite E1. destruct (list_find _ _) as [[j e]|].
    + intros Hn. pose proof (fs_frame_inodes _ _ (proj1 F1)) as Ei.
      assert (k_held k1 = k_held k) as Eh by (by destruct F1 as [(bs & ps & l & E & _) _]; apply (f_equal k_held) in E).
      destruct (iget_run dev (de_inum e) k1) as (ip & k' & E' & G); [by rewrite Eh|by cbn in Ei; rewrite Ei| |].
      { destruct Hn as (n & Hn & Hc). exists n. split; [done|]. unfold cached, free_entry in *. cbn in Ei. by rewrite Ei. }
      exists ip, (set_k_sp (k_sp k) k1), (set_k_sp (k_sp k) k').
      split; [by eapply bind_eq; [exact E'|]|]. split; [by apply tx_sp|]. split; [done|by apply igot_sp].
    + exists (set_k_sp (k_sp k) k1). split; [done|]. split; [by apply tx_sp|done].
  - unfold dirlookup. kstep. rewrite Hi. by rewrite (proj2 (Z.eqb_neq _ _) Ht).
Qed.


(** * dirlink() *)

(** The first entry that is not in use, or the end. *)
Definition first_empty (es : list dirent) : nat :=
  match list_find (fun e => de_inum e = 0) es with Some (j, _) => j | None => length es end.

Section empty.
Context (V : Z -> list Z) (B : list Z) (dp : nat) (d : inode) (de : Z).
Context (Hdev : i_dev d = dev) (Hd : dense V d) (Hs : 0 <= i_size d) (Hal : i_size d mod sizeof_dirent = 0).
Context (Hde : 0 <= de) (Hde2 : de + sizeof_dirent < 2 ^ 64).

Let es := entries (content V d).

Lemma dirlink_loop_run f : forall j k,
  tx k [] B V -> k_inodes k !!! dp = d -> (j <= length es)%nat -> (length es < f + j)%nat ->
  exists k1, tx k1 [] B V /\ dir_frame de k k1 /\
    dirlink_loop f dp de (sizeof_dirent * Z.of_nat j) k =
      Ok (sizeof_dirent * Z.of_nat (j + first_empty (drop j es))) k1.
Proof.
  pose proof (dir_length V d Hs Hal) as Hlen. fold es in Hlen. unfold sizeof_dirent in Hlen.
  induction f as [|f IH]; intros j k T Hi Hj Hf; [lia|].
  destruct (decide (j = length es)) as [->|Hne].
  { exists k. split; [done|]. split; [apply dir_frame_refl|]. rewrite drop_all. cbn [dirlink_loop]. change (first_empty []) with 0%nat.
    kstep. rewrite Hi, Nat.add_0_r. by replace (_ <? _) with false by (unfold sizeof_dirent; lia). }
  destruct (lookup_lt_is_Some_2 es j) as [e He]; [lia|]. destruct (dir_entry V d Hs Hal j e He) as [Ee Hb].
  destruct (read_entry k B V dp d de j T Hi Hdev Hd Hde Hde2 Hb) as (k1 & E1 & T1 & F1 & G1).
  assert (k_inodes k1 !!! dp = d) as Hi1 by (by rewrite (fs_frame_inodes _ _ (proj1 F1))).
  rewrite (drop_S _ _ _ He). cbn [dirlink_loop]. rewrite <- Ee in G1. unfold first_empty. cbn [list_find].
  destruct (IH (S j) k1 T1 Hi1 ltac:(lia) ltac:(lia)) as (k2 & T2 & F2 & E2).
  replace (sizeof_dirent * Z.of_nat (S j)) with (sizeof_dirent * Z.of_nat j + sizeof_dirent) in E2 by (unfold sizeof_dirent; lia).
  destruct (decide (de_inum e = 0)) as [H0|H0]; [exists k1|exists k2]; (split; [done|]).
  all: split; [done || by eapply dir_frame_trans|].
  all: kstep; rewrite Hi; replace (_ <? _) with true by (unfold sizeof_dirent in *; lia).
  all: eapply bind_eq; [exact E1|]; change (negb (sizeof_dirent =? sizeof_dirent)) with false; cbv iota.
  all: eapply bind_eq; [exact G1|]; cbv beta.
  - rewrite H0. cbn. by rewrite Nat.add_0_r.
  - rewrite (proj2 (Z.eqb_neq _ _) H0), E2. unfold first_empty.
    destruct (list_find _ (drop (S j) es)) as [[n e']|]; cbn; by rewrite Nat.add_succ_r.
Qed.
End empty.

Section dirlink.
Context (sb : superblock) (G : geometry start sb) (dp : nat).
Abbreviation at_file := (at_file dev start p sb dp).
Abbreviation file_written := (file_written dev start p sb dp).

Lemma at_file_frame a k B V d k' :
  at_file k B V d -> tx k' [] B V -> fs_frame (set_k_mem (k_mem k') (set_k_sp a k)) k' -> at_file k' B V d.
Proof.
  intros A T F. pose proof (fs_frame_inodes _ _ F) as Ei. cbn in Ei.
  split; [done|rewrite (fs_frame_sb _ _ F); apply A|rewrite Ei; apply A|rewrite Ei; apply A|apply A..].
Qed.

(** The entry in memory. *)
Lemma built_entry m de name inum :
  ldbytes (stbytes (stbytes m (de + 2) (strncpy (at_arr name) DIRSIZ)) de (le_bytes 2 (u16 inum))) de 16 =
    le_bytes 2 (u16 inum) ++ strncpy (at_arr name) DIRSIZ.
Proof.
  rewrite (ldbytes_app _ _ 2 14). f_equal.
  - apply (ldbytes_stbytes _ de (le_bytes 2 (u16 inum))).
  - rewrite ldbytes_stbytes_apart by (unfold apart; cbn; lia).
    change 14%nat with (Z.to_nat DIRSIZ). rewrite <- (length_strncpy (at_arr name) DIRSIZ). apply ldbytes_stbytes.
Qed.

Definition new_entry (name : list Z) (inum : Z) : dirent :=
  mk_dirent (u16 inum) (strncpy (at_arr name) DIRSIZ).

Lemma new_entry_bytes name inum :
  dirent_of (le_bytes 2 (u16 inum) ++ strncpy (at_arr name) DIRSIZ) = new_entry name inum.
Proof.
  unfold dirent_of, new_entry, ldl16, ldl. f_equal.
  - rewrite drop_0, take_app_length' by done. rewrite le_val_bytes. apply Z.mod_small.
    pose proof (u16_range inum). cbn. lia.
  - rewrite drop_app_length' by done. apply take_ge. by rewrite length_strncpy.
Qed.

(** dirlink() up to the call of writei(), which it makes in [k3]. *)
Lemma dirlink_run k B V d name inum :
  at_file k B V d -> i_type d = T_DIR -> dense V d ->
  0 <= i_size d -> i_size d mod sizeof_dirent = 0 -> 2 * sizeof_dirent <= k_sp k < 2 ^ 64 ->
  list_find (names name) (entries (content V d)) = None ->
  let de := k_sp k - sizeof_dirent in
  let off := sizeof_dirent * Z.of_nat (first_empty (entries (content V d))) in
  exists k3, at_file k3 B V d /\ mem_frame (de - sizeof_dirent) (2 * sizeof_dirent) (set_k_sp de k) k3 /\
    ldbytes (k_mem k3) de 16 = le_bytes 2 (u16 inum) ++ strncpy (at_arr name) DIRSIZ /\
    dirlink dp name inum k =
      (let* r := writei dp false de off sizeof_dirent in
       modify (set_k_sp (k_sp k)) ;;; ret (if negb (r =? sizeof_dirent) then -1 else 0)) k3.
Proof.
  intros A Ht Hd Hs Hal Hsp Hno de off. pose proof (af_inode _ _ _ _ _ _ _ _ _ A) as Hi. pose proof (af_dev _ _ _ _ _ _ _ _ _ A) as Hdev.
  set (k0 := set_k_sp de k). assert (tx k0 [] B V) as T0 by (apply tx_sp, A).
  destruct (dirlookup_run k0 B V dp d name T0 Hi Ht Hdev Hd Hs Hal) as (k1 & T1 & F1 & E1).
  { unfold k0, de. cbn. unfold sizeof_dirent in *. lia. }
  rewrite Hno in E1. change (k_sp k0) with de in *. apply (tx_sp dev start p de) in T1.
  set (k1' := set_k_sp de k1) in *.
  assert (k_inodes k1' !!! dp = d) as Hi1 by (by rewrite (fs_frame_inodes _ _ (proj1 F1))).
  destruct (dirlink_loop_run V B dp d de Hdev Hd Hs Hal) with (f := dir_fuel (i_size d)) (j := 0%nat) (k := k1')
    as (k2 & T2 & F2 & E2); [unfold de, sizeof_dirent in *; lia..|done|done|lia| |].
  { pose proof (dir_length V d Hs Hal). unfold dir_fuel, sizeof_dirent in *. zdm. }
  rewrite drop_0, Nat.add_0_l, Z.mul_0_r in E2. fold off in E2.
  set (m2 := stbytes (k_mem k2) (de + 2) (strncpy (at_arr name) DIRSIZ)).
  set (m3 := stbytes m2 de (le_bytes 2 (u16 inum))).
  assert (mem_frame de sizeof_dirent k2 (set_k_mem m3 k2)) as F3.
  { split; [by destruct k2|]. intros x Hx. unfold m3, m2, sizeof_dirent in *. cbn [k_mem set_k_mem].
    rewrite !ld8_stbytes_out by (rewrite ?length_strncpy; cbn; unfold DIRSIZ in *; lia). done. }
  assert (mem_frame (de - sizeof_dirent) (2 * sizeof_dirent) k0 (set_k_mem m3 k2)) as F.
  { eapply dir_frame_trans; [|eapply dir_frame_trans]; (eapply mem_frame_mono; [eassumption|unfold sizeof_dirent; lia..]). }
  exists (set_k_mem m3 k2). split; [apply (at_file_frame de k); [done|by apply tx_mem|exact (proj1 F)]|]. split; [done|].
  split; [apply built_entry|].
  unfold dirlink, local. kstep. kstep. fold de. fold k0. rewrite bind_assoc. eapply bind_eq; [exact E1|]. cbv beta iota.
  fold k1'. rewrite bind_assoc. kstep. rewrite Hi1. rewrite bind_assoc. eapply bind_eq; [exact E2|]. cbv beta.
  rewrite bind_assoc. kstep. rewrite bind_assoc. kstep. cbn [k_mem set_k_mem]. 
  replace (set_k_mem _ (set_k_mem m2 k2)) with (set_k_mem m3 k2) by reflexivity.
  rewrite bind_assoc. reflexivity.
Qed.

Lemma first_empty_spec es : (first_empty es <= length es)%nat /\
  forall e, es !! first_empty es = Some e -> de_inum e = 0.
Proof.
  unfold first_empty. destruct (list_find _ es) as [[j e]|] eqn:E.
  - apply list_find_Some in E as (H1 & H2 & _). pose proof (lookup_lt_Some _ _ _ H1). split; [lia|]. congruence.
  - split; [lia|]. intros e He. apply lookup_lt_Some in He. lia.
Qed.

(** C8: dirlink() adds one name. For a name that the directory does not have,
    with room in the log, on the disk and in the directory, dirlink() returns 0,
    and the directory's entries are the old ones with the new entry in the first
    free place or at the end. A lookup of the name now finds the inode number,
    and lookups of names that differ from it in the first DIRSIZ characters
    find what they found before. *)
Theorem dirlink_correct k B V d name inum :
  at_file k B V d -> i_type d = T_DIR -> dense V d ->
  0 <= i_inum d < sb_ninodes sb -> dinode_ok (inode_dinode d) ->
  0 <= i_size d -> i_size d mod sizeof_dirent = 0 -> i_size d + sizeof_dirent <= MAXFILE * BSIZE ->
  2 * sizeof_dirent <= k_sp k < 2 ^ 64 ->
  Z.of_nat (length B) + 5 < log_size (k_log k) -> 1 <= spare V sb d ->
  0 < inum < 2 ^ 16 -> list_find (names name) (entries (content V d)) = None ->
  let es := entries (content V d) in
  let e := new_entry name inum in
  let j := first_empty es in
  exists k3 k' B' V' d', dirlink dp name inum k = Ok 0 (set_k_sp (k_sp k) k') /\
    mem_frame (k_sp k - 2 * sizeof_dirent) (2 * sizeof_dirent) (set_k_sp (k_sp k - sizeof_dirent) k) k3 /\
    file_written k3 B V d (sizeof_dirent * Z.of_nat j) (dirent_bytes e) k' B' V' d' /\
    entries (content V' d') = put_at j e es /\
    de_inum e = inum /\ list_find (names name) (entries (content V' d')) = Some (j, e) /\
    forall other, namecmp other (de_name e) <> 0 ->
      list_find (names other) (entries (content V' d')) = list_find (names other) es.
Proof.
  intros A Ht Hd Hin Hdi Hs Hal Hmax Hsp Hlog Hspare Hnum Hno es e j.
  destruct (dirlink_run k B V d name inum) as (k3 & A3 & F3 & Eb & E3); [done..|].
  destruct (first_empty_spec es) as [Hj Hje]. fold j in Hj, Hje. fold es j in E3.
  pose proof (dir_length V d Hs Hal) as Hlen. fold es in Hlen.
  assert (length (content V d) = 16 * length es)%nat as Hc.
  { unfold content. rewrite length_bytes_at. unfold sizeof_dirent in Hlen. lia. }
  assert (nblocks (sizeof_dirent * Z.of_nat j) sizeof_dirent = 1) as Hnb.
  { unfold nblocks, sizeof_dirent, BSIZE. zdm. }
  assert (log_size (k_log k3) = log_size (k_log k)) as Els by apply (fs_frame_logsize _ _ (proj1 F3)).
  set (bs := le_bytes 2 (u16 inum) ++ strncpy (at_arr name) DIRSIZ) in *.
  assert (length bs = 16%nat) as Hbs by (unfold bs; rewrite length_app, length_strncpy; done).
  destruct (writei_run dev start p sb G dp k3 B V d false (k_sp k - sizeof_dirent) (sizeof_dirent * Z.of_nat j) sizeof_dirent bs)
    as (k' & B' & V' & d' & Ew & W); try done; rewrite ?Hnb; try (unfold sizeof_dirent in *; lia).
  { split; [unfold sizeof_dirent in *; lia|]. intros _. rewrite Z2Nat.id; unfold sizeof_dirent in *; lia. }
  { unfold fetch. change (Z.to_nat sizeof_dirent) with 16%nat. by rewrite Eb. }
  exists k3, k', B', V', d'. split; [|split; [|split; [exact W|]]].
  - rewrite E3. eapply bind_eq; [exact Ew|]. reflexivity.
  - replace (k_sp k - 2 * sizeof_dirent) with (k_sp k - sizeof_dirent - sizeof_dirent) by lia. exact F3.
  - assert (entries (content V' d') = put_at j e es) as Ec.
    { rewrite (fw_content _ _ _ _ _ _ _ _ _ _ _ _ _ _ _ W). rewrite Hbs.
      replace (Z.to_nat (sizeof_dirent * Z.of_nat j)) with (16 * j)%nat by (unfold sizeof_dirent; lia).
      rewrite (entries_patched _ _ _ _ Hc Hj Hbs). f_equal. apply new_entry_bytes. }
    assert (de_inum e = inum) as En by (cbn; unfold u16; apply Z.mod_small; lia).
    rewrite Ec. split; [done|]. split; [done|]. split.
    + apply find_put_at; [done|done|]. split; [rewrite En; lia|apply namecmp_strncpy].
    + intros other Ho. apply find_put_other; [done|by intros [_ H]|]. intros y Hy [H _]. by apply H, Hje.
Qed.

End dirlink.

End dir.

(** * A small directory *)

Section small.
Let P0 : Platform := two_pages.
Existing Instance P0.
Let C0 : BlockCache ROOTDEV 0 := bio_block_cache ROOTDEV 0.
Existing Instance C0.

(** Two entries in block 35 of the small file system, whose bytes are all 1. *)
Definition small_dir : inode := mk_inode ROOTDEV 1 1 (mk_sleeplock 1 0) 1 T_DIR 0 0 1 32 (35 :: replicate 12 0).

Lemma small_dir_ok : file_ok small_V small_sb small_dir.
Proof. destruct small_file_ok. by split. Qed.

Lemma small_dir_dense : dense small_V small_dir.
Proof.
  split; [vm_compute; discriminate|]. intros off Hoff. change (i_size small_dir) with 32 in Hoff.
  replace (off / BSIZE) with 0 by (unfold BSIZE; zdm). vm_compute. discriminate.
Qed.

Lemma small_dir_state : exists k, at_file ROOTDEV 2 0 small_sb 0 k [] small_V small_dir /\
  k_sp k = 65536 /\ log_size (k_log k) = 30 /\ L_itable ∉ k_held k /\
  k_inodes k = small_dir :: replicate 49 bss_inode.
Proof.
  destruct small_state as (k & A & Hm & Hl & Hh).
  exists (set_k_sp 65536 (set_k_inodes (small_dir :: replicate 49 bss_inode) k)).
  split; [|done]. split.
  - apply tx_sp, tx_inodes, A.
  - apply A.
  - reflexivity.
  - cbn. lia.
  - reflexivity.
  - apply small_dir_ok.
  - apply small_meta.
Qed.

Lemma dirlookup_correct_witness : exists k k' ip, dirlookup 0 (replicate 14 1) k = Ok (Some (ip, 0)) k'.
Proof.
  destruct small_dir_state as (k & A & Hsp & Hl & Hh & Hi). exists k.
  pose proof (dirlookup_correct ROOTDEV 2 0 k [] small_V 0 small_dir (replicate 14 1) (af_tx _ _ _ _ _ _ _ _ _ A)
    (af_inode _ _ _ _ _ _ _ _ _ A) eq_refl small_dir_dense) as W.
  rewrite Hsp, Hi in W. destruct W as (ip & k1 & k' & E & _).
  - vm_compute. discriminate.
  - reflexivity.
  - vm_compute. split; discriminate || reflexivity.
  - exact Hh.
  - reflexivity.
  - exists 1%nat. split; [vm_compute; lia|]. right. unfold free_entry. by rewrite Hi.
  - exists k', ip. exact E.
Defined.

Lemma dirlink_correct_witness : exists k k' V' d', dirlink 0 (bstr "a") 7 k = Ok 0 k' /\
  list_find (names (bstr "a")) (entries (content V' d')) = Some (2%nat, new_entry (bstr "a") 7).
Proof.
  destruct small_dir_state as (k & A & Hsp & Hl & Hh & Hi). exists k.
  destruct (dirlink_correct ROOTDEV 2 0 small_sb small_geometry 0 k [] small_V small_dir (bstr "a") 7 A eq_refl small_dir_dense)
    as (k3 & k' & B' & V' & d' & E & _ & _ & _ & _ & F & _).
  - vm_compute. split; discriminate || reflexivity.
  - split; [cbn; unfold T_DIR; lia..|]. split; [reflexivity|]. cbn [inode_dinode d_addrs i_addrs small_dir replicate].
    repeat constructor; discriminate.
  - vm_compute. discriminate.
  - reflexivity.
  - vm_compute. discriminate.
  - rewrite Hsp. vm_compute. split; discriminate || reflexivity.
  - rewrite Hl. vm_compute. reflexivity.
  - apply (bool_decide_unpack _). vm_compute. exact I.
  - lia.
  - vm_compute. reflexivity.
  - exists (set_k_sp (k_sp k) k'), V', d'. split; [exact E|]. rewrite F. vm_compute. reflexivity.
Defined.

End small.
