(* ===== verification/Mkfs.v ===== *)
(** mkfs/mkfs.c: the program that makes the initial file system image, and what
    the kernel finds in it.

    The image is a list of sectors; the host's files are an argument.  The
    host is little-endian, as RISC-V is. *)
From S2P Require Import Prelude CInt KState KString Riscv Kalloc Vm Proc Uart Printf Bio Bcache Log LogSpec Fs FsSpec FsFile FsWrite Writei.

(** * The program *)

Definition NINODES : Z := 200.
Definition nbitmap : Z := FSSIZE / (BSIZE * 8) + 1.
Definition ninodeblocks : Z := NINODES / IPB + 1.
Definition nlog : Z := LOGSIZE.
Definition nmeta : Z := 2 + nlog + ninodeblocks + nbitmap.

(** To RISC-V byte order: the value whose bytes in memory are those. *)
Definition xshort (x : Z) : Z := le_val [u8 x; u8 (Z.shiftr x 8)].
Definition xint (x : Z) : Z := le_val [u8 x; u8 (Z.shiftr x 8); u8 (Z.shiftr x 16); u8 (Z.shiftr x 24)].

Definition sb : superblock :=
  mk_superblock FSMAGIC (xint FSSIZE) (xint (FSSIZE - nmeta)) (xint NINODES) (xint nlog) (xint 2)
    (xint (2 + nlog)) (xint (2 + nlog + ninodeblocks)).

Definition superblock_bytes (s : superblock) : list Z :=
  le_bytes 4 (sb_magic s) ++ le_bytes 4 (sb_size s) ++ le_bytes 4 (sb_nblocks s) ++ le_bytes 4 (sb_ninodes s) ++
  le_bytes 4 (sb_nlog s) ++ le_bytes 4 (sb_logstart s) ++ le_bytes 4 (sb_inodestart s) ++ le_bytes 4 (sb_bmapstart s).

(** The image and the globals. *)
Record mkst := mk_mkst { img : list (list Z); freeinode : Z; freeblock : Z }.

(** A program that may die(). *)
Definition MM (A : Type) : Type := mkst -> option (A * mkst).
Definition mret {A} (a : A) : MM A := fun s => Some (a, s).
Definition mbind {A B} (m : MM A) (f : A -> MM B) : MM B :=
  fun s => match m s with Some (a, s') => f a s' | None => None end.
Definition die {A} : MM A := fun _ => None.

Notation "'let!' x := m 'in' f" := (mbind m (fun x => f))
  (at level 10, x name, m at level 100, f at level 200) : xv6_scope.
Notation "'let!' ' p := m 'in' f" := (mbind m (fun x => match x with p => f end))
  (at level 10, p pattern, m at level 100, f at level 200) : xv6_scope.
Notation "m ;! f" := (mbind m (fun _ => f)) (at level 100, right associativity) : xv6_scope.

(** sec * BSIZE is computed in 32 bits. *)
Definition sector (sec : Z) : nat := Z.to_nat (u32 (sec * BSIZE) / BSIZE).

(** Writing behind the end of the file fills the gap with zeroes. *)
Definition wsect (sec : Z) (buf : list Z) : MM unit := fun s =>
  let n := sector sec in
  let d := img s in
  let d' := if decide (n < length d)%nat then <[n := buf]> d
            else d ++ replicate (n - length d) zeros ++ [buf] in
  Some (tt, mk_mkst d' (freeinode s) (freeblock s)).

Definition rsect (sec : Z) : MM (list Z) := fun s =>
  match img s !! sector sec with
  | Some buf => Some (buf, s)
  | None => None
  end.

Definition winode (inum : Z) (ip : dinode) : MM unit :=
  let bn := IBLOCK inum sb in
  let! buf := rsect bn in
  wsect bn (stl buf (inum mod IPB * sizeof_dinode) (dinode_bytes ip)).

Definition rinode (inum : Z) : MM dinode :=
  let! buf := rsect (IBLOCK inum sb) in
  mret (dinode_of buf (inum mod IPB * sizeof_dinode)).

Definition ialloc (type : Z) : MM Z := fun s =>
  let inum := freeinode s in
  (winode inum (mk_dinode (xshort type) 0 0 (xshort 1) (xint 0) (replicate 13 0)) ;! mret inum)
    (mk_mkst (img s) (u32 (inum + 1)) (freeblock s)).

(** The free map with the first [used] bits set. *)
Definition bitmap (used : Z) : list Z :=
  foldl (fun buf i => buf.[i / 8 <- Z.lor buf.[i / 8] (Z.shiftl 1 (i mod 8))]) zeros (seqZ 0 used).

Definition balloc (used : Z) : MM unit :=
  if used <? BSIZE * 8 then wsect (sb_bmapstart sb) (bitmap used) else die.

(** freeblock++ *)
Definition next_block : MM Z := fun s =>
  Some (freeblock s, mk_mkst (img s) (freeinode s) (u32 (freeblock s + 1))).

(** The block number [fbn] of the file in iappend(), allocated if need be. *)
Definition iappend_block (din : dinode) (fbn : Z) : MM (dinode * Z) :=
  if fbn <? NDIRECT then
    let! din :=
      (if xint (d_addrs din).[fbn] =? 0 then
         let! b := next_block in
         mret (set_d_addrs (d_addrs din).[fbn <- xint b] din)
       else mret din) in
    mret (din, xint (d_addrs din).[fbn])
  else
    let! din :=
      (if xint (d_addrs din).[NDIRECT] =? 0 then
         let! b := next_block in
         mret (set_d_addrs (d_addrs din).[NDIRECT <- xint b] din)
       else mret din) in
    let! indirect := rsect (xint (d_addrs din).[NDIRECT]) in
    let! indirect :=
      (if ldl32 indirect (4 * (fbn - NDIRECT)) =? 0 then
         let! b := next_block in
         let indirect := stl32 indirect (4 * (fbn - NDIRECT)) (xint b) in
         wsect (xint (d_addrs din).[NDIRECT]) indirect ;!
         mret indirect
       else mret indirect) in
    mret (din, xint (ldl32 indirect (4 * (fbn - NDIRECT)))).

(** The loop of iappend(); [p] is what is left to append. *)
Fixpoint iappend_loop (fuel : nat) (din : dinode) (off : Z) (p : list Z) : MM (dinode * Z) :=
  match p, fuel with
  | [], _ => mret (din, off)
  | _, O => die
  | _, S fuel' =>
      let fbn := off / BSIZE in
      if fbn <? MAXFILE then
        let! '(din, x) := iappend_block din fbn in
        let n1 := Z.min (Z.of_nat (length p)) (u32 ((fbn + 1) * BSIZE - off)) in
        let! buf := rsect x in
        wsect x (stl buf (off - fbn * BSIZE) (take (Z.to_nat n1) p)) ;!
        iappend_loop fuel' din (u32 (off + n1)) (drop (Z.to_nat n1) p)
      else die
  end.

(** A turn appends at least one byte. *)
Definition iappend (inum : Z) (p : list Z) : MM unit :=
  let! din := rinode inum in
  let! '(din, off) := iappend_loop (length p) din (xint (d_size din)) p in
  winode inum (set_d_size (xint off) din).

(** What the host provides: creating the image, and for a file that can be
    opened what the successive read()s of at most BSIZE bytes return. *)
Record host := mk_host { creates : list Z -> bool; reads : list Z -> option (list (list Z)) }.

(** de.name after bzero() and strncpy(). *)
Definition de_name14 (s : list Z) : list Z := take (Z.to_nat DIRSIZ) (s ++ replicate (Z.to_nat DIRSIZ) 0).
Definition entry (inum : Z) (name : list Z) : list Z := dirent_bytes (mk_dirent (xshort inum) (de_name14 name)).

(** The name without the leading directory and the underscore. *)
Definition shortname (arg : list Z) : list Z :=
  if decide (take 5 arg = bstr "user/") then drop 5 arg else arg.
Definition skip_underscore (name : list Z) : list Z :=
  match name with 95 :: name' => name' | _ => name end.

Fixpoint append_all (inum : Z) (chunks : list (list Z)) : MM unit :=
  match chunks with
  | [] => mret tt
  | c :: chunks' => iappend inum c ;! append_all inum chunks'
  end.

Fixpoint add_files (h : host) (rootino : Z) (args : list (list Z)) : MM unit :=
  match args with
  | [] => mret tt
  | arg :: args' =>
      let name := shortname arg in
      if decide (47 ∈ name) then die
      else
        match reads h arg with
        | None => die
        | Some chunks =>
            let name := skip_underscore name in
            let! inum := ialloc T_FILE in
            iappend rootino (entry inum name) ;!
            append_all inum chunks ;!
            add_files h rootino args'
        end
  end.

Fixpoint zero_sectors (n : nat) (i : Z) : MM unit :=
  match n with
  | O => mret tt
  | S n' => wsect i zeros ;! zero_sectors n' (i + 1)
  end.

Definition fix_root (rootino : Z) : MM unit :=
  let! din := rinode rootino in
  let off := xint (d_size din) in
  let off := (off / BSIZE + 1) * BSIZE in
  winode rootino (set_d_size (xint off) din).

(** The part of main() that puts the files into the zeroed image. *)
Definition make_files (h : host) (files : list (list Z)) : MM unit :=
  let! rootino := ialloc T_DIR in
  if rootino =? ROOTINO then
    iappend rootino (entry rootino [46]) ;!
    iappend rootino (entry rootino [46; 46]) ;!
    add_files h rootino files ;!
    fix_root rootino ;!
    (fun s => balloc (freeblock s) s)
  else die.

Definition make (h : host) (files : list (list Z)) : MM unit :=
  zero_sectors (Z.to_nat FSSIZE) 0 ;!
  wsect 1 (stl zeros 0 (superblock_bytes sb)) ;!
  make_files h files.

Definition main (h : host) (argv : list (list Z)) : option mkst :=
  match argv with
  | _ :: image :: files =>
      if creates h image then snd <$> make h files (mk_mkst [] 1 nmeta) else None
  | _ => None
  end.

(** * The image as blocks *)

Arguments xint : simpl never.
Arguments xshort : simpl never.

Lemma xint_id x : 0 <= x < 2 ^ 32 -> xint x = x.
Proof. intros. unfold xint, le_val. rewrite !Z.shiftr_div_pow2 by lia. unfold u8. zdm. Qed.

Lemma xshort_id x : 0 <= x < 2 ^ 16 -> xshort x = x.
Proof. intros. unfold xshort, le_val. rewrite !Z.shiftr_div_pow2 by lia. unfold u8. zdm. Qed.

Lemma mbind_eq {A B} (m : MM A) (f : A -> MM B) s a s' r : m s = Some (a, s') -> f a s' = r -> mbind m f s = r.
Proof. intros E <-. unfold mbind. by rewrite E. Qed.

Lemma mkfs_geometry : geometry 2 sb.
Proof. split; vm_compute; split; discriminate || reflexivity. Qed.

Lemma sb_values : sb_size sb = FSSIZE /\ sb_bmapstart sb = 45 /\ data_start sb = 46 /\ sb_inodestart sb = 32 /\
  sb_ninodes sb = 200 /\ nmeta = 46.
Proof. vm_compute. split_and!; reflexivity. Qed.

#[local] Opaque sb.

Lemma bitmap_succ (n : nat) : bitmap (Z.of_nat n + 1) = set_bit (bitmap (Z.of_nat n)) (Z.of_nat n).
Proof. unfold bitmap. rewrite seqZ_app, foldl_app by lia. done. Qed.

Lemma length_bitmap (n : nat) : length (bitmap (Z.of_nat n)) = Z.to_nat BSIZE.
Proof.
  induction n as [|n IH]; [done|]. rewrite Nat2Z.inj_succ, <- Z.add_1_r, bitmap_succ, length_set_bit. done.
Qed.

Lemma bitmap_bit (n : nat) j : Z.of_nat n <= 8192 -> 0 <= j < 8192 -> bit (bitmap (Z.of_nat n)) j = (j <? Z.of_nat n).
Proof.
  intros Hn Hj. induction n as [|n IH].
  - unfold bit. rewrite (proj2 (Z.ltb_ge j (Z.of_nat 0))) by (cbn; lia). change (bitmap (Z.of_nat 0)) with zeros.
    unfold zeros. rewrite nth_zeros. apply Z.bits_0.
  - rewrite Nat2Z.inj_succ, <- Z.add_1_r, bitmap_succ, bit_set, IH by (rewrite ?length_bitmap; unfold BSIZE; lia). lia.
Qed.

(** The image [img s] holds the blocks [V]; the free map, which is written
    last, is what it will be. *)
Record at_img (s : mkst) (V : Z -> list Z) : Prop := mk_at_img {
  ai_len : length (img s) = Z.to_nat FSSIZE;
  ai_view : forall x, 0 <= x < FSSIZE -> x <> sb_bmapstart sb -> img s !! Z.to_nat x = Some (V x);
  ai_map : V (sb_bmapstart sb) = bitmap (freeblock s);
  ai_size : forall x, length (V x) = Z.to_nat BSIZE;
  ai_fb : nmeta <= freeblock s <= FSSIZE;
  ai_zero : forall x, freeblock s <= x < FSSIZE -> V x = zeros;
  ai_out : forall x, x < 0 \/ FSSIZE <= x -> V x = zeros;
}.

Lemma at_img_used s V x : at_img s V -> 0 <= x < FSSIZE -> block_used V sb x = (x <? freeblock s).
Proof.
  intros A Hx. destruct sb_values as (_ & Eb & _). pose proof (ai_fb _ _ A) as Hf. change nmeta with 46 in Hf. unfold block_used, BBLOCK.
  assert (x / BPB = 0 /\ x mod BPB = x) as [-> ->] by (unfold FSSIZE, BPB, BSIZE in *; zdm).
  rewrite Eb, Z.add_0_l, u32_small, <- Eb, (ai_map _ _ A) by lia.
  replace (freeblock s) with (Z.of_nat (Z.to_nat (freeblock s))) by lia. apply bitmap_bit; unfold FSSIZE in *; lia.
Qed.

Lemma at_img_meta s V : at_img s V -> meta_used V sb.
Proof.
  intros A x Hx. destruct sb_values as (_ & _ & Ed & _). pose proof (ai_fb _ _ A) as Hf. change nmeta with 46 in Hf.
  rewrite (at_img_used s) by (unfold FSSIZE in *; done || lia). lia.
Qed.

Lemma at_img_first s V : at_img s V -> freeblock s < FSSIZE -> first_free V sb (freeblock s).
Proof.
  intros A Hlt. destruct sb_values as (Es & _). pose proof (ai_fb _ _ A) as Hf. change nmeta with 46 in Hf.
  split; [lia|]. split; [rewrite (at_img_used s) by (done || lia); lia|].
  intros x Hx. rewrite (at_img_used s) by (done || lia). lia.
Qed.

Lemma sector_in x : 0 <= x < FSSIZE -> sector x = Z.to_nat x.
Proof. intros Hx. unfold sector. rewrite u32_small by (unfold FSSIZE, BSIZE in *; lia). rewrite Z.div_mul by done. done. Qed.

Lemma next_block_run s V : at_img s V -> freeblock s < FSSIZE ->
  exists s', next_block s = Some (freeblock s, s') /\ at_img s' (allocated V sb (freeblock s)) /\
    freeblock s' = freeblock s + 1 /\ freeinode s' = freeinode s.
Proof.
  intros A Hlt. destruct sb_values as (Es & Eb & _). pose proof (ai_fb _ _ A) as Hf. change nmeta with 46 in Hf.
  eexists. split; [reflexivity|]. rewrite u32_small by (unfold FSSIZE in *; lia). split; [|done].
  assert (BBLOCK (freeblock s) sb = sb_bmapstart sb /\ freeblock s mod BPB = freeblock s) as [Hbb Hbm].
  { unfold BBLOCK. rewrite Eb. unfold FSSIZE, BPB, BSIZE in *. split; [rewrite u32_small|]; zdm. }
  unfold allocated. rewrite Hbb, Hbm. split; cbn [img freeblock].
  - apply A.
  - intros x Hx Hne. unfold fn_upd. rewrite (ai_view _ _ A) by done. repeat case_decide; try done.
    rewrite (ai_zero _ _ A) by lia. done.
  - rewrite fn_upd_ne, fn_upd_eq, (ai_map _ _ A) by lia.
    replace (freeblock s) with (Z.of_nat (Z.to_nat (freeblock s))) by lia. by rewrite bitmap_succ.
  - intros x. unfold fn_upd. repeat case_decide; [done| |apply A]. rewrite length_set_bit. apply A.
  - change nmeta with 46. lia.
  - intros x Hx. unfold fn_upd. repeat case_decide; try done; [lia|]. apply (ai_zero _ _ A). lia.
  - intros x Hx. rewrite !fn_upd_ne by (unfold FSSIZE in *; lia). by apply (ai_out _ _ A).
Qed.

Lemma rsect_run s V x : at_img s V -> 0 <= x < FSSIZE -> x <> sb_bmapstart sb -> rsect x s = Some (V x, s).
Proof. intros A Hx Hne. unfold rsect. by rewrite sector_in, (ai_view _ _ A). Qed.

Lemma wsect_run s V x d : at_img s V -> 0 <= x < freeblock s -> x <> sb_bmapstart sb -> length d = Z.to_nat BSIZE ->
  exists s', wsect x d s = Some (tt, s') /\ at_img s' (fn_upd V x d) /\
    freeblock s' = freeblock s /\ freeinode s' = freeinode s.
Proof.
  intros A Hx Hne Hd. pose proof (ai_fb _ _ A) as Hf. eexists. split; [reflexivity|]. split; [|done].
  pose proof (ai_len _ _ A) as Hl. rewrite sector_in, decide_True by lia. split; cbn [img freeblock].
  - by rewrite length_insert.
  - intros y Hy Hny. unfold fn_upd. case_decide; subst.
    + by rewrite list_lookup_insert_eq by lia.
    + rewrite list_lookup_insert_ne by lia. by apply A.
  - rewrite fn_upd_ne by done. apply A.
  - intros y. unfold fn_upd. case_decide; [done|apply A].
  - apply A.
  - intros y Hy. rewrite fn_upd_ne by lia. by apply (ai_zero _ _ A).
  - intros y Hy. rewrite fn_upd_ne by lia. by apply (ai_out _ _ A).
Qed.

(** * iappend() *)

(** The inode that the kernel makes of what is on disk. *)
Definition inode_of (di : dinode) : inode :=
  mk_inode ROOTDEV 0 0 (mk_sleeplock 0 0) 1 (d_type di) (d_major di) (d_minor di) (d_nlink di) (d_size di) (d_addrs di).

(** The file has its first [n] blocks, and an indirect block if [q]. *)
Definition shape (V : Z -> list Z) (i : inode) (n : Z) (q : bool) : Prop :=
  (forall bn, 0 <= bn < MAXFILE -> baddr V i bn <> 0 <-> bn < n) /\ (ind i <> 0 <-> q = true).

(** The blocks that a file of [off] bytes has. *)
Definition nblk (off : Z) : Z := (off + BSIZE - 1) / BSIZE.
Definition has_ind (off : Z) : bool := NDIRECT * BSIZE <? off.
Definition nb (off : Z) : Z := nblk off + (if has_ind off then 1 else 0).

(** What iappend_block() does to the file [din], now [din']; [n] blocks are
    taken from the free ones. *)
Record appended (s : mkst) (V : Z -> list Z) (din : dinode) (n : Z) (s' : mkst) (V' : Z -> list Z) (din' : dinode) : Prop := mk_appended {
  ap_img : at_img s' V';
  ap_fb : freeblock s' = freeblock s + n;
  ap_inum : freeinode s' = freeinode s;
  ap_grown : exists c, grown sb c V (inode_of din) V' (inode_of din');
  ap_din : din' = set_d_addrs (d_addrs din') din;
}.

Lemma appended_refl s V din : at_img s V -> file_ok V sb (inode_of din) -> appended s V din 0 s V din.
Proof.
  intros A F. destruct sb_values as (_ & _ & Ed & _). split; [done|lia|done| |by destruct din].
  exists 0. apply grown_refl; [lia|done|by eapply at_img_meta].
Qed.

Lemma appended_trans s V din n s1 V1 din1 n1 s2 V2 din2 :
  appended s V din n s1 V1 din1 -> appended s1 V1 din1 n1 s2 V2 din2 -> appended s V din (n + n1) s2 V2 din2.
Proof.
  intros [A1 B1 C1 [c1 G1] D1] [A2 B2 C2 [c2 G2] D2]. destruct sb_values as (_ & _ & Ed & _).
  split; [done|lia|congruence| |by rewrite D2, D1].
  exists (c1 + c2). eapply grown_trans; [lia|done|done].
Qed.

Lemma appended_ok s V din n s' V' din' : appended s V din n s' V' din' -> file_ok V' sb (inode_of din').
Proof. intros [_ _ _ [c G] _]. apply G. Qed.

Section step.
Context (s : mkst) (V : Z -> list Z) (din : dinode).
Context (A : at_img s V) (F : file_ok V sb (inode_of din)) (Hlt : freeblock s < FSSIZE).

Let a := freeblock s.
Let i := inode_of din.

Lemma next_pos : 0 < a < 2 ^ 31.
Proof. pose proof (ai_fb _ _ A) as Hf. change nmeta with 46 in Hf. unfold a, FSSIZE in *. lia. Qed.

Lemma append_direct fbn q :
  0 <= fbn < NDIRECT -> shape V i fbn q ->
  let din' := set_d_addrs (d_addrs din).[fbn <- xint a] din in
  exists s', next_block s = Some (a, s') /\ appended s V din 1 s' (allocated V sb a) din' /\
    shape (allocated V sb a) (inode_of din') (fbn + 1) q /\ baddr (allocated V sb a) (inode_of din') fbn = a.
Proof.
  intros Hfbn [Hs1 Hs2] din'. pose proof next_pos. destruct (next_block_run s V A Hlt) as (s' & E & A' & Hfb & Hin).
  assert (fbn < MAXFILE) as Hmax by (unfold MAXFILE, NINDIRECT, NDIRECT, BSIZE in *; zdm).
  assert (baddr V i fbn = 0) as Hz by (destruct (decide (baddr V i fbn = 0)) as [|Hn]; [done|]; apply Hs1 in Hn; lia).
  destruct (grown_direct 2 sb mkfs_geometry V i F (at_img_meta s V A) (ai_size _ _ A) a (at_img_first s V A Hlt)
    fbn (inode_of din') Hfbn Hz) as (Gr & Hb & Hi & Ho).
  { unfold din'. rewrite xint_id by lia. done. }
  exists s'. split_and!; [done| |split|done].
  - split; [done|done|done|by exists 1|done].
  - intros bn Hbn. destruct (decide (bn = fbn)) as [->|Hne]; [rewrite Hb; lia|]. rewrite Ho, Hs1 by lia. lia.
  - by rewrite Hi.
Qed.

Lemma append_ind n :
  shape V i n false ->
  let din' := set_d_addrs (d_addrs din).[NDIRECT <- xint a] din in
  exists s', next_block s = Some (a, s') /\ appended s V din 1 s' (allocated V sb a) din' /\
    shape (allocated V sb a) (inode_of din') n true /\ ind (inode_of din') = a.
Proof.
  intros [Hs1 Hs2] din'. pose proof next_pos. destruct (next_block_run s V A Hlt) as (s' & E & A' & Hfb & Hin).
  assert (ind i = 0) as Hz by (destruct (decide (ind i = 0)) as [|Hn]; [done|]; by apply Hs2 in Hn).
  destruct (grown_ind 2 sb mkfs_geometry V i F (at_img_meta s V A) (ai_size _ _ A) a (at_img_first s V A Hlt)
    (inode_of din') Hz) as (Gr & Hi & Ho).
  { unfold din'. rewrite xint_id by lia. done. }
  exists s'. split_and!; [done| |split|done].
  - split; [done|done|done|by exists 0|done].
  - intros bn Hbn. rewrite Ho by lia. by apply Hs1.
  - rewrite Hi. split; [done|]. lia.
Qed.

Lemma append_entry fbn :
  NDIRECT <= fbn < MAXFILE -> shape V i fbn true ->
  let d := stl32 (V (ind i)) (4 * (fbn - NDIRECT)) (xint a) in
  exists s1 s' V', next_block s = Some (a, s1) /\ wsect (ind i) d s1 = Some (tt, s') /\
    appended s V din 1 s' V' din /\ shape V' i (fbn + 1) true /\ baddr V' i fbn = a /\ ldl32 d (4 * (fbn - NDIRECT)) = a.
Proof.
  intros Hfbn [Hs1 Hs2] d. pose proof next_pos. destruct (next_block_run s V A Hlt) as (s1 & E & A1 & Hfb & Hin).
  destruct sb_values as (Es & Ebm & Ed & _).
  assert (ind i <> 0) as Hiz by (by apply Hs2). destruct (fo_ind _ _ _ F Hiz) as [Hir Hiu].
  rewrite (at_img_used s) in Hiu by (done || lia). b2p. fold i in Hir, Hiu.
  assert (baddr V i fbn = 0) as Hz.
  { destruct (decide (baddr V i fbn = 0)) as [|Hn]; [done|]. apply Hs1 in Hn; unfold NDIRECT in *; lia. }
  assert (allocated V sb a (ind i) = V (ind i)) as Hk.
  { apply (alloc_keep 2 sb mkfs_geometry V (at_img_meta s V A) a (at_img_first s V A Hlt)), F, Hiz. }
  destruct (wsect_run s1 _ (ind i) d A1) as (s' & E' & A' & Hfb' & Hin'); [lia|lia| |].
  { unfold d, stl32. rewrite length_stl. apply (ai_size _ _ A). }
  destruct (grown_entry 2 sb mkfs_geometry V i F (at_img_meta s V A) (ai_size _ _ A) a (at_img_first s V A Hlt)
    fbn _ Hfbn Hiz Hz eq_refl) as (Gr & Hb & Ho).
  assert (d = stl32 (allocated V sb a (ind i)) (4 * (fbn - NDIRECT)) a) as Ed'.
  { unfold d. rewrite xint_id by lia. by rewrite Hk. }
  rewrite <- Ed' in *. exists s1, s'. eexists. split_and!; [done|done| |split|exact Hb|].
  - split; [exact A'|lia|congruence|by exists 1|by destruct din].
  - intros bn Hbn. destruct (decide (bn = fbn)) as [->|Hne]; [rewrite Hb; lia|]. rewrite Ho, Hs1 by lia. lia.
  - done.
  - rewrite Ed'. rewrite ldl32_stl32_eq, u32_small; [done|lia|lia|]. rewrite Hk, (ai_size _ _ A).
    unfold MAXFILE, NINDIRECT, NDIRECT, BSIZE in *. zdm.
Qed.

End step.

Lemma in_use_range V x : in_use V sb x -> 46 <= x < FSSIZE.
Proof. destruct sb_values as (Es & _ & Ed & _). intros [Hx _]. lia. Qed.

Lemma baddr_xint V din bn : file_ok V sb (inode_of din) -> 0 <= bn < MAXFILE ->
  xint (baddr V (inode_of din) bn) = baddr V (inode_of din) bn.
Proof.
  intros F Hbn. destruct (decide (baddr V (inode_of din) bn = 0)) as [->|Hn]; [done|]. apply xint_id.
  apply (fo_data _ _ _ F) in Hn; [|done]. apply in_use_range in Hn. unfold FSSIZE in Hn. lia.
Qed.

Lemma ind_xint V din : file_ok V sb (inode_of din) -> xint (d_addrs din).[NDIRECT] = ind (inode_of din).
Proof.
  intros F. change (xint (ind (inode_of din)) = ind (inode_of din)).
  destruct (decide (ind (inode_of din) = 0)) as [->|Hn]; [done|]. apply xint_id.
  apply (fo_ind _ _ _ F) in Hn. apply in_use_range in Hn. unfold FSSIZE in Hn. lia.
Qed.

Section block.
Context (s : mkst) (V : Z -> list Z) (din : dinode).
Context (A : at_img s V) (F : file_ok V sb (inode_of din)).

Lemma iappend_direct_run fbn n :
  0 <= fbn < NDIRECT -> shape V (inode_of din) n false -> fbn <= n <= fbn + 1 ->
  freeblock s + (fbn + 1 - n) <= FSSIZE ->
  exists x s' V' din', iappend_block din fbn s = Some ((din', x), s') /\
    appended s V din (fbn + 1 - n) s' V' din' /\ shape V' (inode_of din') (fbn + 1) false /\
    baddr V' (inode_of din') fbn = x /\ x <> 0.
Proof.
  intros Hfbn Hs Hn Hroom. assert (fbn < MAXFILE) as Hmax by (unfold MAXFILE, NINDIRECT, NDIRECT, BSIZE in *; zdm).
  assert ((d_addrs din).[fbn] = baddr V (inode_of din) fbn) as Eb by (unfold baddr; by replace (fbn <? NDIRECT) with true by lia).
  pose proof (proj1 Hs fbn ltac:(lia)) as Hb. unfold iappend_block. replace (fbn <? NDIRECT) with true by lia.
  rewrite Eb, baddr_xint by (done || lia). destruct (baddr V (inode_of din) fbn =? 0) eqn:E0; b2p.
  - assert (n = fbn) as -> by lia.
    destruct (append_direct s V din A F ltac:(lia) fbn false Hfbn Hs) as (s' & E & Ap & Hs' & Hb').
    do 4 eexists. split_and!; [| |exact Hs'|exact Hb'|pose proof (next_pos s V A ltac:(lia)); lia].
    + eapply mbind_eq; [eapply mbind_eq; [exact E|reflexivity]|]. cbn [d_addrs set_d_addrs]. unfold mret. do 3 f_equal.
      pose proof (next_pos s V A ltac:(lia)). pose proof (fo_len _ _ _ F) as Hlen. cbn in Hlen.
      rewrite nth_lookup, list_lookup_insert_eq by (unfold NDIRECT in *; lia).
      cbn. rewrite !xint_id by (rewrite ?xint_id; lia). done.
    + by replace (fbn + 1 - fbn) with 1 by lia.
  - assert (n = fbn + 1) as -> by lia. exists (baddr V (inode_of din) fbn), s, V, din.
    split_and!; [|by rewrite Z.sub_diag; apply appended_refl|done|done|done].
    eapply mbind_eq; [reflexivity|]. cbv beta. by rewrite Eb, baddr_xint by (done || lia).
Qed.

Definition iappend_ind : MM dinode :=
  if xint (d_addrs din).[NDIRECT] =? 0 then
    let! b := next_block in
    mret (set_d_addrs (d_addrs din).[NDIRECT <- xint b] din)
  else mret din.

Lemma iappend_ind_run n q :
  shape V (inode_of din) n q -> freeblock s + (if q then 0 else 1) <= FSSIZE ->
  exists s' V' din', iappend_ind s = Some (din', s') /\
    appended s V din (if q then 0 else 1) s' V' din' /\ shape V' (inode_of din') n true.
Proof.
  intros Hs Hroom. unfold iappend_ind. rewrite (ind_xint V) by done. destruct (proj2 Hs) as [H1 H2].
  destruct (ind (inode_of din) =? 0) eqn:E0; b2p.
  - destruct q; [by destruct H2|]. destruct (append_ind s V din A F ltac:(lia) n Hs) as (s' & E & Ap & Hs' & _).
    do 3 eexists. split_and!; [eapply mbind_eq; [exact E|reflexivity]|exact Ap|exact Hs'].
  - destruct q; [|by apply H1 in E0]. exists s, V, din. split_and!; [done|by apply appended_refl|done].
Qed.

Definition iappend_entry (fbn : Z) : MM (dinode * Z) :=
  let! indirect := rsect (xint (d_addrs din).[NDIRECT]) in
  let! indirect :=
    (if ldl32 indirect (4 * (fbn - NDIRECT)) =? 0 then
       let! b := next_block in
       let indirect := stl32 indirect (4 * (fbn - NDIRECT)) (xint b) in
       wsect (xint (d_addrs din).[NDIRECT]) indirect ;!
       mret indirect
     else mret indirect) in
  mret (din, xint (ldl32 indirect (4 * (fbn - NDIRECT)))).

Lemma iappend_entry_run fbn n :
  NDIRECT <= fbn < MAXFILE -> shape V (inode_of din) n true -> fbn <= n <= fbn + 1 ->
  freeblock s + (fbn + 1 - n) <= FSSIZE ->
  exists x s' V', iappend_entry fbn s = Some ((din, x), s') /\
    appended s V din (fbn + 1 - n) s' V' din /\ shape V' (inode_of din) (fbn + 1) true /\
    baddr V' (inode_of din) fbn = x /\ x <> 0.
Proof.
  intros Hfbn Hs Hn Hroom. destruct sb_values as (Es & Ebm & Ed & _).
  assert (0 <= fbn) as H0 by (unfold NDIRECT in *; lia).
  assert (ind (inode_of din) <> 0) as Hi by (by apply Hs). pose proof (fo_ind _ _ _ F Hi) as Hir. apply in_use_range in Hir.
  assert (baddr V (inode_of din) fbn = ldl32 (V (ind (inode_of din))) (4 * (fbn - NDIRECT))) as Eb.
  { unfold baddr. replace (fbn <? NDIRECT) with false by lia. by rewrite (proj2 (Z.eqb_neq _ _) Hi). }
  pose proof (proj1 Hs fbn ltac:(lia)) as Hb. rewrite Eb in Hb.
  unfold iappend_entry. rewrite (ind_xint V) by done.
  pose proof (rsect_run s V (ind (inode_of din)) A ltac:(lia) ltac:(lia)) as Er.
  destruct (ldl32 (V (ind (inode_of din))) (4 * (fbn - NDIRECT)) =? 0) eqn:E0; b2p.
  - assert (n = fbn) as -> by lia. pose proof (next_pos s V A ltac:(lia)) as Hp.
    destruct (append_entry s V din A F ltac:(lia) fbn Hfbn Hs) as (s1 & s' & V' & E1 & E2 & Ap & Hs' & Hb' & Hl).
    exists (freeblock s), s', V'. split_and!; [|by replace (fbn + 1 - fbn) with 1 by lia|done|done|lia].
    eapply mbind_eq; [exact Er|]. eapply mbind_eq.
    { rewrite E0. cbn [Z.eqb]. eapply mbind_eq; [exact E1|]. cbv zeta. eapply mbind_eq; [exact E2|reflexivity]. }
    unfold mret. cbv beta. rewrite Hl, xint_id by lia. done.
  - assert (n = fbn + 1) as -> by lia. exists (baddr V (inode_of din) fbn), s, V.
    split_and!; [|by rewrite Z.sub_diag; apply appended_refl|done|done|by rewrite Eb].
    eapply mbind_eq; [exact Er|]. rewrite (proj2 (Z.eqb_neq _ _) E0). eapply mbind_eq; [reflexivity|].
    unfold mret. cbv beta. rewrite <- Eb, baddr_xint by (done || lia). done.
Qed.

End block.

(** The block for byte [off] of the file, up to [off'] in the same block. *)
Lemma iappend_block_run s V din off off' :
  at_img s V -> file_ok V sb (inode_of din) -> shape V (inode_of din) (nblk off) (has_ind off) ->
  0 <= off < off' -> off' <= (off / BSIZE + 1) * BSIZE -> off < MAXFILE * BSIZE ->
  freeblock s + (nb off' - nb off) <= FSSIZE ->
  exists x s' V' din', iappend_block din (off / BSIZE) s = Some ((din', x), s') /\
    appended s V din (nb off' - nb off) s' V' din' /\ shape V' (inode_of din') (nblk off') (has_ind off') /\
    baddr V' (inode_of din') (off / BSIZE) = x /\ x <> 0.
Proof.
  intros A F Hs Hoff Hoff' Hmax Hroom. set (fbn := off / BSIZE) in *. pose proof (off_block off ltac:(lia)) as Hfbn. fold fbn in Hfbn.
  assert (fbn <= nblk off <= fbn + 1 /\ nblk off' = fbn + 1) as [Hn En] by (unfold nblk, fbn, BSIZE in *; zdm).
  unfold nb in *. rewrite En in *. destruct (decide (fbn < NDIRECT)) as [Hd|Hd].
  - assert (has_ind off = false /\ has_ind off' = false) as [E1 E2].
    { unfold has_ind. rewrite !Z.ltb_ge. unfold fbn, BSIZE, NDIRECT in *. zdm. }
    rewrite E1, E2, !Z.add_0_r in *. apply iappend_direct_run; done || lia.
  - assert (has_ind off' = true) as E2 by (unfold has_ind; rewrite Z.ltb_lt; unfold fbn, BSIZE, NDIRECT in *; zdm).
    rewrite E2 in *. destruct (iappend_ind_run s V din A F (nblk off) (has_ind off) Hs) as (s1 & V1 & din1 & E & Ap1 & Hs1).
    { destruct (has_ind off); lia. }
    pose proof (ap_fb _ _ _ _ _ _ _ Ap1) as Hfb.
    destruct (iappend_entry_run s1 V1 din1 (ap_img _ _ _ _ _ _ _ Ap1) (appended_ok _ _ _ _ _ _ _ Ap1) fbn (nblk off))
      as (x & s2 & V2 & E' & Ap2 & Hs2 & Hb & Hx); [lia|done|lia|destruct (has_ind off); lia|].
    exists x, s2, V2, din1. split_and!; [| |done|done|done].
    + unfold iappend_block. replace (fbn <? NDIRECT) with false by lia. eapply mbind_eq; [exact E|exact E'].
    + pose proof (appended_trans _ _ _ _ _ _ _ _ _ _ _ Ap1 Ap2) as Ap.
      by replace (fbn + 1 + 1 - (nblk off + (if has_ind off then 1 else 0))) with ((if has_ind off then 0 else 1) + (fbn + 1 - nblk off))
        by (destruct (has_ind off); lia).
Qed.

(** Appending [p] at [off] to the file [din]. *)
Record appends (off : Z) (p : list Z) (s : mkst) (V : Z -> list Z) (din : dinode) (s' : mkst) (V' : Z -> list Z) (din' : dinode) : Prop := mk_appends {
  as_img : at_img s' V';
  as_fb : freeblock s' = freeblock s + (nb (off + Z.of_nat (length p)) - nb off);
  as_inum : freeinode s' = freeinode s;
  as_wrote : wrote sb off p V (inode_of din) V' (inode_of din');
  as_din : din' = set_d_addrs (d_addrs din') din;
  as_shape : shape V' (inode_of din') (nblk (off + Z.of_nat (length p))) (has_ind (off + Z.of_nat (length p)));
}.

Lemma iappend_turn s V din off m bs :
  at_img s V -> file_ok V sb (inode_of din) -> shape V (inode_of din) (nblk off) (has_ind off) ->
  0 <= off -> off < MAXFILE * BSIZE -> 0 < m <= BSIZE - off mod BSIZE -> length bs = Z.to_nat m ->
  freeblock s + (nb (off + m) - nb off) <= FSSIZE ->
  exists x s1 V1 din' s', iappend_block din (off / BSIZE) s = Some ((din', x), s1) /\
    rsect x s1 = Some (V1 x, s1) /\ wsect x (stl (V1 x) (off mod BSIZE) bs) s1 = Some (tt, s') /\
    appends off bs s V din s' (fn_upd V1 x (stl (V1 x) (off mod BSIZE) bs)) din'.
Proof.
  intros A F Hs Hoff Hmax Hm Hlen Hroom. destruct sb_values as (Es & Ebm & Ed & _).
  assert (off + m <= (off / BSIZE + 1) * BSIZE) as Hle by (unfold BSIZE in *; zdm).
  destruct (iappend_block_run s V din off (off + m) A F Hs) as (x & s1 & V1 & din' & E1 & Ap & Hs1 & Hb & Hx); [lia|done|done|done|].
  destruct Ap as [A1 Hfb Hin [c Gr] Hd]. pose proof (off_block off ltac:(lia)) as Hbn.
  pose proof (ex_ok _ _ _ _ _ (gr_ext _ _ _ _ _ _ Gr)) as F1.
  destruct (fo_data _ _ _ F1 _ Hbn ltac:(by rewrite Hb)) as [Hxr Hxu]. rewrite Hb in Hxr, Hxu.
  rewrite (at_img_used s1) in Hxu by (done || lia). b2p.
  destruct (wsect_run s1 V1 x (stl (V1 x) (off mod BSIZE) bs) A1) as (s' & E3 & A3 & Hfb3 & Hin3); [lia|lia| |].
  { rewrite length_stl. apply (ai_size _ _ A1). }
  pose proof (wrote_store 2 sb V1 (inode_of din') off bs mkfs_geometry F1 (at_img_meta _ _ A1) (ai_size _ _ A1)
    ltac:(lia) ltac:(lia)) as W. cbv zeta in W. rewrite Hb in W. specialize (W Hx).
  exists x, s1, V1, din', s'. split_and!; [done|by apply rsect_run; [|lia|lia]|done|].
  split; rewrite ?Hlen; replace (Z.of_nat (Z.to_nat m)) with m by lia.
  - exact A3.
  - by rewrite Hfb3, Hfb.
  - congruence.
  - eapply grown_wrote; [lia|exact Gr|exact W].
  - exact Hd.
  - destruct Hs1 as [H1 H2].
    pose proof (store_baddr sb V1 (inode_of din') F1 _ (stl (V1 x) (off mod BSIZE) bs) Hbn ltac:(by rewrite Hb)) as Hsb.
    rewrite Hb in Hsb. split; [|done]. intros bn Hr. rewrite Hsb. by apply H1.
Qed.

Lemma appends_trans off p1 p2 s V din s1 V1 din1 s2 V2 din2 :
  0 <= off -> off + Z.of_nat (length (p1 ++ p2)) <= MAXFILE * BSIZE ->
  appends off p1 s V din s1 V1 din1 -> appends (off + Z.of_nat (length p1)) p2 s1 V1 din1 s2 V2 din2 ->
  appends off (p1 ++ p2) s V din s2 V2 din2.
Proof.
  intros H0 Hm [A1 B1 C1 W1 D1 S1] [A2 B2 C2 W2 D2 S2]. destruct sb_values as (_ & _ & Ed & _).
  assert (off + Z.of_nat (length p1) + Z.of_nat (length p2) = off + Z.of_nat (length (p1 ++ p2))) as E by (rewrite length_app; lia).
  rewrite E in B2, S2. split.
  - exact A2.
  - lia.
  - congruence.
  - eapply wrote_trans; [lia|done|done|exact W1|exact W2].
  - by rewrite D2, D1.
  - exact S2.
Qed.

Lemma nb_mono a b : 0 <= a <= b -> nb a <= nb b.
Proof.
  intros H. unfold nb, nblk, has_ind. destruct (NDIRECT * BSIZE <? a) eqn:E1, (NDIRECT * BSIZE <? b) eqn:E2; b2p;
    unfold BSIZE in *; zdm.
Qed.

Lemma iappend_loop_run fuel : forall s V din off p,
  (length p <= fuel)%nat ->
  at_img s V -> file_ok V sb (inode_of din) -> shape V (inode_of din) (nblk off) (has_ind off) ->
  0 <= off -> off + Z.of_nat (length p) <= MAXFILE * BSIZE ->
  freeblock s + (nb (off + Z.of_nat (length p)) - nb off) <= FSSIZE ->
  exists s' V' din', iappend_loop fuel din off p s = Some ((din', off + Z.of_nat (length p)), s') /\
    appends off p s V din s' V' din'.
Proof.
  induction fuel as [|fuel IH]; intros s V din off p Hf A F Hs Hoff Hmax Hroom; destruct sb_values as (_ & _ & Ed & _).
  all: destruct p as [|b p].
  1,3: exists s, V, din; cbn [length iappend_loop] in *; rewrite Z.add_0_r in *; (split; [done|]);
    split; cbn [length]; rewrite ?Z.add_0_r; [done|lia|done|apply wrote_nil; [lia|done|by eapply at_img_meta]|by destruct din|done].
  - cbn in Hf. lia.
  - cbn [iappend_loop]. remember (b :: p) as bs eqn:Ebs. assert (0 < length bs)%nat as Hpos by (subst; cbn; lia). clear b p Ebs.
    assert (0 <= off mod BSIZE < BSIZE) as Hmod by (unfold BSIZE; zdm).
    pose proof (off_block off ltac:(lia)) as Hbn. replace (off / BSIZE <? MAXFILE) with true by lia.
    set (n1 := Z.min (Z.of_nat (length bs)) (BSIZE - off mod BSIZE)).
    assert (Z.min (Z.of_nat (length bs)) (u32 ((off / BSIZE + 1) * BSIZE - off)) = n1) as En.
    { unfold n1. f_equal. rewrite u32_small; unfold BSIZE in *; zdm. }
    assert (length (take (Z.to_nat n1) bs) = Z.to_nat n1) as Hl1 by (rewrite length_take; lia).
    assert (Z.of_nat (Z.to_nat n1) = n1) as Hn1 by lia.
    pose proof (nb_mono (off + n1) (off + Z.of_nat (length bs)) ltac:(lia)) as Hmono.
    destruct (iappend_turn s V din off n1 (take (Z.to_nat n1) bs) A F Hs Hoff) as (x & s1 & V1 & din' & s2 & E1 & E2 & E3 & Ap);
      [lia|lia|done|lia|].
    pose proof (as_fb _ _ _ _ _ _ _ _ Ap) as Hfb. pose proof (as_shape _ _ _ _ _ _ _ _ Ap) as Hs2. rewrite Hl1, Hn1 in Hfb, Hs2.
    destruct (IH s2 _ din' (off + n1) (drop (Z.to_nat n1) bs) ltac:(rewrite length_drop; lia) (as_img _ _ _ _ _ _ _ _ Ap)
      (ex_ok _ _ _ _ _ (wr_ext _ _ _ _ _ _ _ (as_wrote _ _ _ _ _ _ _ _ Ap))) Hs2) as (s3 & V3 & din3 & E4 & Ap3); [lia|rewrite length_drop; lia| |].
    { rewrite length_drop. replace (off + n1 + Z.of_nat (length bs - Z.to_nat n1)) with (off + Z.of_nat (length bs)) by lia. lia. }
    exists s3, V3, din3. split.
    + destruct bs as [|b0 bs0] eqn:Eq; [cbn in Hpos; lia|]. rewrite <- Eq in *.
      eapply mbind_eq; [exact E1|]. cbv beta iota zeta. rewrite En. eapply mbind_eq; [exact E2|].
      replace (off - off / BSIZE * BSIZE) with (off mod BSIZE) by (unfold BSIZE; zdm). eapply mbind_eq; [exact E3|].
      rewrite u32_small by (unfold MAXFILE, NINDIRECT, NDIRECT, BSIZE in *; zdm). rewrite E4. do 3 f_equal. rewrite length_drop. lia.
    + rewrite <- (take_drop (Z.to_nat n1) bs). eapply appends_trans; [done|by rewrite take_drop|exact Ap|].
      by rewrite Hl1, Hn1.
Qed.

(** * The files of the image *)

Definition dinode_at (V : Z -> list Z) (inum : Z) : dinode := dinode_of (V (IBLOCK inum sb)) (slot inum).
Definition file_at (V : Z -> list Z) (inum : Z) : inode := inode_of (dinode_at V inum).

Lemma inode_dinode_of di : inode_dinode (inode_of di) = di.
Proof. by destruct di. Qed.

(** Inode [inum] is a file of type [t] with contents [c]. *)
Record file_is (V : Z -> list Z) (inum t : Z) (c : list Z) : Prop := mk_file_is {
  fi_ok : file_ok V sb (file_at V inum);
  fi_type : i_type (file_at V inum) = t;
  fi_nlink : i_nlink (file_at V inum) = 1;
  fi_size : i_size (file_at V inum) = Z.of_nat (length c);
  fi_max : Z.of_nat (length c) <= MAXFILE * BSIZE;
  fi_content : content V (file_at V inum) = c;
  fi_shape : shape V (file_at V inum) (nblk (Z.of_nat (length c))) (has_ind (Z.of_nat (length c)));
  fi_zero : forall x, Z.of_nat (length c) <= x < MAXFILE * BSIZE -> fbyte V (file_at V inum) x = 0;
  fi_dinode : dinode_ok (dinode_at V inum);
}.

Lemma content_ext V V' i i' : i_size i' = i_size i -> i_size i <= MAXFILE * BSIZE ->
  (forall x, 0 <= x < MAXFILE * BSIZE -> fbyte V' i' x = fbyte V i x) -> content V' i' = content V i.
Proof.
  intros Hs Hm H. apply list_eq. intros j. rewrite !content_lookup, Hs. case_decide; [|done]. by rewrite H by lia.
Qed.

(** A change that leaves the inode and its blocks alone. *)
Lemma file_is_kept V V' inum t c :
  dinode_at V' inum = dinode_at V inum ->
  (forall x, owns V (file_at V inum) x -> V' x = V x /\ in_use V' sb x) -> file_is V inum t c ->
  file_is V' inum t c /\ forall x, owns V' (file_at V' inum) x <-> owns V (file_at V inum) x.
Proof.
  intros Hd Hk [F T N S M Cc Sh Z0 D]. unfold file_at in *. rewrite Hd. set (i := inode_of (dinode_at V inum)) in *.
  pose proof (kept_fbyte sb V V' i i Hk eq_refl) as Hb. split; [|intros; by apply (kept_owns sb V V' i i Hk eq_refl)].
  assert (file_at V' inum = i) as Ei by (unfold file_at; by rewrite Hd).
  split; rewrite ?Ei, ?Hd; try done.
  - by apply (kept_file_ok sb V V' i i).
  - rewrite <- Cc. apply content_ext; [done|lia|done].
  - destruct Sh as [H1 H2]. split; [|done]. intros bn Hbn. rewrite (kept_baddr sb V V' i i Hk eq_refl). by apply H1.
  - intros x Hx. rewrite Hb by lia. by apply Z0.
Qed.

Lemma inum_block inum : 0 <= inum < 200 -> 32 <= IBLOCK inum sb < 45 /\ 0 <= slot inum /\ slot inum + 64 <= BSIZE.
Proof.
  intros Hi. destruct sb_values as (_ & Eb & _ & Ei & En & _).
  destruct (iblock_range 2 sb inum mkfs_geometry ltac:(lia)) as (_ & ? & _). destruct (slot_range inum). lia.
Qed.

(** Inode [inum] on [V] is now [di] on [V']. *)
Record inode_set (V : Z -> list Z) (inum : Z) (di : dinode) (V' : Z -> list Z) : Prop := mk_inode_set {
  is_at : dinode_at V' inum = di;
  is_other : forall j, 0 <= j < 200 -> j <> inum -> dinode_at V' j = dinode_at V j;
  is_high : forall x, sb_bmapstart sb <= x -> V' x = V x;
  is_low : forall x, x < sb_inodestart sb -> V' x = V x;
}.

Lemma winode_run s V inum di : at_img s V -> 0 <= inum < 200 -> dinode_ok di ->
  exists s' V', winode inum di s = Some (tt, s') /\ at_img s' V' /\ inode_set V inum di V' /\
    freeblock s' = freeblock s /\ freeinode s' = freeinode s.
Proof.
  intros A Hi Hd. destruct sb_values as (Es & Eb & Ed & Ei & En & Em). destruct (inum_block inum Hi) as (Hib & Hs1 & Hs2).
  pose proof (ai_fb _ _ A) as Hf. rewrite Em in Hf. set (ib := IBLOCK inum sb) in *.
  destruct (wsect_run s V ib (stl (V ib) (slot inum) (dinode_bytes di)) A) as (s' & E & A' & Hfb & Hin); [lia|lia| |].
  { rewrite length_stl. apply (ai_size _ _ A). }
  exists s'. eexists. split_and!; [|exact A'| |done|done].
  - unfold winode. eapply mbind_eq; [apply (rsect_run s V); [done|unfold FSSIZE; lia|lia]|]. exact E.
  - split.
    + unfold dinode_at. fold ib. rewrite fn_upd_eq. apply dinode_of_stored; [done|lia|]. rewrite (ai_size _ _ A). unfold BSIZE in *. lia.
    + intros j Hj Hne. unfold dinode_at. destruct (decide (IBLOCK j sb = ib)) as [E'|E'].
      * rewrite E', fn_upd_eq. apply dinode_of_other; [by apply dinode_of_bytes|lia|apply slot_range|].
        destruct (slot_apart 2 sb j inum mkfs_geometry) as [?|?]; lia || done.
      * by rewrite fn_upd_ne.
    + intros x Hx. apply fn_upd_ne. lia.
    + intros x Hx. apply fn_upd_ne. lia.
Qed.

Lemma rinode_run s V inum : at_img s V -> 0 <= inum < 200 -> rinode inum s = Some (dinode_at V inum, s).
Proof.
  intros A Hi. destruct sb_values as (Es & Eb & _). destruct (inum_block inum Hi) as (Hib & _).
  unfold rinode. eapply mbind_eq; [apply (rsect_run s V); [done|unfold FSSIZE; lia|lia]|done].
Qed.

Definition super_block : list Z := stl zeros 0 (superblock_bytes sb).

(** The number of blocks that the files have. *)
Definition blocks_of (files : list (Z * list Z)) : Z :=
  foldr (fun f n => nb (Z.of_nat (length f.2)) + n) 0 files.

(** The state of mkfs with the files [files], given by type and contents, in
    the order of their inodes. *)
Record fs_inv (s : mkst) (V : Z -> list Z) (files : list (Z * list Z)) : Prop := mk_fs_inv {
  fv_img : at_img s V;
  fv_inum : freeinode s = Z.of_nat (length files) + 1;
  fv_max : Z.of_nat (length files) < NINODES;
  fv_file : forall j t c, files !! j = Some (t, c) -> file_is V (Z.of_nat j + 1) t c;
  fv_apart : forall j j' x, (j < length files)%nat -> (j' < length files)%nat -> j <> j' ->
    owns V (file_at V (Z.of_nat j + 1)) x -> ~ owns V (file_at V (Z.of_nat j' + 1)) x;
  fv_owned : forall x, nmeta <= x < freeblock s -> exists j, (j < length files)%nat /\ owns V (file_at V (Z.of_nat j + 1)) x;
  fv_fb : freeblock s = nmeta + blocks_of files;
  fv_super : V 1 = super_block;
  fv_log : forall x, 2 <= x < 32 -> V x = zeros;
}.

Lemma blocks_of_cons f files : blocks_of (f :: files) = nb (Z.of_nat (length f.2)) + blocks_of files.
Proof. done. Qed.

Lemma blocks_of_insert files j f f' : files !! j = Some f ->
  blocks_of (<[j := f']> files) = blocks_of files + (nb (Z.of_nat (length f'.2)) - nb (Z.of_nat (length f.2))).
Proof.
  revert j. induction files as [|g files IH]; intros [|j] H; try discriminate H.
  - injection H as ->. change (<[0%nat := f']> (f :: files)) with (f' :: files). rewrite !blocks_of_cons. lia.
  - change (<[S j := f']> (g :: files)) with (g :: <[j := f']> files). rewrite !blocks_of_cons, (IH j H). lia.
Qed.

Lemma blocks_of_app fs1 fs2 : blocks_of (fs1 ++ fs2) = blocks_of fs1 + blocks_of fs2.
Proof. induction fs1 as [|f fs1 IH]; [done|]. cbn [app]. rewrite !blocks_of_cons, IH. lia. Qed.

Lemma inum_range s V files j : fs_inv s V files -> (j < length files)%nat -> 0 <= Z.of_nat j + 1 < 200.
Proof. intros I H. pose proof (fv_max _ _ _ I). unfold NINODES in *. lia. Qed.

Section iappend.
Context (s : mkst) (V : Z -> list Z) (files : list (Z * list Z)) (I : fs_inv s V files).
Context (j : nat) (t : Z) (c p : list Z) (Hj : files !! j = Some (t, c)).

Let inum := Z.of_nat j + 1.
Let i := file_at V inum.

Context (s1 s2 : mkst) (V1 V2 : Z -> list Z) (din1 : dinode).
Context (Ap : appends (Z.of_nat (length c)) p s V (dinode_at V inum) s1 V1 din1).

Let di' := set_d_size (Z.of_nat (length (c ++ p))) din1.

Context (A2 : at_img s2 V2) (Is : inode_set V1 inum di' V2).

Lemma iappend_owns x : owns V2 (file_at V2 inum) x <-> owns V1 (inode_of din1) x.
Proof.
  pose proof (ex_ok _ _ _ _ _ (wr_ext _ _ _ _ _ _ _ (as_wrote _ _ _ _ _ _ _ _ Ap))) as F1.
  unfold file_at. rewrite (is_at _ _ _ _ Is).
  apply (kept_owns sb V1 V2 (inode_of din1)); [|done].
  intros y Hy. eapply high_kept; [apply mkfs_geometry|apply Is|exact F1|done].
Qed.

(** The file itself. *)
Lemma iappend_file : Z.of_nat (length (c ++ p)) <= MAXFILE * BSIZE -> dinode_ok di' -> file_is V2 inum t (c ++ p).
Proof.
  intros Hmax Hdi. destruct (fv_file _ _ _ I _ _ _ Hj) as [F T N S M Cc Sh Z0 D]. fold inum i in F, T, N, S, Cc, Sh, Z0.
  destruct Ap as [A1 B1 C1 W Di Sh1]. change (inode_of (dinode_at V inum)) with i in W. destruct W as [X1 X2 X3 X4 X5].
  assert (file_at V2 inum = inode_of di') as Ei by (unfold file_at; by rewrite (is_at _ _ _ _ Is)).
  assert (forall x, owns V1 (inode_of din1) x -> V2 x = V1 x /\ in_use V2 sb x) as Hk.
  { intros x Hx. eapply high_kept; [apply mkfs_geometry|apply Is|apply X1|done]. }
  assert (forall x, 0 <= x < MAXFILE * BSIZE -> fbyte V2 (inode_of di') x = patched (fbyte V i) (Z.of_nat (length c)) p x) as Hb.
  { intros x Hx. rewrite (kept_fbyte sb V1 V2 (inode_of din1) (inode_of di') Hk eq_refl) by done. by apply X3. }
  rewrite length_app in Hmax. split; rewrite ?Ei.
  - by apply (kept_file_ok sb V1 V2 (inode_of din1)); [apply X1|..].
  - rewrite <- T. unfold di'. rewrite Di. done.
  - rewrite <- N. unfold di'. rewrite Di. done.
  - done.
  - by rewrite length_app.
  - rewrite (content_patched V i V2 (inode_of di') (Z.of_nat (length c)) p); [|lia| | |exact Hb].
    + rewrite Nat2Z.id, Cc, firstn_all, drop_ge, app_nil_r by lia. done.
    + unfold di'. cbn [i_size inode_of set_d_size d_size]. rewrite S, length_app. lia.
    + unfold di'. cbn [i_size inode_of set_d_size d_size]. rewrite length_app. lia.
  - rewrite length_app, Nat2Z.inj_add. destruct Sh1 as [H1 H2]. split; [|done].
    intros bn Hbn. rewrite (kept_baddr sb V1 V2 (inode_of din1) (inode_of di') Hk eq_refl). by apply H1.
  - intros x Hx. rewrite length_app in Hx. rewrite Hb, patched_out by lia. apply Z0. lia.
  - by rewrite (is_at _ _ _ _ Is).
Qed.

(** The other files. *)
Lemma iappend_others j' : (j' < length files)%nat -> j' <> j ->
  dinode_at V2 (Z.of_nat j' + 1) = dinode_at V (Z.of_nat j' + 1) /\
  forall x, owns V (file_at V (Z.of_nat j' + 1)) x ->
    V2 x = V x /\ in_use V2 sb x /\ ~ owns V1 (inode_of din1) x.
Proof.
  intros Hj' Hne. apply lookup_lt_Some in Hj as Hjl. destruct sb_values as (Es & Eb & Ed & Ei & En & Em).
  pose proof (wr_ext _ _ _ _ _ _ _ (as_wrote _ _ _ _ _ _ _ _ Ap)) as X. split.
  - rewrite (is_other _ _ _ _ Is) by ((by eapply inum_range) || (unfold inum; lia)).
    unfold dinode_at. rewrite (ex_low _ _ _ _ _ X); [done|]. destruct (inum_block _ (inum_range _ _ _ j' I Hj')). lia.
  - intros x Hx. destruct (lookup_lt_is_Some_2 _ _ Hj') as [[t' c'] Hf].
    pose proof (owns_in_use _ _ _ _ (fi_ok _ _ _ _ (fv_file _ _ _ I _ _ _ Hf)) Hx) as Hu.
    assert (~ owns V i x) as Hn by (by eapply (fv_apart _ _ _ I j' j)).
    destruct (ex_other _ _ _ _ _ X x Hu Hn) as [Hv Hn1]. destruct Hu as [Hr Hu].
    assert (block_used V1 sb x = true) as Hu1 by (apply (ex_used _ _ _ _ _ X); [lia|by left]).
    rewrite (is_high _ _ _ _ Is) by lia. split_and!; [done| |done]. split; [done|].
    rewrite (high_used 2 sb mkfs_geometry V1 V2) by (apply Is || lia). done.
Qed.

Lemma iappend_inv : Z.of_nat (length (c ++ p)) <= MAXFILE * BSIZE -> dinode_ok di' ->
  freeblock s2 = freeblock s1 -> freeinode s2 = freeinode s1 -> fs_inv s2 V2 (<[j := (t, c ++ p)]> files).
Proof.
  intros Hmax Hdi Hfb Hin. apply lookup_lt_Some in Hj as Hjl. destruct sb_values as (Es & Eb & Ed & Ei & En & Em).
  pose proof (wr_ext _ _ _ _ _ _ _ (as_wrote _ _ _ _ _ _ _ _ Ap)) as X.
  assert (forall j', (j' < length files)%nat -> j' <> j -> forall t' c', files !! j' = Some (t', c') ->
    file_is V2 (Z.of_nat j' + 1) t' c' /\
    forall x, owns V2 (file_at V2 (Z.of_nat j' + 1)) x <-> owns V (file_at V (Z.of_nat j' + 1)) x) as Ho.
  { intros j' Hj' Hne t' c' Hf. destruct (iappend_others j' Hj' Hne) as [Hd Hk].
    apply (file_is_kept V V2); [done| |by apply (fv_file _ _ _ I)]. intros x Hx. by destruct (Hk x Hx) as (? & ? & _). }
  assert (forall j' x, (j' < length files)%nat -> j' <> j -> owns V2 (file_at V2 (Z.of_nat j' + 1)) x -> ~ owns V2 (file_at V2 inum) x) as Hap.
  { intros j' x Hj' Hne Hx. destruct (lookup_lt_is_Some_2 _ _ Hj') as [[t' c'] Hf]. rewrite iappend_owns.
    apply (proj2 (Ho j' Hj' Hne t' c' Hf)) in Hx. by apply (iappend_others j' Hj' Hne). }
  split; rewrite ?length_insert.
  - done.
  - rewrite Hin, (as_inum _ _ _ _ _ _ _ _ Ap). apply I.
  - apply I.
  - intros j' t' c' Hf. rewrite list_lookup_insert in Hf. case_decide as D.
    + injection Hf as <- <-. destruct D as [<- _]. by apply iappend_file.
    + apply Ho; [by eapply lookup_lt_Some|intros ->; tauto|done].
  - intros j1 j2 x H1 H2 Hne. destruct (decide (j1 = j)) as [->|N1]; [|destruct (decide (j2 = j)) as [->|N2]].
    + intros Hx Hx'. by apply (Hap j2 x).
    + by apply Hap.
    + destruct (lookup_lt_is_Some_2 _ _ H1) as [[t1 c1] F1], (lookup_lt_is_Some_2 _ _ H2) as [[t2 c2] F2].
      rewrite (proj2 (Ho j1 H1 N1 _ _ F1)), (proj2 (Ho j2 H2 N2 _ _ F2)). by apply (fv_apart _ _ _ I).
  - intros x Hx. pose proof (ai_fb _ _ (as_img _ _ _ _ _ _ _ _ Ap)) as Hf1. rewrite Hfb in Hx.
    assert (block_used V1 sb x = true) as Hu by (rewrite (at_img_used s1); [lia|apply Ap|lia]).
    apply (ex_used _ _ _ _ _ X) in Hu as [Hu|Hu]; [|exists j; by rewrite <- iappend_owns in Hu|lia].
    rewrite (at_img_used s) in Hu by (apply I || lia). b2p.
    destruct (fv_owned _ _ _ I x ltac:(lia)) as (j' & Hj' & Hx'). exists j'. split; [done|].
    destruct (decide (j' = j)) as [->|Hne]; [by apply iappend_owns, X|].
    destruct (lookup_lt_is_Some_2 _ _ Hj') as [[t' c'] Hf]. by apply (proj2 (Ho j' Hj' Hne t' c' Hf)).
  - rewrite Hfb, (as_fb _ _ _ _ _ _ _ _ Ap), (blocks_of_insert _ _ _ _ Hj), (fv_fb _ _ _ I). cbn [snd].
    rewrite length_app, Nat2Z.inj_add. lia.
  - rewrite (is_low _ _ _ _ Is), (ex_low _ _ _ _ _ X) by lia. apply I.
  - intros x Hx. rewrite (is_low _ _ _ _ Is), (ex_low _ _ _ _ _ X) by lia. by apply (fv_log _ _ _ I).
Qed.

End iappend.

(** iappend() appends to the file, if there is room for the blocks. *)
Lemma iappend_run s V files j t c p :
  fs_inv s V files -> files !! j = Some (t, c) -> Z.of_nat (length (c ++ p)) <= MAXFILE * BSIZE ->
  nmeta + blocks_of (<[j := (t, c ++ p)]> files) <= FSSIZE ->
  exists s' V', iappend (Z.of_nat j + 1) p s = Some (tt, s') /\ fs_inv s' V' (<[j := (t, c ++ p)]> files).
Proof.
  intros I Hj Hmax Hroom. apply lookup_lt_Some in Hj as Hjl. pose proof (inum_range s V files j I Hjl) as Hi.
  destruct (fv_file _ _ _ I _ _ _ Hj) as [F T N S M Cc Sh Z0 D]. pose proof (fv_img _ _ _ I) as A.
  assert (MAXFILE * BSIZE < 2 ^ 31) as H31 by done.
  rewrite (blocks_of_insert _ _ _ _ Hj) in Hroom. cbn [snd] in Hroom.
  rewrite length_app, Nat2Z.inj_add in Hmax, Hroom.
  destruct (iappend_loop_run (length p) s V (dinode_at V (Z.of_nat j + 1)) (Z.of_nat (length c)) p) as (s1 & V1 & din1 & E1 & Ap);
    try done; [lia|rewrite (fv_fb _ _ _ I); lia|].
  set (di' := set_d_size (Z.of_nat (length (c ++ p))) din1).
  assert (dinode_ok di') as Hdi.
  { pose proof (ex_ok _ _ _ _ _ (wr_ext _ _ _ _ _ _ _ (as_wrote _ _ _ _ _ _ _ _ Ap))) as F1.
    destruct D as [D1 D2 D3 D4 _ _]. pose proof (as_din _ _ _ _ _ _ _ _ Ap) as Hd.
    rewrite <- (inode_dinode_of di'). apply (file_dinode_ok 2 sb mkfs_geometry V1).
    - destruct F1. by split.
    - unfold di'. cbn [i_size inode_of set_d_size d_size]. rewrite length_app. lia.
    - unfold di'. by rewrite Hd.
    - unfold di'. by rewrite Hd.
    - unfold di'. by rewrite Hd.
    - unfold di'. by rewrite Hd. }
  destruct (winode_run s1 V1 (Z.of_nat j + 1) di' (as_img _ _ _ _ _ _ _ _ Ap) Hi Hdi) as (s2 & V2 & E2 & A2 & Is & Hfb & Hin).
  exists s2, V2. split.
  - unfold iappend. eapply mbind_eq; [by apply rinode_run|].
    change (d_size (dinode_at V (Z.of_nat j + 1))) with (i_size (file_at V (Z.of_nat j + 1))). rewrite S, xint_id by lia.
    eapply mbind_eq; [exact E1|]. cbv beta iota. rewrite xint_id by lia. unfold di' in E2. by rewrite length_app, Nat2Z.inj_add in E2.
  - eapply iappend_inv; try done. rewrite length_app. lia.
Qed.

Lemma empty_file V inum t : 0 <= t < 2 ^ 15 -> dinode_at V inum = mk_dinode t 0 0 1 0 (replicate 13 0) ->
  file_is V inum t [] /\ forall x, ~ owns V (file_at V inum) x.
Proof.
  intros Ht Ed. set (di := mk_dinode t 0 0 1 0 (replicate 13 0)) in *.
  assert (file_at V inum = inode_of di) as Ei by (unfold file_at; by rewrite Ed).
  assert (forall bn, baddr V (inode_of di) bn = 0) as Hb0.
  { intros bn. unfold baddr. change (ind (inode_of di)) with 0. cbn [inode_of i_addrs di d_addrs]. rewrite nth_zeros. by case_if. }
  split; [split|]; rewrite ?Ei, ?Ed.
  - split; [reflexivity|..].
    + intros bn _ Hz. by rewrite Hb0 in Hz.
    + intros Hz. by destruct Hz.
    + intros b1 b2 _ _ _ Hz. by rewrite Hb0 in Hz.
    + intros bn _ Hz. by rewrite Hb0 in Hz.
  - reflexivity.
  - reflexivity.
  - reflexivity.
  - done.
  - reflexivity.
  - split; [|done]. intros bn Hbn. rewrite Hb0. change (nblk (Z.of_nat (length []))) with 0. lia.
  - intros x _. unfold fbyte. by rewrite Hb0.
  - split; cbn [d_type d_major d_minor d_nlink d_size d_addrs di]; try lia. split; [done|repeat constructor; lia].
  - intros x [Hx [->|(bn & Hbn & <-)]]; [by destruct Hx|]. by rewrite Hb0 in Hx.
Qed.

(** ialloc() makes an empty file. *)
Lemma ialloc_run s V files t :
  fs_inv s V files -> Z.of_nat (length files) + 1 < NINODES -> 0 <= t < 2 ^ 15 ->
  exists s' V', ialloc t s = Some (Z.of_nat (length files) + 1, s') /\ fs_inv s' V' (files ++ [(t, [])]).
Proof.
  intros I Hmax Ht. destruct sb_values as (Es & Eb & Ed & Ei & En & Em). pose proof (fv_img _ _ _ I) as A.
  set (inum := Z.of_nat (length files) + 1) in *. set (di := mk_dinode t 0 0 1 0 (replicate 13 0)).
  assert (dinode_ok di) as Hdi by (split; cbn [d_type d_major d_minor d_nlink d_size d_addrs di]; try lia; split; [done|repeat constructor; lia]).
  set (s0 := mk_mkst (img s) (u32 (inum + 1)) (freeblock s)).
  assert (at_img s0 V) as A0 by (destruct A; by split).
  destruct (winode_run s0 V inum di A0) as (s' & V' & E & A' & Is & Hfb & Hin); [unfold inum, NINODES in *; lia|done|].
  assert (forall j', (j' < length files)%nat -> forall t' c', files !! j' = Some (t', c') ->
    file_is V' (Z.of_nat j' + 1) t' c' /\
    forall x, owns V' (file_at V' (Z.of_nat j' + 1)) x <-> owns V (file_at V (Z.of_nat j' + 1)) x) as Ho.
  { intros j' Hj' t' c' Hf. pose proof (fv_file _ _ _ I _ _ _ Hf) as Fi. apply (file_is_kept V V'); [| |done].
    - apply (is_other _ _ _ _ Is); [by eapply inum_range|unfold inum; lia].
    - intros x Hx. eapply high_kept; [apply mkfs_geometry|apply Is|apply Fi|done]. }
  destruct (empty_file V' inum t Ht (is_at _ _ _ _ Is)) as [Hnew Hno].
  exists s', V'. split.
  - unfold ialloc. rewrite (fv_inum _ _ _ I). fold inum. eapply mbind_eq; [|reflexivity]. fold s0.
    rewrite xshort_id by lia. exact E.
  - split; rewrite ?length_app; cbn [length].
    + done.
    + rewrite Hin. cbn [freeinode s0]. rewrite u32_small by (unfold inum, NINODES in *; lia). unfold inum. lia.
    + unfold NINODES in *. lia.
    + intros j' t' c' Hf. apply lookup_app_Some in Hf as [Hf|[Hge Hf]].
      * apply Ho; [by eapply lookup_lt_Some|done].
      * destruct (j' - length files)%nat eqn:E'; [|done]. injection Hf as <- <-.
        by assert (Z.of_nat j' + 1 = inum) as -> by (unfold inum; lia).
    + intros j1 j2 x H1 H2 Hne. destruct (decide (j1 = length files)) as [->|N1]; [by intros []%Hno|].
      destruct (decide (j2 = length files)) as [->|N2]; [intros _; apply Hno|].
      destruct (lookup_lt_is_Some_2 files j1) as [[t1 c1] F1]; [lia|]. destruct (lookup_lt_is_Some_2 files j2) as [[t2 c2] F2]; [lia|].
      rewrite (proj2 (Ho j1 ltac:(lia) _ _ F1)), (proj2 (Ho j2 ltac:(lia) _ _ F2)). apply (fv_apart _ _ _ I); lia.
    + intros x Hx. rewrite Hfb in Hx. destruct (fv_owned _ _ _ I x Hx) as (j' & Hj' & Hx'). exists j'. split; [lia|].
      destruct (lookup_lt_is_Some_2 _ _ Hj') as [[t' c'] Hf]. by apply (proj2 (Ho j' Hj' t' c' Hf)).
    + rewrite Hfb, blocks_of_app. cbn [freeblock s0]. rewrite (fv_fb _ _ _ I). change (blocks_of [(t, [])]) with 0. lia.
    + rewrite (is_low _ _ _ _ Is) by lia. apply I.
    + intros x Hx. rewrite (is_low _ _ _ _ Is) by lia. by apply (fv_log _ _ _ I).
Qed.

(** * The whole program *)

Lemma nb_nonneg n : 0 <= n -> 0 <= nb n.
Proof. intros. pose proof (nb_mono 0 n ltac:(lia)) as Hm. change (nb 0) with 0 in Hm. done. Qed.

Lemma blocks_of_nonneg files : 0 <= blocks_of files.
Proof.
  induction files as [|f files IH]; [done|]. rewrite blocks_of_cons. pose proof (nb_nonneg (Z.of_nat (length f.2))). lia.
Qed.

Lemma append_all_run chunks : forall s V files j t c,
  fs_inv s V files -> files !! j = Some (t, c) ->
  Z.of_nat (length (c ++ concat chunks)) <= MAXFILE * BSIZE ->
  nmeta + blocks_of (<[j := (t, c ++ concat chunks)]> files) <= FSSIZE ->
  exists s' V', append_all (Z.of_nat j + 1) chunks s = Some (tt, s') /\ fs_inv s' V' (<[j := (t, c ++ concat chunks)]> files).
Proof.
  induction chunks as [|p chunks IH]; intros s V files j t c I Hj Hmax Hroom; cbn [concat append_all] in *.
  - rewrite app_nil_r in *. exists s, V. split; [done|]. by rewrite list_insert_id.
  - rewrite app_assoc in *. pose proof (length_app (c ++ p) (concat chunks)) as Hl.
    rewrite (blocks_of_insert _ _ _ _ Hj) in Hroom. cbn [snd] in Hroom.
    destruct (iappend_run s V files j t c p I Hj) as (s1 & V1 & E1 & I1); [lia| |].
    { rewrite (blocks_of_insert _ _ _ _ Hj). cbn [snd].
      pose proof (nb_mono (Z.of_nat (length (c ++ p))) (Z.of_nat (length ((c ++ p) ++ concat chunks))) ltac:(lia)). lia. }
    apply lookup_lt_Some in Hj as Hjl.
    destruct (IH s1 V1 _ j t (c ++ p) I1) as (s2 & V2 & E2 & I2).
    { by apply list_lookup_insert_eq. } { done. }
    { rewrite list_insert_insert_eq, (blocks_of_insert _ _ _ _ Hj). done. }
    exists s2, V2. split; [by eapply mbind_eq|]. by rewrite list_insert_insert_eq in I2.
Qed.

(** The entries of the root directory for the files, from inode [inum] on. *)
Fixpoint entries (inum : Z) (args : list (list Z)) : list Z :=
  match args with
  | [] => []
  | arg :: args' => entry inum (skip_underscore (shortname arg)) ++ entries (inum + 1) args'
  end.

Definition readable (h : host) (arg : list Z) (chunks : list (list Z)) : Prop :=
  47 ∉ shortname arg /\ reads h arg = Some chunks.

(** One file: its inode, its entry [e] in the root directory, its contents. *)
Lemma add_file_run s V rc fs e cs :
  fs_inv s V ((T_DIR, rc) :: fs) -> Z.of_nat (length fs) + 2 < NINODES ->
  Z.of_nat (length (rc ++ e)) <= MAXFILE * BSIZE -> Z.of_nat (length (concat cs)) <= MAXFILE * BSIZE ->
  nmeta + blocks_of ((T_DIR, rc ++ e) :: fs ++ [(T_FILE, concat cs)]) <= FSSIZE ->
  let inum := Z.of_nat (length fs) + 2 in
  exists s1 s2 s3 V3, ialloc T_FILE s = Some (inum, s1) /\ iappend 1 e s1 = Some (tt, s2) /\
    append_all inum cs s2 = Some (tt, s3) /\ fs_inv s3 V3 ((T_DIR, rc ++ e) :: fs ++ [(T_FILE, concat cs)]).
Proof.
  intros I Hino Hrc Hc Hroom inum. destruct (ialloc_run s V _ T_FILE I) as (s1 & V1 & E1 & I1); [cbn [length]; lia|by vm_compute|].
  cbn [length] in E1. replace (Z.of_nat (S (length fs)) + 1) with inum in E1 by (unfold inum; lia).
  assert (<[0%nat := (T_DIR, rc ++ e)]> (((T_DIR, rc) :: fs) ++ [(T_FILE, [])]) = (T_DIR, rc ++ e) :: fs ++ [(T_FILE, [])]) as H0 by done.
  destruct (iappend_run s1 V1 _ 0 T_DIR rc e I1) as (s2 & V2 & E2 & I2); [done|done| |].
  { rewrite H0. rewrite blocks_of_cons, blocks_of_app, blocks_of_cons in *. cbn [snd] in *.
    pose proof (nb_nonneg (Z.of_nat (length (concat cs))) ltac:(lia)). change (nb (Z.of_nat (length []))) with 0. lia. }
  rewrite H0 in I2.
  assert (((T_DIR, rc ++ e) :: fs ++ [(T_FILE, [])]) !! S (length fs) = Some (T_FILE, [])) as Hl by (by apply list_lookup_middle).
  assert (<[S (length fs) := (T_FILE, concat cs)]> ((T_DIR, rc ++ e) :: fs ++ [(T_FILE, [])]) =
    (T_DIR, rc ++ e) :: fs ++ [(T_FILE, concat cs)]) as Hi.
  { change (<[S (length fs) := ?f]> (?g :: ?l)) with (g :: <[length fs := f]> l). f_equal.
    by rewrite insert_app_r_alt, Nat.sub_diag by lia. }
  destruct (append_all_run cs s2 V2 _ (S (length fs)) T_FILE [] I2 Hl) as (s3 & V3 & E3 & I3); [done|by cbn [app]; rewrite Hi|].
  cbn [app] in I3. rewrite Hi in I3. replace (Z.of_nat (S (length fs)) + 1) with inum in E3 by (unfold inum; lia).
  by exists s1, s2, s3, V3.
Qed.

Lemma add_files_run h args chunkss : Forall2 (readable h) args chunkss -> forall s V rc fs,
  fs_inv s V ((T_DIR, rc) :: fs) ->
  let rc' := rc ++ entries (Z.of_nat (length fs) + 2) args in
  let fs' := fs ++ map (fun cs => (T_FILE, concat cs)) chunkss in
  Z.of_nat (length fs') + 1 < NINODES -> Z.of_nat (length rc') <= MAXFILE * BSIZE ->
  Forall (fun cs => Z.of_nat (length (concat cs)) <= MAXFILE * BSIZE) chunkss ->
  nmeta + blocks_of ((T_DIR, rc') :: fs') <= FSSIZE ->
  exists s' V', add_files h 1 args s = Some (tt, s') /\ fs_inv s' V' ((T_DIR, rc') :: fs').
Proof.
  induction 1 as [|arg cs args chunkss [Hn Hr] _ IH]; intros s V rc fs I rc' fs' Hino Hrc Hcs Hroom.
  - exists s, V. unfold rc', fs'. cbn. rewrite !app_nil_r. done.
  - apply list.Forall_cons in Hcs as [Hc Hcs]. set (inum := Z.of_nat (length fs) + 2) in *.
    set (e := entry inum (skip_underscore (shortname arg))) in *.
    set (fs1 := fs ++ [(T_FILE, concat cs)]). set (fs2 := map (fun cs => (T_FILE, concat cs)) chunkss).
    assert (rc' = (rc ++ e) ++ entries (inum + 1) args) as Erc by (unfold rc'; cbn [entries]; by rewrite app_assoc).
    assert (fs' = fs1 ++ fs2) as Efs by (unfold fs', fs1; cbn [map]; by rewrite <- app_assoc).
    assert (Z.of_nat (length fs1) = Z.of_nat (length fs) + 1) as Hl1 by (unfold fs1; rewrite length_app; cbn; lia).
    rewrite Efs, Erc in *. pose proof (length_app fs1 fs2) as Hl2. pose proof (length_app (rc ++ e) (entries (inum + 1) args)) as Hl3.
    destruct (add_file_run s V rc fs e cs I) as (s1 & s2 & s3 & V3 & E1 & E2 & E3 & I3); [lia|lia|done| |].
    { fold fs1. rewrite blocks_of_cons in *. rewrite blocks_of_app in Hroom. cbn [snd] in *.
      pose proof (blocks_of_nonneg fs2). pose proof (nb_mono (Z.of_nat (length (rc ++ e))) (Z.of_nat (length ((rc ++ e) ++ entries (inum + 1) args))) ltac:(lia)). lia. }
    fold fs1 in I3. specialize (IH s3 V3 (rc ++ e) fs1 I3). cbv zeta in IH.
    replace (Z.of_nat (length fs1) + 2) with (inum + 1) in IH by (unfold inum; lia).
    destruct (IH Hino Hrc Hcs Hroom) as (s4 & V4 & E4 & I4). exists s4, V4. split; [|exact I4].
    cbn [add_files]. rewrite decide_False, Hr by done.
    eapply mbind_eq; [exact E1|]. eapply mbind_eq; [exact E2|]. eapply mbind_eq; [exact E3|]. exact E4.
Qed.

(** ** The start *)

Lemma zero_sectors_run n : forall s,
  Z.of_nat (length (img s) + n) <= FSSIZE ->
  zero_sectors n (Z.of_nat (length (img s))) s = Some (tt, mk_mkst (img s ++ replicate n zeros) (freeinode s) (freeblock s)).
Proof.
  induction n as [|n IH]; intros s Hn; cbn [zero_sectors].
  - rewrite app_nil_r. by destruct s.
  - eapply mbind_eq; [unfold wsect; rewrite sector_in, Nat2Z.id, decide_False by lia; reflexivity|].
    rewrite Nat.sub_diag. cbn [replicate app].
    specialize (IH (mk_mkst (img s ++ [zeros]) (freeinode s) (freeblock s))). cbn [img freeinode freeblock] in IH.
    rewrite length_app in IH. cbn [length] in IH. replace (Z.of_nat (length (img s)) + 1) with (Z.of_nat (length (img s) + 1)) by lia.
    rewrite IH by lia. by rewrite <- app_assoc.
Qed.

(** The blocks before there is any file. *)
Definition fresh (x : Z) : list Z :=
  if decide (x = 1) then super_block else if decide (x = sb_bmapstart sb) then bitmap nmeta else zeros.

Lemma start_run : exists s0 s,
  zero_sectors (Z.to_nat FSSIZE) 0 (mk_mkst [] 1 nmeta) = Some (tt, s0) /\
  wsect 1 (stl zeros 0 (superblock_bytes sb)) s0 = Some (tt, s) /\ fs_inv s fresh [].
Proof.
  destruct sb_values as (Es & Eb & Ed & Ei & En & Em). fold super_block.
  do 2 eexists. split; [apply (zero_sectors_run (Z.to_nat FSSIZE) (mk_mkst [] 1 nmeta)); cbn [img length]; unfold FSSIZE; lia|].
  split; [reflexivity|].
  cbn [img freeinode freeblock app]. rewrite sector_in by (unfold FSSIZE; lia).
  rewrite length_replicate, decide_True by (unfold FSSIZE; lia). split.
  - split; cbn [img freeblock].
    + by rewrite length_insert, length_replicate.
    + intros x Hx Hne. unfold fresh. rewrite (decide_False (P := x = sb_bmapstart sb)) by done. case_decide.
      * subst. rewrite list_lookup_insert_eq; [done|]. rewrite length_replicate. unfold FSSIZE. lia.
      * rewrite list_lookup_insert_ne by lia. apply lookup_replicate. split; [done|lia].
    + unfold fresh. rewrite decide_False, decide_True by lia. done.
    + intros x. unfold fresh. repeat case_decide; [by vm_compute|by vm_compute|done].
    + rewrite Em. unfold FSSIZE. lia.
    + intros x Hx. unfold fresh. rewrite !decide_False by lia. done.
    + intros x Hx. unfold fresh. rewrite !decide_False by (unfold FSSIZE in *; lia). done.
  - done.
  - done.
  - intros j t c Hj. by rewrite lookup_nil in Hj.
  - intros j j' x Hj. cbn in Hj. lia.
  - cbn [freeblock]. lia.
  - cbn [freeblock]. change (blocks_of []) with 0. lia.
  - unfold fresh. by rewrite decide_True.
  - intros x Hx. unfold fresh. by rewrite !decide_False by lia.
Qed.

(** ** The end *)

(** What the kernel needs to know of a file on the image. *)
Record on_disk (V : Z -> list Z) (inum t : Z) (c : list Z) : Prop := mk_on_disk {
  od_ok : file_ok V sb (file_at V inum);
  od_type : i_type (file_at V inum) = t;
  od_nlink : i_nlink (file_at V inum) = 1;
  od_size : i_size (file_at V inum) = Z.of_nat (length c);
  od_content : content V (file_at V inum) = c;
}.

Lemma file_is_dense V inum t c : file_is V inum t c -> on_disk V inum t c /\ dense V (file_at V inum).
Proof.
  intros [F T N S M Cc [H1 H2] Z0 D]. split; [by split|]. split; [lia|]. intros x Hx. apply H1; [apply off_block; lia|].
  unfold nblk, BSIZE in *. zdm.
Qed.

(** fix_root() rounds the size up, always by at least a byte. *)
Definition padded (rc : list Z) : list Z :=
  rc ++ replicate (Z.to_nat ((Z.of_nat (length rc) / BSIZE + 1) * BSIZE) - length rc) 0.

Lemma length_padded rc : Z.of_nat (length (padded rc)) = (Z.of_nat (length rc) / BSIZE + 1) * BSIZE.
Proof. unfold padded. rewrite length_app, length_replicate. unfold BSIZE. zdm. Qed.

Lemma root_padded V V' inum t rc :
  file_is V inum t rc -> Z.of_nat (length (padded rc)) <= MAXFILE * BSIZE ->
  inode_set V inum (set_d_size (Z.of_nat (length (padded rc))) (dinode_at V inum)) V' ->
  on_disk V' inum t (padded rc) /\ (dense V' (file_at V' inum) <-> Z.of_nat (length rc) mod BSIZE <> 0) /\
  forall x, owns V' (file_at V' inum) x <-> owns V (file_at V inum) x.
Proof.
  intros [F T N S M Cc [H1 H2] Z0 D] Hmax Is. pose proof (length_padded rc) as Hl.
  set (i := file_at V inum) in *. assert (file_at V' inum = set_i_size (Z.of_nat (length (padded rc))) i) as Ei
    by (unfold file_at; by rewrite (is_at _ _ _ _ Is)). rewrite Ei. set (i' := set_i_size _ i) in *.
  assert (forall x, owns V i x -> V' x = V x /\ in_use V' sb x) as Hk.
  { intros x Hx. eapply high_kept; [apply mkfs_geometry|apply Is|exact F|done]. }
  pose proof (kept_baddr sb V V' i i' Hk eq_refl) as Hb. pose proof (kept_fbyte sb V V' i i' Hk eq_refl) as Hf.
  split_and!; [split; rewrite ?Ei; try done|split|].
  - by apply (kept_file_ok sb V V' i i').
  - apply list_eq. intros j. rewrite content_lookup. change (i_size i') with (Z.of_nat (length (padded rc))).
    destruct (decide (j < length rc)%nat) as [Hj|Hj].
    + rewrite decide_True, Hf by (unfold BSIZE in *; zdm). unfold padded. rewrite lookup_app_l by done.
      rewrite <- Cc, content_lookup, decide_True by lia. done.
    + unfold padded. rewrite lookup_app_r by lia. fold (padded rc). case_decide as Hlt.
      * rewrite Hf, Z0 by lia. symmetry. apply lookup_replicate. split; [done|].
        unfold padded in Hlt. rewrite length_app, length_replicate in Hlt. lia.
      * symmetry. apply lookup_ge_None. unfold padded in Hlt. rewrite length_app, length_replicate in Hlt. rewrite length_replicate. lia.
  - intros [_ Hd] Hz. change (i_size i') with (Z.of_nat (length (padded rc))) in Hd.
    specialize (Hd (Z.of_nat (length rc)) ltac:(unfold BSIZE in *; zdm)). rewrite Hb in Hd.
    apply H1 in Hd; [|apply off_block; unfold BSIZE in *; zdm]. unfold nblk, BSIZE in *. zdm.
  - intros Hz. split; [done|]. intros x Hx. change (i_size i') with (Z.of_nat (length (padded rc))) in Hx.
    rewrite Hb. apply H1; [apply off_block; lia|]. unfold nblk, BSIZE in *. zdm.
  - intros x. by apply (kept_owns sb V V' i i').
Qed.

(** Block [x] of the finished image. *)
Definition image_block (d : list (list Z)) (x : Z) : list Z :=
  if x <? 0 then zeros else default zeros (d !! Z.to_nat x).

(** What the kernel finds on the image: [root] are the entries of the root
    directory, [contents] the other files, from inode 2 on. *)
Record image_ok (d : list (list Z)) (root : list Z) (contents : list (list Z)) : Prop := mk_image_ok {
  im_len : length d = Z.to_nat FSSIZE;
  im_super : superblock_of (image_block d 1) = sb;
  im_geometry : geometry (sb_logstart sb) sb;
  im_log : hb_n (image_block d (sb_logstart sb)) = 0;
  im_root : on_disk (image_block d) ROOTINO T_DIR (padded root);
  im_root_dense : dense (image_block d) (file_at (image_block d) ROOTINO) <-> Z.of_nat (length root) mod BSIZE <> 0;
  im_files : forall j c, contents !! j = Some c ->
    on_disk (image_block d) (Z.of_nat j + 2) T_FILE c /\ dense (image_block d) (file_at (image_block d) (Z.of_nat j + 2));
  im_apart : forall j j' x, 1 <= j <= Z.of_nat (length contents) + 1 -> 1 <= j' <= Z.of_nat (length contents) + 1 -> j <> j' ->
    owns (image_block d) (file_at (image_block d) j) x -> ~ owns (image_block d) (file_at (image_block d) j') x;
  im_used : forall x, 0 <= x < FSSIZE ->
    block_used (image_block d) sb x = true <->
    x < nmeta \/ exists j, 1 <= j <= Z.of_nat (length contents) + 1 /\ owns (image_block d) (file_at (image_block d) j) x;
}.

Lemma inode_set_ext V inum di V' W : inode_set V inum di V' -> (forall x, W x = V' x) -> inode_set V inum di W.
Proof.
  intros [H1 H2 H3 H4] HW. unfold dinode_at in *. split; unfold dinode_at; intros; rewrite HW; auto.
Qed.

Lemma fix_root_run s V rc fs :
  fs_inv s V ((T_DIR, rc) :: fs) -> Z.of_nat (length (padded rc)) <= MAXFILE * BSIZE ->
  exists s' V', fix_root 1 s = Some (tt, s') /\ at_img s' V' /\ freeblock s' = freeblock s /\
    inode_set V 1 (set_d_size (Z.of_nat (length (padded rc))) (dinode_at V 1)) V'.
Proof.
  intros I Hmax. pose proof (fv_img _ _ _ I) as A. assert (MAXFILE * BSIZE < 2 ^ 31) as H31 by done.
  destruct (fv_file _ _ _ I 0%nat _ _ eq_refl) as [F T N S M Cc Sh Z0 D].
  change (Z.of_nat 0 + 1) with 1 in *.
  destruct (winode_run s V 1 (set_d_size (Z.of_nat (length (padded rc))) (dinode_at V 1)) A) as (s' & V' & E & A' & Is & Hfb & _); [lia| |].
  { destruct D. split; try done. cbn [d_size set_d_size]. lia. }
  exists s', V'. split_and!; [|done|done|done]. unfold fix_root. eapply mbind_eq; [by apply rinode_run|].
  change (d_size (dinode_at V 1)) with (i_size (file_at V 1)). rewrite S. cbv zeta.
  rewrite (xint_id (Z.of_nat (length rc))), <- length_padded, xint_id by lia. exact E.
Qed.

Lemma balloc_end s V : at_img s V ->
  exists s', balloc (freeblock s) s = Some (tt, s') /\ length (img s') = Z.to_nat FSSIZE /\
    forall x, image_block (img s') x = V x.
Proof.
  intros A. destruct sb_values as (Es & Eb & _). pose proof (ai_fb _ _ A) as Hf. pose proof (ai_len _ _ A) as Hl.
  eexists. split.
  - unfold balloc. replace (_ <? _) with true by (unfold FSSIZE, BSIZE in *; lia). reflexivity.
  - cbn [img]. rewrite sector_in, decide_True by (unfold FSSIZE in *; lia). split; [by rewrite length_insert|].
    intros x. unfold image_block. case_if; [by rewrite (ai_out _ _ A) by lia|].
    destruct (decide (x < FSSIZE)).
    + destruct (decide (x = sb_bmapstart sb)) as [->|Hne].
      * rewrite list_lookup_insert_eq by (unfold FSSIZE in *; lia). symmetry. apply A.
      * rewrite list_lookup_insert_ne, (ai_view _ _ A) by lia. done.
    + rewrite lookup_ge_None_2 by (rewrite length_insert; lia). by rewrite (ai_out _ _ A) by lia.
Qed.

Lemma length_entries inum args : Z.of_nat (length (entries inum args)) = 16 * Z.of_nat (length args).
Proof.
  revert inum. induction args as [|arg args IH]; intros inum; cbn [entries length]; [done|].
  rewrite length_app, Nat2Z.inj_add, IH. unfold entry, dirent_bytes. rewrite length_app, length_le_bytes. cbn [de_name].
  unfold de_name14. rewrite length_take, length_app, length_replicate. unfold DIRSIZ. lia.
Qed.

(** The image that the last steps make of the state. *)
Lemma image_ok_end s V rc fs d contents :
  fs_inv s V ((T_DIR, rc) :: fs) -> fs = map (fun c => (T_FILE, c)) contents ->
  Z.of_nat (length (padded rc)) <= MAXFILE * BSIZE -> length d = Z.to_nat FSSIZE ->
  inode_set V 1 (set_d_size (Z.of_nat (length (padded rc))) (dinode_at V 1)) (image_block d) ->
  image_ok d rc contents.
Proof.
  intros I Efs Hmax Hd Is. destruct sb_values as (Es & Eb & Ed & Ei & En & Em). set (W := image_block d) in *.
  assert (length fs = length contents) as Hl by (subst; by rewrite length_map).
  destruct (root_padded V W 1 T_DIR rc (fv_file _ _ _ I 0%nat _ _ eq_refl) Hmax Is) as (Hroot & Hdense & Hown).
  pose proof (fv_max _ _ _ I) as Hmaxi. cbn [length] in Hmaxi. unfold NINODES in Hmaxi.
  assert (forall j, (j < length contents)%nat -> forall c, contents !! j = Some c -> file_is W (Z.of_nat j + 2) T_FILE c /\
    forall x, owns W (file_at W (Z.of_nat j + 2)) x <-> owns V (file_at V (Z.of_nat j + 2)) x) as Ho.
  { intros j Hj c Hc. assert (file_is V (Z.of_nat j + 2) T_FILE c) as Fi.
    { replace (Z.of_nat j + 2) with (Z.of_nat (S j) + 1) by lia. apply (fv_file _ _ _ I). subst fs.
      change ((map (fun c => (T_FILE, c)) contents) !! j = Some (T_FILE, c)). by rewrite list_lookup_fmap, Hc. }
    apply (file_is_kept V W); [apply (is_other _ _ _ _ Is); lia| |done].
    intros x Hx. eapply high_kept; [apply mkfs_geometry|apply Is|apply Fi|done]. }
  assert (forall j, 1 <= j <= Z.of_nat (length contents) + 1 ->
    forall x, owns W (file_at W j) x <-> owns V (file_at V j) x) as How.
  { intros j Hj. destruct (decide (j = 1)) as [->|]; [done|]. destruct (lookup_lt_is_Some_2 contents (Z.to_nat (j - 2))) as [c Hc]; [lia|].
    pose proof (proj2 (Ho (Z.to_nat (j - 2)) ltac:(lia) c Hc)) as Hx. by replace (Z.of_nat (Z.to_nat (j - 2)) + 2) with j in Hx by lia. }
  split; fold W.
  - done.
  - unfold W. rewrite (is_low _ _ _ _ Is), (fv_super _ _ _ I) by lia. vm_compute. reflexivity.
  - apply mkfs_geometry.
  - change (sb_logstart sb) with 2. unfold W. rewrite (is_low _ _ _ _ Is), (fv_log _ _ _ I) by lia. vm_compute. reflexivity.
  - done.
  - done.
  - intros j c Hc. apply file_is_dense, Ho; [by eapply lookup_lt_Some|done].
  - intros j j' x Hj Hj' Hne. rewrite How, How by done. replace j with (Z.of_nat (Z.to_nat (j - 1)) + 1) by lia.
    replace j' with (Z.of_nat (Z.to_nat (j' - 1)) + 1) by lia. apply (fv_apart _ _ _ I); cbn [length]; lia.
  - intros x Hx. rewrite (high_used 2 sb mkfs_geometry V W) by (apply Is || lia). rewrite (at_img_used s) by (apply I || lia).
    rewrite Z.ltb_lt. split.
    + intros Hlt. destruct (decide (x < nmeta)) as [|Hge]; [by left|right].
      destruct (fv_owned _ _ _ I x ltac:(lia)) as (j & Hj & Hxj). cbn [length] in Hj. exists (Z.of_nat j + 1). split; [lia|]. by apply How; [lia|].
    + intros [Hlt|(j & Hj & Hxj)].
      * pose proof (ai_fb _ _ (fv_img _ _ _ I)). lia.
      * apply How in Hxj; [|exact Hj]. destruct (lookup_lt_is_Some_2 ((T_DIR, rc) :: fs) (Z.to_nat (j - 1))) as [[t c] Hf]; [cbn [length]; lia|].
        pose proof (fi_ok _ _ _ _ (fv_file _ _ _ I _ _ _ Hf)) as F. replace (Z.of_nat (Z.to_nat (j - 1)) + 1) with j in F by lia.
        destruct (owns_in_use _ _ _ _ F Hxj) as [_ Hu]. rewrite (at_img_used s) in Hu by (apply I || lia). lia.
Qed.

(** The entries of the root directory. *)
Definition root_dir (args : list (list Z)) : list Z :=
  (entry ROOTINO [46] ++ entry ROOTINO [46; 46]) ++ entries 2 args.

Lemma length_root args : Z.of_nat (length (root_dir args)) = 32 + 16 * Z.of_nat (length args).
Proof. unfold root_dir. rewrite length_app, Nat2Z.inj_add, length_entries. reflexivity. Qed.

Lemma root_dots s : fs_inv s fresh [] ->
  exists s1 s2 s3 V, ialloc T_DIR s = Some (1, s1) /\ iappend 1 (entry 1 [46]) s1 = Some (tt, s2) /\
    iappend 1 (entry 1 [46; 46]) s2 = Some (tt, s3) /\ fs_inv s3 V [(T_DIR, entry 1 [46] ++ entry 1 [46; 46])].
Proof.
  intros I0. destruct (ialloc_run s fresh [] T_DIR I0) as (s1 & V1 & E1 & I1); [by vm_compute|by vm_compute|].
  set (e1 := entry 1 [46]) in *. set (e2 := entry 1 [46; 46]) in *.
  destruct (iappend_run s1 V1 _ 0 T_DIR [] e1 I1) as (s2 & V2 & E2 & I2); [done|by vm_compute|by vm_compute|].
  destruct (iappend_run s2 V2 _ 0 T_DIR e1 e2 I2) as (s3 & V3 & E3 & I3); [done|by vm_compute|by vm_compute|].
  exists s1, s2, s3, V3. split_and!; [exact E1|exact E2|exact E3|exact I3].
Qed.

Lemma make_files_run h args chunkss s :
  fs_inv s fresh [] -> Forall2 (readable h) args chunkss ->
  let contents := map (@concat Z) chunkss in
  Z.of_nat (length args) + 1 < NINODES ->
  Forall (fun c => Z.of_nat (length c) <= MAXFILE * BSIZE) contents ->
  nmeta + blocks_of ((T_DIR, root_dir args) :: map (fun c => (T_FILE, c)) contents) <= FSSIZE ->
  exists s', make_files h args s = Some (tt, s') /\ image_ok (img s') (root_dir args) contents.
Proof.
  intros I0 Hargs contents Hino Hmax Hroom. pose proof (Forall2_length Hargs) as Hlen. pose proof (length_root args) as Hroot.
  assert (Z.of_nat (length (padded (root_dir args))) <= MAXFILE * BSIZE) as Hpad.
  { rewrite length_padded, Hroot. unfold NINODES, MAXFILE, NINDIRECT, NDIRECT, BSIZE in *. zdm. }
  assert (Z.of_nat (length (root_dir args)) <= MAXFILE * BSIZE) as Hroot' by (rewrite length_padded in Hpad; unfold BSIZE in *; zdm).
  destruct (root_dots s I0) as (s1 & s2 & s3 & V3 & E1 & E2 & E3 & I3).
  assert (map (fun cs => (T_FILE, concat cs)) chunkss = map (fun c => (T_FILE, c)) contents) as Emap
    by (unfold contents; by rewrite map_map).
  destruct (add_files_run h args chunkss Hargs s3 V3 _ [] I3) as (s4 & V4 & E4 & I4).
  { cbn [app]. rewrite length_map, <- Hlen. done. } { exact Hroot'. }
  { apply list.Forall_forall. intros cs Hcs. apply (proj1 (list.Forall_forall _ _) Hmax), list_elem_of_fmap. by exists cs. } { cbn [app length]. rewrite Emap. exact Hroom. }
  cbn [app length] in I4. change (Z.of_nat 0 + 2) with 2 in I4. fold (root_dir args) in I4. rewrite Emap in I4.
  destruct (fix_root_run s4 V4 (root_dir args) _ I4 Hpad) as (s5 & V5 & E5 & A5 & Hfb & Is).
  destruct (balloc_end s5 V5 A5) as (s6 & E6 & Hl6 & HW).
  exists s6. split.
  - unfold make_files. eapply mbind_eq; [exact E1|]. change (1 =? ROOTINO) with true. cbv iota.
    eapply mbind_eq; [exact E2|]. eapply mbind_eq; [exact E3|]. eapply mbind_eq; [exact E4|]. eapply mbind_eq; [exact E5|]. exact E6.
  - eapply image_ok_end; [exact I4|reflexivity|exact Hpad|exact Hl6|]. by eapply inode_set_ext.
Qed.

(** C10: mkfs makes the file system that the kernel expects.  For files that can
    be read, with names without a slash, few enough inodes and enough blocks
    for all of them, mkfs succeeds; the image has FSSIZE blocks; the super
    block describes the layout; the log is empty; inode 1 is a directory
    with the entries for ".", ".." and each file, in order, padded with
    zeroes; inode 2 on are the files, each with exactly the bytes read from
    the host.  No two files share a block, and the free map marks exactly
    the meta blocks and the blocks of the files.  The root directory lacks
    its last block just when its entries fill a number of blocks exactly. *)
Theorem mkfs_correct h prog image args chunkss :
  creates h image = true -> Forall2 (readable h) args chunkss ->
  let contents := map (@concat Z) chunkss in
  Z.of_nat (length args) + 1 < NINODES ->
  Forall (fun c => Z.of_nat (length c) <= MAXFILE * BSIZE) contents ->
  nmeta + blocks_of ((T_DIR, root_dir args) :: map (fun c => (T_FILE, c)) contents) <= FSSIZE ->
  exists s, main h (prog :: image :: args) = Some s /\ image_ok (img s) (root_dir args) contents.
Proof.
  intros Hcr Hargs contents Hino Hmax Hroom. destruct start_run as (s0 & s1 & E0 & E1 & I0).
  destruct (make_files_run h args chunkss s1 I0 Hargs Hino Hmax Hroom) as (s & E & H). exists s. split; [|exact H].
  assert (make h args (mk_mkst [] 1 nmeta) = Some (tt, s)) as Em.
  { unfold make, mbind. rewrite E0, E1. exact E. }
  unfold main. rewrite Hcr, Em. reflexivity.
Qed.

(** An image with one program of three bytes. *)
Definition one_file : host :=
  mk_host (fun _ => true) (fun arg => if decide (arg = bstr "user/_sh") then Some [[1; 2]; [3]] else None).

Lemma mkfs_correct_witness : exists s, main one_file [bstr "mkfs"; bstr "fs.img"; bstr "user/_sh"] = Some s /\
  image_ok (img s) (root_dir [bstr "user/_sh"]) [[1; 2; 3]] /\
  entries 2 [bstr "user/_sh"] = [2; 0; 115; 104] ++ replicate 12 0.
Proof.
  destruct (mkfs_correct one_file (bstr "mkfs") (bstr "fs.img") [bstr "user/_sh"] [[[1; 2]; [3]]]) as (s & E & H).
  - reflexivity.
  - constructor; [|constructor]. split; [|reflexivity]. apply (bool_decide_unpack _). vm_compute. exact I.
  - vm_compute. reflexivity.
  - repeat constructor. vm_compute. discriminate.
  - vm_compute. discriminate.
  - exists s. split; [exact E|]. split; [exact H|]. vm_compute. reflexivity.
Defined.
