(* ===== verification/Pipe.v ===== *)
(** kernel/pipe.c but for pipealloc(), which is in File.v.

    A pipe lives in a page of its own; [k_pipes] maps the page's address to it. *)
From S2P Require Import Prelude CInt KState KString Riscv Kalloc Vm Proc.

Definition PIPESIZE : Z := 512.

Section pipe.
Context {P : Platform}.

Definition pipeclose (pi : Z) (writable : bool) : M unit :=
  acquire (L_pipe pi) ;;;
  (if writable then
     upd_pipe pi (set_pi_writeopen 0) ;;;
     wakeup (Ch_pipe_nread pi)
   else
     upd_pipe pi (set_pi_readopen 0) ;;;
     wakeup (Ch_pipe_nwrite pi)) ;;;
  let* p := get_pipe pi in
  if (pi_readopen p =? 0) && (pi_writeopen p =? 0) then
    release (L_pipe pi) ;;;
    modify (fun k => set_k_pipes (delete pi (k_pipes k)) k) ;;;
    kfree pi
  else release (L_pipe pi).

(** The loop of pipewrite(); every turn writes a byte or sleeps.  [None] is the
    return of -1 from inside the loop. *)
Fixpoint pipewrite_loop (f : nat) (pi : Z) (pr : nat) (addr n i : Z) : M (option Z) :=
  if i <? n then
    match f with
    | O => stuck
    | S f' =>
        let* p := get_pipe pi in
        let* dead := (if pi_readopen p =? 0 then ret true
                      else let* d := killed pr in ret (negb (d =? 0))) in
        if dead : bool then
          release (L_pipe pi) ;;;
          ret None
        else
          let* p := get_pipe pi in
          if pi_nwrite p =? u32 (pi_nread p + PIPESIZE) then
            wakeup (Ch_pipe_nread pi) ;;;
            sleep (Ch_pipe_nwrite pi) (L_pipe pi) ;;;
            pipewrite_loop f' pi pr addr n i
          else
            let* me := get_proc pr in
            let* '(r, ch) := copyin (p_pagetable me) (u64 (addr + i)) 1 in
            if r =? -1 then ret (Some i)
            else
              upd_pipe pi (fun p => set_pi_data ((pi_data p).[pi_nwrite p mod PIPESIZE <- ch.[0]]) p) ;;;
              upd_pipe pi (fun p => set_pi_nwrite (u32 (pi_nwrite p + 1)) p) ;;;
              pipewrite_loop f' pi pr addr n (i + 1)
    end
  else ret (Some i).

Definition pipewrite (pi addr n : Z) : M Z :=
  let* pr := mypr in
  acquire (L_pipe pi) ;;;
  let* r := pipewrite_loop (patience + Z.to_nat n) pi pr addr n 0 in
  match r with
  | None => ret (-1)
  | Some i =>
      wakeup (Ch_pipe_nread pi) ;;;
      release (L_pipe pi) ;;;
      ret i
  end.

(** The copy loop of piperead(), [m] bytes from byte [i] on. *)
Fixpoint piperead_loop (m : nat) (pi : Z) (pr : nat) (addr i : Z) : M Z :=
  match m with
  | O => ret i
  | S m' =>
      let* p := get_pipe pi in
      if pi_nread p =? pi_nwrite p then ret i
      else
        let ch := (pi_data p).[pi_nread p mod PIPESIZE] in
        upd_pipe pi (set_pi_nread (u32 (pi_nread p + 1))) ;;;
        let* me := get_proc pr in
        let* r := copyout (p_pagetable me) (u64 (addr + i)) [ch] in
        if r =? -1 then ret i
        else piperead_loop m' pi pr addr (i + 1)
  end.

Definition piperead (pi addr n : Z) : M Z :=
  let* pr := mypr in
  acquire (L_pipe pi) ;;;
  let* r := sleep_loop patience
              (fun k => let p := default inhabitant (k_pipes k !! pi) in
                        (pi_nread p =? pi_nwrite p) && negb (pi_writeopen p =? 0))
              (let* d := killed pr in
               if negb (d =? 0) then release (L_pipe pi) ;;; ret (Some tt) else ret None)
              (Ch_pipe_nread pi) (L_pipe pi) in
  match r with
  | Some _ => ret (-1)
  | None =>
      let* i := piperead_loop (Z.to_nat n) pi pr addr 0 in
      wakeup (Ch_pipe_nwrite pi) ;;;
      release (L_pipe pi) ;;;
      ret i
  end.

End pipe.
