(* ===== verification/PipeSpec.v ===== *)
(** What kernel/pipe.c guarantees: a pipe is a queue of bytes.

    The other threads run only while pipewrite() and piperead() sleep.  What
    they do then is a hypothesis: the readers take bytes from the front of the
    queue, the writers put bytes at its end, and sleep() returns when something
    has happened that the caller waits for. *)
From S2P Require Import Prelude CInt KState KString Riscv Kalloc Vm VmSpec VmMap Ring Proc Pipe.

(** * The queue *)

Definition pipe_queue (p : pipe) : list Z := ring PIPESIZE (2 ^ 32) (pi_data p) (pi_nread p) (pi_nwrite p).
Definition pipe_ok (p : pipe) : Prop := ring_ok PIPESIZE (2 ^ 32) (pi_data p) (pi_nread p) (pi_nwrite p).

Lemma pipe_ring : 0 < PIPESIZE < 2 ^ 32 /\ (PIPESIZE | 2 ^ 32).
Proof. split; [done|]. by exists (2 ^ 23). Qed.

Definition pipe_push (c : Z) (p : pipe) : pipe :=
  set_pi_nwrite (u32 (pi_nwrite p + 1)) (set_pi_data (pi_data p).[pi_nwrite p mod PIPESIZE <- c] p).

Definition pipe_pop (p : pipe) : pipe := set_pi_nread (u32 (pi_nread p + 1)) p.

Lemma pipe_full p : pipe_ok p -> (pi_nwrite p =? u32 (pi_nread p + PIPESIZE)) = (length (pipe_queue p) =? Z.to_nat PIPESIZE)%nat.
Proof.
  destruct pipe_ring as [HN Hd]. intros Hp. pose proof (ring_full _ _ HN _ _ _ Hp) as H.
  unfold pipe_queue. rewrite length_ring. pose proof (ring_count_range _ _ HN (pi_nread p) (pi_nwrite p)).
  apply eq_true_iff_eq. rewrite Z.eqb_eq, Nat.eqb_eq. unfold u32. rewrite H. lia.
Qed.

Lemma pipe_empty p : pipe_ok p -> (pi_nread p =? pi_nwrite p) = (length (pipe_queue p) =? 0)%nat.
Proof.
  destruct pipe_ring as [HN Hd]. intros Hp. pose proof (ring_empty _ _ HN _ _ _ Hp) as H.
  apply eq_true_iff_eq. rewrite Z.eqb_eq, Nat.eqb_eq, H. symmetry. apply length_zero_iff_nil.
Qed.

Lemma pipe_push_ok c p : pipe_ok p -> (length (pipe_queue p) < Z.to_nat PIPESIZE)%nat ->
  pipe_ok (pipe_push c p) /\ pipe_queue (pipe_push c p) = pipe_queue p ++ [c].
Proof.
  destruct pipe_ring as [HN Hd]. intros Hp Hl. unfold pipe_queue in Hl. rewrite length_ring in Hl.
  pose proof (ring_count_range _ _ HN (pi_nread p) (pi_nwrite p)).
  apply (ring_enqueue _ _ HN Hd _ _ _ c Hp). lia.
Qed.

Lemma pipe_pop_ok p c q : pipe_ok p -> pipe_queue p = c :: q ->
  pipe_ok (pipe_pop p) /\ pipe_queue (pipe_pop p) = q /\ (pi_data p).[pi_nread p mod PIPESIZE] = c.
Proof.
  destruct pipe_ring as [HN Hd]. intros Hp Hq.
  assert (pi_nread p <> pi_nwrite p) as Hne by (intros E; apply (ring_empty _ _ HN _ _ _ Hp) in E; unfold pipe_queue in Hq; congruence).
  destruct (ring_dequeue _ _ HN Hd _ _ _ Hp Hne) as [Hok Hr]. unfold pipe_queue in Hq. rewrite Hr in Hq. injection Hq as Hc Hq.
  by split_and!.
Qed.

(** * User memory, a byte at a time *)

Lemma user_read_lookup m pt n : forall va r bs, 0 <= va < 2 ^ 64 -> user_read m pt va n = (r, bs) ->
  (length bs <= n)%nat /\
  forall i, (i < n)%nat -> (i <= length bs)%nat -> user_ld m pt (u64 (va + Z.of_nat i)) = bs !! i.
Proof.
  induction n as [|n IH]; intros va r bs Hva; cbn [user_read].
  { intros [= <- <-]. split; [done|]. lia. }
  destruct (user_ld m pt va) as [b|] eqn:Eb.
  - destruct (user_read m pt (u64 (va + 1)) n) as [r' bs'] eqn:E. intros [= <- <-].
    destruct (IH _ _ _ (u64_range _) E) as [Hl H]. split; [cbn; lia|].
    intros [|i] Hi Hi'; [by rewrite u64_idem|]. cbn in Hi' |- *. rewrite <- H by lia. f_equal. unfold u64. zdm.
  - intros [= <- <-]. split; [cbn; lia|]. intros i Hi Hi'. cbn in Hi'. replace i with 0%nat by lia. by rewrite u64_idem.
Qed.

Section pipespec.
Context {P : Platform} (pi : Z) (me : nat) (pt : Z).

(** The calling process holds the pipe's lock and nothing else. *)
Record at_pipe (p : pipe) (k : K) : Prop := {
  at_proc : k_proc k = Some me;
  at_procs : length (k_procs k) = Z.to_nat NPROC;
  at_me : (me < Z.to_nat NPROC)%nat;
  at_held : k_held k = {[L_pipe pi]};
  at_pi : k_pipes k !! pi = Some p;
  at_ok : pipe_ok p;
  at_pt : p_pagetable (k_procs k !!! me) = pt
}.

(** What holds for the others at every sleep: the caller's process is as it was,
    but that it may have been killed. *)
Record same_process (k k' : K) : Prop := {
  sp_proc : k_proc k' = k_proc k;
  sp_procs : length (k_procs k') = length (k_procs k);
  sp_held : k_held k' = k_held k;
  sp_pt : p_pagetable (k_procs k' !!! me) = p_pagetable (k_procs k !!! me)
}.

Definition is_killed (k : K) : Prop := p_killed (k_procs k !!! me) <> 0.

Lemma at_len p k : at_pipe p k -> (me < length (k_procs k))%nat.
Proof. intros A. rewrite (at_procs _ _ A). apply A. Qed.

Lemma get_pipe_run p k : at_pipe p k -> get_pipe pi k = Ok p k.
Proof. intros A. unfold get_pipe, gets. by rewrite (at_pi _ _ A). Qed.

Lemma killed_run p k : at_pipe p k -> killed me k = Ok (p_killed (k_procs k !!! me)) k.
Proof.
  intros A. pose proof (at_held _ _ A) as Hh. unfold killed. ksteps. cbn [k_procs set_k_held].
  unfold ret. f_equal. replace (_ ∖ _) with (k_held k) by (rewrite Hh; set_solver). by destruct k.
Qed.

Lemma at_wake ch p k : at_pipe p k -> wakeup ch k = Ok tt (set_k_procs (wake_all ch (k_proc k) (k_procs k)) k).
Proof.
  intros A. apply wakeup_run. split; [apply A|]. intros q _. rewrite (at_held _ _ A). set_solver.
Qed.

(** wakeup() changes nothing that the callers look at. *)
Lemma wake_all_me ch me' ps q :
  p_pagetable (wake_all ch me' ps !!! q) = p_pagetable (ps !!! q) /\
  p_killed (wake_all ch me' ps !!! q) = p_killed (ps !!! q).
Proof.
  unfold wake_all. destruct (ps !! q) as [pr|] eqn:E.
  - rewrite (list_lookup_total_correct _ _ _ E).
    erewrite list_lookup_total_correct; [|by rewrite list_lookup_imap, E].
    cbn. unfold wake_one, wake_proc. by repeat case_decide.
  - by rewrite !list_lookup_total_alt, list_lookup_imap, E.
Qed.

Lemma at_woken ch p k : at_pipe p k -> at_pipe p (set_k_procs (wake_all ch (k_proc k) (k_procs k)) k).
Proof.
  intros A. split; try apply A.
  - cbn. unfold wake_all. rewrite length_imap. apply A.
  - cbn. rewrite (proj1 (wake_all_me _ _ _ _)). apply A.
Qed.

(** sleep() in the pipe's loops. *)
Lemma at_sleep ch p k k2 p2 :
  at_pipe p k -> others (k_yields k) (asleep ch me k) = Some k2 -> same_process (asleep ch me k) k2 ->
  k_pipes k2 !! pi = Some p2 -> pipe_ok p2 ->
  sleep ch (L_pipe pi) k = Ok tt (awake (L_pipe pi) me k2) /\ at_pipe p2 (awake (L_pipe pi) me k2) /\
  (is_killed (awake (L_pipe pi) me k2) <-> is_killed k2).
Proof.
  intros A Ho S Hp2 Hok2. pose proof (at_len _ _ A) as Hlen.
  assert (forall ps (f : proc -> proc), (me < length ps)%nat -> alter f me ps !!! me = f (ps !!! me)) as Hal.
  { intros ps f Hl. destruct (lookup_lt_is_Some_2 _ _ Hl) as [pr Hpr]. rewrite (list_lookup_total_correct _ _ _ Hpr).
    apply list_lookup_total_correct. by rewrite list_lookup_alter, decide_True, Hpr. }
  assert (length (k_procs k2) = length (k_procs k)) as Hl2.
  { rewrite (sp_procs _ _ S). cbn. by rewrite length_alter. }
  split_and!.
  - apply sleep_run; [apply A|done|apply A|done|done|]. by rewrite (sp_held _ _ S).
  - split; [|cbn; rewrite length_alter, Hl2; apply A|apply A|done|done|done|].
    + cbn. rewrite (sp_proc _ _ S). apply A.
    + cbn. rewrite Hal by lia. cbn. rewrite (sp_pt _ _ S). cbn. rewrite Hal by done. cbn. apply A.
  - unfold is_killed. cbn. rewrite Hal by lia. done.
Qed.

(** * pipewrite() *)

Section write.
Context (addr n : Z) (m0 : mem) (bs : list Z) (r0 : Z).
Hypothesis Haddr : 0 <= addr < 2 ^ 64.
Hypothesis Hbs : user_read m0 pt addr (Z.to_nat n) = (r0, bs).

(** While the writer sleeps the readers take bytes from the front, and it goes
    on when the pipe is not full, or it need not go on. *)
Definition readers_run (k k' : K) : Prop :=
  same_process k k' /\ (forall va, user_ld (k_mem k') pt va = user_ld (k_mem k) pt va) /\
  forall p, k_pipes k !! pi = Some p -> exists p' taken, k_pipes k' !! pi = Some p' /\ pipe_ok p' /\
    pipe_queue p = taken ++ pipe_queue p' /\
    ((length (pipe_queue p') < Z.to_nat PIPESIZE)%nat \/ pi_readopen p' = 0 \/ is_killed k').

Hypothesis Hothers : forall k p,
  at_pipe p k -> exists k', others (k_yields k) (asleep (Ch_pipe_nwrite pi) me k) = Some k' /\
    readers_run (asleep (Ch_pipe_nwrite pi) me k) k'.

Definition stops (p : pipe) (k : K) : Prop := pi_readopen p = 0 \/ is_killed k.

(** What the loop leaves when it has written [i] bytes: what the readers have not
    taken. *)
Definition written (p0 p' : pipe) (i : nat) : Prop :=
  exists taken, pipe_queue p0 ++ take i bs = taken ++ pipe_queue p'.

Lemma at_pushed c p k : at_pipe p k -> (length (pipe_queue p) < Z.to_nat PIPESIZE)%nat ->
  at_pipe (pipe_push c p) (set_k_pipes (<[pi := pipe_push c p]> (k_pipes k)) k).
Proof.
  intros A Hl. split; try apply A.
  - cbn. by rewrite lookup_insert, decide_True.
  - by apply pipe_push_ok; [apply A|].
Qed.

(** One turn of the loop. *)
Lemma pipewrite_turn f i p k : at_pipe p k -> i < n ->
  (stops p k /\ pipewrite_loop (S f) pi me addr n i k = Ok None (set_k_held ∅ k)) \/
  (length (pipe_queue p) = Z.to_nat PIPESIZE /\ ~ stops p k /\
   exists k' p' taken, pipewrite_loop (S f) pi me addr n i k = pipewrite_loop f pi me addr n i k' /\
     at_pipe p' k' /\ (forall va, user_ld (k_mem k') pt va = user_ld (k_mem k) pt va) /\
     pipe_queue p = taken ++ pipe_queue p' /\
     ((length (pipe_queue p') < Z.to_nat PIPESIZE)%nat \/ stops p' k')) \/
  ((length (pipe_queue p) < Z.to_nat PIPESIZE)%nat /\
   pipewrite_loop (S f) pi me addr n i k =
     match user_ld (k_mem k) pt (u64 (addr + i)) with
     | None => Ok (Some i) k
     | Some c => pipewrite_loop f pi me addr n (i + 1) (set_k_pipes (<[pi := pipe_push c p]> (k_pipes k)) k)
     end).
Proof.
  intros A Hin. pose proof (at_held _ _ A) as Hh. cbn [pipewrite_loop]. rewrite (proj2 (Z.ltb_lt _ _) Hin).
  assert (release (L_pipe pi) k = Ok tt (set_k_held ∅ k)) as Er.
  { rewrite release_ok by (rewrite Hh; set_solver). do 2 f_equal. rewrite Hh. set_solver. }
  destruct (decide (stops p k)) as [Hs|Hs]; [left; split; [done|]|right].
  { eapply bind_eq; [by apply get_pipe_run|]. eapply (bind_eq _ _ _ true k); [|by eapply bind_eq].
    destruct (Z.eqb_spec (pi_readopen p) 0); [done|]. eapply bind_eq; [by eapply killed_run|].
    destruct Hs as [?|Hs]; [done|]. unfold is_killed in Hs. by rewrite (proj2 (Z.eqb_neq _ _) Hs). }
  assert (forall A (g : pipe -> bool -> M A), (let* p' := get_pipe pi in let* dead := (if pi_readopen p' =? 0 then ret true
      else let* d := killed me in ret (negb (d =? 0))) in g p' dead) k = g p false k) as Eg.
  { intros B g. eapply bind_eq; [by apply get_pipe_run|]. eapply (bind_eq _ _ _ false k); [|done].
    unfold stops, is_killed in Hs. destruct (Z.eqb_spec (pi_readopen p) 0); [tauto|].
    eapply bind_eq; [by eapply killed_run|].
    destruct (Z.eqb_spec (p_killed (k_procs k !!! me)) 0); [done|tauto]. }
  rewrite (Eg (option Z) (fun _ dead => if dead then _ else _)). cbv beta iota.
  pose proof (pipe_full p (at_ok _ _ A)) as Ef.
  destruct (pi_nwrite p =? u32 (pi_nread p + PIPESIZE)) eqn:Efull.
  - left. symmetry in Ef. apply Nat.eqb_eq in Ef. split_and!; [done|done|].
    pose proof (at_woken (Ch_pipe_nread pi) p k A) as A1. set (k1 := set_k_procs _ k) in A1.
    destruct (Hothers k1 p A1) as (k2 & Ho & S & Hm & Hq). destruct (Hq p (at_pi _ _ A)) as (p2 & j & Hp2 & Hok2 & Hd & Hr).
    destruct (at_sleep (Ch_pipe_nwrite pi) p k1 k2 p2 A1 Ho S Hp2 Hok2) as (Es & A2 & Hk).
    exists (awake (L_pipe pi) me k2), p2, j. split_and!; [|done|exact Hm|done|].
    + eapply bind_eq; [by apply get_pipe_run|]. rewrite Efull. eapply bind_eq; [by eapply at_wake|]. fold k1. by eapply bind_eq.
    + unfold stops. rewrite Hk. tauto.
  - right. symmetry in Ef. apply Nat.eqb_neq in Ef.
    assert (length (pipe_queue p) < Z.to_nat PIPESIZE)%nat as Hl.
    { destruct (at_ok _ _ A) as (_ & _ & _ & Hc). unfold pipe_queue in *. rewrite length_ring in *. lia. }
    split; [done|]. eapply bind_eq; [by apply get_pipe_run|]. rewrite Efull.
    eapply bind_eq; [reflexivity|]. rewrite (at_pt _ _ A).
    eapply bind_eq; [apply copyin_loop_run; [apply u64_range|lia|lia]|]. change (Z.to_nat 1) with 1%nat. cbn [user_read].
    destruct (user_ld (k_mem k) pt (u64 (addr + i))) as [c|]; [|done]. cbn [Z.eqb nth Nat.add].
    eapply bind_eq; [reflexivity|]. eapply bind_eq; [reflexivity|]. f_equal. cbn [k_pipes set_k_pipes].
    enough (alter (fun p => set_pi_nwrite (u32 (pi_nwrite p + 1)) p) pi
      (alter (fun p => set_pi_data (pi_data p).[pi_nwrite p mod PIPESIZE <- c] p) pi (k_pipes k)) =
      <[pi := pipe_push c p]> (k_pipes k)) as <- by done.
    apply map_eq. intros a. rewrite !lookup_alter, lookup_insert.
    destruct (decide (pi = a)) as [<-|]; [rewrite !decide_True by done|done]. by rewrite (at_pi _ _ A).
Qed.
Lemma pipewrite_loop_run f : forall i p k,
  at_pipe p k -> (forall va, user_ld (k_mem k) pt va = user_ld m0 pt va) -> (i <= length bs)%nat ->
  2 * (n - Z.of_nat i) <= Z.of_nat f \/
    2 * (n - Z.of_nat i) - 1 <= Z.of_nat f /\ ((length (pipe_queue p) < Z.to_nat PIPESIZE)%nat \/ stops p k) ->
  forall p0, written p0 p i ->
  exists r k' p' i', pipewrite_loop f pi me addr n (Z.of_nat i) k = Ok r k' /\ k_pipes k' !! pi = Some p' /\ pipe_ok p' /\
    written p0 p' i' /\
    (r = Some (Z.of_nat (length bs)) /\ i' = length bs /\ at_pipe p' k' \/ r = None /\ k_held k' = ∅ /\ stops p' k').
Proof.
  destruct (user_read_lookup _ _ _ _ _ _ Haddr Hbs) as [Hlen Hu].
  induction f as [|f IH]; intros i p k A Hm Hi Hf p0 [taken Hw]; destruct (Z.ltb_spec (Z.of_nat i) n) as [Hin|Hin].
  1: lia.
  1,3: cbn [pipewrite_loop]; rewrite (proj2 (Z.ltb_ge _ _) Hin); exists (Some (Z.of_nat i)), k, p, i;
       assert (i = length bs) as -> by lia; split_and!; [done|apply A|apply A|by exists taken|by left].
  destruct (pipewrite_turn f (Z.of_nat i) p k A Hin)
    as [[Hs ->]|[(Hfull & Hs & k' & p' & tk & -> & A' & Hm' & Hq & Hr)|[Hl ->]]].
  - exists None, (set_k_held ∅ k), p, i. split_and!; [done|apply A|apply A|by exists taken|by right].
  - apply (IH i p' k' A'); [by intros va; rewrite Hm'|done|right; split; [|done]|].
    + destruct Hf as [?|[_ [?|?]]]; [lia|lia|done].
    + exists (taken ++ tk). by rewrite Hw, Hq, (assoc_L (++)).
  - rewrite Hm, Hu by lia. destruct (bs !! i) as [c|] eqn:Ec.
    + pose proof (lookup_lt_Some _ _ _ Ec).
      replace (Z.of_nat i + 1) with (Z.of_nat (S i)) by lia.
      apply (IH (S i) (pipe_push c p)); [by apply at_pushed|done|lia|left; lia|].
      exists taken. destruct (pipe_push_ok c p (at_ok _ _ A) Hl) as [_ ->].
      by rewrite (take_S_r _ _ _ Ec), !(assoc_L (++)), Hw.
    + apply lookup_ge_None in Ec. assert (i = length bs) as -> by lia.
      exists (Some (Z.of_nat (length bs))), k, p, (length bs). split_and!; [done|apply A|apply A|by exists taken|by left].
Qed.

(** C26: pipewrite() puts the bytes of the user's buffer into the pipe, in order
    and behind what is there.  If the readers take bytes while it sleeps, it
    returns; what was in the pipe and what it wrote are then the bytes that the
    readers took and the bytes that are still in the pipe.  It returns the number
    of bytes up to the first one that is not mapped, all of them written; or -1
    when the read end is closed or the process is killed. *)
Theorem pipewrite_fifo p k :
  at_pipe p (set_k_held {[L_pipe pi]} k) -> k_held k = ∅ -> m0 = k_mem k -> n <= Z.of_nat patience ->
  exists r k' p' i taken, pipewrite pi addr n k = Ok r k' /\ k_held k' = ∅ /\
    k_pipes k' !! pi = Some p' /\ pipe_ok p' /\
    pipe_queue p ++ take i bs = taken ++ pipe_queue p' /\
    (r = Z.of_nat (length bs) /\ i = length bs \/ r = -1 /\ stops p' k').
Proof.
  intros A Hh Em Hp. pose proof (at_proc _ _ A) as Hpr. cbn in Hpr. set (k1 := set_k_held {[L_pipe pi]} k) in *.
  edestruct (pipewrite_loop_run (patience + Z.to_nat n) 0 p k1 A)
    as (r & k' & p' & i & E & Hpi & Hok & [taken Hw] & Hr);
    [by rewrite Em|lia|left; lia|by exists []; rewrite take_0, (right_id_L [] (++))|].
  assert (forall B (f : option Z -> M B), (let* pr := mypr in acquire (L_pipe pi) ;;;
    let* r := pipewrite_loop (patience + Z.to_nat n) pi pr addr n 0 in f r) k = f r k') as Eg.
  { intros B f. unfold mypr, myproc. ksteps. rewrite Hpr. ksteps.
    rewrite Hh. replace ({[L_pipe pi]} ∪ ∅) with ({[L_pipe pi]} : gset lock) by set_solver. by eapply bind_eq. }
  unfold pipewrite. rewrite Eg. destruct Hr as [(-> & -> & A')|(-> & Hh' & Hs)].
  - pose proof (at_woken (Ch_pipe_nread pi) p' k' A') as A2.
    set (k2 := set_k_procs _ k') in A2. exists (Z.of_nat (length bs)), (set_k_held (k_held k2 ∖ {[L_pipe pi]}) k2), p', (length bs), taken.
    split_and!; [|cbn; rewrite (at_held _ _ A'); set_solver|apply A2|done|done|by left].
    eapply bind_eq; [by eapply at_wake|]. fold k2.
    eapply bind_eq; [apply release_ok; rewrite (at_held _ _ A2); set_solver|done].
  - eexists (-1), k', p', i, taken. split_and!; [done..|by right].
Qed.
End write.

(** * piperead() *)

Section read.
Context (addr n : Z).
Hypothesis Haddr : 0 <= addr < 2 ^ 64.

(** While the reader sleeps the writers append bytes, and it goes on when the
    pipe is not empty, or it need not go on. *)
Definition writers_run (k k' : K) : Prop :=
  same_process k k' /\ clear_of_tables (k_mem k') pt addr (Z.to_nat n) /\
  forall p, k_pipes k !! pi = Some p -> exists p' new, k_pipes k' !! pi = Some p' /\ pipe_ok p' /\
    pipe_queue p' = pipe_queue p ++ new /\
    (pipe_queue p' <> [] \/ pi_writeopen p' = 0 \/ is_killed k').

Hypothesis Hothers : forall k p,
  at_pipe p k -> clear_of_tables (k_mem k) pt addr (Z.to_nat n) ->
  exists k', others (k_yields k) (asleep (Ch_pipe_nread pi) me k) = Some k' /\
    writers_run (asleep (Ch_pipe_nread pi) me k) k'.

Lemma at_popped p c q k : at_pipe p k -> pipe_queue p = c :: q ->
  at_pipe (pipe_pop p) (set_k_pipes (<[pi := pipe_pop p]> (k_pipes k)) k).
Proof.
  intros A Hq. split; try apply A.
  - cbn. by rewrite lookup_insert, decide_True.
  - by eapply pipe_pop_ok; [apply A|].
Qed.

Lemma at_mem p m k : at_pipe p k -> at_pipe p (set_k_mem m k).
Proof. intros A. split; apply A. Qed.

(** The copy loop gives the user the first bytes of the queue.  A byte for which
    there is no page is taken out of the pipe, too. *)
Lemma piperead_loop_run m0 m : forall i p k,
  at_pipe p k -> clear_of_tables m0 pt addr (i + m) ->
  (forall x, in_tables m0 pt x -> ld8 (k_mem k) x = ld8 m0 x) ->
  exists c k' p', piperead_loop m pi me addr (Z.of_nat i) k = Ok (Z.of_nat (i + c)) k' /\ at_pipe p' k' /\
    pi_writeopen p' = pi_writeopen p /\ k_mem k' = (user_write m0 (k_mem k) pt (u64 (addr + Z.of_nat i)) (take c (pipe_queue p))).2 /\
    (c = Nat.min m (length (pipe_queue p)) /\ pipe_queue p' = drop c (pipe_queue p) \/
     (c < Nat.min m (length (pipe_queue p)))%nat /\ pipe_queue p' = drop (S c) (pipe_queue p) /\
       upage m0 pt (PGROUNDDOWN (u64 (addr + Z.of_nat (i + c)))) = 0).
Proof.
  induction m as [|m IH]; intros i p k A Hc Hm.
  { exists 0%nat, k, p. rewrite Nat.add_0_r. split_and!; [done..|]. left. split; [lia|done]. }
  pose proof (pipe_empty p (at_ok _ _ A)) as Ee. destruct (pipe_queue p) as [|c q] eqn:Eq.
  { exists 0%nat, k, p. rewrite Nat.add_0_r. split_and!; [|done|done|done|by left].
    cbn [piperead_loop]. eapply bind_eq; [by apply get_pipe_run|]. by rewrite Ee. }
  destruct (pipe_pop_ok p c q (at_ok _ _ A) Eq) as (_ & Hq & Hch). pose proof (at_popped p c q k A Eq) as A1.
  set (k1 := set_k_pipes _ k) in A1. set (va := u64 (addr + Z.of_nat i)).
  assert (copyout pt va [c] k1 = let '(r, m') := user_write m0 (k_mem k) pt va [c] in Ok r (set_k_mem m' k1)) as Ec.
  { apply (copyout_loop_run 2 pt m0 va [c] k1); [apply u64_range|cbn; lia| |done]. intros j Hj Hp. cbn in Hj. replace j with 0%nat in * by lia.
    rewrite u64_idem in * by apply u64_range. unfold va in *. apply Hc; [lia|done]. }
  assert (piperead_loop (S m) pi me addr (Z.of_nat i) k =
    (if upage m0 pt (PGROUNDDOWN va) =? 0 then Ok (Z.of_nat i) k1
     else piperead_loop m pi me addr (Z.of_nat (S i)) (set_k_mem (st8 (k_mem k) (uaddr m0 pt va) c) k1))) as Et.
  { cbn [piperead_loop]. eapply bind_eq; [by apply get_pipe_run|]. rewrite Ee. cbn [length Nat.eqb].
    eapply bind_eq; [reflexivity|]. replace (alter _ pi (k_pipes k)) with (<[pi := pipe_pop p]> (k_pipes k)).
    - fold k1. eapply bind_eq; [reflexivity|]. rewrite Hch, (at_pt _ _ A1). fold va.
      cbn [user_write] in Ec. destruct (upage m0 pt (PGROUNDDOWN va) =? 0) eqn:Eu.
      + eapply bind_eq; [exact Ec|]. cbn [Z.eqb]. by destruct k.
      + eapply bind_eq; [exact Ec|]. cbn [Z.eqb]. by replace (Z.of_nat i + 1) with (Z.of_nat (S i)) by lia.
    - apply map_eq. intros a. rewrite lookup_alter, lookup_insert.
      destruct (decide (pi = a)) as [<-|]; [by rewrite (at_pi _ _ A)|done]. }
  rewrite Et. destruct (upage m0 pt (PGROUNDDOWN va) =? 0) eqn:Eu.
  - exists 0%nat, k1, (pipe_pop p). rewrite Nat.add_0_r. split_and!; [done..|]. right. apply Z.eqb_eq in Eu.
    split_and!; [cbn; lia|by rewrite Hq|done].
  - set (k2 := set_k_mem _ k1). destruct (IH (S i) (pipe_pop p) k2) as (c' & k' & p' & E & A' & Hwo & Hmem & Hr).
    + by apply at_mem.
    + by replace (S i + m)%nat with (i + S m)%nat by lia.
    + intros x Hx. rewrite <- Hm by done. cbn. apply ld8_st8_ne. intros Ex. apply (Hc i); [lia|by apply Z.eqb_neq|].
      fold va. congruence.
    + rewrite Hq in *. exists (S c'), k', p'. replace (i + S c')%nat with (S i + c')%nat by lia. split_and!; [done|done|by rewrite Hwo| |].
      * rewrite Hmem. cbn [take user_write]. rewrite Eu. fold va.
        by replace (u64 (addr + Z.of_nat (S i))) with (u64 (va + 1)) by (unfold va, u64; zdm).
      * cbn [length Nat.min drop]. destruct Hr as [[-> ->]|(? & -> & ?)]; [by left|right; split_and!; [lia|done|done]].
Qed.

(** The wait for the first byte. *)
Lemma piperead_wait p k : at_pipe p k -> clear_of_tables (k_mem k) pt addr (Z.to_nat n) -> (1 <= patience)%nat ->
  exists r k' p' new,
    sleep_loop patience (fun k => let p := default inhabitant (k_pipes k !! pi) in
                          (pi_nread p =? pi_nwrite p) && negb (pi_writeopen p =? 0))
      (let* d := killed me in if negb (d =? 0) then release (L_pipe pi) ;;; ret (Some tt) else ret None)
      (Ch_pipe_nread pi) (L_pipe pi) k = Ok r k' /\
    pipe_queue p' = pipe_queue p ++ new /\
    (r = Some tt /\ k_held k' = ∅ /\ k_pipes k' !! pi = Some p' /\ is_killed k' \/
     r = None /\ at_pipe p' k' /\ clear_of_tables (k_mem k') pt addr (Z.to_nat n) /\
       (pipe_queue p' <> [] \/ pi_writeopen p' = 0)).
Proof.
  set (c := fun k : K => _). set (before := (let* d := killed me in _)).
  assert (forall p k, at_pipe p k -> c k = (length (pipe_queue p) =? 0)%nat && negb (pi_writeopen p =? 0)) as Hc.
  { intros p1 k1 A1. unfold c. rewrite (at_pi _ _ A1). cbn. by rewrite pipe_empty by apply A1. }
  assert (forall p k, at_pipe p k -> is_killed k -> before k = Ok (Some tt) (set_k_held ∅ k)) as Hdead.
  { intros p1 k1 A1 Hk. eapply bind_eq; [by eapply killed_run|]. unfold is_killed in Hk. rewrite (proj2 (Z.eqb_neq _ _) Hk). cbn.
    eapply bind_eq; [apply release_ok; rewrite (at_held _ _ A1); set_solver|]. unfold ret. do 2 f_equal.
    rewrite (at_held _ _ A1). set_solver. }
  assert (forall f k, c k = false -> sleep_loop f c before (Ch_pipe_nread pi) (L_pipe pi) k = Ok None k) as Hend.
  { intros f k1 Ec. destruct f; cbn [sleep_loop]; (eapply bind_eq; [reflexivity|]); by rewrite Ec. }
  assert (forall f p k, at_pipe p k -> c k = true -> is_killed k ->
    sleep_loop f c before (Ch_pipe_nread pi) (L_pipe pi) k = Ok (Some tt) (set_k_held ∅ k)) as Hkill.
  { intros f p1 k1 A1 Ec Hk. destruct f; cbn [sleep_loop]; (eapply bind_eq; [reflexivity|]); rewrite Ec;
      (eapply bind_eq; [by eapply Hdead|]); done. }
  assert (forall p k, at_pipe p k -> c k = false -> pipe_queue p <> [] \/ pi_writeopen p = 0) as Hgo.
  { intros p1 k1 A1 Ec. rewrite (Hc _ _ A1) in Ec. destruct (pipe_queue p1); [right|by left]. cbn in Ec. by b2p. }
  intros A Hcl Hp. destruct (c k) eqn:Ec; [|exists None, k, p, []; rewrite (right_id_L [] (++));
    split_and!; [by apply Hend|done|right; by eauto]].
  destruct (decide (is_killed k)) as [Hk|Hk].
  { exists (Some tt), (set_k_held ∅ k), p, []. rewrite (right_id_L [] (++)). split_and!; [by eapply Hkill|done|left].
    split_and!; [done..|apply A|done]. }
  destruct (Hothers k p A Hcl) as (k2 & Ho & S & Hcl2 & Hq). destruct (Hq p (at_pi _ _ A)) as (p2 & new & Hp2 & Hok2 & Hd & Hr).
  destruct (at_sleep (Ch_pipe_nread pi) p k k2 p2 A Ho S Hp2 Hok2) as (Es & A2 & Hk2).
  set (k3 := awake (L_pipe pi) me k2) in *.
  assert (sleep_loop patience c before (Ch_pipe_nread pi) (L_pipe pi) k =
    sleep_loop (pred patience) c before (Ch_pipe_nread pi) (L_pipe pi) k3) as ->.
  { destruct patience as [|f]; [lia|]. cbn [sleep_loop pred]. eapply bind_eq; [reflexivity|]. rewrite Ec.
    eapply (bind_eq _ _ _ None k); [|by eapply bind_eq]. eapply bind_eq; [by eapply killed_run|].
    unfold is_killed in Hk. by destruct (Z.eqb_spec (p_killed (k_procs k !!! me)) 0). }
  destruct (c k3) eqn:Ec3.
  - exists (Some tt), (set_k_held ∅ k3), p2, new. rewrite (Hc _ _ A2) in Ec3. b2p.
    assert (is_killed k3) as Hk3. { apply Hk2. destruct Hr as [?|[?|?]]; [by destruct (pipe_queue p2)|done|done]. }
    split_and!; [eapply Hkill; [done| |done]|done|left; by split_and!].
    rewrite (Hc _ _ A2). destruct (pipe_queue p2); [|done]. by rewrite (proj2 (Z.eqb_neq _ _)).
  - exists None, k3, p2, new. split_and!; [by apply Hend|done|right]. split_and!; [done|done|exact Hcl2|by eapply Hgo].
Qed.

(** C27: piperead() takes the first bytes out of the pipe and gives them to the
    user, in order: the bytes that were in the pipe and those that the writers
    appended while it slept are the bytes it took and the bytes that are still in
    the pipe.  It returns 0 for [n] > 0 only when the pipe is empty and the write
    end is closed, or the buffer's first byte is not mapped; the one byte it then
    loses is the first it could not store.  It returns -1 when the process is
    killed, with the pipe as it was but for the writers. *)
Theorem piperead_fifo p k :
  at_pipe p (set_k_held {[L_pipe pi]} k) -> k_held k = ∅ -> clear_of_tables (k_mem k) pt addr (Z.to_nat n) ->
  (1 <= patience)%nat ->
  exists r k' p' new, piperead pi addr n k = Ok r k' /\ k_held k' = ∅ /\ k_pipes k' !! pi = Some p' /\
    (r = -1 /\ is_killed k' /\ pipe_queue p' = pipe_queue p ++ new \/
     exists got c m, r = Z.of_nat c /\ pipe_queue p ++ new = got ++ pipe_queue p' /\
       k_mem k' = (user_write m m pt addr (take c got)).2 /\
       (length got = c /\ (c = Z.to_nat n \/ pipe_queue p' = []) /\ (c = 0%nat -> 0 < n -> pi_writeopen p' = 0) \/
        length got = S c /\ (c < Z.to_nat n)%nat /\ upage m pt (PGROUNDDOWN (u64 (addr + Z.of_nat c))) = 0)).
Proof.
  intros A Hh Hcl Hp. pose proof (at_proc _ _ A) as Hpr. cbn in Hpr. set (k1 := set_k_held {[L_pipe pi]} k) in *.
  destruct (piperead_wait p k1 A Hcl Hp) as (r & k2 & p2 & new & Ew & Hq & Hr).
  assert (forall r' k', match r with Some _ => ret (-1) | None =>
      let* i := piperead_loop (Z.to_nat n) pi me addr 0 in
      wakeup (Ch_pipe_nwrite pi) ;;; release (L_pipe pi) ;;; ret i end k2 = Ok r' k' ->
    piperead pi addr n k = Ok r' k') as Eg.
  { intros r' k' E. unfold piperead, mypr, myproc. ksteps. rewrite Hpr. ksteps.
    rewrite Hh. replace ({[L_pipe pi]} ∪ ∅) with ({[L_pipe pi]} : gset lock) by set_solver. by eapply bind_eq. }
  destruct Hr as [(-> & Hh' & Hp2 & Hk)|(-> & A2 & Hcl2 & Hgo)].
  { exists (-1), k2, p2, new. split_and!; [by apply Eg|done..|by left]. }
  destruct (piperead_loop_run (k_mem k2) (Z.to_nat n) 0 p2 k2 A2) as (c & k3 & p3 & E3 & A3 & Hwo & Hmem & Hr); [done|done|].
  pose proof (at_woken (Ch_pipe_nwrite pi) p3 k3 A3) as A4. set (k4 := set_k_procs _ k3) in A4.
  exists (Z.of_nat c), (set_k_held (k_held k4 ∖ {[L_pipe pi]}) k4), p3, new.
  split_and!; [|cbn; rewrite (at_held _ _ A3); set_solver|apply A4|right].
  { apply Eg. eapply bind_eq; [exact E3|]. eapply bind_eq; [by eapply at_wake|]. fold k4.
    eapply bind_eq; [apply release_ok; rewrite (at_held _ _ A4); set_solver|done]. }
  rewrite Z.add_0_r, u64_small in Hmem by done. rewrite <- Hq. cbn [k_mem set_k_held].
  change (k_mem k4) with (k_mem k3).
  destruct Hr as [[-> Hq3]|(Hlt & Hq3 & Hup)].
  - set (c := Nat.min _ _) in *. exists (take c (pipe_queue p2)), c, (k_mem k2). rewrite Hq3, take_drop.
    assert (length (take c (pipe_queue p2)) = c) as Hl by (rewrite length_take; lia).
    split_and!; [done|done|by rewrite (take_ge (take c _)) by lia|left]. split_and!; [done|..].
    + destruct (decide (Z.to_nat n <= length (pipe_queue p2))%nat); [left; lia|right].
      apply drop_ge. lia.
    + intros Hc0 Hn. rewrite Hwo. destruct Hgo as [Hne|?]; [|done]. destruct (pipe_queue p2); [done|]. cbn in c. lia.
  - exists (take (S c) (pipe_queue p2)), c, (k_mem k2). rewrite Hq3, take_drop.
    split_and!; [done|done| |right; split_and!; [rewrite length_take; lia|lia|done]].
    rewrite take_take. by rewrite Nat.min_l by lia.
Qed.
End read.

End pipespec.

(** * Witnesses *)

(** The other threads read a byte at a time from the pipe at 4096, or write one. *)
Definition pipe_platform (f : pipe -> pipe) : Platform := {|
  others := fun _ k => Some (set_k_pipes (alter f 4096 (k_pipes k)) k); patience := 2;
  sym_end := PHYSTOP - 8 * PGSIZE; sym_etext := KERNBASE + PGSIZE;
  sym_trampoline := KERNBASE; sym_uservec := KERNBASE; sym_userret := KERNBASE + 144;
  sym_forkret := 0; sym_usertrap := 0; sym_kernelvec := 0 |}.

Definition read_one (p : pipe) : pipe := if pi_nread p =? pi_nwrite p then p else pipe_pop p.
Definition write_one (p : pipe) : pipe :=
  if pi_nwrite p =? u32 (pi_nread p + PIPESIZE) then p else pipe_push 9 p.

(** Process 0 runs, with the address space of [user_K]. *)
Definition pipe_K (p : pipe) : K :=
  set_k_pipes {[4096 := p]} (set_k_proc (Some 0%nat)
    (set_k_procs (alter (set_p_pagetable (pg 7)) 0%nat (k_procs user_K)) user_K)).

Definition full_pipe : pipe := mk_pipe (replicate 512 5) 0 512 1 1.
Definition empty_pipe : pipe := mk_pipe (replicate 512 5) 7 7 1 1.

Lemma pipe_K_at p : pipe_ok p -> at_pipe 4096 0 (pg 7) p (set_k_held {[L_pipe 4096]} (pipe_K p)).
Proof. intros Hp. split; try done. apply Nat.ltb_lt. by vm_compute. Qed.

Lemma read_one_ok p : pipe_ok p -> pipe_ok (read_one p) /\ exists taken, pipe_queue p = taken ++ pipe_queue (read_one p) /\
  (length (pipe_queue (read_one p)) < Z.to_nat PIPESIZE)%nat.
Proof.
  intros Hp. assert (length (pipe_queue p) <= Z.to_nat PIPESIZE)%nat as Hl.
  { destruct Hp as (_ & _ & _ & Hc). unfold pipe_queue. rewrite length_ring. lia. }
  unfold read_one. rewrite (pipe_empty p Hp). destruct (pipe_queue p) as [|c q] eqn:Eq; cbn [length Nat.eqb].
  - split; [done|]. exists []. rewrite Eq. split; [done|]. cbn [length]. unfold PIPESIZE. lia.
  - destruct (pipe_pop_ok p c q Hp Eq) as (Hok & Hq & _). split; [done|]. exists [c]. rewrite Hq. split; [done|]. cbn [length] in Hl. lia.
Qed.

Lemma write_one_ok p : pipe_ok p -> pipe_ok (write_one p) /\ exists new, pipe_queue (write_one p) = pipe_queue p ++ new /\
  pipe_queue (write_one p) <> [].
Proof.
  intros Hp. unfold write_one. rewrite (pipe_full p Hp). destruct (length (pipe_queue p) =? Z.to_nat PIPESIZE)%nat eqn:E; b2p.
  - split; [done|]. exists []. rewrite (right_id_L [] (++)). split; [done|]. intros Eq. by rewrite Eq in E.
  - destruct (pipe_push_ok 9 p Hp) as [Hok Hq].
    { destruct Hp as (_ & _ & _ & Hc). unfold pipe_queue in *. rewrite length_ring in *. lia. }
    split; [done|]. exists [9]. split; [done|]. rewrite Hq. by destruct (pipe_queue p).
Qed.

Lemma user_bytes_2 : user_read (k_mem user_K) (pg 7) 2 2 = (0, [0; 7]).
Proof.
  pose proof (user_bytes 0 ltac:(lia)) as [E0 A0]. pose proof (user_bytes 1 ltac:(lia)) as [E1 A1].
  change (u64 (2 + Z.of_nat 0)) with 2 in *. change (u64 (2 + Z.of_nat 1)) with 3 in *.
  cbn [user_read]. unfold user_ld. rewrite E0, user_upage, A0. change (u64 (2 + 1)) with 3. rewrite E1, user_upage, A1.
  by vm_compute.
Qed.

(** Two bytes written to a full pipe. *)
Lemma pipewrite_fifo_witness : exists r k' p' i taken,
  @pipewrite (pipe_platform read_one) 4096 2 2 (pipe_K full_pipe) = Ok r k' /\ k_pipes k' !! 4096 = Some p' /\
  pipe_queue full_pipe ++ take i [0; 7] = taken ++ pipe_queue p' /\
  (r = 2 \/ r = -1 /\ stops 0 p' k').
Proof.
  destruct (@pipewrite_fifo (pipe_platform read_one) 4096 0 (pg 7) 2 2 (k_mem user_K) [0; 7] 0)
    with (p := full_pipe) (k := pipe_K full_pipe) as (r & k' & p' & i & taken & E & _ & Hp & _ & Hq & Hr).
  - clear. lia.
  - exact user_bytes_2.
  - intros k p A. eexists. split; [reflexivity|]. destruct (read_one_ok p (at_ok _ _ _ _ _ A)) as (Hok & taken & Hq & Hl).
    split_and!; [by split|done|]. intros p1 Hp1. cbn in Hp1. rewrite (at_pi _ _ _ _ _ A) in Hp1. injection Hp1 as <-.
    exists (read_one p), taken. split_and!; [|done|done|by left]. cbn. by rewrite lookup_alter, decide_True, (at_pi _ _ _ _ _ A).
  - apply pipe_K_at. by vm_compute.
  - reflexivity.
  - reflexivity.
  - clear. cbn. lia.
  - exists r, k', p', i, taken. split_and!; [exact E|exact Hp|exact Hq|]. destruct Hr as [[-> _]|Hr]; [by left|by right].
Defined.

(** A byte is written while the reader of an empty pipe waits. *)
Lemma piperead_fifo_witness : exists r k' p' new,
  @piperead (pipe_platform write_one) 4096 2 2 (pipe_K empty_pipe) = Ok r k' /\ k_pipes k' !! 4096 = Some p' /\
  (r = -1 /\ pipe_queue p' = new \/ exists got, new = got ++ pipe_queue p').
Proof.
  destruct (@piperead_fifo (pipe_platform write_one) 4096 0 (pg 7) 2 2)
    with (p := empty_pipe) (k := pipe_K empty_pipe) as (r & k' & p' & new & E & _ & Hp & Hr).
  - clear. lia.
  - intros k p A Hcl. eexists. split; [reflexivity|]. destruct (write_one_ok p (at_ok _ _ _ _ _ A)) as (Hok & new & Hq & Hne).
    split_and!; [by split|done|]. intros p1 Hp1. cbn in Hp1. rewrite (at_pi _ _ _ _ _ A) in Hp1. injection Hp1 as <-.
    exists (write_one p), new. split_and!; [|done|done|by left]. cbn. by rewrite lookup_alter, decide_True, (at_pi _ _ _ _ _ A).
  - apply pipe_K_at. by vm_compute.
  - reflexivity.
  - exact user_clear.
  - clear. cbn. lia.
  - exists r, k', p', new. change (pipe_queue empty_pipe ++ new) with new in Hr. split_and!; [exact E|exact Hp|].
    destruct Hr as [(-> & _ & Hq)|(got & c & m & _ & Hq & _)]; [left; by split|right; by exists got].
Defined.
