(* ===== verification/File.v ===== *)
(** kernel/file.c: open files, and kernel/pipe.c's pipealloc(). *)
From S2P Require Import Prelude CInt KState KString Riscv Kalloc Vm Proc Uart Printf Console Bio Log Fs Pipe.

Section file.
Context {P : Platform}.

Definition fileinit : M unit := initlock L_ftable.

Definition filealloc : M (option nat) :=
  acquire L_ftable ;;;
  let* r := first_ (seq 0 (Z.to_nat NFILE)) (fun f =>
    let* fl := get_file f in
    if f_ref fl =? 0 then
      upd_file f (set_f_ref 1) ;;;
      release L_ftable ;;;
      ret (Some f)
    else ret None) in
  match r with
  | Some f => ret (Some f)
  | None => release L_ftable ;;; ret None
  end.

Definition filedup (f : nat) : M nat :=
  acquire L_ftable ;;;
  let* fl := get_file f in
  if f_ref fl <? 1 then panic "filedup"
  else
    upd_file f (set_f_ref (f_ref fl + 1)) ;;;
    release L_ftable ;;;
    ret f.

(** A struct inode pointer used without a test. *)
Definition deref_ip (ip : option nat) : M nat :=
  match ip with
  | Some ip => ret ip
  | None => panic "kerneltrap"
  end.

(** ilock() of a pointer that may be null. *)
Definition ilock_ptr (ip : option nat) : M nat :=
  match ip with
  | Some ip => ilock ip ;;; ret ip
  | None => panic "ilock"
  end.

Definition fileclose (f : nat) : M unit :=
  acquire L_ftable ;;;
  let* fl := get_file f in
  if f_ref fl <? 1 then panic "fileclose"
  else
    upd_file f (set_f_ref (f_ref fl - 1)) ;;;
    if 0 <? f_ref fl - 1 then release L_ftable
    else
      let* ff := get_file f in
      upd_file f (set_f_ref 0) ;;;
      upd_file f (set_f_type FD_NONE) ;;;
      release L_ftable ;;;
      match f_type ff with
      | FD_PIPE => pipeclose (f_pipe ff) (negb (f_writable ff =? 0))
      | FD_INODE | FD_DEVICE =>
          begin_op ;;;
          let* ip := deref_ip (f_ip ff) in
          iput ip ;;;
          end_op
      | FD_NONE => ret tt
      end.

Definition sizeof_stat : Z := 24.

Definition filestat (f : nat) (addr : Z) : M Z :=
  let* p := mypr in
  let* fl := get_file f in
  match f_type fl with
  | FD_INODE | FD_DEVICE =>
      local sizeof_stat (fun st =>
        let* ip := ilock_ptr (f_ip fl) in
        stati ip st ;;;
        iunlock ip ;;;
        let* pr := get_proc p in
        let* bs := gets (fun k => ldbytes (k_mem k) st (Z.to_nat sizeof_stat)) in
        let* r := copyout (p_pagetable pr) addr bs in
        ret (if r <? 0 then -1 else 0))
  | _ => ret (-1)
  end.

(** The entry of devsw[] for a device file, [Dev_none] when the code refuses it. *)
Definition devsw_of (major : Z) : M devfn :=
  let* d := gets (fun k => k_devsw k) in
  if (major <? 0) || (NDEV <=? major) then ret Dev_none
  else ret (nth (Z.to_nat major) d Dev_none).

Definition fileread (f : nat) (addr n : Z) : M Z :=
  let* fl := get_file f in
  if f_readable fl =? 0 then ret (-1)
  else
    match f_type fl with
    | FD_PIPE => piperead (f_pipe fl) addr n
    | FD_DEVICE =>
        let* d := devsw_of (f_major fl) in
        match d with
        | Dev_none => ret (-1)
        | Dev_console => consoleread true addr n
        end
    | FD_INODE =>
        let* ip := ilock_ptr (f_ip fl) in
        let* fl := get_file f in
        let* r := readi ip true addr (f_off fl) (u32 n) in
        when (0 <? r) (upd_file f (fun fl => set_f_off (u32 (f_off fl + r)) fl)) ;;;
        iunlock ip ;;;
        ret r
    | FD_NONE => panic "fileread"
    end.

Definition filewrite_max : Z := (MAXOPBLOCKS - 1 - 1 - 2) / 2 * BSIZE.

(** The loop of filewrite(), a transaction per turn: the final value of i. *)
Fixpoint filewrite_loop (m : nat) (f : nat) (addr n i : Z) : M Z :=
  if i <? n then
    match m with
    | O => stuck
    | S m' =>
        let n1 := if filewrite_max <? n - i then filewrite_max else n - i in
        begin_op ;;;
        let* fl := get_file f in
        let* ip := ilock_ptr (f_ip fl) in
        let* fl := get_file f in
        let* r := writei ip true (u64 (addr + i)) (f_off fl) (u32 n1) in
        when (0 <? r) (upd_file f (fun fl => set_f_off (u32 (f_off fl + r)) fl)) ;;;
        iunlock ip ;;;
        end_op ;;;
        if negb (r =? n1) then ret i (* error from writei *)
        else filewrite_loop m' f addr n (i + r)
    end
  else ret i.

Definition filewrite (f : nat) (addr n : Z) : M Z :=
  let* fl := get_file f in
  if f_writable fl =? 0 then ret (-1)
  else
    match f_type fl with
    | FD_PIPE => pipewrite (f_pipe fl) addr n
    | FD_DEVICE =>
        let* d := devsw_of (f_major fl) in
        match d with
        | Dev_none => ret (-1)
        | Dev_console => consolewrite true addr n
        end
    | FD_INODE =>
        let* i := filewrite_loop (Z.to_nat (n / filewrite_max + 1)) f addr n 0 in
        ret (if i =? n then n else -1)
    | FD_NONE => panic "filewrite"
    end.

(** * kernel/pipe.c *)

Definition pipealloc_bad (f0 f1 : option nat) : M (option (nat * nat)) :=
  (match f0 with Some f => fileclose f | None => ret tt end) ;;;
  (match f1 with Some f => fileclose f | None => ret tt end) ;;;
  ret None.

(** The two files on success.  What pi->data holds is what is in the page;
    struct spinlock takes the first 24 bytes of it. *)
Definition pipealloc : M (option (nat * nat)) :=
  let* f0 := filealloc in
  match f0 with
  | None => pipealloc_bad None None
  | Some f0 =>
      let* f1 := filealloc in
      match f1 with
      | None => pipealloc_bad (Some f0) None
      | Some f1 =>
          let* pi := kalloc in
          if pi =? 0 then pipealloc_bad (Some f0) (Some f1)
          else
            let* data := gets (fun k => ldbytes (k_mem k) (pi + 24) (Z.to_nat PIPESIZE)) in
            modify (fun k => set_k_pipes (<[pi := mk_pipe data 0 0 1 1]> (k_pipes k)) k) ;;;
            initlock (L_pipe pi) ;;;
            upd_file f0 (set_f_type FD_PIPE) ;;;
            upd_file f0 (set_f_readable 1) ;;;
            upd_file f0 (set_f_writable 0) ;;;
            upd_file f0 (set_f_pipe pi) ;;;
            upd_file f1 (set_f_type FD_PIPE) ;;;
            upd_file f1 (set_f_readable 0) ;;;
            upd_file f1 (set_f_writable 1) ;;;
            upd_file f1 (set_f_pipe pi) ;;;
            ret (Some (f0, f1))
      end
  end.

End file.
