(* ===== verification/ProcLife.v ===== *)
(** The part of kernel/proc.c that calls into the file system: the first
    process, fork, exit and wait. *)
From S2P Require Import Prelude CInt KState KString Riscv Kalloc Vm Proc Uart Printf Console Bio Log Fs Pipe File.

Section proclife.
Context {P : Platform}.

Definition initcode : list Z := [
  0x17; 0x05; 0x00; 0x00; 0x13; 0x05; 0x45; 0x02;
  0x97; 0x05; 0x00; 0x00; 0x93; 0x85; 0x35; 0x02;
  0x93; 0x08; 0x70; 0x00; 0x73; 0x00; 0x00; 0x00;
  0x93; 0x08; 0x20; 0x00; 0x73; 0x00; 0x00; 0x00;
  0xef; 0xf0; 0x9f; 0xff; 0x2f; 0x69; 0x6e; 0x69;
  0x74; 0x00; 0x00; 0x24; 0x00; 0x00; 0x00; 0x00;
  0x00; 0x00; 0x00; 0x00 ].

(** safestrcpy() into p->name: the bytes stored, and what was behind them. *)
Definition set_name (s : list Z) (pr : proc) : proc :=
  set_p_name (stl (p_name pr) 0 (safestrcpy (at_arr s) 16)) pr.

Definition userinit : M unit :=
  let* p := allocproc in
  modify (set_k_initproc p) ;;;
  match p with
  | None => panic "kerneltrap"
  | Some p =>
      (* allocate one user page and copy initcode's instructions and data
         into it. *)
      let* pr := get_proc p in
      uvmfirst (p_pagetable pr) initcode (Z.of_nat (length initcode)) ;;;
      upd_proc p (set_p_sz PGSIZE) ;;;
      (* prepare for the very first "return" from kernel to user. *)
      tf_set p tf_epc 0 ;;;
      tf_set p tf_sp PGSIZE ;;;
      upd_proc p (set_name (bstr "initcode")) ;;;
      let* cwd := namei (bstr "/") in
      upd_proc p (set_p_cwd cwd) ;;;
      upd_proc p (set_p_state RUNNABLE) ;;;
      release (L_proc p)
  end.

(** The trapframe of [p] becomes a copy of the one of [q]. *)
Definition copy_trapframe (p q : nat) : M unit :=
  let* pr := get_proc p in
  let* qr := get_proc q in
  upd_mem (fun m => stbytes m (p_trapframe pr)
                      (ldbytes m (p_trapframe qr) (Z.to_nat sizeof_trapframe))).

Definition fork : M Z :=
  let* p := mypr in
  (* Allocate process. *)
  let* np := allocproc in
  match np with
  | None => ret (-1)
  | Some np =>
      (* Copy user memory from parent to child. *)
      let* pr := get_proc p in
      let* nr := get_proc np in
      let* r := uvmcopy (p_pagetable pr) (p_pagetable nr) (p_sz pr) in
      if r <? 0 then
        freeproc np ;;;
        release (L_proc np) ;;;
        ret (-1)
      else
        upd_proc np (set_p_sz (p_sz pr)) ;;;
        (* copy saved user registers. *)
        copy_trapframe np p ;;;
        (* Cause fork to return 0 in the child. *)
        tf_set np tf_a0 0 ;;;
        (* increment reference counts on open file descriptors. *)
        for_ (seq 0 (Z.to_nat NOFILE)) (fun i =>
          let* pr := get_proc p in
          match p_ofile pr !! i with
          | Some (Some f) =>
              let* f' := filedup f in
              upd_proc np (fun nr => set_p_ofile (<[i := Some f']> (p_ofile nr)) nr)
          | _ => ret tt
          end) ;;;
        let* cwd := deref_ip (p_cwd pr) in
        let* cwd := idup cwd in
        upd_proc np (set_p_cwd (Some cwd)) ;;;
        upd_proc np (set_name (p_name pr)) ;;;
        let* nr := get_proc np in
        release (L_proc np) ;;;
        acquire L_wait ;;;
        upd_proc np (set_p_parent (Some p)) ;;;
        release L_wait ;;;
        acquire (L_proc np) ;;;
        upd_proc np (set_p_state RUNNABLE) ;;;
        release (L_proc np) ;;;
        ret (p_pid nr)
  end.

(** The channel a process sleeps on in wait() is its own address. *)
Definition chan_of (p : option nat) : chan :=
  match p with
  | Some p => Ch_proc p
  | None => Ch_null
  end.

Definition reparent (p : nat) : M unit :=
  for_ (seq 0 (Z.to_nat NPROC)) (fun pp =>
    let* pr := get_proc pp in
    if decide (p_parent pr = Some p) then
      let* initproc := gets (fun k => k_initproc k) in
      upd_proc pp (set_p_parent initproc) ;;;
      wakeup (chan_of initproc)
    else ret tt).

Definition exit {A} (status : Z) : M A :=
  let* p := mypr in
  let* initproc := gets (fun k => k_initproc k) in
  if decide (initproc = Some p) then panic "init exiting"
  else
    (* Close all open files. *)
    for_ (seq 0 (Z.to_nat NOFILE)) (fun fd =>
      let* pr := get_proc p in
      match p_ofile pr !! fd with
      | Some (Some f) =>
          fileclose f ;;;
          upd_proc p (fun pr => set_p_ofile (<[fd := None]> (p_ofile pr)) pr)
      | _ => ret tt
      end) ;;;
    begin_op ;;;
    let* pr := get_proc p in
    let* cwd := deref_ip (p_cwd pr) in
    iput cwd ;;;
    end_op ;;;
    upd_proc p (set_p_cwd None) ;;;
    acquire L_wait ;;;
    (* Give any children to init. *)
    reparent p ;;;
    (* Parent might be sleeping in wait(). *)
    let* pr := get_proc p in
    wakeup (chan_of (p_parent pr)) ;;;
    acquire (L_proc p) ;;;
    upd_proc p (set_p_xstate status) ;;;
    upd_proc p (set_p_state ZOMBIE) ;;;
    release L_wait ;;;
    (* Jump into the scheduler, never to return. *)
    sched ;;;
    panic "zombie exit".

(** One scan of the table for an exited child: the value wait() returns, or
    whether there are children. *)
Fixpoint wait_scan (l : list nat) (p : nat) (addr : Z) (havekids : bool) : M (Z + bool) :=
  match l with
  | [] => ret (inr havekids)
  | pp :: l' =>
      let* c := get_proc pp in
      if decide (p_parent c = Some p) then
        (* make sure the child isn't still in exit() or swtch(). *)
        acquire (L_proc pp) ;;;
        let* c := get_proc pp in
        if decide (p_state c = ZOMBIE) then
          (* Found one. *)
          let* r := (if addr =? 0 then ret 0
                     else
                       let* pr := get_proc p in
                       copyout (p_pagetable pr) addr (le_bytes 4 (p_xstate c))) in
          if r <? 0 then
            release (L_proc pp) ;;;
            release L_wait ;;;
            ret (inl (-1))
          else
            freeproc pp ;;;
            release (L_proc pp) ;;;
            release L_wait ;;;
            ret (inl (p_pid c))
        else
          release (L_proc pp) ;;;
          wait_scan l' p addr true
      else wait_scan l' p addr havekids
  end.

Fixpoint wait_loop (n : nat) (p : nat) (addr : Z) : M Z :=
  let* r := wait_scan (seq 0 (Z.to_nat NPROC)) p addr false in
  match r with
  | inl v => ret v
  | inr havekids =>
      (* No point waiting if we don't have any children. *)
      let* stop := (if havekids : bool then let* d := killed p in ret (negb (d =? 0))
                    else ret true) in
      if stop : bool then
        release L_wait ;;;
        ret (-1)
      else
        match n with
        | O => stuck
        | S n' =>
            (* Wait for a child to exit. *)
            sleep (Ch_proc p) L_wait ;;;
            wait_loop n' p addr
        end
  end.

Definition wait (addr : Z) : M Z :=
  let* p := mypr in
  acquire L_wait ;;;
  wait_loop patience p addr.

End proclife.
