(* ===== verification/Exec.v ===== *)
(** kernel/exec.c and kernel/elf.h: replacing a process's user image. *)
From S2P Require Import Prelude CInt KState KString Riscv Kalloc Vm Proc Uart Printf Console Bio Log Fs Pipe File.

(** * kernel/elf.h *)

Definition ELF_MAGIC : Z := 0x464C457F.
Definition sizeof_elfhdr : Z := 64.
Definition sizeof_proghdr : Z := 56.
Definition ELF_PROG_LOAD : Z := 1.

Record elfhdr := mk_elfhdr { e_magic : Z; e_entry : Z; e_phoff : Z; e_phnum : Z }.
Record proghdr := mk_proghdr {
  ph_type : Z; ph_flags : Z; ph_off : Z; ph_vaddr : Z; ph_filesz : Z; ph_memsz : Z }.

(** The fields exec() uses, from the bytes of the header. *)
Definition ldl64 (d : list Z) (off : Z) : Z := le_val (ldl d off 8).
Definition elfhdr_of (d : list Z) : elfhdr :=
  mk_elfhdr (ldl32 d 0) (ldl64 d 24) (ldl64 d 32) (ldl16 d 56).
Definition proghdr_of (d : list Z) : proghdr :=
  mk_proghdr (ldl32 d 0) (ldl32 d 4) (ldl64 d 8) (ldl64 d 16) (ldl64 d 32) (ldl64 d 40).

Definition flags2perm (flags : Z) : Z :=
  let perm := if negb (Z.land flags 0x1 =? 0) then PTE_X else 0 in
  if negb (Z.land flags 0x2 =? 0) then Z.lor perm PTE_W else perm.

Section exec.
Context {P : Platform}.

(** The loop of loadseg(), a page per turn. *)
Fixpoint loadseg_loop (f : nat) (pagetable va : Z) (ip : nat) (offset sz i : Z) : M Z :=
  if i <? sz then
    match f with
    | O => stuck
    | S f' =>
        let* pa := walkaddr pagetable (u64 (va + i)) in
        if pa =? 0 then panic "loadseg: address should exist"
        else
          let n := if u32 (sz - i) <? PGSIZE then u32 (sz - i) else PGSIZE in
          let* r := readi ip false pa (u32 (offset + i)) n in
          if negb (u32 r =? n) then ret (-1)
          else loadseg_loop f' pagetable va ip offset sz (u32 (i + PGSIZE))
    end
  else ret 0.

Definition loadseg (pagetable va : Z) (ip : nat) (offset sz : Z) : M Z :=
  loadseg_loop (Z.to_nat (sz / PGSIZE + 1)) pagetable va ip offset sz 0.

(** The label bad: of exec(). *)
Definition exec_bad (pagetable sz : Z) (ip : option nat) : M Z :=
  when (negb (pagetable =? 0)) (proc_freepagetable pagetable sz) ;;;
  match ip with
  | Some ip =>
      iunlockput ip ;;;
      end_op ;;;
      ret (-1)
  | None => ret (-1)
  end.

(** The loop over the program headers, [n] of them left: whether it ended
    without an error, and the size of the image so far. *)
Fixpoint exec_load (n : nat) (pagetable : Z) (ip : nat) (ph off sz : Z) : M (bool * Z) :=
  match n with
  | O => ret (true, sz)
  | S n' =>
      let* r := readi ip false ph (u32 off) sizeof_proghdr in
      if negb (r =? sizeof_proghdr) then ret (false, sz)
      else
        let* h := gets (fun k => proghdr_of (ldbytes (k_mem k) ph (Z.to_nat sizeof_proghdr))) in
        if negb (ph_type h =? ELF_PROG_LOAD)
        then exec_load n' pagetable ip ph (i32 (off + sizeof_proghdr)) sz
        else if ph_memsz h <? ph_filesz h then ret (false, sz)
        else if u64 (ph_vaddr h + ph_memsz h) <? ph_vaddr h then ret (false, sz)
        else if negb (ph_vaddr h mod PGSIZE =? 0) then ret (false, sz)
        else
          let* sz1 := uvmalloc pagetable sz (u64 (ph_vaddr h + ph_memsz h)) (flags2perm (ph_flags h)) in
          if sz1 =? 0 then ret (false, sz)
          else
            let* r := loadseg pagetable (ph_vaddr h) ip (u32 (ph_off h)) (u32 (ph_filesz h)) in
            if r <? 0 then ret (false, sz1)
            else exec_load n' pagetable ip ph (i32 (off + sizeof_proghdr)) sz1
  end.

(** Push the argument strings: the stack pointer and ustack[] so far, [None]
    when the code goes to bad. *)
Fixpoint exec_args (argv : list Z) (pagetable stackbase sp : Z) (ustack : list Z)
    : M (option (Z * list Z)) :=
  match argv with
  | [] => ret (Some (sp, ustack))
  | a :: argv' =>
      if MAXARG <=? Z.of_nat (length ustack) then ret None
      else
        let* len := gets (fun k => strlen (at_mem (k_mem k) a)) in
        match len with
        | None => stuck
        | Some len =>
            let sp := u64 (sp - (len + 1)) in
            let sp := u64 (sp - sp mod 16) in (* riscv sp must be 16-byte aligned *)
            if sp <? stackbase then ret None
            else
              let* bs := gets (fun k => ldbytes (k_mem k) a (Z.to_nat (len + 1))) in
              let* r := copyout pagetable sp bs in
              if r <? 0 then ret None
              else exec_args argv' pagetable stackbase sp (ustack ++ [sp])
        end
  end.

(** The part of the path after its last slash. *)
Fixpoint last_elem (s last : list Z) : list Z :=
  match s with
  | [] => last
  | c :: s' => last_elem s' (if c =? 47 then s' else last)
  end.

(** Commit to the user image. *)
Definition exec_commit (path : list Z) (pagetable sz sp entry oldsz : Z) : M unit :=
  let* p := mypr in
  tf_set p tf_a1 sp ;;;
  (* Save program name for debugging. *)
  upd_proc p (fun pr =>
    set_p_name (stl (p_name pr) 0 (safestrcpy (at_arr (last_elem path path)) 16)) pr) ;;;
  let* pr := get_proc p in
  upd_proc p (set_p_pagetable pagetable) ;;;
  upd_proc p (set_p_sz sz) ;;;
  tf_set p tf_epc entry ;;; (* initial program counter = main *)
  tf_set p tf_sp sp ;;; (* initial stack pointer *)
  proc_freepagetable (p_pagetable pr) oldsz.

(** exec() after the program is loaded: the user stack and the commit. *)
Definition exec_stack (path argv : list Z) (pagetable sz entry : Z) : M Z :=
  let* p := mypr in
  let* pr := get_proc p in
  let oldsz := p_sz pr in
  (* Allocate two pages at the next page boundary.  Make the first
     inaccessible as a stack guard.  Use the second as the user stack. *)
  let sz := PGROUNDUP sz in
  let* sz1 := uvmalloc pagetable sz (u64 (sz + 2 * PGSIZE)) PTE_W in
  if sz1 =? 0 then exec_bad pagetable sz None
  else
    let sz := sz1 in
    uvmclear pagetable (u64 (sz - 2 * PGSIZE)) ;;;
    let stackbase := u64 (sz - PGSIZE) in
    let* r := exec_args argv pagetable stackbase sz [] in
    match r with
    | None => exec_bad pagetable sz None
    | Some (sp, ustack) =>
        let argc := Z.of_nat (length ustack) in
        if MAXARG <=? argc then stuck (* ustack[argc] = 0 is outside the array *)
        else
          (* push the array of argv[] pointers. *)
          let sp := u64 (sp - (argc + 1) * 8) in
          let sp := u64 (sp - sp mod 16) in
          if sp <? stackbase then exec_bad pagetable sz None
          else
            let* r := copyout pagetable sp (concat (map (le_bytes 8) (ustack ++ [0]))) in
            if r <? 0 then exec_bad pagetable sz None
            else
              exec_commit path pagetable sz sp entry oldsz ;;;
              (* this ends up in a0, the first argument to main(argc, argv) *)
              ret argc
    end.

(** [argv] holds the addresses of the argument strings, without the null
    pointer at the end. *)
Definition exec (path argv : list Z) : M Z :=
  let* p := mypr in
  begin_op ;;;
  let* ip := namei path in
  match ip with
  | None =>
      end_op ;;;
      ret (-1)
  | Some ip =>
      local sizeof_elfhdr (fun elf => local sizeof_proghdr (fun ph =>
        ilock ip ;;;
        (* Check ELF header *)
        let* r := readi ip false elf 0 sizeof_elfhdr in
        if negb (r =? sizeof_elfhdr) then exec_bad 0 0 (Some ip)
        else
          let* h := gets (fun k => elfhdr_of (ldbytes (k_mem k) elf (Z.to_nat sizeof_elfhdr))) in
          if negb (e_magic h =? ELF_MAGIC) then exec_bad 0 0 (Some ip)
          else
            let* pagetable := proc_pagetable p in
            if pagetable =? 0 then exec_bad 0 0 (Some ip)
            else
              (* Load program into memory. *)
              let* '(ok, sz) :=
                exec_load (Z.to_nat (e_phnum h)) pagetable ip ph (i32 (e_phoff h)) 0 in
              if negb ok then exec_bad pagetable sz (Some ip)
              else
                iunlockput ip ;;;
                end_op ;;;
                exec_stack path argv pagetable sz (e_entry h)))
  end.

End exec.
