(* ===== verification/Syscall.v ===== *)
(** kernel/syscall.c, kernel/sysproc.c and kernel/sysfile.c: the arguments of a
    system call, the system calls, and their dispatch. *)
From S2P Require Import Prelude CInt KState KString Riscv Kalloc Vm Proc Uart Printf Console Bio Log Fs Pipe File.
From S2P Require Import ProcLife Exec.

Section syscall.
Context {P : Platform}.

(** * kernel/syscall.c: arguments *)

(** The value, [None] for the error. *)
Definition fetchaddr (addr : Z) : M (option Z) :=
  let* p := mypr in
  let* pr := get_proc p in
  if (p_sz pr <=? addr) || (p_sz pr <? u64 (addr + 8)) (* both tests needed, in case of overflow *)
  then ret None
  else
    let* '(r, bs) := copyin (p_pagetable pr) addr 8 in
    ret (if negb (r =? 0) then None else Some (le_val bs)).

(** The return value, and the bytes stored in the buffer. *)
Definition fetchstr (addr max : Z) : M (Z * list Z) :=
  let* p := mypr in
  let* pr := get_proc p in
  let* '(r, bs) := copyinstr (p_pagetable pr) addr max in
  if r <? 0 then ret (-1, bs)
  else
    match strlen (at_arr bs) with
    | Some n => ret (n, bs)
    | None => stuck
    end.

Definition argraw (n : Z) : M Z :=
  let* p := mypr in
  if n =? 0 then tf_get p tf_a0
  else if n =? 1 then tf_get p tf_a1
  else if n =? 2 then tf_get p tf_a2
  else if n =? 3 then tf_get p tf_a3
  else if n =? 4 then tf_get p tf_a4
  else if n =? 5 then tf_get p tf_a5
  else panic "argraw".

Definition argint (n : Z) : M Z :=
  let* v := argraw n in
  ret (i32 v).

Definition argaddr (n : Z) : M Z := argraw n.

(** The string without its NUL, [None] for the error. *)
Definition argstr (n max : Z) : M (option (list Z)) :=
  let* addr := argaddr n in
  let* '(r, bs) := fetchstr addr max in
  ret (if r <? 0 then None else Some (take (Z.to_nat r) bs)).

(** * kernel/sysproc.c *)

Definition sys_exit : M Z :=
  let* n := argint 0 in
  exit n.

Definition sys_getpid : M Z :=
  let* p := mypr in
  let* pr := get_proc p in
  ret (p_pid pr).

Definition sys_fork : M Z := fork.

Definition sys_wait : M Z :=
  let* p := argaddr 0 in
  wait p.

Definition sys_sbrk : M Z :=
  let* n := argint 0 in
  let* p := mypr in
  let* pr := get_proc p in
  let* r := growproc n in
  ret (if r <? 0 then -1 else p_sz pr).

Definition sys_sleep : M Z :=
  let* n := argint 0 in
  acquire L_ticks ;;;
  let* ticks0 := gets (fun k => k_ticks k) in
  let* r := sleep_loop patience (fun k => u32 (k_ticks k - ticks0) <? u32 n)
              (let* p := mypr in
               let* d := killed p in
               if negb (d =? 0) then release L_ticks ;;; ret (Some tt) else ret None)
              Ch_ticks L_ticks in
  match r with
  | Some _ => ret (-1)
  | None =>
      release L_ticks ;;;
      ret 0
  end.

Definition sys_kill : M Z :=
  let* pid := argint 0 in
  kill pid.

Definition sys_uptime : M Z :=
  acquire L_ticks ;;;
  let* xticks := gets (fun k => k_ticks k) in
  release L_ticks ;;;
  ret xticks.

(** * kernel/sysfile.c *)

Definition argfd (n : Z) : M (option (Z * nat)) :=
  let* fd := argint n in
  if (fd <? 0) || (NOFILE <=? fd) then ret None
  else
    let* p := mypr in
    let* pr := get_proc p in
    match p_ofile pr !! Z.to_nat fd with
    | Some (Some f) => ret (Some (fd, f))
    | _ => ret None
    end.

Definition set_ofile (p : nat) (fd : Z) (f : option nat) : M unit :=
  upd_proc p (fun pr => set_p_ofile (<[Z.to_nat fd := f]> (p_ofile pr)) pr).

Definition fdalloc (f : nat) : M Z :=
  let* p := mypr in
  let* r := first_ (seq 0 (Z.to_nat NOFILE)) (fun fd =>
    let* pr := get_proc p in
    match p_ofile pr !! fd with
    | Some None =>
        set_ofile p (Z.of_nat fd) (Some f) ;;;
        ret (Some (Z.of_nat fd))
    | _ => ret None
    end) in
  ret (default (-1) r).

Definition sys_dup : M Z :=
  let* a := argfd 0 in
  match a with
  | None => ret (-1)
  | Some (_, f) =>
      let* fd := fdalloc f in
      if fd <? 0 then ret (-1)
      else
        filedup f ;;;
        ret fd
  end.

Definition sys_read : M Z :=
  let* p := argaddr 1 in
  let* n := argint 2 in
  let* a := argfd 0 in
  match a with
  | None => ret (-1)
  | Some (_, f) => fileread f p n
  end.

Definition sys_write : M Z :=
  let* p := argaddr 1 in
  let* n := argint 2 in
  let* a := argfd 0 in
  match a with
  | None => ret (-1)
  | Some (_, f) => filewrite f p n
  end.

Definition sys_close : M Z :=
  let* a := argfd 0 in
  match a with
  | None => ret (-1)
  | Some (fd, f) =>
      let* p := mypr in
      set_ofile p fd None ;;;
      fileclose f ;;;
      ret 0
  end.

Definition sys_fstat : M Z :=
  let* st := argaddr 1 in
  let* a := argfd 0 in
  match a with
  | None => ret (-1)
  | Some (_, f) => filestat f st
  end.

(** char name[DIRSIZ] on the stack, written before it is read. *)
Definition name0 : list Z := replicate (Z.to_nat DIRSIZ) 0.

(** ip->nlink += d, a short. *)
Definition add_nlink (ip : nat) (d : Z) : M unit :=
  upd_inode ip (fun i => set_i_nlink (i16 (i_nlink i + d)) i).

Definition sys_link_bad (ip : nat) : M Z :=
  ilock ip ;;;
  add_nlink ip (-1) ;;;
  iupdate ip ;;;
  iunlockput ip ;;;
  end_op ;;;
  ret (-1).

(** sys_link() once the two path names are in. *)
Definition sys_link_paths (old new : list Z) : M Z :=
  begin_op ;;;
  let* ip := namei old in
  match ip with
  | None => end_op ;;; ret (-1)
  | Some ip =>
      ilock ip ;;;
      let* i := get_inode ip in
      if i_type i =? T_DIR then
        iunlockput ip ;;;
        end_op ;;;
        ret (-1)
      else
        add_nlink ip 1 ;;;
        iupdate ip ;;;
        iunlock ip ;;;
        let* dp := nameiparent new name0 in
        match dp with
        | None => sys_link_bad ip
        | Some (dp, name) =>
            ilock dp ;;;
            let* d := get_inode dp in
            let* i := get_inode ip in
            let* bad := (if negb (i_dev d =? i_dev i) then ret true
                         else let* r := dirlink dp name (i_inum i) in ret (r <? 0)) in
            if bad : bool then
              iunlockput dp ;;;
              sys_link_bad ip
            else
              iunlockput dp ;;;
              iput ip ;;;
              end_op ;;;
              ret 0
        end
  end.

Definition sys_link : M Z :=
  let* old := argstr 0 MAXPATH in
  match old with
  | None => ret (-1)
  | Some old =>
      let* new := argstr 1 MAXPATH in
      match new with
      | None => ret (-1)
      | Some new => sys_link_paths old new
      end
  end.

Fixpoint isdirempty_loop (f : nat) (dp : nat) (de off : Z) : M bool :=
  let* d := get_inode dp in
  if off <? i_size d then
    match f with
    | O => stuck
    | S f' =>
        let* r := readi dp false de off sizeof_dirent in
        if negb (r =? sizeof_dirent) then panic "isdirempty: readi"
        else
          let* e := get_dirent de in
          if negb (de_inum e =? 0) then ret false
          else isdirempty_loop f' dp de (off + sizeof_dirent)
    end
  else ret true.

Definition isdirempty (dp : nat) : M bool :=
  let* d := get_inode dp in
  local sizeof_dirent (fun de =>
    isdirempty_loop (dir_fuel (i_size d)) dp de (2 * sizeof_dirent)).

Definition sys_unlink_bad (dp : nat) : M Z :=
  iunlockput dp ;;;
  end_op ;;;
  ret (-1).

(** sys_unlink() once the path name is in. *)
Definition sys_unlink_path (path : list Z) : M Z :=
  local sizeof_dirent (fun de =>
    begin_op ;;;
    let* dp := nameiparent path name0 in
    match dp with
    | None => end_op ;;; ret (-1)
    | Some (dp, name) =>
        ilock dp ;;;
        (* Cannot unlink "." or "..". *)
        if (namecmp name (bstr ".") =? 0) || (namecmp name (bstr "..") =? 0)
        then sys_unlink_bad dp
        else
          let* r := dirlookup dp name in
          match r with
          | None => sys_unlink_bad dp
          | Some (ip, off) =>
              ilock ip ;;;
              let* i := get_inode ip in
              if i_nlink i <? 1 then panic "unlink: nlink < 1"
              else
                let* full := (if i_type i =? T_DIR
                              then let* e := isdirempty ip in ret (negb e) else ret false) in
                if full : bool then
                  iunlockput ip ;;;
                  sys_unlink_bad dp
                else
                  upd_mem (fun m => memset m de 0 sizeof_dirent) ;;;
                  let* r := writei dp false de off sizeof_dirent in
                  if negb (r =? sizeof_dirent) then panic "unlink: writei"
                  else
                    when (i_type i =? T_DIR)
                      (add_nlink dp (-1) ;;;
                       iupdate dp) ;;;
                    iunlockput dp ;;;
                    add_nlink ip (-1) ;;;
                    iupdate ip ;;;
                    iunlockput ip ;;;
                    end_op ;;;
                    ret 0
          end
    end).

Definition sys_unlink : M Z :=
  let* path := argstr 0 MAXPATH in
  match path with
  | None => ret (-1)
  | Some path => sys_unlink_path path
  end.

(** The label fail: of create(): something went wrong, de-allocate ip. *)
Definition create_fail (ip dp : nat) : M (option nat) :=
  upd_inode ip (set_i_nlink 0) ;;;
  iupdate ip ;;;
  iunlockput ip ;;;
  iunlockput dp ;;;
  ret None.

Definition create (path : list Z) (type major minor : Z) : M (option nat) :=
  let* dp := nameiparent path name0 in
  match dp with
  | None => ret None
  | Some (dp, name) =>
      ilock dp ;;;
      let* r := dirlookup dp name in
      match r with
      | Some (ip, _) =>
          iunlockput dp ;;;
          ilock ip ;;;
          let* i := get_inode ip in
          if (type =? T_FILE) && ((i_type i =? T_FILE) || (i_type i =? T_DEVICE)) then ret (Some ip)
          else
            iunlockput ip ;;;
            ret None
      | None =>
          let* d := get_inode dp in
          let* r := ialloc (i_dev d) type in
          match r with
          | None =>
              iunlockput dp ;;;
              ret None
          | Some ip =>
              ilock ip ;;;
              upd_inode ip (set_i_major (i16 major)) ;;;
              upd_inode ip (set_i_minor (i16 minor)) ;;;
              upd_inode ip (set_i_nlink 1) ;;;
              iupdate ip ;;;
              let* i := get_inode ip in
              (* Create . and .. entries. *)
              let* bad :=
                (if type =? T_DIR then
                   (* No ip->nlink++ for ".": avoid cyclic ref count. *)
                   let* r := dirlink ip (bstr ".") (i_inum i) in
                   if r <? 0 then ret true
                   else
                     let* d := get_inode dp in
                     let* r := dirlink ip (bstr "..") (i_inum d) in
                     ret (r <? 0)
                 else ret false) in
              if bad : bool then create_fail ip dp
              else
                let* r := dirlink dp name (i_inum i) in
                if r <? 0 then create_fail ip dp
                else
                  when (type =? T_DIR)
                    ((* now that success is guaranteed: for ".." *)
                     add_nlink dp 1 ;;;
                     iupdate dp) ;;;
                  iunlockput dp ;;;
                  ret (Some ip)
          end
      end
  end.

Definition b2z (b : bool) : Z := if b then 1 else 0.

(** The end of sys_open(): the inode is found and locked. *)
Definition sys_open_ip (ip : nat) (omode : Z) : M Z :=
  let* i := get_inode ip in
  if (i_type i =? T_DEVICE) && ((i_major i <? 0) || (NDEV <=? i_major i)) then
    iunlockput ip ;;;
    end_op ;;;
    ret (-1)
  else
    let* f := filealloc in
    let* fd := match f with Some f => fdalloc f | None => ret (-1) end in
    match f with
    | None =>
        iunlockput ip ;;;
        end_op ;;;
        ret (-1)
    | Some f =>
        if fd <? 0 then
          fileclose f ;;;
          iunlockput ip ;;;
          end_op ;;;
          ret (-1)
        else
          (if i_type i =? T_DEVICE then
             upd_file f (set_f_type FD_DEVICE) ;;;
             upd_file f (set_f_major (i_major i))
           else
             upd_file f (set_f_type FD_INODE) ;;;
             upd_file f (set_f_off 0)) ;;;
          upd_file f (set_f_ip (Some ip)) ;;;
          upd_file f (set_f_readable (b2z (Z.land omode O_WRONLY =? 0))) ;;;
          upd_file f (set_f_writable
                        (b2z (negb (Z.land omode O_WRONLY =? 0) || negb (Z.land omode O_RDWR =? 0)))) ;;;
          when (negb (Z.land omode O_TRUNC =? 0) && (i_type i =? T_FILE)) (itrunc ip) ;;;
          iunlock ip ;;;
          end_op ;;;
          ret fd
    end.

Definition sys_open : M Z :=
  let* omode := argint 1 in
  let* path := argstr 0 MAXPATH in
  match path with
  | None => ret (-1)
  | Some path =>
      begin_op ;;;
      if negb (Z.land omode O_CREATE =? 0) then
        let* ip := create path T_FILE 0 0 in
        match ip with
        | None => end_op ;;; ret (-1)
        | Some ip => sys_open_ip ip omode
        end
      else
        let* ip := namei path in
        match ip with
        | None => end_op ;;; ret (-1)
        | Some ip =>
            ilock ip ;;;
            let* i := get_inode ip in
            if (i_type i =? T_DIR) && negb (omode =? O_RDONLY) then
              iunlockput ip ;;;
              end_op ;;;
              ret (-1)
            else sys_open_ip ip omode
        end
  end.

(** sys_mkdir() and sys_mknod() after their arguments. *)
Definition mk_node (path : option (list Z)) (type major minor : Z) : M Z :=
  let* ip := match path with
             | None => ret None
             | Some path => create path type major minor
             end in
  match ip with
  | None => end_op ;;; ret (-1)
  | Some ip =>
      iunlockput ip ;;;
      end_op ;;;
      ret 0
  end.

Definition sys_mkdir : M Z :=
  begin_op ;;;
  let* path := argstr 0 MAXPATH in
  mk_node path T_DIR 0 0.

Definition sys_mknod : M Z :=
  begin_op ;;;
  let* major := argint 1 in
  let* minor := argint 2 in
  let* path := argstr 0 MAXPATH in
  mk_node path T_DEVICE major minor.

Definition sys_chdir : M Z :=
  let* p := mypr in
  begin_op ;;;
  let* path := argstr 0 MAXPATH in
  let* ip := match path with
             | None => ret None
             | Some path => namei path
             end in
  match ip with
  | None => end_op ;;; ret (-1)
  | Some ip =>
      ilock ip ;;;
      let* i := get_inode ip in
      if negb (i_type i =? T_DIR) then
        iunlockput ip ;;;
        end_op ;;;
        ret (-1)
      else
        iunlock ip ;;;
        let* pr := get_proc p in
        let* cwd := deref_ip (p_cwd pr) in
        iput cwd ;;;
        end_op ;;;
        upd_proc p (set_p_cwd (Some ip)) ;;;
        ret 0
  end.

(** The loop of sys_exec(), argument [n] of MAXARG left: the pages allocated so
    far, in order, and whether the array is complete. *)
Fixpoint exec_fetch (n : nat) (uargv i : Z) (argv : list Z) : M (bool * list Z) :=
  match n with
  | O => ret (false, argv)
  | S n' =>
      let* uarg := fetchaddr (u64 (uargv + 8 * i)) in
      match uarg with
      | None => ret (false, argv)
      | Some uarg =>
          if uarg =? 0 then ret (true, argv)
          else
            let* pg := kalloc in
            if pg =? 0 then ret (false, argv)
            else
              let* '(r, bs) := fetchstr uarg PGSIZE in
              upd_mem (fun m => stbytes m pg bs) ;;;
              if r <? 0 then ret (false, argv ++ [pg])
              else exec_fetch n' uargv (i + 1) (argv ++ [pg])
      end
  end.

Definition sys_exec : M Z :=
  let* uargv := argaddr 1 in
  let* path := argstr 0 MAXPATH in
  match path with
  | None => ret (-1)
  | Some path =>
      let* '(ok, argv) := exec_fetch (Z.to_nat MAXARG) uargv 0 [] in
      let* r := (if ok : bool then exec path argv else ret (-1)) in
      for_ argv kfree ;;;
      ret r
  end.

Definition sys_pipe : M Z :=
  let* p := mypr in
  let* fdarray := argaddr 0 in
  let* r := pipealloc in
  match r with
  | None => ret (-1)
  | Some (rf, wf) =>
      let* fd0 := fdalloc rf in
      let* fd1 := (if fd0 <? 0 then ret (-1) else fdalloc wf) in
      if (fd0 <? 0) || (fd1 <? 0) then
        when (0 <=? fd0) (set_ofile p fd0 None) ;;;
        fileclose rf ;;;
        fileclose wf ;;;
        ret (-1)
      else
        let* pr := get_proc p in
        let* r0 := copyout (p_pagetable pr) fdarray (le_bytes 4 fd0) in
        let* r1 := (if r0 <? 0 then ret (-1)
                    else copyout (p_pagetable pr) (u64 (fdarray + 4)) (le_bytes 4 fd1)) in
        if r1 <? 0 then
          set_ofile p fd0 None ;;;
          set_ofile p fd1 None ;;;
          fileclose rf ;;;
          fileclose wf ;;;
          ret (-1)
        else ret 0
  end.

(** * kernel/syscall.c: dispatch *)

(** syscalls[], by the numbers of kernel/syscall.h. *)
Definition syscalls (num : Z) : option (M Z) :=
  nth (Z.to_nat num)
    [None; Some sys_fork; Some sys_exit; Some sys_wait; Some sys_pipe; Some sys_read;
     Some sys_kill; Some sys_exec; Some sys_fstat; Some sys_chdir; Some sys_dup;
     Some sys_getpid; Some sys_sbrk; Some sys_sleep; Some sys_uptime; Some sys_open;
     Some sys_write; Some sys_mknod; Some sys_unlink; Some sys_link; Some sys_mkdir;
     Some sys_close] None.

Definition NELEM_syscalls : Z := 22.

Definition syscall : M unit :=
  let* p := mypr in
  let* a7 := tf_get p tf_a7 in
  let num := i32 a7 in
  match (if (0 <? num) && (num <? NELEM_syscalls) then syscalls num else None) with
  | Some f =>
      let* r := f in
      tf_set p tf_a0 (u64 r)
  | None =>
      let* pr := get_proc p in
      printf (bstr "%d %s: unknown sys call %d" ++ [10])
        [A_int (p_pid pr); A_str (Some (cstring (p_name pr))); A_int num] ;;;
      tf_set p tf_a0 (u64 (-1))
  end.

End syscall.
