(* ===== verification/Args.v ===== *)
(** The arguments of the exec() system call: how sys_exec() of kernel/sysfile.c
    gets its path and its vector of strings out of user memory, and what becomes
    of the pages that it takes for them. *)
From S2P Require Import Prelude CInt KState KString Riscv Kalloc Vm VmSpec VmMap Proc ProcLife Exec Syscall.

(** * The arguments in user memory *)

(** A pointer at [va], if its eight bytes are inside the process and mapped. *)
Definition user_ptr (m : mem) (pt sz va : Z) : option Z :=
  if (sz <=? va) || (sz <? u64 (va + 8)) then None
  else let '(r, bs) := user_read m pt va 8 in if r =? 0 then Some (le_val bs) else None.

(** The strings of the vector at [uargv], from entry [i] on: complete if a null
    pointer comes among the next [n] entries and nothing before it is
    missing. A string that is not complete is the last one. *)
Fixpoint user_argv (n : nat) (m : mem) (pt sz uargv i : Z) : bool * list (list Z) :=
  match n with
  | O => (false, [])
  | S n' =>
      match user_ptr m pt sz (u64 (uargv + 8 * i)) with
      | None => (false, [])
      | Some a =>
          if a =? 0 then (true, [])
          else
            let '(r, bs) := user_str m pt a (Z.to_nat PGSIZE) in
            if r <? 0 then (false, [bs])
            else let '(ok, ss) := user_argv n' m pt sz uargv (i + 1) in (ok, bs :: ss)
      end
  end.

(** Memory outside of the pages [l] is the same. *)
Definition same_out (l : list Z) (m m' : mem) : Prop :=
  forall x, (forall pg, pg ∈ l -> x < pg \/ pg + PGSIZE <= x) -> ld8 m' x = ld8 m x.

(** The pages [l] are neither part of the page table nor mapped in it. *)
Definition hidden (l : list Z) (m : mem) (pt : Z) : Prop := forall x pg, pg ∈ l -> pg <= x < pg + PGSIZE ->
  ~ in_tables m pt x /\ forall va, 0 <= va -> upage m pt (PGROUNDDOWN va) <> 0 -> uaddr m pt va <> x.

Lemma outside (l : list Z) x : (forall pg, pg ∈ l -> x < pg \/ pg + PGSIZE <= x) \/ exists pg, pg ∈ l /\ pg <= x < pg + PGSIZE.
Proof.
  induction l as [|a l [IH|(pg & H1 & H2)]]; [left; intros pg H; by apply elem_of_nil in H| |right; exists pg; set_solver].
  destruct (decide (a <= x < a + PGSIZE)) as [H|H]; [right; exists a; set_solver|left].
  intros pg Hp. apply elem_of_cons in Hp as [->|Hp]; [lia|auto].
Qed.

Lemma user_ld_same l m m' pt va : hidden l m pt -> same_out l m m' -> 0 <= va ->
  user_ld m' pt va = user_ld m pt va.
Proof.
  intros Hh Hs Hva. assert (forall a, upage m' pt a = upage m pt a) as Hu.
  { intros a. apply upage_ext. intros x Hx. destruct (outside l x) as [H|(pg & H1 & H2)]; [by apply Hs|].
    by destruct (Hh x pg H1 H2). }
  unfold user_ld, uaddr. rewrite Hu. destruct (_ =? 0) eqn:E; [done|]. b2p. f_equal. apply Hs.
  intros pg Hpg. destruct (outside [pg] (uaddr m pt va)) as [H|(q & Hq & H)]; [apply H; by left|].
  apply list_elem_of_singleton in Hq as ->. destruct (Hh _ pg Hpg H) as [_ Hn]. by destruct (Hn va Hva E).
Qed.

Lemma user_read_same l m m' pt n : hidden l m pt -> same_out l m m' -> forall va, 0 <= va ->
  user_read m' pt va n = user_read m pt va n.
Proof.
  intros Hh Hs. induction n as [|n IH]; intros va Hva; cbn; [done|].
  by rewrite (user_ld_same l m m'), IH by (done || apply u64_range).
Qed.

Lemma user_str_same l m m' pt n : hidden l m pt -> same_out l m m' -> forall va, 0 <= va ->
  user_str m' pt va n = user_str m pt va n.
Proof.
  intros Hh Hs. induction n as [|n IH]; intros va Hva; cbn; [done|].
  by rewrite (user_ld_same l m m'), IH by (done || apply u64_range).
Qed.

(** What the loads give. *)
Lemma user_ld_ok m pt va b : mem_ok m -> user_ld m pt va = Some b -> 0 <= b < 256.
Proof. intros Hm. unfold user_ld. destruct (_ =? 0); [done|]. intros [= <-]. apply Hm. Qed.

Lemma user_read_ok m pt n : mem_ok m -> forall va r bs, user_read m pt va n = (r, bs) ->
  bytes_ok bs /\ (r = 0 -> length bs = n).
Proof.
  intros Hm. induction n as [|n IH]; intros va r bs; cbn; [intros [= <- <-]; split; [constructor|done]|].
  destruct (user_ld m pt va) as [b|] eqn:E; [|intros [= <- <-]; split; [constructor|done]].
  destruct (user_read m pt (u64 (va + 1)) n) as [r' bs'] eqn:E'. intros [= <- <-].
  destruct (IH _ _ _ E') as [H1 H2]. split; [constructor; [by eapply user_ld_ok|done]|]. intros Hr. cbn. by rewrite H2.
Qed.

Lemma user_str_ok m pt n : mem_ok m -> forall va r bs, user_str m pt va n = (r, bs) ->
  bytes_ok bs /\ (length bs <= n)%nat /\
  (r = -1 \/ r = 0 /\ exists s, bs = s ++ [0] /\ forall b, b ∈ s -> b <> 0).
Proof.
  intros Hm. induction n as [|n IH]; intros va r bs; cbn.
  { intros [= <- <-]. split; [constructor|]. by split; [|left]. }
  destruct (user_ld m pt va) as [b|] eqn:E; [|intros [= <- <-]; split; [constructor|]; split; [cbn; lia|by left]].
  pose proof (user_ld_ok _ _ _ _ Hm E) as Hb. destruct (b =? 0) eqn:Eb.
  - intros [= <- <-]. split; [repeat constructor; lia|]. split; [cbn; lia|]. right. split; [done|].
    exists []. split; [done|]. intros x Hx. by apply elem_of_nil in Hx.
  - b2p. destruct (user_str m pt (u64 (va + 1)) n) as [r' bs'] eqn:E'. intros [= <- <-].
    destruct (IH _ _ _ E') as (H1 & H2 & H3). split; [by constructor|]. split; [cbn; lia|].
    destruct H3 as [H3|(H3 & s & -> & H4)]; [by left|right]. split; [done|]. exists (b :: s). split; [done|].
    intros x Hx. apply elem_of_cons in Hx as [->|Hx]; [done|auto].
Qed.

Lemma user_ptr_ok m pt sz va a : mem_ok m -> user_ptr m pt sz va = Some a -> 0 <= a < 2 ^ 64.
Proof.
  intros Hm. unfold user_ptr. destruct (_ || _); [done|]. destruct (user_read m pt va 8) as [r bs] eqn:E.
  destruct (r =? 0) eqn:Er; [|done]. b2p. intros [= <-]. destruct (user_read_ok _ _ _ Hm _ _ _ E) as [H1 H2].
  pose proof (le_val_range bs H1) as H. by rewrite (H2 Er) in H.
Qed.

(** * sys_exec() *)

Section args.
Context {P : Platform} (k0 : K) (p : nat) (l0 : list Z).
Context (Hp : k_proc k0 = Some p) (Hl : kmem_inv l0 k0) (Hlk : L_kmem ∉ k_held k0) (Hm : mem_ok (k_mem k0)).

Abbreviation pr := (k_procs k0 !!! p).
Abbreviation m0 := (k_mem k0).
Abbreviation pt := (p_pagetable pr).
Abbreviation sz := (p_sz pr).

Context (Hh : hidden l0 m0 pt).

(** Of the state at the start only the free pages have changed; [l] are free. *)
Record base (l : list Z) (k : K) : Prop := mk_base {
  ba_free : kmem_inv l k;
  ba_rest : k = set_k_freelist (k_freelist k) (set_k_mem (k_mem k) k0);
  ba_out : same_out l0 m0 (k_mem k);
  ba_ok : mem_ok (k_mem k);
}.

Definition in_page (m : mem) (pg : Z) (s : list Z) : Prop :=
  ldbytes m pg (length s) = s /\ Z.of_nat (length s) <= PGSIZE.

(** The strings [ss] are in the pages [acc]. *)
Record fetched (acc : list Z) (ss : list (list Z)) (l : list Z) (k : K) : Prop := mk_fetched {
  fe_base : base l k;
  fe_pages : l0 = acc ++ l;
  fe_strings : Forall2 (in_page (k_mem k)) acc ss;
}.

Lemma base_proc l k : base l k -> k_proc k = Some p /\ k_procs k !!! p = pr /\ L_kmem ∉ k_held k.
Proof. intros [_ -> _ _]. done. Qed.

Lemma l0_ok pg : pg ∈ l0 -> page_ok pg.
Proof. destruct Hl as (_ & Hc & _). by apply (free_chain_page_ok _ _ _ _ Hc). Qed.

Lemma mem_ok_memset m a c n : mem_ok m -> 0 <= n -> mem_ok (memset m a c n).
Proof.
  intros H Hn. rewrite memset_stbytes. apply mem_ok_stbytes; [done|]. apply Forall_replicate, u8_range.
Qed.

Lemma same_out_page pg m m' : pg ∈ l0 -> (forall x, x < pg \/ pg + PGSIZE <= x -> ld8 m' x = ld8 m x) ->
  same_out l0 m0 m -> same_out l0 m0 m'.
Proof. intros Hpg H Hs x Hx. rewrite H by (by apply Hx). by apply Hs. Qed.

Lemma mypr_ok k q : k_proc k = Some q -> mypr k = Ok q k.
Proof. intros E. unfold mypr, myproc. eapply bind_eq; [reflexivity|]. by rewrite E. Qed.

Lemma fetchaddr_run l k va : base l k -> 0 <= va < 2 ^ 64 -> fetchaddr va k = Ok (user_ptr m0 pt sz va) k.
Proof.
  intros B Hva. destruct (base_proc _ _ B) as (E1 & E2 & _). unfold fetchaddr, user_ptr.
  eapply bind_eq; [by apply mypr_ok|]. eapply bind_eq; [reflexivity|]. rewrite E2. destruct (_ || _); [done|].
  eapply bind_eq; [by apply copyin_bytewise|]. change (Z.to_nat 8) with 8%nat.
  rewrite (user_read_same l0 m0) by (done || apply B || lia). destruct (user_read m0 pt va 8) as [r bs]. cbn.
  by destruct (r =? 0).
Qed.

Lemma strlen_str s : (forall b, b ∈ s -> b <> 0) -> (length s < 4096)%nat ->
  strlen (at_arr (s ++ [0])) = Some (Z.of_nat (length s)).
Proof.
  intros Hs Hn. unfold strlen. apply (strlen_loop_spec s); [|lia|lia]. unfold at_arr. split.
  - intros i Hi. rewrite app_nth1 by lia. split; [done|]. apply Hs.
    apply list_elem_of_lookup. exists (Z.to_nat i). rewrite nth_lookup.
    destruct (lookup_lt_is_Some_2 s (Z.to_nat i)) as [b ->]; [lia|done].
  - rewrite Nat2Z.id, app_nth2, Nat.sub_diag by lia. done.
Qed.

Lemma fetchstr_run l k va max : base l k -> 0 <= va < 2 ^ 64 -> 0 <= max <= PGSIZE ->
  let '(r, bs) := user_str m0 pt va (Z.to_nat max) in
  fetchstr va max k = Ok (if r <? 0 then -1 else Z.of_nat (length bs) - 1, bs) k.
Proof.
  intros B Hva Hmax. destruct (base_proc _ _ B) as (E1 & E2 & _). unfold fetchstr.
  destruct (user_str m0 pt va (Z.to_nat max)) as [r bs] eqn:E.
  eapply bind_eq; [by apply mypr_ok|]. eapply bind_eq; [reflexivity|]. rewrite E2.
  eapply bind_eq; [apply copyinstr_bytewise; [done|lia]|].
  rewrite (user_str_same l0 m0) by (done || apply B || lia). rewrite E. cbv beta iota.
  destruct (user_str_ok _ _ _ Hm _ _ _ E) as (_ & Hn & [-> |(-> & s & -> & Hs)]); [reflexivity|]. change (0 <? 0) with false. cbv iota.
  rewrite length_app in Hn |- *. cbn [length] in Hn |- *. rewrite strlen_str by (done || unfold PGSIZE in *; lia).
  unfold ret. do 2 f_equal. lia.
Qed.

Lemma same_strings pg m m' acc ss : (forall a, a ∈ acc -> a + PGSIZE <= pg \/ pg + PGSIZE <= a) ->
  (forall x, x < pg \/ pg + PGSIZE <= x -> ld8 m' x = ld8 m x) ->
  Forall2 (in_page m) acc ss -> Forall2 (in_page m') acc ss.
Proof.
  intros Ha Hout. induction 1 as [|a s acc ss [H1 H2] _ IH]; constructor.
  - split; [|done]. rewrite <- H1 at 2. apply ldbytes_ext. intros x Hx. apply Hout.
    destruct (Ha a ltac:(by left)); lia.
  - apply IH. intros b Hb. apply Ha. by right.
Qed.

(** One page for one string. *)
Lemma kalloc_base acc ss pg l k : fetched acc ss (pg :: l) k ->
  exists k1, kalloc k = Ok pg k1 /\ pg <> 0 /\ base l k1 /\
    forall bs, bytes_ok bs -> Z.of_nat (length bs) <= PGSIZE ->
      fetched (acc ++ [pg]) (ss ++ [bs]) l (set_k_mem (stbytes (k_mem k1) pg bs) k1).
Proof.
  intros [B El Hs]. pose proof B as [Hf Er Ho Hk]. destruct (base_proc _ _ B) as (_ & _ & Hlk').
  destruct (kalloc_inv pg l k Hf) as [Ef Hf'].
  assert (pg ∈ l0) as Hpg by (rewrite El; set_solver). pose proof (l0_ok pg Hpg) as Hok.
  assert (pg <> 0) as Hz by (destruct Hok as [_ H], Hf as [H' _]; lia).
  eexists. split; [rewrite <- Ef; apply kalloc_run; [by rewrite Ef|done]|]. rewrite Ef. split; [done|]. split.
  - split; [done|by rewrite Er| |apply mem_ok_memset; [done|unfold PGSIZE; lia]].
    apply (same_out_page pg (k_mem k)); [done| |done]. intros x Hx. cbn. apply ld8_memset_out; [unfold PGSIZE; lia|lia].
  - intros bs Hb Hn. assert (forall x, x < pg \/ pg + PGSIZE <= x ->
      ld8 (stbytes (memset (k_mem k) pg 5 PGSIZE) pg bs) x = ld8 (k_mem k) x) as Hout.
    { intros x Hx. rewrite ld8_stbytes_out by lia. apply ld8_memset_out; [unfold PGSIZE; lia|lia]. }
    destruct Hl as (_ & _ & Hnd). rewrite El in Hnd.
    split; [split|by rewrite El, <- app_assoc|].
    + destruct Hf' as (H1 & H2 & H3). split_and!; [done| |done]. cbn in H2 |- *. eapply free_chain_ext; [|exact H2].
      intros a x Ha Hx. apply list.NoDup_app in Hnd as (_ & _ & Hnd). apply list.NoDup_cons in Hnd as [Hni _].
      assert (a <> pg) as Hne by (by intros ->). pose proof (l0_ok a ltac:(rewrite El; set_solver)) as [Ha1 _].
      destruct Hok as [Hp1 _]. pose proof (page_apart a pg Ha1 Hp1 Hne). rewrite ld8_stbytes_out by lia. done.
    + cbn. by rewrite Er.
    + apply (same_out_page pg (k_mem k)); done.
    + cbn. apply mem_ok_stbytes; [apply mem_ok_memset; [done|unfold PGSIZE; lia]|done].
    + apply Forall2_app; [|constructor; [split; [apply ldbytes_stbytes|done]|constructor]].
      apply list.NoDup_app in Hnd as (_ & Hnd & _). apply (same_strings pg (k_mem k)); [|done|done].
      intros a Ha. pose proof (l0_ok a ltac:(rewrite El; set_solver)) as [Ha1 _]. destruct Hok as [Hp1 _].
      apply page_apart; [done..|]. intros ->. apply (Hnd pg Ha). by left.
Qed.
(** The loop, by the pointer that it finds. *)
Lemma exec_fetch_S n uargv i acc l k : base l k ->
  exec_fetch (S n) uargv i acc k =
  match user_ptr m0 pt sz (u64 (uargv + 8 * i)) with
  | None => Ok (false, acc) k
  | Some a =>
      if a =? 0 then Ok (true, acc) k
      else (let* pg := kalloc in
            if pg =? 0 then ret (false, acc)
            else
              let* '(r, bs) := fetchstr a PGSIZE in
              upd_mem (fun m => stbytes m pg bs) ;;;
              if r <? 0 then ret (false, acc ++ [pg])
              else exec_fetch n uargv (i + 1) (acc ++ [pg])) k
  end.
Proof.
  intros B. cbn [exec_fetch]. eapply bind_eq; [by apply (fetchaddr_run l), u64_range|].
  destruct (user_ptr m0 pt sz (u64 (uargv + 8 * i))) as [a|]; [|done]. by destruct (a =? 0).
Qed.

(** One string. *)
Lemma exec_fetch_one n uargv i a acc ss pg l k r bs :
  fetched acc ss (pg :: l) k -> user_ptr m0 pt sz (u64 (uargv + 8 * i)) = Some a -> a <> 0 ->
  user_str m0 pt a (Z.to_nat PGSIZE) = (r, bs) ->
  exists k', fetched (acc ++ [pg]) (ss ++ [bs]) l k' /\
    exec_fetch (S n) uargv i acc k =
      if r <? 0 then Ok (false, acc ++ [pg]) k' else exec_fetch n uargv (i + 1) (acc ++ [pg]) k'.
Proof.
  intros F Ep Ha Es. destruct (user_str_ok _ _ _ Hm _ _ _ Es) as (Hb & Hn & Hr).
  destruct (kalloc_base _ _ _ _ _ F) as (k1 & E1 & Hz & B1 & F1).
  exists (set_k_mem (stbytes (k_mem k1) pg bs) k1). split; [apply F1; [done|unfold PGSIZE in *; lia]|].
  rewrite (exec_fetch_S n uargv i acc (pg :: l) k (fe_base _ _ _ _ F)), Ep.
  apply Z.eqb_neq in Ha, Hz. rewrite Ha. eapply bind_eq; [exact E1|]. rewrite Hz.
  pose proof (fetchstr_run l k1 a PGSIZE B1 (user_ptr_ok _ _ _ _ _ Hm Ep) ltac:(unfold PGSIZE; lia)) as Ef.
  rewrite Es in Ef. eapply bind_eq; [exact Ef|]. cbv beta iota. eapply bind_eq; [reflexivity|].
  destruct Hr as [-> |(-> & s & -> & _)]; [done|]. change (0 <? 0) with false. cbv iota.
  rewrite length_app. cbn [length]. rewrite (proj2 (Z.ltb_ge _ _)) by lia. done.
Qed.

Lemma exec_fetch_run uargv n : forall i acc ss l k, fetched acc ss l k ->
  let '(ok, ss') := user_argv n m0 pt sz uargv i in
  if decide (length ss' <= length l)%nat then
    exists k', exec_fetch n uargv i acc k = Ok (ok, acc ++ take (length ss') l) k' /\
      fetched (acc ++ take (length ss') l) (ss ++ ss') (drop (length ss') l) k'
  else exists ss'' k', exec_fetch n uargv i acc k = Ok (false, acc ++ l) k' /\ fetched (acc ++ l) ss'' [] k'.
Proof.
  induction n as [|n IH]; intros i acc ss l k F; cbn [user_argv].
  { cbn. exists k. by rewrite !app_nil_r. }
  pose proof (exec_fetch_S n uargv i acc l k (fe_base _ _ _ _ F)) as E.
  destruct (user_ptr m0 pt sz (u64 (uargv + 8 * i))) as [a|] eqn:Ep.
  2: { exists k. cbn. by rewrite !app_nil_r. }
  destruct (a =? 0) eqn:Ea; [exists k; cbn; by rewrite !app_nil_r|]. b2p.
  destruct (user_str m0 pt a (Z.to_nat PGSIZE)) as [r bs] eqn:Es. destruct l as [|pg l].
  - assert (exec_fetch (S n) uargv i acc k = Ok (false, acc ++ []) k /\ fetched (acc ++ []) ss [] k) as G.
    { rewrite app_nil_r. split; [|done]. rewrite E. destruct F as [[(_ & H & _) B _ _] _ _].
      eapply bind_eq; [apply kalloc_empty_run; [done|by rewrite B]|done]. }
    destruct (r <? 0); [|destruct (user_argv n m0 pt sz uargv (i + 1)) as [ok ss']]; cbn; by exists ss, k.
  - destruct (exec_fetch_one n uargv i a acc ss pg l k r bs F Ep Ea Es) as (k' & F' & ->).
    destruct (r <? 0); [by exists k'|]. specialize (IH (i + 1) _ _ _ _ F').
    destruct (user_argv n m0 pt sz uargv (i + 1)) as [ok ss']. cbn [length]. do 2 case_decide; try lia.
    + destruct IH as (k2 & E2 & F2). exists k2. rewrite <- (app_assoc acc) in E2, F2. by rewrite <- (app_assoc ss) in F2.
    + destruct IH as (ss'' & k2 & E2 & F2). exists ss'', k2. by rewrite <- (app_assoc acc) in E2, F2.
Qed.

(** Giving the pages back. *)
Lemma free_pages acc : forall l k, base l k -> acc ++ l ≡ₚ l0 ->
  exists l' k', for_ acc kfree k = Ok tt k' /\ base l' k' /\ l' ≡ₚ l0.
Proof.
  induction acc as [|pg acc IH]; intros l k B Ep; [by exists l, k|].
  assert (pg ∈ l0) as Hpg by (rewrite <- Ep; by left). pose proof (l0_ok pg Hpg) as Hok.
  destruct (base_proc _ _ B) as (_ & _ & Hlk'). destruct B as [Hf Er Ho Hk].
  assert (pg ∉ l) as Hni.
  { destruct Hl as (_ & _ & Hnd). rewrite <- Ep in Hnd. cbn in Hnd. apply list.NoDup_cons in Hnd as [Hni _]. set_solver. }
  destruct (IH (pg :: l) (set_k_freelist pg (set_k_mem (st64 (memset (k_mem k) pg 1 PGSIZE) pg (k_freelist k)) k)))
    as (l' & k' & E & B' & Ep').
  - split; [by apply kfree_inv|by rewrite Er| |].
    + apply (same_out_page pg (k_mem k)); [done| |done]. intros x Hx. cbn.
      rewrite st64_out by (unfold PGSIZE in *; lia). apply ld8_memset_out; [unfold PGSIZE; lia|lia].
    + apply (mem_ok_st64 (memset (k_mem k) pg 1 PGSIZE)), mem_ok_memset; [done|unfold PGSIZE; lia].
  - rewrite <- Ep. cbn. solve_Permutation.
  - exists l', k'. split; [|done]. cbn. eapply bind_eq; [by apply kfree_run|exact E].
Qed.

Abbreviation a0 := (ld64 m0 (p_trapframe pr + tf_a0)).
Abbreviation a1 := (ld64 m0 (p_trapframe pr + tf_a1)).

Lemma base_start : base l0 k0.
Proof. split; [done|by destruct k0|by intros x _|done]. Qed.

Lemma argaddr_0 : argaddr 0 k0 = Ok a0 k0.
Proof. eapply bind_eq; [by apply mypr_ok|done]. Qed.

Lemma argaddr_1 : argaddr 1 k0 = Ok a1 k0.
Proof. eapply bind_eq; [by apply mypr_ok|done]. Qed.

Lemma argstr_run max : 0 <= max <= PGSIZE ->
  let '(r, bs) := user_str m0 pt a0 (Z.to_nat max) in
  argstr 0 max k0 = Ok (if r <? 0 then None else Some (take (length bs - 1) bs)) k0.
Proof.
  intros Hmax. pose proof (fetchstr_run l0 k0 a0 max base_start (ld64_range _ _ Hm) Hmax) as E.
  destruct (user_str m0 pt a0 (Z.to_nat max)) as [r bs] eqn:Es.
  eapply bind_eq; [apply argaddr_0|]. eapply bind_eq; [exact E|]. cbv beta iota. unfold ret. f_equal.
  destruct (user_str_ok _ _ _ Hm _ _ _ Es) as (_ & _ & [-> |(-> & s & -> & _)]); [done|]. change (0 <? 0) with false. cbv iota.
  rewrite length_app. cbn [length]. rewrite (proj2 (Z.ltb_ge _ _)) by lia. do 2 f_equal. lia.
Qed.

(** * Properties *)

(** C35: sys_exec() in full, up to the call of exec(), for every content of the
    user memory.  The path is the string at a0, of fewer than MAXPATH bytes; the
    arguments are the strings of at most a page at the pointers from a1 on, up to
    the zero pointer, which must be among the first MAXARG, and the pointers must
    lie below the size of the process.  When all this can be read and there
    is a free page per argument, exec() is called with the path and with the
    pages, in order, which hold exactly the strings, and when it returns the
    pages are freed and its result is the result.  In every other case (a bad
    address, a string that does not end, too many arguments, no memory) the
    result is -1, every page that was free is free again, and nothing else of
    the kernel's state or of the memory outside the free pages has changed. *)
Theorem sys_exec_args :
  let path := user_str m0 pt a0 (Z.to_nat MAXPATH) in
  let argv := user_argv (Z.to_nat MAXARG) m0 pt sz a1 0 in
  let n := length argv.2 in
  if (0 <=? path.1) && argv.1 && bool_decide (n <= length l0)%nat then
    exists k', fetched (take n l0) argv.2 (drop n l0) k' /\
      sys_exec k0 = (let* r := exec (take (length path.2 - 1) path.2) (take n l0) in
                     for_ (take n l0) kfree ;;; ret r) k'
  else exists l' k', sys_exec k0 = Ok (-1) k' /\ base l' k' /\ l' ≡ₚ l0.
Proof.
  cbv zeta. pose proof (argstr_run MAXPATH ltac:(unfold MAXPATH, PGSIZE; lia)) as Es.
  destruct (user_str m0 pt a0 (Z.to_nat MAXPATH)) as [r bs]. cbn [fst snd].
  rewrite Z.leb_antisym. destruct (r <? 0) eqn:Er; cbn [negb andb].
  { exists l0, k0. split; [|by split; [apply base_start|]].
    eapply bind_eq; [apply argaddr_1|]. eapply bind_eq; [exact Es|done]. }
  assert (fetched [] [] l0 k0) as F by (split; [apply base_start|done|constructor]).
  pose proof (exec_fetch_run a1 (Z.to_nat MAXARG) 0 [] [] l0 k0 F) as E.
  destruct (user_argv (Z.to_nat MAXARG) m0 pt sz a1 0) as [ok ss]. cbn [fst snd app] in E |- *.
  assert (forall ok' acc l k', exec_fetch (Z.to_nat MAXARG) a1 0 [] k0 = Ok (ok', acc) k' -> base l k' -> l0 = acc ++ l ->
    ok' = false -> exists l' k', sys_exec k0 = Ok (-1) k' /\ base l' k' /\ l' ≡ₚ l0) as Bad.
  { intros ok' acc l k' E' B El ->. destruct (free_pages acc l k' B ltac:(by rewrite El)) as (l' & k2 & E2 & B2 & Ep).
    exists l', k2. split; [|done]. eapply bind_eq; [apply argaddr_1|]. eapply bind_eq; [exact Es|].
    eapply bind_eq; [exact E'|]. cbv beta iota. eapply bind_eq; [reflexivity|]. eapply bind_eq; [exact E2|done]. }
  case_decide as Hn; rewrite ?(bool_decide_eq_true_2 _ Hn), ?(bool_decide_eq_false_2 _ Hn), ?andb_true_r, ?andb_false_r.
  - destruct E as (k' & E & [B El S]). destruct ok; [|by eapply Bad].
    exists k'. split; [done|]. eapply bind_eq; [apply argaddr_1|]. eapply bind_eq; [exact Es|]. by eapply bind_eq; [exact E|].
  - destruct E as (ss'' & k' & E & [B El S]). by eapply Bad.
Qed.
End args.

(** * An example: the first process calls exec() *)

Section first.
Let P0 : Platform := eight_pages.
#[local] Existing Instance P0.

(** initcode[] is the page at user address 0, as userinit() has it, page 6 is
    the trapframe, with the registers as initcode.S sets them, and the pages 0 to
    2 are free. *)
Definition first_mem : mem :=
  st64 (st64 (stbytes (k_mem user_K) (pg 5) initcode) (pg 6 + tf_a0) 36) (pg 6 + tf_a1) 43.
Definition first_proc : proc := set_p_trapframe (pg 6) (set_p_pagetable (pg 7) (set_p_sz PGSIZE bss_proc)).
Definition first_K : K := set_k_proc (Some 0%nat) (set_k_procs [first_proc] (set_k_mem first_mem user_K)).

Lemma first_kmem : kmem_inv [pg 2; pg 1; pg 0] first_K.
Proof.
  split_and!; [done| |by apply (bool_decide_unpack (NoDup _)); vm_compute].
  cbn [free_chain]. split_and!; try (apply pg_ok; lia); by vm_compute.
Qed.

Lemma same_outside_mem S m k : (forall x, (forall a, a ∈ S -> x < a \/ a + PGSIZE <= x) -> ld8 m x = ld8 (k_mem k) x) ->
  same_outside S k (set_k_mem m k).
Proof. intros H. split; [exact H|by destruct k]. Qed.

Lemma first_vm : vm (pg 7) [pg 3; pg 4; pg 7] [pg 2; pg 1; pg 0] (set_k_mem first_mem user_K) /\
  forall va, pte_of first_mem (pg 7) va = pte_of (k_mem user_K) (pg 7) va.
Proof.
  destruct user_vm as [[V _ _] _].
  destruct (vm_frame (pg 7) _ _ _ [pg 5; pg 6] [pg 2; pg 1; pg 0] (set_k_mem first_mem user_K) V) as (V' & _ & E); [| | | | |done].
  - apply same_outside_mem. intros x Hx. assert (pg 5 ∈ [pg 5; pg 6] /\ pg 6 ∈ [pg 5; pg 6]) as [H5 H6] by set_solver.
    apply Hx in H5, H6. unfold first_mem.
    rewrite !st64_out by (unfold tf_a0, tf_a1, PGSIZE in *; lia). apply ld8_stbytes_out.
    change (Z.of_nat (length initcode)) with 52. unfold PGSIZE in *. lia.
  - repeat (constructor; [apply pg_ok; lia|]). constructor.
  - apply list.Forall_forall, (bool_decide_unpack (Forall _ _)). by vm_compute.
  - exact first_kmem.
  - apply (bool_decide_unpack (NoDup _)). by vm_compute.
Qed.

Lemma first_upage va : 0 <= va -> upage first_mem (pg 7) va = if va / PGSIZE =? 0 then pg 5 else 0.
Proof.
  intros Hva. destruct first_vm as [V E]. destruct (decide (va < MAXVA)) as [Hm|Hm].
  - change first_mem with (k_mem (set_k_mem first_mem user_K)). rewrite (upage_pte _ _ _ _ _ V Hm).
    change (k_mem (set_k_mem first_mem user_K)) with first_mem. rewrite E, (proj2 user_vm) by lia.
    change (0 / PGSIZE) with 0. case_decide as H; [rewrite H; reflexivity|]. by apply Z.eqb_neq in H as ->.
  - unfold upage. rewrite (proj2 (Z.leb_le _ _)) by lia. rewrite (proj2 (Z.eqb_neq _ _)); [done|].
    change MAXVA with (2 ^ 38) in Hm. unfold PGSIZE. intros H0. pose proof (Z.mul_div_le va 4096). zdm.
Qed.

Lemma first_hidden : hidden [pg 2; pg 1; pg 0] first_mem (pg 7).
Proof.
  intros x q Hq Hx. assert (x < pg 3) as Hlt.
  { unfold pg, PGSIZE in *. clear -Hq Hx. repeat (apply elem_of_cons in Hq as [->|Hq]; [lia|]). by apply not_elem_of_nil in Hq. }
  split.
  - intros (t & Ht & H)%(in_tables_vm _ _ _ _ _ (proj1 first_vm)). unfold pg, PGSIZE in *. clear -Ht H Hlt.
    repeat (apply elem_of_cons in Ht as [->|Ht]; [lia|]). by apply not_elem_of_nil in Ht.
  - intros va Hva Hu. unfold uaddr. rewrite first_upage in Hu |- * by (unfold PGROUNDDOWN; apply Z.land_nonneg; by left).
    destruct (_ =? 0); [|done]. unfold pg, PGSIZE in *. zdm.
Qed.

Lemma mem_ok_new_table m pte a : mem_ok m -> mem_ok (new_table m pte a).
Proof. intros H. unfold new_table. apply mem_ok_st64, mem_ok_memset; [|unfold PGSIZE; lia]. apply mem_ok_memset; [done|unfold PGSIZE; lia]. Qed.

Lemma first_ok : mem_ok first_mem.
Proof.
  apply mem_ok_st64, mem_ok_st64, mem_ok_stbytes; [|by apply (bool_decide_unpack (Forall _ _)); vm_compute].
  apply mem_ok_st64, mem_ok_new_table, mem_ok_new_table.
  apply mem_ok_st8; [|lia]. repeat apply mem_ok_st64. intros a. unfold ld8. by rewrite lookup_empty.
Qed.

Lemma sys_exec_args_witness : exists k',
  sys_exec first_K = (let* r := exec (bstr "/init") [pg 2] in for_ [pg 2] kfree ;;; ret r) k' /\
  ldbytes (k_mem k') (pg 2) 6 = bstr "/init" ++ [0] /\ kmem_inv [pg 1; pg 0] k'.
Proof.
  pose proof (sys_exec_args first_K 0 [pg 2; pg 1; pg 0] eq_refl first_kmem (vm_lock _ _ _ _ (proj1 first_vm)) first_ok first_hidden) as H.
  cbv zeta in H.
  assert (user_str (k_mem first_K) (p_pagetable (k_procs first_K !!! 0%nat)) (ld64 (k_mem first_K) (p_trapframe (k_procs first_K !!! 0%nat) + tf_a0))
    (Z.to_nat MAXPATH) = (0, bstr "/init" ++ [0])) as E1 by (clear; vm_compute; reflexivity).
  assert (user_argv (Z.to_nat MAXARG) (k_mem first_K) (p_pagetable (k_procs first_K !!! 0%nat)) (p_sz (k_procs first_K !!! 0%nat))
    (ld64 (k_mem first_K) (p_trapframe (k_procs first_K !!! 0%nat) + tf_a1)) 0 = (true, [bstr "/init" ++ [0]])) as E2 by (clear; vm_compute; reflexivity).
  rewrite E1, E2 in H. destruct H as (k' & [[B _ _ _] _ F] & E). exists k'. split; [exact E|].
  inversion F as [|? ? ? ? [Hs _] _]. split; [exact Hs|exact B].
Defined.
End first.
