(* ===== verification/Trap.v ===== *)
(** kernel/trap.c and kernel/plic.c: traps from user space and from the kernel,
    device interrupts; kernel/proc.c's forkret(); and kernel/main.c. *)
From S2P Require Import Prelude CInt KState KString Riscv Kalloc Vm Proc Uart Printf Console Bio Log Fs Pipe File.
From S2P Require Import ProcLife Exec Syscall.

Section trap.
Context {P : Platform}.

(** * kernel/plic.c *)

Definition PLIC_SENABLE (hart : Z) : Z := PLIC + 0x2080 + hart * 0x100.
Definition PLIC_SPRIORITY (hart : Z) : Z := PLIC + 0x201000 + hart * 0x2000.

Definition plic_store (a v : Z) : M unit :=
  upd_csr (fun c => set_plic_regs (<[a := v]> (plic_regs c)) c).

Definition plicinit : M unit :=
  plic_store (PLIC + UART0_IRQ * 4) 1 ;;;
  plic_store (PLIC + VIRTIO0_IRQ * 4) 1.

Definition plicinithart : M unit :=
  let* hart := get_csr c_tp in
  plic_store (PLIC_SENABLE hart) (Z.lor (Z.shiftl 1 UART0_IRQ) (Z.shiftl 1 VIRTIO0_IRQ)) ;;;
  plic_store (PLIC_SPRIORITY hart) 0.

(** Reading the claim register: the next pending interrupt, 0 if there is none. *)
Definition plic_claim : M Z :=
  let* c := gets (fun k => k_csr k) in
  upd_csr (set_plic_pending (tail (plic_pending c))) ;;;
  ret (hd 0 (plic_pending c)).

Definition plic_complete (irq : Z) : M unit :=
  upd_csr (fun c => set_plic_done (irq :: plic_done c) c).

(** * kernel/trap.c *)

Definition trapinit : M unit := initlock L_ticks.

Definition trapinithart : M unit := upd_csr (set_c_stvec sym_kernelvec).

Definition clockintr : M unit :=
  acquire L_ticks ;;;
  modify (fun k => set_k_ticks (u32 (k_ticks k + 1)) k) ;;;
  wakeup Ch_ticks ;;;
  release L_ticks.

(** [disk_intr] is virtio_disk_intr(): Virtio.v models it on the driver's own
    state, of which the kernel state here sees only the disk. *)
Definition devintr (disk_intr : M unit) : M Z :=
  let* scause := get_csr c_scause in
  if negb (Z.land scause 0x8000000000000000 =? 0) && (Z.land scause 0xff =? 9) then
    (* this is a supervisor external interrupt, via PLIC; irq indicates which
       device interrupted. *)
    let* irq := plic_claim in
    (if irq =? UART0_IRQ then uartintr
     else if irq =? VIRTIO0_IRQ then disk_intr
     else if negb (irq =? 0) then
       printf (bstr "unexpected interrupt irq=%d" ++ [10]) [A_int irq]
     else ret tt) ;;;
    (* the PLIC allows each device to raise at most one interrupt at a time;
       tell the PLIC the device is now allowed to interrupt again. *)
    when (negb (irq =? 0)) (plic_complete irq) ;;;
    ret 1
  else if scause =? 0x8000000000000001 then
    (* software interrupt from a machine-mode timer interrupt *)
    let* cpuid := get_csr c_tp in
    when (cpuid =? 0) clockintr ;;;
    (* acknowledge the software interrupt by clearing the SSIP bit in sip. *)
    upd_csr (fun c => set_c_sip (Z.land (c_sip c) (u64 (Z.lnot 2))) c) ;;;
    ret 2
  else ret 0.

(** usertrapret() ends by jumping into trampoline.S; the result is the address
    it jumps to and the argument. *)
Definition usertrapret : M (Z * Z) :=
  let* p := mypr in
  intr_off ;;;
  (* send syscalls, interrupts, and exceptions to uservec in trampoline.S *)
  upd_csr (set_c_stvec (TRAMPOLINE + (sym_uservec - sym_trampoline))) ;;;
  (* set up trapframe values that uservec will need when the process next
     traps into the kernel. *)
  let* satp := get_csr c_satp in
  tf_set p tf_kernel_satp satp ;;;
  let* pr := get_proc p in
  tf_set p tf_kernel_sp (u64 (p_kstack pr + PGSIZE)) ;;;
  tf_set p tf_kernel_trap sym_usertrap ;;;
  let* hartid := get_csr c_tp in
  tf_set p tf_kernel_hartid hartid ;;;
  (* set S Previous Privilege mode to User, enable interrupts in user mode *)
  upd_csr (fun c => set_c_sstatus (Z.lor (Z.land (c_sstatus c) (u64 (Z.lnot SSTATUS_SPP))) SSTATUS_SPIE) c) ;;;
  (* set S Exception Program Counter to the saved user pc. *)
  let* epc := tf_get p tf_epc in
  upd_csr (set_c_sepc epc) ;;;
  (* tell trampoline.S the user page table to switch to. *)
  ret (TRAMPOLINE + (sym_userret - sym_trampoline), MAKE_SATP (p_pagetable pr)).

Definition usertrap (disk_intr : M unit) : M (Z * Z) :=
  let* sstatus := get_csr c_sstatus in
  if negb (Z.land sstatus SSTATUS_SPP =? 0) then panic "usertrap: not from user mode"
  else
    (* send interrupts and exceptions to kerneltrap(), since we're now in the
       kernel. *)
    upd_csr (set_c_stvec sym_kernelvec) ;;;
    let* p := mypr in
    (* save user program counter. *)
    let* sepc := get_csr c_sepc in
    tf_set p tf_epc sepc ;;;
    let* scause := get_csr c_scause in
    let* which_dev :=
      (if scause =? 8 then
         (* system call *)
         let* d := killed p in
         (if negb (d =? 0) then exit (-1) else ret tt) ;;;
         (* sepc points to the ecall instruction, but we want to return to the
            next instruction. *)
         let* epc := tf_get p tf_epc in
         tf_set p tf_epc (u64 (epc + 4)) ;;;
         intr_on ;;;
         syscall ;;;
         ret 0
       else
         let* which_dev := devintr disk_intr in
         if negb (which_dev =? 0) then ret which_dev
         else
           let* pr := get_proc p in
           printf (bstr "usertrap(): unexpected scause %p pid=%d" ++ [10])
             [A_ptr scause; A_int (p_pid pr)] ;;;
           let* sepc := get_csr c_sepc in
           let* stval := get_csr c_stval in
           printf (bstr "            sepc=%p stval=%p" ++ [10]) [A_ptr sepc; A_ptr stval] ;;;
           setkilled p ;;;
           ret 0) in
    let* d := killed p in
    (if negb (d =? 0) then exit (-1) else ret tt) ;;;
    (* give up the CPU if this is a timer interrupt. *)
    when (which_dev =? 2) yield ;;;
    usertrapret.

Definition kerneltrap (disk_intr : M unit) : M unit :=
  let* sepc := get_csr c_sepc in
  let* sstatus := get_csr c_sstatus in
  let* scause := get_csr c_scause in
  if Z.land sstatus SSTATUS_SPP =? 0 then panic "kerneltrap: not from supervisor mode"
  else
    let* on := intr_get in
    if on : bool then panic "kerneltrap: interrupts enabled"
    else
      let* which_dev := devintr disk_intr in
      if which_dev =? 0 then
        printf (bstr "scause %p" ++ [10]) [A_ptr scause] ;;;
        let* stval := get_csr c_stval in
        let* sepc' := get_csr c_sepc in
        printf (bstr "sepc=%p stval=%p" ++ [10]) [A_ptr sepc'; A_ptr stval] ;;;
        panic "kerneltrap"
      else
        (* give up the CPU if this is a timer interrupt. *)
        (if which_dev =? 2 then
           let* me := myproc in
           match me with
           | Some p =>
               let* pr := get_proc p in
               if decide (p_state pr = RUNNING) then yield else ret tt
           | None => ret tt
           end
         else ret tt) ;;;
        (* the yield() may have caused some traps to occur, so restore trap
           registers for use by kernelvec.S's sepc instruction. *)
        upd_csr (set_c_sepc sepc) ;;;
        upd_csr (set_c_sstatus sstatus).

(** * kernel/proc.c: forkret() *)

Definition forkret : M (Z * Z) :=
  (* Still holding p->lock from scheduler. *)
  let* p := mypr in
  release (L_proc p) ;;;
  let* first := gets (fun k => k_first k) in
  when (negb (first =? 0))
    ((* File system initialization must be run in the context of a regular
        process, and thus cannot be run from main(). *)
     modify (set_k_first 0) ;;;
     fsinit ROOTDEV) ;;;
  usertrapret.

(** * kernel/main.c, up to the call of scheduler(): hart 0, and the other harts
    once hart 0 has set [started].  [disk_init] is virtio_disk_init(). *)

Definition main_hart0 (disk_init : M unit) : M unit :=
  consoleinit ;;;
  printfinit ;;;
  printf [10] [] ;;;
  printf (bstr "xv6 kernel is booting" ++ [10]) [] ;;;
  printf [10] [] ;;;
  kinit ;;; (* physical page allocator *)
  kvminit ;;; (* create kernel page table *)
  kvminithart ;;; (* turn on paging *)
  procinit ;;; (* process table *)
  trapinit ;;; (* trap vectors *)
  trapinithart ;;; (* install kernel trap vector *)
  plicinit ;;; (* set up interrupt controller *)
  plicinithart ;;; (* ask PLIC for device interrupts *)
  binit ;;; (* buffer cache *)
  iinit ;;; (* inode table *)
  fileinit ;;; (* file table *)
  disk_init ;;; (* emulated hard disk *)
  userinit. (* first user process *)

Definition main_hart : M unit :=
  let* hart := get_csr c_tp in
  printf (bstr "hart %d starting" ++ [10]) [A_int hart] ;;;
  kvminithart ;;;
  trapinithart ;;;
  plicinithart.

End trap.
