(* ===== verification/Asm.v ===== *)
(** The hart that the assembly files and start.c run on: its registers, control
    registers and privilege modes, Sv39 translation, the instructions the
    sources use, and how traps are taken and returned from. *)
From S2P Require Import Prelude CInt KState Riscv Vm VmSpec.

(** A closed decidable statement, by evaluation. *)
Ltac by_decide := apply (bool_decide_unpack _); vm_compute; exact I.

(** * Registers *)

Inductive reg :=
  | ra | sp | gp | tp | t0 | t1 | t2 | s0 | s1 | a0 | a1 | a2 | a3 | a4 | a5 | a6 | a7
  | s2 | s3 | s4 | s5 | s6 | s7 | s8 | s9 | s10 | s11 | t3 | t4 | t5 | t6.

#[export] Instance reg_eq_dec : EqDecision reg.
Proof. solve_decision. Defined.

(** The registers that a C function leaves as it found them. *)
Definition callee_saved : list reg := [sp; s0; s1; s2; s3; s4; s5; s6; s7; s8; s9; s10; s11].

Definition all_regs : list reg :=
  [ra; sp; gp; tp; t0; t1; t2; s0; s1; a0; a1; a2; a3; a4; a5; a6; a7;
   s2; s3; s4; s5; s6; s7; s8; s9; s10; s11; t3; t4; t5; t6].

(** Consecutive 64-bit fields for [rs], from offset [b]. *)
Definition layout (rs : list reg) (b : Z) : list (reg * Z) :=
  imap (fun i r => (r, b + 8 * Z.of_nat i)) rs.

Inductive mode := User | Supervisor | Machine.

#[export] Instance mode_eq_dec : EqDecision mode.
Proof. solve_decision. Defined.

(** The control registers; sstatus, sie and sip are windows on mstatus, mie and
    mip. *)
Inductive csrname :=
  | mhartid | mstatus | mepc | mtvec | mie | mip | mscratch | medeleg | mideleg
  | pmpaddr0 | pmpcfg0 | mcounteren | time | satp | sscratch | sepc | scause | stval | stvec
  | sstatus | sie | sip.

#[export] Instance csrname_eq_dec : EqDecision csrname.
Proof. solve_decision. Defined.

Record hart := mk_hart {
  h_x : reg -> Z;
  h_csr : csrname -> Z;
  h_mode : mode;
  h_pc : Z;
  h_mem : mem
}.

Definition set_h_x (v : reg -> Z) (h : hart) : hart :=
  mk_hart v (h_csr h) (h_mode h) (h_pc h) (h_mem h).
Definition set_h_csr (v : csrname -> Z) (h : hart) : hart :=
  mk_hart (h_x h) v (h_mode h) (h_pc h) (h_mem h).
Definition set_h_mode (v : mode) (h : hart) : hart :=
  mk_hart (h_x h) (h_csr h) v (h_pc h) (h_mem h).
Definition set_h_pc (v : Z) (h : hart) : hart :=
  mk_hart (h_x h) (h_csr h) (h_mode h) v (h_mem h).
Definition set_h_mem (v : mem) (h : hart) : hart :=
  mk_hart (h_x h) (h_csr h) (h_mode h) (h_pc h) v.

Definition upd {A} `{EqDecision A} (f : A -> Z) (a : A) (v : Z) (b : A) : Z :=
  if decide (a = b) then v else f b.

Lemma written_eq {A} `{EqDecision A} (f : A -> Z) a v : upd f a v a = v.
Proof. unfold upd. by rewrite decide_True. Qed.

Lemma written_ne {A} `{EqDecision A} (f : A -> Z) a v b : a <> b -> upd f a v b = f b.
Proof. intros. unfold upd. by rewrite decide_False. Qed.

(** Reading a register or control register after writes to named ones. *)
Ltac upds := repeat (rewrite written_eq || rewrite written_ne by discriminate).

Definition set_x (r : reg) (v : Z) (h : hart) : hart := set_h_x (upd (h_x h) r v) h.
Definition set_csr (c : csrname) (v : Z) (h : hart) : hart := set_h_csr (upd (h_csr h) c v) h.

(** Registers hold 64-bit values. *)
Definition regs_ok (h : hart) : Prop := forall r, 0 <= h_x h r < 2 ^ 64.

(** * Control registers *)

(** The bits of [x] under [mask] replaced by those of [v]. *)
Definition blend (mask x v : Z) : Z := Z.lor (Z.ldiff x mask) (Z.land v mask).

Definition bit (x n : Z) : Z := Z.land (Z.shiftr x n) 1.
Definition put_bit (n b x : Z) : Z := blend (Z.shiftl 1 n) x (Z.shiftl b n).

#[global] Arguments blend : simpl never.
#[global] Arguments bit : simpl never.
#[global] Arguments put_bit : simpl never.

(** mstatus: SIE 1, MIE 3, SPIE 5, MPIE 7, SPP 8, MPP 12..11; SUM 18 and MXR 19
    are also in sstatus. *)
Definition sstatus_mask : Z := 0xC0122.

(** Which interrupts and exceptions the hart can delegate is up to its
    implementation. *)
Class Delegation := {
  can_mideleg : Z;
  can_medeleg : Z;
}.

Section hart.
Context {D : Delegation}.

Definition csr_read (h : hart) (c : csrname) : Z :=
  match c with
  | sstatus => Z.land (h_csr h mstatus) sstatus_mask
  | sie => Z.land (h_csr h mie) (h_csr h mideleg)
  | sip => Z.land (h_csr h mip) (h_csr h mideleg)
  | c => h_csr h c
  end.

(** Of sip only the software interrupt bit can be written. *)
Definition csr_write (c : csrname) (v : Z) (h : hart) : hart :=
  match c with
  | mhartid => h
  | mideleg => set_csr mideleg (Z.land v can_mideleg) h
  | medeleg => set_csr medeleg (Z.land v can_medeleg) h
  | sstatus => set_csr mstatus (blend sstatus_mask (h_csr h mstatus) v) h
  | sie => set_csr mie (blend (h_csr h mideleg) (h_csr h mie) v) h
  | sip => set_csr mip (blend (Z.land (h_csr h mideleg) 2) (h_csr h mip) v) h
  | c => set_csr c v h
  end.

(** * Memory *)

Inductive access := Rd | Wr.

(** Sv39, in supervisor mode with sstatus.SUM clear; xv6 makes no superpages. *)
Definition sv39 (m : mem) (pt : Z) (acc : access) (va : Z) : option Z :=
  if (2 ^ 38 <=? va) && (va <? 2 ^ 64 - 2 ^ 38) then None
  else
    match leaf_addr m pt va with
    | None => None
    | Some a =>
        let v := ld64 m a in
        let need := match acc with Rd => PTE_R | Wr => PTE_W end in
        if pte_valid v && negb (Z.land v need =? 0) && (Z.land v PTE_U =? 0)
        then Some (PTE2PA v + va mod PGSIZE) else None
    end.

(** Machine mode uses physical addresses. *)
Definition translate (m : mem) (md : mode) (st : Z) (acc : access) (va : Z) : option Z :=
  match md with
  | Machine => Some va
  | _ =>
      if Z.shiftr st 60 =? 0 then Some va
      else sv39 m (Z.shiftl (Z.land st (Z.ones 44)) 12) acc va
  end.

Definition address (h : hart) (acc : access) (base : reg) (off : Z) : option Z :=
  let va := u64 (h_x h base + off) in
  if va mod 8 =? 0 then translate (h_mem h) (h_mode h) (h_csr h satp) acc va else None.

(** * Instructions *)

(** [Li] is also la, whose symbol's address is the operand. [Call] is a call of
    a C function: [f] is what the function does, [link] the address behind the
    call. *)
Inductive instr :=
  | Ld (rd : reg) (off : Z) (base : reg)
  | Sd (rs : reg) (off : Z) (base : reg)
  | Li (rd : reg) (v : Z)
  | Addi (rd rs : reg) (v : Z)
  | Add (rd r1 r2 : reg)
  | Mul (rd r1 r2 : reg)
  | Csrr (rd : reg) (c : csrname)
  | Csrw (c : csrname) (rs : reg)
  | Csrrw (rd : reg) (c : csrname) (rs : reg)
  | Sfence_vma
  | Jr (r : reg)
  | Call (f : hart -> option hart) (link : Z)
  | Sret
  | Mret.

Definition mode_of (b : Z) : mode :=
  if b =? 0 then User else if b =? 1 then Supervisor else Machine.
Definition mode_bits (m : mode) : Z :=
  match m with User => 0 | Supervisor => 1 | Machine => 3 end.

Definition sret (h : hart) : hart :=
  let s := h_csr h mstatus in
  set_h_pc (h_csr h sepc) (set_h_mode (mode_of (bit s 8))
    (set_csr mstatus (put_bit 8 0 (put_bit 5 1 (put_bit 1 (bit s 5) s))) h)).

Definition mret (h : hart) : hart :=
  let s := h_csr h mstatus in
  set_h_pc (h_csr h mepc) (set_h_mode (mode_of (Z.land (Z.shiftr s 11) 3))
    (set_csr mstatus (blend (Z.shiftl 3 11) (put_bit 7 1 (put_bit 3 (bit s 7) s)) 0) h)).

Definition exec (i : instr) (h : hart) : option hart :=
  match i with
  | Ld rd off base => (fun pa => set_x rd (ld64 (h_mem h) pa) h) <$> address h Rd base off
  | Sd rs off base => (fun pa => set_h_mem (st64 (h_mem h) pa (h_x h rs)) h) <$> address h Wr base off
  | Li rd v => Some (set_x rd v h)
  | Addi rd rs v => Some (set_x rd (u64 (h_x h rs + v)) h)
  | Add rd r1 r2 => Some (set_x rd (u64 (h_x h r1 + h_x h r2)) h)
  | Mul rd r1 r2 => Some (set_x rd (u64 (h_x h r1 * h_x h r2)) h)
  | Csrr rd c => Some (set_x rd (csr_read h c) h)
  | Csrw c rs => Some (csr_write c (h_x h rs) h)
  | Csrrw rd c rs => Some (set_x rd (csr_read h c) (csr_write c (h_x h rs) h))
  | Sfence_vma => Some h
  | Jr r => Some (set_h_pc (h_x h r) h)
  | Call f link => f (set_x ra link h)
  | Sret => Some (sret h)
  | Mret => Some (mret h)
  end.

(** Straight-line code, to its last instruction. *)
Fixpoint run (code : list instr) (h : hart) : option hart :=
  match code with
  | [] => Some h
  | i :: code' => match exec i h with Some h' => run code' h' | None => None end
  end.

(** * Traps *)

(** A trap into supervisor mode, at the instruction at [h_pc]. *)
Definition trap_s (cause : Z) (h : hart) : hart :=
  let s := h_csr h mstatus in
  let s' := put_bit 8 (Z.land (mode_bits (h_mode h)) 1) (put_bit 1 0 (put_bit 5 (bit s 1) s)) in
  set_h_pc (h_csr h stvec) (set_h_mode Supervisor
    (set_csr scause cause (set_csr sepc (h_pc h) (set_csr mstatus s' h)))).

(** A machine-mode interrupt before the instruction at [h_pc]. *)
Definition trap_m (h : hart) : hart :=
  let s := h_csr h mstatus in
  let s' := blend (Z.shiftl 3 11) (put_bit 3 0 (put_bit 7 (bit s 3) s))
              (Z.shiftl (mode_bits (h_mode h)) 11) in
  set_h_pc (h_csr h mtvec) (set_h_mode Machine
    (set_csr mepc (h_pc h) (set_csr mstatus s' h))).

(** * Bits of the status register *)

Lemma testbit_blend mask x v n : 0 <= n ->
  Z.testbit (blend mask x v) n = if Z.testbit mask n then Z.testbit v n else Z.testbit x n.
Proof.
  intros. unfold blend. rewrite Z.lor_spec, Z.ldiff_spec, Z.land_spec.
  destruct (Z.testbit mask n), (Z.testbit v n), (Z.testbit x n); done.
Qed.

Lemma bit_b2z x n : 0 <= n -> bit x n = Z.b2z (Z.testbit x n).
Proof.
  intros. unfold bit. change 1 with (Z.ones 1). rewrite Z.land_ones by lia.
  rewrite Z.shiftr_div_pow2, Z.testbit_spec' by lia. done.
Qed.

Lemma testbit_one k j : 0 <= j -> 0 <= k -> Z.testbit (Z.shiftl 1 k) j = (j =? k).
Proof. intros. rewrite Z.shiftl_1_l, Z.pow2_bits_eqb by lia. apply Z.eqb_sym. Qed.

Lemma bit_put_bit n (b : bool) x : 0 <= n -> bit (put_bit n (Z.b2z b) x) n = Z.b2z b.
Proof.
  intros. rewrite bit_b2z by done. unfold put_bit. rewrite testbit_blend, testbit_one, Z.eqb_refl by done.
  rewrite Z.shiftl_spec, Z.sub_diag by lia. by destruct b.
Qed.

Lemma bit_copy n k x y : 0 <= n -> 0 <= k -> bit (put_bit n (bit y k) x) n = bit y k.
Proof. intros. rewrite (bit_b2z y) by done. by apply bit_put_bit. Qed.

Lemma bit_put_bit_ne n k b x : 0 <= n -> 0 <= k -> k <> n -> bit (put_bit n b x) k = bit x k.
Proof.
  intros. rewrite !bit_b2z by done. unfold put_bit. rewrite testbit_blend, testbit_one by done.
  by rewrite (proj2 (Z.eqb_neq _ _)).
Qed.

(** A field written is read back; a bit outside of it stays. *)
Lemma field_blend k w x v : 0 <= k -> 0 <= w ->
  Z.land (Z.shiftr (blend (Z.shiftl w k) x (Z.shiftl v k)) k) w = Z.land v w.
Proof.
  intros Hk Hw. apply Z.bits_inj'. intros n Hn.
  rewrite !Z.land_spec, Z.shiftr_spec, testbit_blend, !Z.shiftl_spec by lia.
  replace (n + k - k) with n by lia. destruct (Z.testbit w n); by rewrite ?andb_false_r.
Qed.

Lemma bit_blend_out mask x v n : 0 <= n -> Z.testbit mask n = false -> bit (blend mask x v) n = bit x n.
Proof. intros Hn E. rewrite !bit_b2z, testbit_blend, E by done. done. Qed.

Lemma mode_of_bits m : mode_of (Z.land (mode_bits m) 3) = m.
Proof. by destruct m. Qed.

(** * Blocks of stores and loads *)

Definition saves (tbl : list (reg * Z)) (base : reg) : list instr :=
  (fun ro => Sd ro.1 ro.2 base) <$> tbl.
Definition loads (tbl : list (reg * Z)) (base : reg) : list instr :=
  (fun ro => Ld ro.1 ro.2 base) <$> tbl.

Definition store_all (m : mem) (x : reg -> Z) (p : Z) (tbl : list (reg * Z)) : mem :=
  foldl (fun m ro => st64 m (p + ro.2) (x ro.1)) m tbl.
Definition load_all (x : reg -> Z) (m : mem) (p : Z) (tbl : list (reg * Z)) : reg -> Z :=
  foldl (fun x ro => upd x ro.1 (ld64 m (p + ro.2))) x tbl.

(** The offsets are aligned and inside [len] bytes. *)
Definition fits (len : Z) (tbl : list (reg * Z)) : bool :=
  forallb (fun ro => (0 <=? ro.2) && (ro.2 + 8 <=? len) && (ro.2 mod 8 =? 0)) tbl.

(** The [len] bytes at virtual address [va] are those at physical address [p],
    readable and writable, and the page-table entries that say so are not
    among them. *)
Record window (m : mem) (md : mode) (st va p len : Z) : Prop := {
  win_range : 0 <= va /\ va + len <= 2 ^ 64;
  win_align : va mod 8 = 0;
  win_map m' acc off : same_but p len m m' -> 0 <= off -> off + 8 <= len ->
    translate m' md st acc (va + off) = Some (p + off);
}.

Lemma window_same m m' md st va p len :
  window m md st va p len -> same_but p len m m' -> window m' md st va p len.
Proof.
  intros [R A W] H. split; [done|done|]. intros m2 acc off H2. apply W. by eapply same_but_trans.
Qed.

Lemma window_bare m md st va len :
  md = Machine \/ Z.shiftr st 60 = 0 ->
  0 <= va -> va + len <= 2 ^ 64 -> va mod 8 = 0 -> window m md st va va len.
Proof.
  intros Hm H0 Hl Ha. split; [done|done|]. intros. unfold translate.
  destruct Hm as [->| ->]; [done|]. by destruct md.
Qed.

Lemma fits_elem len tbl r o : fits len tbl = true -> (r, o) ∈ tbl ->
  0 <= o /\ o + 8 <= len /\ o mod 8 = 0.
Proof.
  unfold fits. rewrite forallb_forall. intros H Ho.
  specialize (H (r, o) (proj1 (list_elem_of_In _ _) Ho)). cbn in H. b2p. lia.
Qed.

Lemma fits_cons len r o tbl : fits len ((r, o) :: tbl) = true ->
  (0 <= o /\ o + 8 <= len /\ o mod 8 = 0) /\ fits len tbl = true.
Proof. unfold fits. cbn [forallb fst snd]. intros H. b2p. lia || (split; [lia|done]). Qed.

Lemma address_window h base p len acc off :
  window (h_mem h) (h_mode h) (h_csr h satp) (h_x h base) p len ->
  0 <= off -> off + 8 <= len -> off mod 8 = 0 ->
  address h acc base off = Some (p + off).
Proof.
  intros [R A W] H0 Hl Ho. unfold address. rewrite u64_small by lia.
  rewrite (proj2 (Z.eqb_eq _ _)); [by apply W|].
  rewrite Z.add_mod, A, Ho by lia. done.
Qed.

Lemma run_app c1 c2 h :
  run (c1 ++ c2) h = match run c1 h with Some h' => run c2 h' | None => None end.
Proof. revert h; induction c1 as [|i c1 IH]; intros h; cbn; [done|]. by destruct (exec i h). Qed.

Lemma run_saves tbl base p len : forall h,
  window (h_mem h) (h_mode h) (h_csr h satp) (h_x h base) p len -> fits len tbl = true ->
  run (saves tbl base) h = Some (set_h_mem (store_all (h_mem h) (h_x h) p tbl) h).
Proof.
  induction tbl as [|[r o] tbl IH]; intros h W F; [by destruct h|].
  apply fits_cons in F as [F0 F]. cbn [saves fmap list_fmap run exec fst snd].
  rewrite (address_window _ _ p len) by (done || lia). cbn [fmap option_fmap option_map].
  fold (saves tbl base). rewrite IH; [by destruct h| |done].
  destruct h; cbn in *. eapply window_same; [done|]. apply same_but_st64; lia.
Qed.

Lemma store_all_same x p len tbl : forall m,
  fits len tbl = true -> same_but p len m (store_all m x p tbl).
Proof.
  induction tbl as [|[r o] tbl IH]; intros m F; [done|].
  apply fits_cons in F as [F0 F]. cbn [store_all foldl fst snd].
  eapply same_but_trans; [apply (same_but_st64 p len m o (x r)); lia|]. by apply IH.
Qed.

Lemma store_all_other x p len tbl o : forall m,
  fits len tbl = true -> o mod 8 = 0 -> o ∉ tbl.*2 ->
  ld64 (store_all m x p tbl) (p + o) = ld64 m (p + o).
Proof.
  induction tbl as [|[r o'] tbl IH]; intros m F Ho Hn; [done|].
  apply fits_cons in F as [F0 F]. cbn in Hn. apply not_elem_of_cons in Hn as [Hne Hn].
  cbn [store_all foldl fst snd]. change (foldl _ ?a tbl) with (store_all a x p tbl).
  rewrite IH by done. apply ld64_st64_ne. unfold apart. zdm.
Qed.

Lemma store_all_ld x p len tbl r o : forall m,
  fits len tbl = true -> NoDup tbl.*2 -> (r, o) ∈ tbl -> 0 <= x r < 2 ^ 64 ->
  ld64 (store_all m x p tbl) (p + o) = x r.
Proof.
  induction tbl as [|[r' o'] tbl IH]; intros m F Nd He Hx; [by apply not_elem_of_nil in He|].
  apply fits_cons in F as [F0 F]. cbn in Nd. apply list.NoDup_cons in Nd as [Hn Nd].
  cbn [store_all foldl fst snd]. change (foldl _ ?a tbl) with (store_all a x p tbl).
  apply elem_of_cons in He as [[= -> ->]|He]; [|by apply IH].
  erewrite store_all_other by (done || lia). by apply ld64_st64_eq.
Qed.

Lemma run_loads tbl base p len : forall h,
  window (h_mem h) (h_mode h) (h_csr h satp) (h_x h base) p len -> fits len tbl = true ->
  (forall o, (base, o) ∈ tbl -> ld64 (h_mem h) (p + o) = h_x h base) ->
  run (loads tbl base) h = Some (set_h_x (load_all (h_x h) (h_mem h) p tbl) h).
Proof.
  induction tbl as [|[r o] tbl IH]; intros h W F B; [by destruct h|].
  apply fits_cons in F as [F0 F]. cbn [loads fmap list_fmap run exec fst snd].
  rewrite (address_window _ _ p len) by (done || lia). cbn [fmap option_fmap option_map].
  fold (loads tbl base).
  assert (h_x (set_x r (ld64 (h_mem h) (p + o)) h) base = h_x h base) as E.
  { cbn. unfold upd. case_decide; [|done]. subst. apply B. left. }
  rewrite IH; [by destruct h| |done|].
  - rewrite E. by destruct h.
  - rewrite E. intros o' Ho'. apply B. by right.
Qed.

Lemma load_all_other m p tbl r : forall x,
  r ∉ tbl.*1 -> load_all x m p tbl r = x r.
Proof.
  induction tbl as [|[r' o'] tbl IH]; intros x Hn; [done|].
  cbn in Hn. apply not_elem_of_cons in Hn as [Hne Hn]. cbn [load_all foldl fst snd].
  change (foldl _ ?a tbl) with (load_all a m p tbl). rewrite IH by done. by apply written_ne.
Qed.

Lemma load_all_ld m p tbl r o : forall x,
  NoDup tbl.*1 -> (r, o) ∈ tbl -> load_all x m p tbl r = ld64 m (p + o).
Proof.
  induction tbl as [|[r' o'] tbl IH]; intros x Nd He; [by apply not_elem_of_nil in He|].
  cbn in Nd. apply list.NoDup_cons in Nd as [Hn Nd]. cbn [load_all foldl fst snd].
  change (foldl _ ?a tbl) with (load_all a m p tbl).
  apply elem_of_cons in He as [[= -> ->]|He]; [|by apply IH].
  rewrite load_all_other by done. apply written_eq.
Qed.

End hart.

#[global] Arguments store_all : simpl never.
#[global] Arguments load_all : simpl never.
