(* ===== verification/Switch.v ===== *)
(** kernel/swtch.S and kernel/kernelvec.S: the context switch, and the entry
    points of traps from the kernel and of machine-mode timer interrupts. *)
From S2P Require Import Prelude CInt KState Riscv Vm VmSpec Asm.

Section switch.
Context {D : Delegation}.

(** * The code *)

(** struct context *)
Definition context_layout : list (reg * Z) := layout (ra :: callee_saved) 0.

(** swtch(old, new) *)
Definition swtch : list instr := [
    Sd ra 0 a0; Sd sp 8 a0; Sd s0 16 a0; Sd s1 24 a0; Sd s2 32 a0; Sd s3 40 a0; Sd s4 48 a0;
    Sd s5 56 a0; Sd s6 64 a0; Sd s7 72 a0; Sd s8 80 a0; Sd s9 88 a0; Sd s10 96 a0; Sd s11 104 a0;
    Ld ra 0 a1; Ld sp 8 a1; Ld s0 16 a1; Ld s1 24 a1; Ld s2 32 a1; Ld s3 40 a1; Ld s4 48 a1;
    Ld s5 56 a1; Ld s6 64 a1; Ld s7 72 a1; Ld s8 80 a1; Ld s9 88 a1; Ld s10 96 a1; Ld s11 104 a1;
    (* ret *)
    Jr ra ].

Definition kernelvec (kerneltrap : hart -> option hart) (link : Z) : list instr := [
    (* make room to save registers. *)
    Addi sp sp (-256);
    (* save the registers. *)
    Sd ra 0 sp; Sd sp 8 sp; Sd gp 16 sp; Sd tp 24 sp; Sd t0 32 sp;
    Sd t1 40 sp; Sd t2 48 sp; Sd s0 56 sp; Sd s1 64 sp; Sd a0 72 sp; Sd a1 80 sp; Sd a2 88 sp;
    Sd a3 96 sp; Sd a4 104 sp; Sd a5 112 sp; Sd a6 120 sp; Sd a7 128 sp; Sd s2 136 sp;
    Sd s3 144 sp; Sd s4 152 sp; Sd s5 160 sp; Sd s6 168 sp; Sd s7 176 sp; Sd s8 184 sp;
    Sd s9 192 sp; Sd s10 200 sp; Sd s11 208 sp; Sd t3 216 sp; Sd t4 224 sp; Sd t5 232 sp;
    Sd t6 240 sp;
    (* call the C trap handler in trap.c *)
    Call kerneltrap link;
    (* restore registers; not tp (contains hartid), in case we moved CPUs *)
    Ld ra 0 sp; Ld sp 8 sp; Ld gp 16 sp; Ld t0 32 sp; Ld t1 40 sp;
    Ld t2 48 sp; Ld s0 56 sp; Ld s1 64 sp; Ld a0 72 sp; Ld a1 80 sp; Ld a2 88 sp; Ld a3 96 sp;
    Ld a4 104 sp; Ld a5 112 sp; Ld a6 120 sp; Ld a7 128 sp; Ld s2 136 sp; Ld s3 144 sp;
    Ld s4 152 sp; Ld s5 160 sp; Ld s6 168 sp; Ld s7 176 sp; Ld s8 184 sp; Ld s9 192 sp;
    Ld s10 200 sp; Ld s11 208 sp; Ld t3 216 sp; Ld t4 224 sp; Ld t5 232 sp; Ld t6 240 sp;
    Addi sp sp 256;
    (* return to whatever we were doing in the kernel. *)
    Sret ].

Definition timervec : list instr := [
    Csrrw a0 mscratch a0; Sd a1 0 a0; Sd a2 8 a0; Sd a3 16 a0;
    (* schedule the next timer interrupt by adding interval to mtimecmp. *)
    Ld a1 24 a0 (* CLINT_MTIMECMP(hart) *);
    Ld a2 32 a0 (* interval *);
    Ld a3 0 a1; Add a3 a3 a2; Sd a3 0 a1;
    (* arrange for a supervisor software interrupt after this handler returns. *)
    Li a1 2; Csrw sip a1;
    Ld a3 16 a0; Ld a2 8 a0; Ld a1 0 a0; Csrrw a0 mscratch a0;
    Mret ].

(** * swtch *)

Lemma swtch_code : swtch = saves context_layout a0 ++ loads context_layout a1 ++ [Jr ra].
Proof. reflexivity. Qed.

Lemma context_fits : fits 112 context_layout = true.
Proof. reflexivity. Qed.

Lemma context_nodup : NoDup context_layout.*1 /\ NoDup context_layout.*2.
Proof. split; by_decide. Qed.

Lemma swtch_run h po pn :
  window (h_mem h) (h_mode h) (h_csr h satp) (h_x h a0) po 112 ->
  (forall m', same_but po 112 (h_mem h) m' ->
     window m' (h_mode h) (h_csr h satp) (h_x h a1) pn 112) ->
  run swtch h =
    let m := store_all (h_mem h) (h_x h) po context_layout in
    let x := load_all (h_x h) m pn context_layout in
    Some (set_h_pc (x ra) (set_h_x x (set_h_mem m h))).
Proof.
  intros Wo Wn. rewrite swtch_code, run_app.
  rewrite (run_saves _ _ po 112) by (done || apply context_fits).
  rewrite run_app, (run_loads _ _ pn 112).
  - reflexivity.
  - destruct h; apply Wn, store_all_same, context_fits.
  - apply context_fits.
  - intros o Ho. exfalso. assert (a1 ∈ context_layout.*1) as Hi.
    { apply list_elem_of_fmap. by exists (a1, o). }
    revert Hi. by_decide.
Qed.

Lemma context_in r : r ∈ ra :: callee_saved -> exists o, (r, o) ∈ context_layout /\ 0 <= o /\ o + 8 <= 112.
Proof.
  intros Hr. assert (r ∈ context_layout.*1) as H by (by vm_compute in Hr |- *).
  apply list_elem_of_fmap in H as ([r' o] & -> & H). exists o. split; [done|].
  apply (fits_elem 112) in H; [lia|apply context_fits].
Qed.

(** C5: swtch() saves the caller's context where it is told, loads the new one
    and returns into it, and writes nothing else. When some thread later
    switches to the saved context, whatever ran in between, the first call of
    swtch() returns to its caller with sp and s0..s11 as they were. *)
Theorem swtch_resumes h po pn :
  regs_ok h ->
  window (h_mem h) (h_mode h) (h_csr h satp) (h_x h a0) po 112 ->
  (forall m', same_but po 112 (h_mem h) m' ->
     window m' (h_mode h) (h_csr h satp) (h_x h a1) pn 112) ->
  apart po 112 pn 112 ->
  exists h1, run swtch h = Some h1 /\
    h_pc h1 = ld64 (h_mem h) pn /\ h_mode h1 = h_mode h /\ h_csr h1 = h_csr h /\
    (forall r o, (r, o) ∈ context_layout -> h_x h1 r = ld64 (h_mem h) (pn + o)) /\
    same_but po 112 (h_mem h) (h_mem h1) /\
    forall h2 p2,
      (forall x, po <= x < po + 112 -> ld8 (h_mem h2) x = ld8 (h_mem h1) x) ->
      window (h_mem h2) (h_mode h2) (h_csr h2 satp) (h_x h2 a0) p2 112 ->
      (forall m', same_but p2 112 (h_mem h2) m' ->
         window m' (h_mode h2) (h_csr h2 satp) (h_x h2 a1) po 112) ->
      apart p2 112 po 112 ->
      exists h3, run swtch h2 = Some h3 /\ h_pc h3 = h_x h ra /\
        forall r, r ∈ callee_saved -> h_x h3 r = h_x h r.
Proof.
  intros Hr Wo Wn Ha. destruct context_nodup as [N1 N2]. pose proof context_fits as F.
  eexists. split; [by apply swtch_run|]. cbn zeta.
  set (m := store_all (h_mem h) (h_x h) po context_layout).
  assert (forall r o, (r, o) ∈ context_layout -> ld64 m (pn + o) = ld64 (h_mem h) (pn + o)) as Hm.
  { intros r o Ho. apply (fits_elem 112) in Ho as Hb; [|done].
    eapply same_but_ld64; [by apply (store_all_same _ po 112)|]. unfold apart in Ha. lia. }
  assert (forall r o, (r, o) ∈ context_layout -> load_all (h_x h) m pn context_layout r = ld64 (h_mem h) (pn + o)) as Hl.
  { intros r o Ho. rewrite (load_all_ld _ _ _ _ o) by done. by eapply Hm. }
  split; [|split; [done|split; [done|split; [|split]]]].
  - cbn [h_pc set_h_pc]. rewrite (Hl ra 0) by left. by rewrite Z.add_0_r.
  - exact Hl.
  - by apply store_all_same.
  - intros h2 p2 Hs W2 W1 Ha2. eexists. split; [by apply swtch_run|]. cbn zeta.
    assert (forall r, r ∈ ra :: callee_saved ->
      load_all (h_x h2) (store_all (h_mem h2) (h_x h2) p2 context_layout) po context_layout r = h_x h r) as R.
    { intros r Hi. apply context_in in Hi as (o & Ho & Hb). rewrite (load_all_ld _ _ _ _ o) by done.
      etransitivity; [eapply same_but_ld64; [by apply (store_all_same _ p2 112)|unfold apart in Ha2; lia]|].
      etransitivity; [|by apply (store_all_ld (h_x h) po 112 _ _ _ (h_mem h) F N2 Ho), Hr].
      apply ld64_ext. intros x Hx. apply Hs. lia. }
    split; [by apply R; left|]. intros r Hi. apply R. by right.
Qed.

(** * kernelvec *)

(** What kernelvec pushes, and what it pops. *)
Definition frame_layout : list (reg * Z) := layout all_regs 0.
Definition popped_layout : list (reg * Z) := filter (fun ro => ro.1 <> tp) frame_layout.

Lemma kernelvec_code kerneltrap link : kernelvec kerneltrap link =
  Addi sp sp (-256) :: saves frame_layout sp ++
  Call kerneltrap link :: loads popped_layout sp ++ [Addi sp sp 256; Sret].
Proof. reflexivity. Qed.

Lemma frame_fits : fits 256 frame_layout = true /\ fits 256 popped_layout = true.
Proof. done. Qed.

Lemma frame_nodup : NoDup popped_layout.*1 /\ NoDup frame_layout.*2.
Proof. split; by_decide. Qed.

Lemma frame_slot r : r <> tp -> exists o, (r, o) ∈ popped_layout /\ (r, o) ∈ frame_layout.
Proof.
  intros Hr. assert (r ∈ popped_layout.*1) as H by (destruct r; (done || (by_decide))).
  apply list_elem_of_fmap in H as ([r' o] & -> & H). exists o. split; [done|].
  by apply list_elem_of_filter in H as [_ H].
Qed.

(** kerneltrap() as its caller sees it: a C function, which leaves the stack
    pointer and the caller's frame alone, and puts sepc and sstatus back as it
    found them; it may return on another CPU. *)
Definition kerneltrap_ok (kerneltrap : hart -> option hart) (p : Z) (h0 : hart) : Prop :=
  exists h1, kerneltrap h0 = Some h1 /\
    h_x h1 sp = h_x h0 sp /\ h_mode h1 = h_mode h0 /\
    h_csr h1 satp = h_csr h0 satp /\ h_csr h1 sepc = h_csr h0 sepc /\
    csr_read h1 sstatus = csr_read h0 sstatus /\
    window (h_mem h1) (h_mode h1) (h_csr h1 satp) (h_x h1 sp) p 256 /\
    (forall x, p <= x < p + 256 -> ld8 (h_mem h1) x = ld8 (h_mem h0) x).

Lemma sstatus_bit h h' n :
  csr_read h sstatus = csr_read h' sstatus -> 0 <= n -> Z.testbit sstatus_mask n = true ->
  bit (h_csr h mstatus) n = bit (h_csr h' mstatus) n.
Proof.
  intros E Hn Hm. rewrite !bit_b2z by done.
  assert (forall g, Z.testbit (h_csr g mstatus) n = Z.testbit (csr_read g sstatus) n) as T.
  { intros g. cbn [csr_read]. by rewrite Z.land_spec, Hm, andb_true_r. }
  by rewrite !T, E.
Qed.

(** The status bits across a trap from supervisor mode and its return. *)
Lemma trap_sret_status h cause h1 :
  h_mode h = Supervisor -> csr_read h1 sstatus = csr_read (trap_s cause h) sstatus ->
  h_mode (sret h1) = Supervisor /\ bit (h_csr (sret h1) mstatus) 1 = bit (h_csr h mstatus) 1.
Proof.
  intros Hm E.
  assert (bit (h_csr h1 mstatus) 8 = 1) as B8.
  { erewrite sstatus_bit by (done || lia). cbn. upds. rewrite Hm. apply (bit_put_bit 8 true). lia. }
  assert (bit (h_csr h1 mstatus) 5 = bit (h_csr h mstatus) 1) as B5.
  { erewrite sstatus_bit by (done || lia). cbn. upds. rewrite !bit_put_bit_ne by lia.
    by apply bit_copy. }
  split; cbn; [by rewrite B8|]. upds.
  rewrite !bit_put_bit_ne, B5 by lia. by apply bit_copy.
Qed.

(** The pops undo the pushes, whatever was done to the registers but sp. *)
Lemma pops h p x :
  (forall r, 0 <= x r < 2 ^ 64) -> x sp = h_x h sp ->
  window (h_mem h) (h_mode h) (h_csr h satp) (h_x h sp) p 256 ->
  (exists m, forall a, p <= a < p + 256 -> ld8 (h_mem h) a = ld8 (store_all m x p frame_layout) a) ->
  exists y, run (loads popped_layout sp) h = Some (set_h_x y h) /\
    y tp = h_x h tp /\ forall r, r <> tp -> y r = x r.
Proof.
  intros Hx Hsp W [m Hm]. destruct frame_fits as [F1 F2], frame_nodup as [N1 N2].
  assert (forall r o, (r, o) ∈ frame_layout -> ld64 (h_mem h) (p + o) = x r) as L.
  { intros r o Ho. pose proof (fits_elem _ _ _ _ F1 Ho).
    rewrite <- (store_all_ld x p 256 _ _ _ m F1 N2 Ho (Hx r)).
    apply ld64_ext. intros a Ha. apply Hm. lia. }
  exists (load_all (h_x h) (h_mem h) p popped_layout). split; [|split].
  - apply (run_loads _ _ p 256); [done..|]. intros o Ho. rewrite <- Hsp. apply L.
    by apply list_elem_of_filter in Ho as [_ Ho].
  - apply load_all_other. by_decide.
  - intros r Hr. destruct (frame_slot r Hr) as (o & Ho & Ho'). rewrite (load_all_ld _ _ _ _ o) by done.
    by apply L.
Qed.

(** C19: An interrupt or exception in the kernel is invisible to the code it
    interrupts: kernelvec, around a kerneltrap() that returns, resumes at the
    interrupted instruction, in supervisor mode, with the interrupt-enable bit
    and every register as they were, except for tp, which kerneltrap() decides
    because it can return on another CPU. *)
Theorem kernelvec_transparent kerneltrap link cause h p :
  regs_ok h -> h_mode h = Supervisor -> 256 <= h_x h sp ->
  window (h_mem h) Supervisor (h_csr h satp) (h_x h sp - 256) p 256 ->
  (forall h0, h_x h0 sp = h_x h sp - 256 -> h_mode h0 = Supervisor -> h_csr h0 satp = h_csr h satp ->
     same_but p 256 (h_mem h) (h_mem h0) -> kerneltrap_ok kerneltrap p h0) ->
  exists h0 h1 h', kerneltrap h0 = Some h1 /\
    run (kernelvec kerneltrap link) (trap_s cause h) = Some h' /\
    h_pc h' = h_pc h /\ h_mode h' = Supervisor /\
    bit (h_csr h' mstatus) 1 = bit (h_csr h mstatus) 1 /\
    h_x h' tp = h_x h1 tp /\
    forall r, r <> tp -> h_x h' r = h_x h r.
Proof.
  intros Hr Hm Hsp W K. destruct frame_fits as [F1 F2].
  set (ha := set_x sp (h_x h sp - 256) (trap_s cause h)).
  assert (forall r, 0 <= h_x ha r < 2 ^ 64) as Ra.
  { intros r. cbn. unfold upd. case_decide; [pose proof (Hr sp); lia|apply Hr]. }
  set (h0 := set_x ra link (set_h_mem (store_all (h_mem h) (h_x ha) p frame_layout) ha)).
  destruct (K h0) as (h1 & E & E1 & Em & Es & Ec & Est & W1 & Hf).
  { done. } { done. } { done. } { by apply store_all_same. }
  destruct (pops h1 p (h_x ha)) as (y & Ey & Yt & Yr).
  { done. } { by rewrite E1. } { done. } { by exists (h_mem h). }
  exists h0, h1, (sret (set_h_x (upd y sp (u64 (y sp + 256))) h1)).
  destruct (trap_sret_status h cause (set_h_x (upd y sp (u64 (y sp + 256))) h1)) as [Q1 Q2]; [done|exact Est|].
  split; [done|]. split; [|split; [|split; [done|split; [done|split]]]].
  - rewrite kernelvec_code. cbn [run exec].
    change (h_x (trap_s cause h) sp) with (h_x h sp). rewrite u64_small by (pose proof (Hr sp); lia).
    fold ha. rewrite run_app, (run_saves _ _ p 256) by done.
    cbn [run exec]. change (kerneltrap _) with (kerneltrap h0). rewrite E, run_app, Ey. reflexivity.
  - cbn. by rewrite Ec.
  - cbn. by rewrite written_ne.
  - intros r Hrt. cbn. unfold upd. case_decide as Er; [subst r|].
    + rewrite Yr by done. cbn. upds. rewrite u64_small; [lia|pose proof (Hr sp); lia].
    + rewrite Yr by done. cbn. by apply written_ne.
Qed.

(** * timervec *)

Definition scratch_layout : list (reg * Z) := layout [a1; a2; a3] 0.

(** The part of timervec between the saving and the restoring of registers. *)
Definition tick : list instr :=
  [Ld a1 24 a0; Ld a2 32 a0; Ld a3 0 a1; Add a3 a3 a2; Sd a3 0 a1; Li a1 2; Csrw sip a1].

Lemma timervec_code : timervec =
  Csrrw a0 mscratch a0 :: saves scratch_layout a0 ++ tick ++
  loads (rev scratch_layout) a0 ++ [Csrrw a0 mscratch a0; Mret].
Proof. reflexivity. Qed.

Lemma scratch_fits : fits 40 scratch_layout = true /\ fits 40 (rev scratch_layout) = true.
Proof. done. Qed.

Lemma scratch_nodup : NoDup scratch_layout.*2 /\ NoDup (rev scratch_layout).*1.
Proof. split; by_decide. Qed.

Lemma address_machine h acc base off :
  h_mode h = Machine -> 0 <= h_x h base + off < 2 ^ 64 -> (h_x h base + off) mod 8 = 0 ->
  address h acc base off = Some (h_x h base + off).
Proof.
  intros Hm Hr Ha. unfold address. rewrite u64_small by done. rewrite Ha. cbn [Z.eqb].
  by rewrite Hm.
Qed.

(** The compare register moves on by the interval and a supervisor software
    interrupt is pending. *)
Lemma tick_run h c i :
  h_mode h = Machine ->
  0 <= h_x h a0 -> h_x h a0 + 40 <= 2 ^ 64 -> h_x h a0 mod 8 = 0 ->
  ld64 (h_mem h) (h_x h a0 + 24) = c -> ld64 (h_mem h) (h_x h a0 + 32) = i ->
  0 <= c < 2 ^ 64 -> c mod 8 = 0 ->
  exists x, run tick h =
      Some (csr_write sip 2 (set_h_x x (set_h_mem (st64 (h_mem h) c (u64 (ld64 (h_mem h) c + i))) h))) /\
    forall r, r ∉ [a1; a2; a3] -> x r = h_x h r.
Proof.
  intros Hm H0 Hl Ha Hc Hi Hcr Hca. unfold tick.
  cbn [run exec]. rewrite address_machine by (done || lia || zdm). cbn [fmap option_fmap option_map].
  cbn [run exec]. rewrite address_machine by (cbn; upds; done || lia || zdm). cbn [fmap option_fmap option_map].
  cbn [run exec]. rewrite address_machine by (cbn; upds; rewrite ?Hc, ?Z.add_0_r; done || lia).
  cbn [fmap option_fmap option_map].
  cbn [run exec]. rewrite address_machine by (cbn; upds; rewrite ?Hc, ?Z.add_0_r; done || lia).
  cbn [fmap option_fmap option_map h_x h_mem set_x set_h_x]. upds. rewrite Hc, Hi, Z.add_0_r.
  eexists. split; [reflexivity|].
  intros r Hr. cbn. rewrite !written_ne; [done|..]; intros <-; apply Hr; set_solver.
Qed.

(** mret returns to the mode that trap_m came from, with interrupts as they
    were. *)
Lemma trap_mret_status h h1 :
  h_csr h1 mstatus = h_csr (trap_m h) mstatus ->
  h_mode (mret h1) = h_mode h /\
  forall n, n ∈ [1; 3; 5; 8] -> bit (h_csr (mret h1) mstatus) n = bit (h_csr h mstatus) n.
Proof.
  intros E. cbn in E. revert E. upds. intros E. split.
  - cbn. rewrite E, (field_blend 11 3) by lia. apply mode_of_bits.
  - intros n Hn. cbn. upds.
    assert (Z.testbit (Z.shiftl 3 11) n = false /\ 0 <= n /\ n <> 7) as (Hb & Hn0 & Hn7).
    { repeat (apply elem_of_cons in Hn as [->|Hn]; [done|]). by apply not_elem_of_nil in Hn. }
    rewrite bit_blend_out, bit_put_bit_ne by (done || lia).
    destruct (decide (n = 3)) as [->|]; rewrite ?bit_copy, ?bit_put_bit_ne, E by lia;
      rewrite bit_blend_out, ?bit_put_bit_ne by (done || lia); [|done].
    by apply bit_copy.
Qed.

(** The interrupted code's registers are in the scratch area and the compare
    register is not. *)
Lemma unscratch h x m S c v :
  regs_ok h -> m = st64 (store_all (h_mem h) (h_x h) S scratch_layout) c v -> apart S 40 c 8 ->
  (forall r, r ∉ [a0; a1; a2; a3] -> x r = h_x h r) ->
  forall r, r <> a0 -> load_all x m S (rev scratch_layout) r = h_x h r.
Proof.
  intros Hr -> Hap Hx r Ha. destruct scratch_fits as [F1 F2], scratch_nodup as [N1 N2].
  destruct (decide (r ∈ [a1; a2; a3])) as [Hi|Hn].
  - assert (exists o, (r, o) ∈ scratch_layout) as [o Ho].
    { apply elem_of_cons in Hi as [->|Hi]; [exists 0; by_decide|].
      apply elem_of_cons in Hi as [->|Hi]; [exists 8; by_decide|].
      apply list_elem_of_singleton in Hi as ->. exists 16. by_decide. }
    rewrite (load_all_ld _ _ _ _ o); [|done|by apply list_elem_of_In, in_rev; rewrite rev_involutive; apply list_elem_of_In].
    pose proof (fits_elem _ _ _ _ F1 Ho). rewrite ld64_st64_ne by (unfold apart in *; lia).
    by eapply (store_all_ld _ _ 40); [..|apply Hr].
  - rewrite !not_elem_of_cons in Hn. rewrite load_all_other by (cbn; rewrite !not_elem_of_cons; tauto).
    apply Hx. rewrite !not_elem_of_cons. tauto.
Qed.

(** The timer interrupt's handler from its first instruction to the last but
    mret. *)
Lemma timervec_body h S c i :
  regs_ok h -> h_mode h = Machine -> h_csr h mscratch = S ->
  0 <= S -> S + 40 <= 2 ^ 64 -> S mod 8 = 0 ->
  ld64 (h_mem h) (S + 24) = c -> ld64 (h_mem h) (S + 32) = i ->
  0 <= c < 2 ^ 64 -> c mod 8 = 0 -> apart S 40 c 8 ->
  exists h1, run timervec h = Some (mret h1) /\
    (forall r, h_x h1 r = h_x h r) /\
    (forall r, r <> mip -> h_csr h1 r = h_csr h r) /\
    h_csr h1 mip = blend (Z.land (h_csr h mideleg) 2) (h_csr h mip) 2 /\
    h_mem h1 = st64 (store_all (h_mem h) (h_x h) S scratch_layout) c (u64 (ld64 (h_mem h) c + i)).
Proof.
  intros Hr Hm HS H0 Hl Ha Hc Hi Hcr Hca Hap. destruct scratch_fits as [F1 F2].
  set (hb := set_x a0 S (csr_write mscratch (h_x h a0) h)).
  set (m := store_all (h_mem h) (h_x h) S scratch_layout).
  assert (forall a, a + 8 <= S \/ S + 24 <= a -> ld64 m a = ld64 (h_mem h) a) as Hk.
  { intros a Hb. eapply same_but_ld64; [by apply (store_all_same _ S 24)|done]. }
  destruct (tick_run (set_h_mem m hb) c i) as (x & Et & Hx); try (done || by cbn; upds).
  { cbn. upds. by rewrite Hk by lia. } { cbn. upds. by rewrite Hk by lia. }
  cbn [h_mem set_h_mem] in Et. rewrite (Hk c) in Et by (unfold apart in Hap; lia).
  set (m' := st64 m c _) in Et. set (y := load_all x m' S (rev scratch_layout)).
  set (hd := csr_write sip 2 (set_h_x y (set_h_mem m' hb))).
  assert (x a0 = S) as Ea0. { rewrite Hx by by_decide. cbn. by upds. }
  assert (y a0 = S) as Ey. { unfold y. rewrite load_all_other by by_decide. done. }
  exists (set_x a0 (h_x h a0) (csr_write mscratch S hd)).
  split; [|split; [|split; [|split]]].
  - rewrite timervec_code. cbn [run exec csr_read]. rewrite HS. fold hb.
    rewrite run_app, (run_saves _ _ S 40); [| |done].
    2:{ cbn. upds. apply window_bare; [by left|done..]. }
    change (store_all _ _ S _) with m. rewrite run_app. change (run tick _) with (run tick (set_h_mem m hb)).
    rewrite Et, run_app, (run_loads _ _ S 40); [| |done|intros o Ho; exfalso; revert Ho; clear; set_solver].
    2:{ cbn. rewrite Ea0. apply window_bare; [by left|done..]. }
    cbn [run exec]. change (set_h_x _ (csr_write _ _ _)) with hd.
    change (h_x hd a0) with (y a0). rewrite Ey. reflexivity.
  - intros r. cbn. unfold upd. case_decide; [by subst|]. apply (unscratch h x _ _ c (u64 (ld64 (h_mem h) c + i))); [done..| |done].
    intros r' Hr'. rewrite !not_elem_of_cons in Hr'. rewrite Hx by (rewrite !not_elem_of_cons; tauto).
    cbn. apply written_ne. intros <-. tauto.
  - intros r Hne. cbn. destruct (decide (r = mscratch)) as [->|]; upds; [done|].
    by rewrite !written_ne by done.
  - cbn. by upds.
  - reflexivity.
Qed.

Lemma bit_mip d x n : bit d 1 = 1 -> 0 <= n ->
  bit (blend (Z.land d 2) x 2) n = if n =? 1 then 1 else bit x n.
Proof.
  intros Hd Hn. rewrite !bit_b2z in * by lia. rewrite testbit_blend, Z.land_spec by done.
  rewrite !(testbit_one 1) by lia. destruct (n =? 1) eqn:E; [|by rewrite andb_false_r].
  apply Z.eqb_eq in E as ->. by destruct (Z.testbit d 1).
Qed.

(** C20: A machine-mode timer interrupt, taken anywhere and in any mode, is
    invisible to what it interrupts: all registers, the pc, the mode and the
    interrupt-enable bits are as they were. Its effects are the compare register
    moved on by the interval that start.c chose, and a pending supervisor
    software interrupt. *)
Theorem timervec_transparent h S c i :
  regs_ok h -> h_csr h mscratch = S ->
  0 <= S -> S + 40 <= 2 ^ 64 -> S mod 8 = 0 ->
  ld64 (h_mem h) (S + 24) = c -> ld64 (h_mem h) (S + 32) = i ->
  0 <= c < 2 ^ 64 -> c mod 8 = 0 -> apart S 40 c 8 ->
  bit (h_csr h mideleg) 1 = 1 ->
  exists h', run timervec (trap_m h) = Some h' /\
    h_pc h' = h_pc h /\ h_mode h' = h_mode h /\ (forall r, h_x h' r = h_x h r) /\
    (forall n, n ∈ [1; 3; 5; 8] -> bit (h_csr h' mstatus) n = bit (h_csr h mstatus) n) /\
    (forall r, r ∉ [mip; mepc; mstatus] -> h_csr h' r = h_csr h r) /\
    (forall n, 0 <= n -> bit (h_csr h' mip) n = if n =? 1 then 1 else bit (h_csr h mip) n) /\
    ld64 (h_mem h') c = u64 (ld64 (h_mem h) c + i) /\
    (forall x, x < S \/ S + 24 <= x -> x < c \/ c + 8 <= x -> ld8 (h_mem h') x = ld8 (h_mem h) x).
Proof.
  intros Hr HS H0 Hl Ha Hc Hi Hcr Hca Hap Hd.
  destruct (timervec_body (trap_m h) S c i) as (h1 & E & Ex & Ec & Ep & Em);
    try (done || by cbn; upds).
  destruct (trap_mret_status h h1) as [Q1 Q2]; [by apply Ec|].
  exists (mret h1). split; [done|]. split; [|split; [done|split; [done|split; [done|split; [|split; [|split]]]]]].
  - cbn. rewrite Ec by done. cbn. by upds.
  - intros r Hn. rewrite !not_elem_of_cons in Hn. cbn. rewrite written_ne by intuition congruence. rewrite Ec by tauto.
    cbn. by rewrite !written_ne by intuition congruence.
  - intros n Hn. cbn. upds. rewrite Ep. cbn. upds. by apply bit_mip.
  - cbn. rewrite Em. apply ld64_st64_eq. apply u64_range.
  - intros x Hx Hxc. cbn. rewrite Em, st64_out by done. by apply (store_all_same _ S 24).
Qed.

End switch.

(** * Concrete runs *)

#[local] Instance all_delegated : Delegation := {| can_mideleg := 0x222; can_medeleg := 0xffff |}.

(** Supervisor mode without paging, a timer scratch area at 512. *)
Definition example_hart : hart :=
  mk_hart (fun r => if decide (r = a0) then 4096 else if decide (r = a1) then 8192 else
             if decide (r = sp) then 65536 else 7)
    (fun c => if decide (c = mscratch) then 512 else if decide (c = mideleg) then 0x222 else 0)
    Supervisor 0x80000000 (st64 (st64 ∅ (512 + 24) 0x2004000) (512 + 32) 1000000).

Lemma example_regs : regs_ok example_hart.
Proof. intros r. cbn. repeat case_decide; lia. Qed.

Lemma swtch_resumes_witness : exists h1, run swtch example_hart = Some h1 /\
  exists h3, run swtch (set_x a0 8192 (set_x a1 4096 h1)) = Some h3 /\ h_pc h3 = 7 /\ h_x h3 sp = 65536.
Proof.
  assert (forall m va, va = 4096 \/ va = 8192 -> window m Supervisor 0 va va 112) as W.
  { intros m va [->| ->]; (apply window_bare; [by right|lia|lia|done]). }
  destruct (swtch_resumes example_hart 4096 8192) as (h1 & E & _ & Em & Ec & _ & _ & R).
  { apply example_regs. } { apply W. by left. } { intros m _. apply W. by right. } { left. lia. }
  exists h1. split; [exact E|].
  destruct (R (set_x a0 8192 (set_x a1 4096 h1)) 8192) as (h3 & E3 & P3 & R3).
  { reflexivity. } { cbn. rewrite Em, Ec. apply W. by right. }
  { intros m _. cbn. rewrite Em, Ec. apply W. by left. } { right. lia. }
  exists h3. split; [exact E3|]. split; [exact P3|]. apply R3. left.
Defined.

(** A kerneltrap() that only clobbers caller-saved registers. *)
Definition quiet_trap (h : hart) : option hart := Some (set_x a0 0 (set_x t0 1 (set_x tp 3 h))).

Lemma kernelvec_transparent_witness : exists h',
  run (kernelvec quiet_trap 0x80000100) (trap_s 1 example_hart) = Some h' /\
  h_pc h' = 0x80000000 /\ h_x h' a0 = 4096 /\ h_x h' sp = 65536.
Proof.
  assert (forall m, window m Supervisor 0 (65536 - 256) (65536 - 256) 256) as W.
  { intros m. apply window_bare; [by right|lia|lia|done]. }
  destruct (kernelvec_transparent quiet_trap 0x80000100 1 example_hart (65536 - 256))
    as (h0 & h1 & h' & _ & E & P & _ & _ & _ & R).
  { apply example_regs. } { done. } { by cbn. } { apply W. }
  { intros h0 Hsp Hm Hst _. eexists. split; [reflexivity|]. cbn. upds. repeat (split; [done|]).
    split; [|done]. rewrite Hm, Hst, Hsp. apply W. }
  exists h'. split; [exact E|]. split; [exact P|]. split; by rewrite R.
Defined.

Lemma timervec_transparent_witness : exists h',
  run timervec (trap_m example_hart) = Some h' /\ h_pc h' = 0x80000000 /\ bit (h_csr h' mip) 1 = 1 /\
  ld64 (h_mem h') 0x2004000 = 1000000.
Proof.
  destruct (timervec_transparent example_hart 512 0x2004000 1000000)
    as (h' & E & P & _ & _ & _ & _ & B & L & _);
    [apply example_regs|reflexivity|lia|lia|reflexivity|vm_compute; reflexivity|vm_compute; reflexivity
    |lia|reflexivity|unfold apart; lia|reflexivity|].
  exists h'. split; [exact E|]. split; [exact P|]. split; [by apply (B 1)|].
  rewrite L. vm_compute. reflexivity.
Defined.
