(* ===== verification/Trampoline.v ===== *)
(** kernel/trampoline.S: the way from user space into usertrap() and back, and
    its composition with usertrapret() of Trap.v. *)
From S2P Require Import Prelude CInt KState KString Riscv Kalloc Vm VmSpec VmMap Proc Trap Asm.

(** * The code *)

(** The registers in struct trapframe. *)
Definition trapframe_layout : list (reg * Z) := layout all_regs 40.

Definition uservec : list instr := [
    (* save user a0 in sscratch so a0 can be used to get at TRAPFRAME. *)
    Csrw sscratch a0;
    Li a0 TRAPFRAME;
    (* save the user registers in TRAPFRAME *)
    Sd ra 40 a0; Sd sp 48 a0; Sd gp 56 a0; Sd tp 64 a0;
    Sd t0 72 a0; Sd t1 80 a0; Sd t2 88 a0; Sd s0 96 a0; Sd s1 104 a0; Sd a1 120 a0; Sd a2 128 a0;
    Sd a3 136 a0; Sd a4 144 a0; Sd a5 152 a0; Sd a6 160 a0; Sd a7 168 a0; Sd s2 176 a0;
    Sd s3 184 a0; Sd s4 192 a0; Sd s5 200 a0; Sd s6 208 a0; Sd s7 216 a0; Sd s8 224 a0;
    Sd s9 232 a0; Sd s10 240 a0; Sd s11 248 a0; Sd t3 256 a0; Sd t4 264 a0; Sd t5 272 a0;
    Sd t6 280 a0;
    (* save the user a0 in p->trapframe->a0 *)
    Csrr t0 sscratch;
    Sd t0 112 a0;
    (* initialize kernel stack pointer, from p->trapframe->kernel_sp *)
    Ld sp 8 a0;
    (* make tp hold the current hartid, from p->trapframe->kernel_hartid *)
    Ld tp 32 a0;
    (* load the address of usertrap(), from p->trapframe->kernel_trap *)
    Ld t0 16 a0;
    (* fetch the kernel page table address, from p->trapframe->kernel_satp. *)
    Ld t1 0 a0;
    Sfence_vma;
    (* install the kernel page table. *)
    Csrw satp t1;
    Sfence_vma;
    (* jump to usertrap(), which does not return *)
    Jr t0 ].

Definition userret : list instr := [
    (* switch to the user page table. *)
    Sfence_vma;
    Csrw satp a0;
    Sfence_vma;
    Li a0 TRAPFRAME;
    (* restore all but a0 from TRAPFRAME *)
    Ld ra 40 a0;
    Ld sp 48 a0; Ld gp 56 a0; Ld tp 64 a0; Ld t0 72 a0; Ld t1 80 a0; Ld t2 88 a0; Ld s0 96 a0;
    Ld s1 104 a0; Ld a1 120 a0; Ld a2 128 a0; Ld a3 136 a0; Ld a4 144 a0; Ld a5 152 a0;
    Ld a6 160 a0; Ld a7 168 a0; Ld s2 176 a0; Ld s3 184 a0; Ld s4 192 a0; Ld s5 200 a0;
    Ld s6 208 a0; Ld s7 216 a0; Ld s8 224 a0; Ld s9 232 a0; Ld s10 240 a0; Ld s11 248 a0;
    Ld t3 256 a0; Ld t4 264 a0; Ld t5 272 a0; Ld t6 280 a0;
    (* restore user a0 *)
    Ld a0 112 a0;
    (* return to user mode and user pc. *)
    Sret ].

(** * The trapframe's mapping *)

(** The page table [pt] maps TRAPFRAME to the page [tf] the way
    proc_pagetable() does, and the entries it does so with are elsewhere. *)
Definition maps_trapframe (m : mem) (pt tf : Z) : Prop :=
  let e2 := pt + 8 * PX 2 TRAPFRAME in
  let e1 := PTE2PA (ld64 m e2) + 8 * PX 1 TRAPFRAME in
  let e0 := PTE2PA (ld64 m e1) + 8 * PX 0 TRAPFRAME in
  pte_valid (ld64 m e2) = true /\ pte_valid (ld64 m e1) = true /\
  ld64 m e0 = user_pte (Z.lor PTE_R PTE_W) tf /\
  apart e2 8 tf PGSIZE /\ apart e1 8 tf PGSIZE /\ apart e0 8 tf PGSIZE.

Lemma maps_same m m' pt tf : maps_trapframe m pt tf -> same_but tf PGSIZE m m' -> maps_trapframe m' pt tf.
Proof.
  intros (V2 & V1 & V0 & A2 & A1 & A0) S. unfold maps_trapframe. cbv zeta.
  rewrite (same_but_ld64 tf PGSIZE m m' (pt + _)) by done.
  rewrite (same_but_ld64 tf PGSIZE m m' (PTE2PA (ld64 m (pt + 8 * PX 2 TRAPFRAME)) + _)) by done.
  by rewrite (same_but_ld64 tf PGSIZE m m' (PTE2PA (ld64 m (PTE2PA (ld64 m _) + _)) + _)) by done.
Qed.

Lemma satp_root pt : 0 <= pt < 2 ^ 56 -> pt mod PGSIZE = 0 ->
  Z.shiftr (MAKE_SATP pt) 60 = 8 /\ Z.shiftl (Z.land (MAKE_SATP pt) (Z.ones 44)) 12 = pt.
Proof.
  intros Hr Ha. unfold MAKE_SATP, SATP_SV39, PGSIZE in *.
  assert (0 <= Z.shiftr pt 12 < 2 ^ 44) as Hp. { rewrite Z.shiftr_div_pow2 by lia. zdm. }
  replace (Z.lor (Z.shiftl 8 60) (Z.shiftr pt 12)) with (2 ^ 19 * 2 ^ 44 + Z.shiftr pt 12)
    by (rewrite <- lor_low_add by lia; reflexivity).
  rewrite Z.land_ones, (Z.shiftr_div_pow2 _ 60), Z.shiftl_mul_pow2 by lia.
  rewrite (Z.add_comm (2 ^ 19 * 2 ^ 44)), Z.mod_add, Z.mod_small by lia.
  split; [zdm|]. rewrite Z.shiftr_div_pow2 by lia. zdm.
Qed.

Lemma trapframe_pte tf : 0 <= tf < 2 ^ 56 -> tf mod PGSIZE = 0 ->
  let v := user_pte (Z.lor PTE_R PTE_W) tf in
  PTE2PA v = tf /\ forall x, Z.land 0x3ff x = x -> Z.land v x = Z.land 7 x.
Proof.
  intros Hr Ha. cbv zeta. unfold user_pte. rewrite <- Z.lor_assoc.
  change (Z.lor (Z.lor PTE_R PTE_W) PTE_V) with 7. split; [by apply PTE2PA_PA2PTE|].
  intros x Hx. rewrite <- Hx at 1. rewrite Z.land_assoc. f_equal. by apply PTE_FLAGS_PA2PTE.
Qed.

Lemma window_trapframe m pt tf :
  0 <= pt < 2 ^ 56 -> pt mod PGSIZE = 0 -> 0 <= tf < 2 ^ 56 -> tf mod PGSIZE = 0 ->
  maps_trapframe m pt tf -> window m Supervisor (MAKE_SATP pt) TRAPFRAME tf PGSIZE.
Proof.
  intros Hpt Hpa Htf Hta Hm. split; [by vm_compute|done|]. intros m' acc off Hs H0 Hl.
  destruct (maps_same m m' pt tf Hm Hs) as (V2 & V1 & V0 & _).
  destruct (satp_root pt) as [E60 Ept]; [done..|]. unfold translate. rewrite E60, Ept. cbn [Z.eqb].
  assert ((TRAPFRAME + off) / PGSIZE = TRAPFRAME / PGSIZE) as Hpg.
  { change TRAPFRAME with (0x3fffffe * PGSIZE) in *. unfold PGSIZE in *. zdm. }
  assert ((TRAPFRAME + off) mod PGSIZE = off) as Hmod.
  { change TRAPFRAME with (0x3fffffe * PGSIZE) in *. unfold PGSIZE in *. zdm. }
  apply PX_page in Hpg as (P0 & P1 & P2). destruct (trapframe_pte tf) as [Ep Ef]; [done..|].
  unfold sv39, leaf_addr. cbv zeta. rewrite P0, P1, P2, V2, V1, V0, Hmod, Ep.
  unfold pte_valid. rewrite !Ef by (by destruct acc). 
  rewrite (proj2 (Z.leb_gt _ _)) by (change TRAPFRAME with (0x3fffffe * 4096); unfold PGSIZE in *; lia). by destruct acc.
Qed.

(** * Into the kernel and out of it *)

Section trampoline.
Context {D : Delegation}.

Definition saved_layout : list (reg * Z) := filter (fun ro => ro.1 <> a0) trapframe_layout.

Lemma uservec_code : uservec =
  [Csrw sscratch a0; Li a0 TRAPFRAME] ++ saves saved_layout a0 ++ Csrr t0 sscratch ::
  saves [(t0, 112)] a0 ++ loads [(sp, 8); (tp, 32); (t0, 16); (t1, 0)] a0 ++
  [Sfence_vma; Csrw satp t1; Sfence_vma; Jr t0].
Proof. reflexivity. Qed.

Lemma userret_code : userret =
  [Sfence_vma; Csrw satp a0; Sfence_vma; Li a0 TRAPFRAME] ++ loads saved_layout a0 ++
  [Ld a0 112 a0; Sret].
Proof. reflexivity. Qed.

Lemma saved_fits : fits PGSIZE saved_layout = true /\ fits PGSIZE [(t0, 112)] = true.
Proof. done. Qed.

Lemma saved_nodup : NoDup saved_layout.*1 /\ NoDup saved_layout.*2.
Proof. split; by_decide. Qed.

(** Every register but a0 has a slot of its own, a0's is at 112. *)
Lemma trapframe_slot r o : (r, o) ∈ trapframe_layout ->
  (r = a0 /\ o = 112) \/ (r <> a0 /\ (r, o) ∈ saved_layout).
Proof.
  intros H. destruct (decide (r = a0)) as [->|Hn]; [left|right].
  - split; [done|]. revert H. unfold trapframe_layout. vm_compute. intros H.
    repeat (apply elem_of_cons in H as [H|H]; [by simplify_eq|]). by apply not_elem_of_nil in H.
  - split; [done|]. by apply list_elem_of_filter.
Qed.

(** The trapframe after uservec's stores. *)
Lemma saved_regs m x y tf v :
  let m' := st64 (store_all m y tf saved_layout) (tf + 112) v in
  (forall r, 0 <= x r < 2 ^ 64) -> (forall r, r <> a0 -> y r = x r) -> v = x a0 ->
  same_but tf PGSIZE m m' /\
  (forall o, o ∈ [tf_kernel_satp; tf_kernel_sp; tf_kernel_trap; tf_epc; tf_kernel_hartid] ->
     ld64 m' (tf + o) = ld64 m (tf + o)) /\
  (forall r o, (r, o) ∈ trapframe_layout -> ld64 m' (tf + o) = x r).
Proof.
  cbv zeta. intros Hx Hy ->. destruct saved_fits as [F1 F2], saved_nodup as [N1 N2].
  split; [|split].
  - eapply same_but_trans; [by apply (store_all_same y tf PGSIZE saved_layout)|]. apply same_but_st64; unfold PGSIZE; lia.
  - intros o Ho.
    assert (o mod 8 = 0 /\ o + 8 <= 112 /\ o ∉ saved_layout.*2) as (Hm & Hb & Hn).
    { repeat (apply elem_of_cons in Ho as [->|Ho]; [split; [done|split; [by vm_compute|by_decide]]|]).
      by apply not_elem_of_nil in Ho. }
    rewrite ld64_st64_ne by (unfold apart; lia). by eapply store_all_other.
  - intros r o Ho. apply trapframe_slot in Ho as [[-> ->]|[Hr Ho]]; [by apply ld64_st64_eq|].
    assert (o + 8 <= 112 \/ 112 + 8 <= o) as Hb.
    { assert (o ∈ saved_layout.*2) as Hi by (apply list_elem_of_fmap; by exists (r, o)).
      revert Hi. clear. vm_compute. intros H.
      repeat (apply elem_of_cons in H as [->|H]; [(left; done) || (right; done)|]). by apply not_elem_of_nil in H. }
    rewrite ld64_st64_ne by (unfold apart; lia). rewrite <- Hy by done.
    eapply store_all_ld; [done..|]. rewrite Hy by done. apply Hx.
Qed.

Lemma uservec_run h tf :
  regs_ok h -> window (h_mem h) (h_mode h) (h_csr h satp) TRAPFRAME tf PGSIZE ->
  exists h', run uservec h = Some h' /\
    h_pc h' = ld64 (h_mem h) (tf + tf_kernel_trap) /\ h_mode h' = h_mode h /\
    h_x h' sp = ld64 (h_mem h) (tf + tf_kernel_sp) /\
    h_x h' tp = ld64 (h_mem h) (tf + tf_kernel_hartid) /\
    h_csr h' satp = ld64 (h_mem h) (tf + tf_kernel_satp) /\
    (forall c, c <> satp -> c <> sscratch -> h_csr h' c = h_csr h c) /\
    same_but tf PGSIZE (h_mem h) (h_mem h') /\
    forall r o, (r, o) ∈ trapframe_layout -> ld64 (h_mem h') (tf + o) = h_x h r.
Proof.
  intros Hr W. destruct saved_fits as [F1 F2].
  set (h1 := set_x a0 TRAPFRAME (csr_write sscratch (h_x h a0) h)).
  set (m1 := store_all (h_mem h) (h_x h1) tf saved_layout).
  set (h2 := set_x t0 (h_x h a0) (set_h_mem m1 h1)).
  set (m2 := st64 m1 (tf + 112) (h_x h a0)).
  destruct (saved_regs (h_mem h) (h_x h) (h_x h1) tf (h_x h a0)) as (S2 & K2 & R2); [done| |done|].
  { intros r Hn. cbn. by rewrite written_ne by done. }
  set (tbl := [(sp, 8); (tp, 32); (t0, 16); (t1, 0)]). set (x3 := load_all (h_x h2) m2 tf tbl).
  assert (forall r o, (r, o) ∈ tbl -> o ∈ [tf_kernel_satp; tf_kernel_sp; tf_kernel_trap; tf_epc; tf_kernel_hartid] ->
    x3 r = ld64 (h_mem h) (tf + o)) as L.
  { intros r o Ho Hi. unfold x3. rewrite (load_all_ld _ _ _ _ o) by (by_decide || done). by apply K2. }
  exists (set_h_pc (x3 t0) (csr_write satp (x3 t1) (set_h_x x3 (set_h_mem m2 h2)))).
  split.
  { rewrite uservec_code. cbn [app run exec]. fold h1.
    rewrite run_app, (run_saves _ _ tf PGSIZE); [|by cbn; upds|done]. cbn [run exec].
    change (csr_read _ sscratch) with (h_x h a0). change (set_x t0 _ _) with h2.
    assert (window (h_mem h2) (h_mode h2) (h_csr h2 satp) (h_x h2 a0) tf PGSIZE) as W2.
    { cbn. upds. eapply window_same; [exact W|]. by apply store_all_same. }
    rewrite run_app, (run_saves _ _ tf PGSIZE) by done.
    change (store_all (h_mem h2) (h_x h2) tf [(t0, 112)]) with m2.
    rewrite run_app, (run_loads _ _ tf PGSIZE); [reflexivity| |done|].
    - eapply window_same; [exact W2|]. apply same_but_st64; unfold PGSIZE; lia.
    - intros o Ho. exfalso. revert Ho. clear. set_solver. }
  split; [by apply L; by_decide|]. split; [done|]. split; [by apply L; by_decide|].
  split; [by apply L; by_decide|]. split; [cbn; upds; by apply L; by_decide|].
  split; [|by split]. intros c H1 H2. cbn. by rewrite !written_ne by congruence.
Qed.

Lemma userret_run h tf :
  window (h_mem h) (h_mode h) (h_x h a0) TRAPFRAME tf PGSIZE ->
  exists h1, run userret h = Some (sret h1) /\
    h_mem h1 = h_mem h /\ h_mode h1 = h_mode h /\
    (forall c, h_csr h1 c = if decide (c = satp) then h_x h a0 else h_csr h c) /\
    forall r o, (r, o) ∈ trapframe_layout -> h_x h1 r = ld64 (h_mem h) (tf + o).
Proof.
  intros W. destruct saved_fits as [F1 F2], saved_nodup as [N1 N2].
  set (h1 := set_x a0 TRAPFRAME (csr_write satp (h_x h a0) h)).
  set (x := load_all (h_x h1) (h_mem h) tf saved_layout).
  assert (window (h_mem h1) (h_mode h1) (h_csr h1 satp) (h_x h1 a0) tf PGSIZE) as W1 by (cbn; by upds).
  assert (h_x h1 a0 = TRAPFRAME) as E1 by apply written_eq.
  assert (x a0 = TRAPFRAME) as E0 by (unfold x; by rewrite load_all_other by by_decide).
  exists (set_x a0 (ld64 (h_mem h) (tf + 112)) (set_h_x x h1)).
  split; [|split; [done|split; [done|split]]].
  - rewrite userret_code. cbn [app run exec]. fold h1.
    rewrite run_app, (run_loads _ _ tf PGSIZE); [|done|done|].
    2:{ intros o Ho. apply list_elem_of_filter in Ho as [Ho _]. done. }
    cbn [run exec]. rewrite (address_window _ _ tf PGSIZE); [reflexivity| |lia|unfold PGSIZE; lia|done].
    change (window (h_mem h1) (h_mode h1) (h_csr h1 satp) (x a0) tf PGSIZE). by rewrite E0, <- E1.
  - intros c. cbn. unfold upd. repeat case_decide; by subst.
  - intros r o Ho. cbn. apply trapframe_slot in Ho as [[-> ->]|[Hr Ho]]; [by upds|].
    rewrite written_ne by congruence. by apply load_all_ld.
Qed.

(** * The cycle of usertrapret(), user code and the next trap *)

Context {P : Platform}.

(** [h] is the hart that the kernel state [k] belongs to. *)
Record on_hart (k : K) (h : hart) : Prop := {
  oh_mem : h_mem h = k_mem k;
  oh_mode : h_mode h = Supervisor;
  oh_sepc : h_csr h sepc = c_sepc (k_csr k);
  oh_stvec : h_csr h stvec = c_stvec (k_csr k);
  oh_sstatus n : n ∈ [1; 5; 8] -> bit (h_csr h mstatus) n = bit (c_sstatus (k_csr k)) n;
}.

(** What usertrapret() writes into the trapframe. *)
Definition primed (k : K) (pr : proc) : mem :=
  let tf := p_trapframe pr in
  st64 (st64 (st64 (st64 (k_mem k) (tf + tf_kernel_satp) (c_satp (k_csr k)))
    (tf + tf_kernel_sp) (u64 (p_kstack pr + PGSIZE)))
    (tf + tf_kernel_trap) sym_usertrap) (tf + tf_kernel_hartid) (c_tp (k_csr k)).

Lemma primed_same k pr : same_but (p_trapframe pr) PGSIZE (k_mem k) (primed k pr).
Proof.
  unfold primed, PGSIZE. cbv zeta. repeat (eapply same_but_trans; [|apply same_but_st64; by vm_compute]). done.
Qed.

(** The fields that usertrapret() does not write, the saved registers among
    them. *)
Lemma primed_other k pr o : tf_kernel_hartid + 8 <= o \/ o = tf_epc ->
  ld64 (primed k pr) (p_trapframe pr + o) = ld64 (k_mem k) (p_trapframe pr + o).
Proof.
  unfold primed, tf_epc, tf_kernel_hartid, tf_kernel_satp, tf_kernel_sp, tf_kernel_trap. intros Ho.
  by rewrite !ld64_st64_ne by (unfold apart; lia).
Qed.

Lemma usertrapret_run k p pr :
  k_proc k = Some p -> k_procs k !!! p = pr ->
  exists k', usertrapret k = Ok (TRAMPOLINE + (sym_userret - sym_trampoline), MAKE_SATP (p_pagetable pr)) k' /\
    k_mem k' = primed k pr /\
    c_sepc (k_csr k') = ld64 (k_mem k) (p_trapframe pr + tf_epc) /\
    c_stvec (k_csr k') = TRAMPOLINE + (sym_uservec - sym_trampoline) /\
    bit (c_sstatus (k_csr k')) 8 = 0 /\ bit (c_sstatus (k_csr k')) 5 = 1.
Proof.
  intros Hp <-. unfold usertrapret, mypr, myproc, intr_off, upd_csr, get_csr, tf_set, tf_get, get_proc.
  eexists. split; [|split; [|split; [|split]]].
  - ksteps. rewrite Hp. ksteps. reflexivity.
  - reflexivity.
  - cbn. apply (primed_other k (k_procs k !!! p)). by right.
  - reflexivity.
  - cbn. rewrite !bit_b2z, !Z.lor_spec, !Z.land_spec by lia.
    split; rewrite ?andb_false_r, ?orb_true_r; done.
Qed.

(** Process [p] is current, and its page table and trapframe are as
    proc_pagetable() makes them. *)
Record user_ready (k : K) (p : nat) (pr : proc) : Prop := {
  ur_cur : k_proc k = Some p;
  ur_proc : k_procs k !!! p = pr;
  ur_pt : 0 <= p_pagetable pr < 2 ^ 56 /\ p_pagetable pr mod PGSIZE = 0;
  ur_tf : 0 <= p_trapframe pr < 2 ^ 56 /\ p_trapframe pr mod PGSIZE = 0;
  ur_map : maps_trapframe (k_mem k) (p_pagetable pr) (p_trapframe pr);
  ur_words : 0 <= c_satp (k_csr k) < 2 ^ 64 /\ 0 <= sym_usertrap < 2 ^ 64 /\ 0 <= c_tp (k_csr k) < 2 ^ 64;
}.

Lemma primed_fields k p pr : user_ready k p pr ->
  ld64 (primed k pr) (p_trapframe pr + tf_kernel_satp) = c_satp (k_csr k) /\
  ld64 (primed k pr) (p_trapframe pr + tf_kernel_sp) = u64 (p_kstack pr + PGSIZE) /\
  ld64 (primed k pr) (p_trapframe pr + tf_kernel_trap) = sym_usertrap /\
  ld64 (primed k pr) (p_trapframe pr + tf_kernel_hartid) = c_tp (k_csr k).
Proof.
  intros [_ _ _ _ _ (H1 & H2 & H3)].
  unfold primed, tf_kernel_hartid, tf_kernel_satp, tf_kernel_sp, tf_kernel_trap. cbv zeta. split_and!;
    repeat first [rewrite ld64_st64_eq by first [done|apply u64_range]|rewrite ld64_st64_ne by (unfold apart; lia)]; done.
Qed.

Lemma trapframe_offset r o : (r, o) ∈ trapframe_layout -> tf_kernel_hartid + 8 <= o.
Proof.
  unfold trapframe_layout. vm_compute. intros H.
  repeat (apply elem_of_cons in H as [[= -> ->]|H]; [discriminate|]). by apply not_elem_of_nil in H.
Qed.

(** C4: usertrapret() followed by userret enters user mode at the saved pc with
    every register as the trapframe has it. Whatever the user code then does to
    its registers, the next trap arrives in uservec, which keeps all of them in
    the trapframe and reaches usertrap() in supervisor mode on the process's
    kernel stack, with the kernel's page table and the hart id in tp. *)
Theorem user_trap_cycle k p pr :
  user_ready k p pr ->
  let tf := p_trapframe pr in
  let satp_u := MAKE_SATP (p_pagetable pr) in
  exists k', usertrapret k = Ok (TRAMPOLINE + (sym_userret - sym_trampoline), satp_u) k' /\
    same_but tf PGSIZE (k_mem k) (k_mem k') /\
    forall h, on_hart k' h -> h_x h a0 = satp_u ->
    exists h1, run userret h = Some h1 /\
      h_mode h1 = User /\ h_pc h1 = ld64 (k_mem k) (tf + tf_epc) /\ h_csr h1 satp = satp_u /\ h_mem h1 = h_mem h /\
      (forall r o, (r, o) ∈ trapframe_layout -> h_x h1 r = ld64 (k_mem k) (tf + o)) /\
      forall h2 cause,
        h_mode h2 = User -> regs_ok h2 ->
        h_csr h2 satp = h_csr h1 satp -> h_csr h2 stvec = h_csr h1 stvec ->
        maps_trapframe (h_mem h2) (p_pagetable pr) tf ->
        (forall x, tf <= x < tf + PGSIZE -> ld8 (h_mem h2) x = ld8 (h_mem h1) x) ->
        h_pc (trap_s cause h2) = TRAMPOLINE + (sym_uservec - sym_trampoline) /\
        exists h3, run uservec (trap_s cause h2) = Some h3 /\
          h_pc h3 = sym_usertrap /\ h_mode h3 = Supervisor /\
          h_csr h3 satp = c_satp (k_csr k) /\ h_csr h3 sepc = h_pc h2 /\ h_csr h3 scause = cause /\
          bit (h_csr h3 mstatus) 8 = 0 /\ bit (h_csr h3 mstatus) 1 = 0 /\
          h_x h3 sp = u64 (p_kstack pr + PGSIZE) /\ h_x h3 tp = c_tp (k_csr k) /\
          forall r o, (r, o) ∈ trapframe_layout -> ld64 (h_mem h3) (tf + o) = h_x h2 r.
Proof.
  intros U. cbv zeta. destruct (primed_fields _ _ _ U) as (F1 & F2 & F3 & F4).
  destruct U as [Hp Hpr [Hpt Hpa] [Htf Hta] Hmap _].
  destruct (usertrapret_run k p pr Hp Hpr) as (k' & E & Em & Eepc & Evec & B8 & B5).
  exists k'. split; [exact E|]. split; [rewrite Em; apply primed_same|]. intros h [Hm Hmd Hsepc Hstvec Hst] Ha0.
  destruct (userret_run h (p_trapframe pr)) as (h1 & E1 & Em1 & Emd1 & Ec1 & Ex1).
  { rewrite Ha0, Hmd, Hm, Em. eapply window_same; [|apply primed_same]. by apply window_trapframe. }
  exists (sret h1). split; [exact E1|]. split; [|split; [|split; [|split; [exact Em1|split]]]].
  - cbn. rewrite Ec1, decide_False by done. rewrite Hst by by_decide. by rewrite B8.
  - cbn. rewrite Ec1, decide_False by done. by rewrite Hsepc.
  - cbn. by rewrite written_ne, Ec1, decide_True by done.
  - intros r o Ho. cbn. rewrite (Ex1 r o Ho), Hm, Em. apply primed_other. left. by eapply trapframe_offset.
  - intros h2 cause Hu Hr2 Hsatp Hvec Hmap2 Hsame.
    assert (h_csr h2 satp = MAKE_SATP (p_pagetable pr)) as Es.
    { rewrite Hsatp. cbn. by rewrite written_ne, Ec1, decide_True by done. }
    split; [cbn; rewrite Hvec; cbn; by rewrite written_ne, Ec1, decide_False, Hstvec, Evec by done|].
    assert (forall o, 0 <= o -> o + 8 <= PGSIZE ->
      ld64 (h_mem h2) (p_trapframe pr + o) = ld64 (primed k pr) (p_trapframe pr + o)) as Hf.
    { intros o H0 Hl. apply ld64_ext. intros x Hx. rewrite Hsame by lia. cbn. by rewrite Em1, Hm, Em. }
    destruct (uservec_run (trap_s cause h2) (p_trapframe pr)) as (h3 & E3 & P3 & M3 & S3 & T3 & A3 & C3 & _ & R3).
    { exact Hr2. }
    { cbn. rewrite !written_ne, Es by done. by apply window_trapframe. }
    exists h3. change (h_mem (trap_s cause h2)) with (h_mem h2) in *.
    rewrite Hf in P3, S3, T3, A3 by by vm_compute.
    split; [exact E3|]. split; [by rewrite P3, F3|]. split; [exact M3|]. split; [by rewrite A3|].
    rewrite !C3 by done. cbn. upds. rewrite Hu. split; [done|]. split; [done|].
    split; [apply (bit_put_bit 8 false); lia|].
    split; [rewrite bit_put_bit_ne by lia; apply (bit_put_bit 1 false); lia|].
    split; [by rewrite S3|]. split; [by rewrite T3|]. exact R3.
Qed.

End trampoline.

(** * A concrete process *)

#[local] Instance some_delegation : Delegation := {| can_mideleg := 0x222; can_medeleg := 0xffff |}.
#[local] Existing Instance eight_pages.

Definition tramp_proc : proc := set_p_kstack (KSTACK 0) (set_p_trapframe (pg 0) (set_p_pagetable (pg 1) (k_procs bss !!! 0%nat))).

(** Page tables in pages 1, 2 and 3, the trapframe in page 0. *)
Definition tramp_mem : mem :=
  st64 (st64 (st64 ∅ (pg 1 + 8 * PX 2 TRAPFRAME) (Z.lor (PA2PTE (pg 2)) PTE_V))
    (pg 2 + 8 * PX 1 TRAPFRAME) (Z.lor (PA2PTE (pg 3)) PTE_V))
    (pg 3 + 8 * PX 0 TRAPFRAME) (user_pte (Z.lor PTE_R PTE_W) (pg 0)).

Definition tramp_K : K :=
  set_k_mem tramp_mem (set_k_proc (Some 0%nat) (set_k_procs (<[0%nat := tramp_proc]> (k_procs bss)) bss)).

Lemma tramp_maps : maps_trapframe tramp_mem (pg 1) (pg 0).
Proof.
  assert (ld64 tramp_mem (pg 1 + 8 * PX 2 TRAPFRAME) = Z.lor (PA2PTE (pg 2)) PTE_V) as E2 by (by vm_compute).
  assert (ld64 tramp_mem (pg 2 + 8 * PX 1 TRAPFRAME) = Z.lor (PA2PTE (pg 3)) PTE_V) as E1 by (by vm_compute).
  assert (ld64 tramp_mem (pg 3 + 8 * PX 0 TRAPFRAME) = user_pte (Z.lor PTE_R PTE_W) (pg 0)) as E0 by (by vm_compute).
  unfold maps_trapframe. cbv zeta. rewrite E2.
  change (PTE2PA (Z.lor (PA2PTE (pg 2)) PTE_V)) with (pg 2). rewrite E1.
  change (PTE2PA (Z.lor (PA2PTE (pg 3)) PTE_V)) with (pg 3). rewrite E0.
  split; [by vm_compute|]. split; [by vm_compute|]. split; [done|]. unfold apart.
  split; [right|split; right]; by vm_compute.
Qed.

Lemma tramp_ready : user_ready tramp_K 0 tramp_proc.
Proof. split; try (by vm_compute). exact tramp_maps. Qed.

(** The hart of [k], about to run userret. *)
Definition hart_of (k : K) (arg : Z) : hart :=
  mk_hart (fun _ => arg)
    (fun c => match c with
              | mstatus => c_sstatus (k_csr k)
              | sepc => c_sepc (k_csr k)
              | stvec => c_stvec (k_csr k)
              | _ => 0
              end) Supervisor 0 (k_mem k).

Lemma user_trap_cycle_witness :
  exists k' h1, usertrapret tramp_K = Ok (TRAMPOLINE + (sym_userret - sym_trampoline), MAKE_SATP (pg 1)) k' /\
    run userret (hart_of k' (MAKE_SATP (pg 1))) = Some h1 /\ h_mode h1 = User /\ h_pc h1 = 0 /\
    exists h3, run uservec (trap_s 8 (set_h_x (fun _ => 5) h1)) = Some h3 /\
      h_mode h3 = Supervisor /\ ld64 (h_mem h3) (pg 0 + 280) = 5.
Proof.
  destruct (user_trap_cycle tramp_K 0 tramp_proc tramp_ready) as (k' & E & S & R).
  destruct (R (hart_of k' (MAKE_SATP (pg 1)))) as (h1 & E1 & M1 & P1 & S1 & Em & X1 & R1); [by split|done|].
  exists k', h1. split; [exact E|]. split; [exact E1|]. split; [exact M1|].
  split; [rewrite P1; by vm_compute|].
  destruct (R1 (set_h_x (fun _ => 5) h1) 8) as (_ & h3 & E3 & _ & M3 & _ & _ & _ & _ & _ & _ & _ & X3);
    [exact M1|intros r; cbn; lia|reflexivity|reflexivity| |reflexivity|].
  { change (maps_trapframe (h_mem h1) (pg 1) (pg 0)). rewrite Em. exact (maps_same _ _ _ _ tramp_maps S). }
  exists h3. split; [exact E3|]. split; [exact M3|]. apply (X3 t6 280). by_decide.
Defined.
