(* ===== verification/Start.v ===== *)
(** kernel/entry.S and kernel/start.c: from reset in machine mode to main() in
    supervisor mode; kernel/riscv.h's access to the machine-mode registers. *)
From S2P Require Import Prelude CInt KState Riscv Vm VmSpec Asm Switch.

(** Where the linker puts what start.c and entry.S refer to. *)
Class Image := {
  sym_main : Z;
  sym_timervec : Z;
  sym_stack0 : Z;
  sym_timer_scratch : Z;
}.

Section start.
Context {D : Delegation} {I : Image}.

(** * kernel/riscv.h *)

Definition MSTATUS_MPP_MASK : Z := Z.shiftl 3 11.
Definition MSTATUS_MPP_S : Z := Z.shiftl 1 11.
Definition MSTATUS_MIE : Z := Z.shiftl 1 3.
Definition SIE_SEIE : Z := Z.shiftl 1 9.
Definition SIE_STIE : Z := Z.shiftl 1 5.
Definition SIE_SSIE : Z := Z.shiftl 1 1.
Definition MIE_MTIE : Z := Z.shiftl 1 7.

Definition r_mhartid (h : hart) : Z := csr_read h mhartid.
Definition r_mstatus (h : hart) : Z := csr_read h mstatus.
Definition w_mstatus (x : Z) (h : hart) : hart := csr_write mstatus x h.
Definition w_mepc (x : Z) (h : hart) : hart := csr_write mepc x h.
Definition r_sstatus (h : hart) : Z := csr_read h sstatus.
Definition w_sstatus (x : Z) (h : hart) : hart := csr_write sstatus x h.
Definition r_sip (h : hart) : Z := csr_read h sip.
Definition w_sip (x : Z) (h : hart) : hart := csr_write sip x h.
Definition r_sie (h : hart) : Z := csr_read h sie.
Definition w_sie (x : Z) (h : hart) : hart := csr_write sie x h.
Definition r_mie (h : hart) : Z := csr_read h mie.
Definition w_mie (x : Z) (h : hart) : hart := csr_write mie x h.
Definition w_sepc (x : Z) (h : hart) : hart := csr_write sepc x h.
Definition r_sepc (h : hart) : Z := csr_read h sepc.
Definition r_medeleg (h : hart) : Z := csr_read h medeleg.
Definition w_medeleg (x : Z) (h : hart) : hart := csr_write medeleg x h.
Definition r_mideleg (h : hart) : Z := csr_read h mideleg.
Definition w_mideleg (x : Z) (h : hart) : hart := csr_write mideleg x h.
Definition w_stvec (x : Z) (h : hart) : hart := csr_write stvec x h.
Definition r_stvec (h : hart) : Z := csr_read h stvec.
Definition w_mtvec (x : Z) (h : hart) : hart := csr_write mtvec x h.
Definition w_pmpcfg0 (x : Z) (h : hart) : hart := csr_write pmpcfg0 x h.
Definition w_pmpaddr0 (x : Z) (h : hart) : hart := csr_write pmpaddr0 x h.
Definition w_satp (x : Z) (h : hart) : hart := csr_write satp x h.
Definition r_satp (h : hart) : Z := csr_read h satp.
Definition w_mscratch (x : Z) (h : hart) : hart := csr_write mscratch x h.
Definition r_scause (h : hart) : Z := csr_read h scause.
Definition r_stval (h : hart) : Z := csr_read h stval.
Definition w_mcounteren (x : Z) (h : hart) : hart := csr_write mcounteren x h.
Definition r_mcounteren (h : hart) : Z := csr_read h mcounteren.
Definition r_time (h : hart) : Z := csr_read h time.
Definition r_sp (h : hart) : Z := h_x h sp.
Definition r_tp (h : hart) : Z := h_x h tp.
Definition w_tp (x : Z) (h : hart) : hart := set_x tp x h.
Definition r_ra (h : hart) : Z := h_x h ra.

(** * kernel/memlayout.h and kernel/param.h *)

Definition NCPU : Z := 8.
Definition CLINT : Z := 0x2000000.
Definition CLINT_MTIMECMP (hartid : Z) : Z := CLINT + 0x4000 + 8 * hartid.
Definition CLINT_MTIME : Z := CLINT + 0xBFF8.

(** * kernel/start.c *)

Definition store (a v : Z) (h : hart) : hart := set_h_mem (st64 (h_mem h) a v) h.

(** &timer_scratch[id][0]; nothing when the index is outside the array. *)
Definition timer_scratch (id : Z) : option Z :=
  if (0 <=? id) && (id <? NCPU) then Some (sym_timer_scratch + id * 40) else None.

Definition timerinit (h : hart) : option hart :=
  (* each CPU has a separate source of timer interrupts. *)
  let id := i32 (r_mhartid h) in
  (* ask the CLINT for a timer interrupt. *)
  let interval := 1000000 in
  let h := store (CLINT_MTIMECMP id) (u64 (ld64 (h_mem h) CLINT_MTIME + interval)) h in
  (* prepare information in scratch[] for timervec. *)
  match timer_scratch id with
  | None => None
  | Some scratch =>
      let h := store (scratch + 8 * 3) (CLINT_MTIMECMP id) h in
      let h := store (scratch + 8 * 4) interval h in
      let h := w_mscratch scratch h in
      (* set the machine-mode trap handler. *)
      let h := w_mtvec sym_timervec h in
      (* enable machine-mode interrupts. *)
      let h := w_mstatus (Z.lor (r_mstatus h) MSTATUS_MIE) h in
      (* enable machine-mode timer interrupts. *)
      Some (w_mie (Z.lor (r_mie h) MIE_MTIE) h)
  end.

(** entry.S jumps here in machine mode on stack0. *)
Definition start (h : hart) : option hart :=
  (* set M Previous Privilege mode to Supervisor, for mret. *)
  let x := r_mstatus h in
  let x := Z.land x (u64 (Z.lnot MSTATUS_MPP_MASK)) in
  let x := Z.lor x MSTATUS_MPP_S in
  let h := w_mstatus x h in
  (* set M Exception Program Counter to main, for mret. *)
  let h := w_mepc sym_main h in
  (* disable paging for now. *)
  let h := w_satp 0 h in
  (* delegate all interrupts and exceptions to supervisor mode. *)
  let h := w_medeleg 0xffff h in
  let h := w_mideleg 0xffff h in
  let h := w_sie (Z.lor (Z.lor (Z.lor (r_sie h) SIE_SEIE) SIE_STIE) SIE_SSIE) h in
  (* configure Physical Memory Protection to give supervisor mode access to all
     of physical memory. *)
  let h := w_pmpaddr0 0x3fffffffffffff h in
  let h := w_pmpcfg0 0xf h in
  (* ask for clock interrupts. *)
  match timerinit h with
  | None => None
  | Some h =>
      (* keep each CPU's hartid in its tp register, for cpuid(). *)
      let id := i32 (r_mhartid h) in
      let h := w_tp (u64 id) h in
      (* switch to supervisor mode and jump to main(). *)
      Some (mret h)
  end.

(** * kernel/entry.S *)

(** What follows the call is an endless loop, which start() never returns to. *)
Definition _entry (start : hart -> option hart) (spin : Z) : list instr := [
    Li sp sym_stack0;
    Li a0 (1024 * 4);
    Csrr a1 mhartid;
    Addi a1 a1 1;
    Mul a0 a0 a1;
    Add sp sp a0;
    (* jump to start() in start.c *)
    Call start spin ].

(** * What the harts start with *)

Lemma entry_run f spin h :
  run (_entry f spin) h =
    match f (set_x ra spin (set_x sp (u64 (sym_stack0 + u64 (4096 * u64 (h_csr h mhartid + 1))))
      (set_x a0 (u64 (4096 * u64 (h_csr h mhartid + 1))) (set_x a1 (u64 (h_csr h mhartid + 1))
      (set_x a1 (h_csr h mhartid) (set_x a0 4096 (set_x sp sym_stack0 h))))))) with
    | Some h' => Some h'
    | None => None
    end.
Proof. reflexivity. Qed.

Lemma bit_lor x y n : 0 <= n -> bit (Z.lor x y) n = Z.lor (bit x n) (bit y n).
Proof. intros. rewrite !bit_b2z, Z.lor_spec by done. by destruct (Z.testbit x n), (Z.testbit y n). Qed.

Lemma mpp_supervisor s :
  Z.land (Z.shiftr (Z.lor (Z.lor (Z.land s (u64 (Z.lnot MSTATUS_MPP_MASK))) MSTATUS_MPP_S) MSTATUS_MIE) 11) 3 = 1.
Proof.
  rewrite !Z.shiftr_lor, Z.shiftr_land. change (Z.shiftr MSTATUS_MPP_S 11) with 1.
  change (Z.shiftr MSTATUS_MIE 11) with 0. rewrite Z.lor_0_r, Z.land_lor_distr_l, <- Z.land_assoc.
  change (Z.land (Z.shiftr (u64 (Z.lnot MSTATUS_MPP_MASK)) 11) 3) with 0. by rewrite Z.land_0_r.
Qed.

(** The delegable interrupts that start() asks for. *)
Lemma delegated_bits n : Z.land can_mideleg 0x222 = 0x222 -> n ∈ [1; 5; 9] ->
  0 <= n /\ Z.testbit (Z.land 0xffff can_mideleg) n = true.
Proof.
  intros Hd Hn. assert (0 <= n /\ Z.testbit 0x222 n = true /\ Z.testbit 0xffff n = true) as (H0 & H1 & H2).
  { repeat (apply elem_of_cons in Hn as [->|Hn]; [done|]). by apply not_elem_of_nil in Hn. }
  split; [done|]. rewrite <- Hd, Z.land_spec in H1. apply andb_true_iff in H1 as [H1 _].
  by rewrite Z.land_spec, H2.
Qed.

Lemma timerinit_run h id :
  h_csr h mhartid = id -> 0 <= id < NCPU ->
  KERNBASE <= sym_timer_scratch -> sym_timer_scratch + NCPU * 40 <= PHYSTOP ->
  let S := sym_timer_scratch + id * 40 in
  exists m, timerinit h = Some (w_mie (Z.lor (h_csr h mie) MIE_MTIE)
      (w_mstatus (Z.lor (h_csr h mstatus) MSTATUS_MIE) (w_mtvec sym_timervec (w_mscratch S (set_h_mem m h))))) /\
    ld64 m (CLINT_MTIMECMP id) = u64 (ld64 (h_mem h) CLINT_MTIME + 1000000) /\
    ld64 m (S + 24) = CLINT_MTIMECMP id /\ ld64 m (S + 32) = 1000000.
Proof.
  intros Hid Hr Hlo Hhi. cbv zeta. unfold timerinit. unfold r_mhartid. cbn [csr_read]. rewrite Hid.
  unfold NCPU in *. rewrite i32_small by lia. unfold timer_scratch, NCPU.
  rewrite (proj2 (Z.leb_le _ _)), (proj2 (Z.ltb_lt _ _)) by lia. cbn [andb].
  eexists. split; [unfold r_mstatus, r_mie; cbn; reflexivity|].
  unfold CLINT_MTIMECMP, CLINT, KERNBASE in *. change (8 * 3) with 24. change (8 * 4) with 32.
  unfold store. cbn [h_mem set_h_mem]. split_and!.
  - rewrite ld64_st64_ne by (unfold apart; lia). rewrite ld64_st64_ne by (unfold apart; lia).
    apply ld64_st64_eq, u64_range.
  - rewrite ld64_st64_ne by (unfold apart; lia). apply ld64_st64_eq. lia.
  - apply ld64_st64_eq. lia.
Qed.

(** start() from a state on which entry.S calls it. *)
Lemma start_leaves h id :
  h_csr h mhartid = id -> 0 <= id < NCPU -> Z.land can_mideleg 0x222 = 0x222 ->
  KERNBASE <= sym_timer_scratch -> sym_timer_scratch + NCPU * 40 <= PHYSTOP ->
  let S := sym_timer_scratch + id * 40 in
  exists h', start h = Some h' /\
    h_mode h' = Supervisor /\ h_pc h' = sym_main /\ h_x h' tp = id /\ h_csr h' satp = 0 /\
    (forall n, n ∈ [1; 5; 9] -> bit (h_csr h' mideleg) n = 1 /\ bit (csr_read h' sie) n = 1) /\
    bit (h_csr h' mie) 7 = 1 /\ h_csr h' mtvec = sym_timervec /\
    h_csr h' mscratch = S /\ ld64 (h_mem h') (S + 24) = CLINT_MTIMECMP id /\
    ld64 (h_mem h') (S + 32) = 1000000 /\
    ld64 (h_mem h') (CLINT_MTIMECMP id) = u64 (ld64 (h_mem h) CLINT_MTIME + 1000000).
Proof.
  intros Hid Hr Hd Hlo Hhi. cbv zeta. unfold start. cbv zeta.
  match goal with |- context [timerinit ?g] => set (hb := g) end.
  destruct (timerinit_run hb id) as (m & E & E1 & E2 & E3); [|done..|].
  { cbn. by upds. }
  rewrite E. eexists. split; [reflexivity|]. cbn. upds. unfold r_mhartid. cbn. upds. rewrite Hid.
  rewrite (i32_small id), (u64_small id) by (unfold NCPU in *; lia).
  rewrite mpp_supervisor. split_and!; try done.
  - intros n Hn. destruct (delegated_bits n Hd Hn) as [H0 H1]. rewrite !bit_b2z by done.
    rewrite H1. split; [done|]. rewrite Z.land_spec, H1, Z.lor_spec, testbit_blend, H1, !Z.lor_spec by done.
    repeat (apply elem_of_cons in Hn as [->|Hn]; [by rewrite ?orb_true_r|]). by apply not_elem_of_nil in Hn.
  - rewrite bit_b2z, Z.lor_spec by lia. by rewrite orb_true_r.
Qed.

(** C21: A hart that enters the kernel in machine mode runs start() on a stack of
    its own, and leaves it in supervisor mode at main() with paging off, its
    hart id in tp, and the supervisor's software, timer and external interrupts
    delegated and enabled. Its machine timer interrupt is enabled, due one
    interval from now, and goes to timervec with the scratch area that timervec
    relies on. *)
Theorem start_boots h id spin :
  h_mode h = Machine -> h_csr h mhartid = id -> 0 <= id < NCPU ->
  Z.land can_mideleg 0x222 = 0x222 ->
  KERNBASE <= sym_timer_scratch -> sym_timer_scratch + NCPU * 40 <= PHYSTOP ->
  KERNBASE <= sym_stack0 -> sym_stack0 + 4096 * NCPU <= PHYSTOP ->
  let S := sym_timer_scratch + id * 40 in
  exists h0 h', run (_entry start spin) h = Some h' /\
    start h0 = Some h' /\ h_x h0 sp = sym_stack0 + 4096 * id + 4096 /\
    h_mode h' = Supervisor /\ h_pc h' = sym_main /\ h_x h' tp = id /\
    (forall m acc va, translate m (h_mode h') (h_csr h' satp) acc va = Some va) /\
    (forall n, n ∈ [1; 5; 9] -> bit (h_csr h' mideleg) n = 1 /\ bit (csr_read h' sie) n = 1) /\
    bit (h_csr h' mie) 7 = 1 /\ h_csr h' mtvec = sym_timervec /\
    h_csr h' mscratch = S /\ ld64 (h_mem h') (S + 24) = CLINT_MTIMECMP id /\
    ld64 (h_mem h') (S + 32) = 1000000 /\
    ld64 (h_mem h') (CLINT_MTIMECMP id) = u64 (ld64 (h_mem h) CLINT_MTIME + 1000000).
Proof.
  intros Hm Hid Hr Hd Hlo Hhi Hslo Hshi. cbv zeta. rewrite entry_run.
  match goal with |- context [start ?g] => set (h0 := g) end.
  destruct (start_leaves h0 id) as (h' & E & Md & Pc & Tp & Sa & Dl & R); [done..|].
  exists h0, h'. rewrite E. split; [done|]. split; [done|].
  unfold NCPU, KERNBASE, PHYSTOP in *. split.
  { unfold h0. cbn. upds. rewrite Hid. unfold KERNBASE in *.
    rewrite (u64_small (id + 1)), (u64_small (4096 * (id + 1))), u64_small by lia. lia. }
  split; [done|]. split; [done|]. split; [done|].
  split; [intros m acc va; unfold translate; by rewrite Md, Sa|]. by split.
Qed.

End start.

(** * Hart 2 of a QEMU virt machine *)

#[local] Instance qemu_delegation : Delegation := {| can_mideleg := 0x1666; can_medeleg := 0xffff |}.
#[local] Instance some_image : Image :=
  {| sym_main := 0x80000e00; sym_timervec := 0x80005b00; sym_stack0 := 0x80008a00; sym_timer_scratch := 0x80010a00 |}.

Definition reset_hart : hart :=
  mk_hart (fun _ => 0) (fun c => if decide (c = mhartid) then 2 else 0) Machine KERNBASE
    (st64 ∅ CLINT_MTIME 500).

Lemma start_boots_witness : exists h', run (_entry start 0x80000018) reset_hart = Some h' /\
  h_mode h' = Supervisor /\ h_x h' tp = 2 /\ ld64 (h_mem h') 0x2004010 = 1000500.
Proof.
  destruct (start_boots reset_hart 2 0x80000018) as (h0 & h' & E & _ & _ & Md & _ & Tp & _ & _ & _ & _ & _ & _ & _ & L);
    [done|done|by vm_compute..|].
  exists h'. split; [exact E|]. split; [exact Md|]. split; [exact Tp|]. etransitivity; [exact L|]. by vm_compute.
Defined.
