(* ===== verification/Initcode.v ===== *)
(** user/initcode.S: the first user program, as proc.c's initcode[] has it in
    machine code. *)
From S2P Require Import Prelude CInt KState KString Riscv Asm ProcLife Syscall.

(** * The instructions, and their encoding *)

(** [auipc rd, imm], [addi rd, rs, imm] ([rs] absent: the zero register, so that
    it is [li]), [ecall] and [jal rd, off]. *)
Inductive uinstr :=
  | Auipc (rd : reg) (imm : Z)
  | Uaddi (rd : reg) (rs : option reg) (imm : Z)
  | Ecall
  | Jal (rd : reg) (off : Z).

(** Registers by number, x1 first. *)
Definition regno (n : Z) : option reg := if n <=? 0 then None else all_regs !! Z.to_nat (n - 1).

(** Bits [lo] to [lo + n - 1] of a word, and the sign extension of [n] bits. *)
Definition bits (w lo n : Z) : Z := (w / 2 ^ lo) mod 2 ^ n.
Definition sext (n v : Z) : Z := if v <? 2 ^ (n - 1) then v else v - 2 ^ n.

Definition decode (w : Z) : option uinstr :=
  let rd := regno (bits w 7 5) in
  let op := bits w 0 7 in
  if w =? 0x73 then Some Ecall
  else if op =? 0x17 then r ← rd; Some (Auipc r (sext 20 (bits w 12 20)))
  else if (op =? 0x13) && (bits w 12 3 =? 0) then
    r ← rd; Some (Uaddi r (regno (bits w 15 5)) (sext 12 (bits w 20 12)))
  else if op =? 0x6f then
    r ← rd; Some (Jal r (sext 21 (bits w 31 1 * 2 ^ 20 + bits w 12 8 * 2 ^ 12 + bits w 20 1 * 2 ^ 11 + bits w 21 10 * 2)))
  else None.

(** * kernel/syscall.h *)

Definition SYS_exit : Z := 2.
Definition SYS_exec : Z := 7.

(** * initcode.S *)

(** The addresses of the labels [exit] and [init], after eight bytes for each la
    and four for every other instruction. *)
Definition l_exit : Z := 24.
Definition l_init : Z := 36.

(** [argv]: after the seven bytes of .string, aligned by .p2align 2. *)
Definition l_argv : Z := (l_init + 7 + 3) / 4 * 4.

(** Where initcode[] has it: it was assembled without the alignment. *)
Definition l_argv_bytes : Z := l_init + 7.

(** The program with argv at [l_argv]; la is auipc and addi. *)
Definition initcode_S (l_argv : Z) : list uinstr := [
    (* start: exec(init, argv) *)
    Auipc a0 0; Uaddi a0 (Some a0) (l_init - 0);
    Auipc a1 0; Uaddi a1 (Some a1) (l_argv - 8);
    Uaddi a7 None SYS_exec;
    Ecall;
    (* exit: for(;;) exit(); *)
    Uaddi a7 None SYS_exit;
    Ecall;
    Jal ra (l_exit - 32) ].

(** * Running it *)

Definition ustate : Type := (reg -> Z) * Z.

Definition ustep (i : uinstr) (s : ustate) : option ustate :=
  let '(x, pc) := s in
  match i with
  | Auipc rd imm => Some (upd x rd (u64 (pc + imm * 4096)), pc + 4)
  | Uaddi rd rs imm => Some (upd x rd (u64 (from_option x 0 rs + imm)), pc + 4)
  | Jal rd off => Some (upd x rd (pc + 4), pc + off)
  | Ecall => None
  end.

(** To the next system call, at most [fuel] instructions away. *)
Fixpoint to_ecall (fuel : nat) (m : mem) (s : ustate) : option ustate :=
  match fuel with
  | O => None
  | S fuel' =>
      match decode (ld32 m s.2) with
      | Some Ecall => Some s
      | Some i => match ustep i s with Some s' => to_ecall fuel' m s' | None => None end
      | None => None
      end
  end.

(** The user address space that userinit() sets up: a zeroed page with
    initcode[] copied to its start. *)
Definition first_page : mem := stbytes ∅ 0 initcode.

(** The bytes of initcode[] are the instructions of initcode.S, but for the
    address of argv, which the source aligns to 44 and the bytes have at 43. The
    program calls exec("/init", argv) with argv = { "/init", 0 }, its first system
    call (what sys_exec() makes of that is in Args.v); if exec() returns it calls
    exit(), and again if that returns. *)
Theorem initcode_execs_init {P : Platform} (x : reg -> Z) :
  syscalls SYS_exec = Some sys_exec /\ syscalls SYS_exit = Some sys_exit /\
  decode <$> (ld32 first_page <$> ((fun i => 4 * Z.of_nat i) <$> seq 0 9)) = Some <$> initcode_S l_argv_bytes /\
  l_argv = l_argv_bytes + 1 /\
  (exists y, to_ecall 6 first_page (x, 0) = Some (y, 20) /\
     y a7 = SYS_exec /\ ldbytes first_page (y a0) 6 = bstr "/init" ++ [0] /\
     ld64 first_page (y a1) = y a0 /\ ld64 first_page (y a1 + 8) = 0) /\
  (forall pc, pc = 20 + 4 \/ pc = 28 + 4 ->
     exists y, to_ecall 3 first_page (x, pc) = Some (y, 28) /\ y a7 = SYS_exit).
Proof.
  split; [reflexivity|]. split; [reflexivity|]. split; [vm_compute; reflexivity|]. split; [reflexivity|]. split.
  - eexists. split; [vm_compute; reflexivity|]. split; [reflexivity|]. split; [vm_compute; reflexivity|].
    split; vm_compute; reflexivity.
  - intros pc [->| ->]; eexists; (split; [vm_compute; reflexivity|reflexivity]).
Qed.
