(* ===== verification/Ulib.v ===== *)
(** user/ulib.c and user/printf.c: the C library of the user programs.

    A string that is only read is the list of its characters, without the NUL
    that ends it; where a function reads past the list it reads the NUL.  The
    functions that store through a pointer change a memory, or give the bytes
    that they store where these are all they do. *)
From S2P Require Import Prelude CInt KString.

(** The string in an array of characters. *)
Fixpoint cstring_at (m : list Z) : list Z :=
  match m with
  | [] => []
  | c :: m' => if c =? 0 then [] else c :: cstring_at m'
  end.

(** * user/ulib.c *)

(** The copy stops after the NUL; [None] if there is none in the first [fuel]
    bytes. *)
Fixpoint strcpy (fuel : nat) (m : mem) (s t : Z) : option mem :=
  match fuel with
  | O => None
  | S fuel' =>
      let c := ld8 m t in
      let m := st8 m s c in
      if c =? 0 then Some m else strcpy fuel' m (s + 1) (t + 1)
  end.

Fixpoint strcmp (p q : list Z) : Z :=
  match p, q with
  | x :: p', y :: q' => if negb (x =? 0) && (x =? y) then strcmp p' q' else u8 x - u8 y
  | x :: _, [] => u8 x - 0
  | [], y :: _ => 0 - u8 y
  | [], [] => 0
  end.

(** The index of the first [c], if it comes before the NUL. *)
Fixpoint strchr (s : list Z) (c : Z) : option nat :=
  match s with
  | [] => None
  | x :: s' => if x =? 0 then None else if x =? c then Some O else S <$> strchr s' c
  end.

(** The bytes stored in buf[], and the input that is left.  read() gives one
    byte, or none at the end of the input. *)
Fixpoint gets_loop (n : nat) (input : list Z) : list Z * list Z :=
  match n with
  | O => ([], input)
  | S n' =>
      match input with
      | [] => ([], [])
      | c :: input' =>
          if (c =? 10) || (c =? 13) then ([c], input')
          else let '(bs, rest) := gets_loop n' input' in (c :: bs, rest)
      end
  end.

Definition gets (max : Z) (input : list Z) : list Z * list Z :=
  let '(bs, rest) := gets_loop (Z.to_nat (max - 1)) input in (bs ++ [0], rest).

Fixpoint atoi_loop (s : list Z) (n : Z) : Z :=
  match s with
  | [] => n
  | c :: s' => if (48 <=? c) && (c <=? 57) then atoi_loop s' (i32 (n * 10 + c - 48)) else n
  end.

Definition atoi (s : list Z) : Z := atoi_loop s 0.

Definition umemset (m : mem) (dst c n : Z) : mem := memset_loop (Z.to_nat n) m dst c.

Definition umemmove (m : mem) (vdst vsrc n : Z) : mem :=
  if vdst <? vsrc then copy_up (Z.to_nat n) m vdst vsrc
  else copy_down (Z.to_nat n) m (vdst + n) (vsrc + n).

Definition umemcmp (p1 p2 : Z -> Z) (n : Z) : Z := memcmp_loop (Z.to_nat n) p1 p2 0.

Definition umemcpy (m : mem) (dst src n : Z) : mem := umemmove m dst src n.

(** * user/printf.c *)

Definition udigits : list Z := bstr "0123456789ABCDEF".

(** buf[] after the do-while loop; a 32-bit number has at most 32 digits. *)
Fixpoint uprintint_digits (n : nat) (x base : Z) : list Z :=
  udigits.[x mod base] ::
  match n with
  | O => []
  | S n' => if x / base =? 0 then [] else uprintint_digits n' (x / base) base
  end.

Definition uprintint_buf (xx base : Z) (sgn : bool) : list Z :=
  let neg := sgn && (xx <? 0) in
  let x := if neg then u32 (- xx) else u32 xx in
  uprintint_digits 31 x base ++ (if neg then [45] else []).

(** What printint() writes; its argument is an int. *)
Definition uprintint (xx base : Z) (sgn : bool) : list Z := rev (uprintint_buf (i32 xx) base sgn).

Fixpoint uprintptr_loop (n : nat) (x : Z) : list Z :=
  match n with
  | O => []
  | S n' => udigits.[Z.shiftr x (8 * 8 - 4)] :: uprintptr_loop n' (u64 (Z.shiftl x 4))
  end.

Definition uprintptr (x : Z) : list Z := [48; 120] ++ uprintptr_loop 16 x.

Inductive uarg := U_int (z : Z) | U_long (z : Z) | U_str (s : option (list Z)).

(** vprintf(): [state] is true after a percent sign.  [None] when an argument is
    missing or of the wrong kind. *)
Fixpoint vprintf (fmt : list Z) (state : bool) (ap : list uarg) : option (list Z) :=
  match fmt with
  | [] => Some []
  | c :: fmt =>
      if c =? 0 then Some []
      else if negb state then
        if c =? 37 then vprintf fmt true ap else cons c <$> vprintf fmt false ap
      else if c =? 100 (* d *) then
        match ap with
        | U_int z :: ap => app (uprintint z 10 true) <$> vprintf fmt false ap
        | _ => None
        end
      else if c =? 108 (* l *) then
        match ap with
        | U_long z :: ap => app (uprintint z 10 false) <$> vprintf fmt false ap
        | _ => None
        end
      else if c =? 120 (* x *) then
        match ap with
        | U_int z :: ap => app (uprintint z 16 false) <$> vprintf fmt false ap
        | _ => None
        end
      else if c =? 112 (* p *) then
        match ap with
        | U_long z :: ap => app (uprintptr z) <$> vprintf fmt false ap
        | _ => None
        end
      else if c =? 115 (* s *) then
        match ap with
        | U_str s :: ap => app (default (bstr "(null)") s) <$> vprintf fmt false ap
        | _ => None
        end
      else if c =? 99 (* c *) then
        match ap with
        | U_int z :: ap => cons (u8 z) <$> vprintf fmt false ap
        | _ => None
        end
      else if c =? 37 then cons c <$> vprintf fmt false ap
      else (* Unknown % sequence.  Print it to draw attention. *)
        (fun l => 37 :: c :: l) <$> vprintf fmt false ap
  end.

(** The newline at the end of a format. *)
Definition nl : string := String (Ascii.ascii_of_nat 10) EmptyString.

Definition fprintf (fmt : string) (ap : list uarg) : option (list Z) := vprintf (bstr fmt) false ap.

(** * Properties *)

(** memmove() of the user library copies correctly also when the areas
    overlap: the destination gets the bytes that the source had before. *)
Theorem umemmove_correct m dst src n :
  0 <= n -> umemmove m dst src n = stbytes m dst (ldbytes m src (Z.to_nat n)).
Proof.
  intros Hn. unfold umemmove. case_if.
  - apply copy_up_spec. lia.
  - rewrite <- (Z2Nat.id n Hn) at 2 3. apply copy_down_spec. lia.
Qed.

Lemma umemmove_correct_witness :
  umemmove (stbytes ∅ 0 [1; 2; 3]) 1 0 3 = stbytes (stbytes ∅ 0 [1; 2; 3]) 1 [1; 2; 3].
Proof. rewrite (umemmove_correct (stbytes ∅ 0 [1; 2; 3]) 1 0 3); [reflexivity|lia]. Defined.

(** ** strcmp() *)

Definition is_str (s : list Z) : Prop := Forall (fun x => 0 < x < 256) s.

(** The order of the dictionary. *)
Fixpoint lex (p q : list Z) : comparison :=
  match p, q with
  | [], [] => Eq
  | [], _ => Lt
  | _, [] => Gt
  | x :: p', y :: q' => match x ?= y with Eq => lex p' q' | c => c end
  end.

(** strcmp() compares by the order of the dictionary on unsigned
    characters; in particular it returns 0 exactly for equal strings. *)
Theorem strcmp_lex p q : is_str p -> is_str q ->
  (strcmp p q ?= 0) = lex p q /\ (strcmp p q = 0 <-> p = q).
Proof.
  intros Hp. revert q. induction Hp as [|x p Hx Hp IH]; intros [|y q] Hq; cbn [strcmp lex].
  - done.
  - apply list.Forall_cons in Hq as [Hy _]. rewrite u8_small by lia.
    split; [destruct y; [lia|done|lia]|]. split; [lia|done].
  - rewrite u8_small by lia. split; [destruct x; [lia|done|lia]|]. split; [lia|done].
  - apply list.Forall_cons in Hq as [Hy Hq]. rewrite (proj2 (Z.eqb_neq x 0)) by lia. cbn [negb andb].
    destruct (Z.eqb_spec x y) as [->|Hne].
    + rewrite Z.compare_refl. destruct (IH q Hq) as [E1 E2]. split; [done|]. rewrite E2. split; congruence.
    + rewrite !u8_small by lia. split.
      * rewrite <- Z.compare_sub. destruct (x ?= y) eqn:E; [apply Z.compare_eq in E; done|done|done].
      * split; [lia|congruence].
Qed.

Lemma strcmp_lex_witness : (strcmp (bstr "abc") (bstr "abd") ?= 0) = Lt.
Proof. apply (strcmp_lex (bstr "abc") (bstr "abd")); repeat constructor. Defined.

(** ** printint() *)

Lemma udigits_dec d : 0 <= d < 10 -> udigits.[d] = 48 + d.
Proof. revert d. apply (small_cases 10). repeat constructor. Qed.

(** The place of a digit in [udigits]. *)
Definition digit_val (c : Z) : Z := if c <=? 57 then c - 48 else c - 55.

Definition num_val (base : Z) (ds : list Z) : Z := foldl (fun a c => a * base + digit_val c) 0 ds.

Lemma udigits_val d : 0 <= d < 16 -> digit_val udigits.[d] = d.
Proof. revert d. apply (small_cases 16). repeat constructor. Qed.

Lemma num_val_snoc base ds d : num_val base (ds ++ [d]) = num_val base ds * base + digit_val d.
Proof. unfold num_val. by rewrite foldl_app. Qed.

Lemma num_val_one base d : num_val base [d] = digit_val d.
Proof. done. Qed.

Lemma uprintint_digits_val base n : forall x,
  2 <= base <= 16 -> 0 <= x < base ^ (Z.of_nat n + 1) ->
  num_val base (rev (uprintint_digits n x base)) = x /\
  (forall k : nat, x < base ^ Z.of_nat (S k) -> (length (uprintint_digits n x base) <= S k)%nat).
Proof.
  induction n as [|n IH]; intros x Hb Hx; cbn [uprintint_digits].
  - rewrite Z.pow_1_r in Hx. cbn [rev app length]. rewrite num_val_one, udigits_val by (rewrite Z.mod_small; lia). rewrite Z.mod_small by lia.
    split; [lia|]. intros; lia.
  - pose proof (Z.mod_pos_bound x base ltac:(lia)) as Hm. pose proof (Z.div_mod x base ltac:(lia)) as Hd.
    destruct (Z.eqb_spec (x / base) 0) as [E|E].
    + cbn [rev app length]. rewrite num_val_one, udigits_val by lia. split; [lia|]. intros; lia.
    + assert (0 <= x / base) as Hq by (apply Z.div_pos; lia).
      destruct (IH (x / base)) as [IHv IHl]; [done|split; [done|]|].
      { apply Z.div_lt_upper_bound; [lia|]. rewrite <- Z.pow_succ_r by lia.
        replace (Z.succ (Z.of_nat n + 1)) with (Z.of_nat (S n) + 1) by lia. lia. }
      cbn [rev length]. rewrite num_val_snoc, IHv, udigits_val by lia. split; [lia|].
      intros [|k] Hk.
      * rewrite Z.pow_1_r in Hk. rewrite Z.div_small in E by lia. done.
      * apply le_n_S, IHl. apply Z.div_lt_upper_bound; [lia|]. rewrite <- Z.pow_succ_r by lia.
        by rewrite <- Nat2Z.inj_succ.
Qed.

(** printint() prints the number.  In base 10 or 16, and for every int, also
    the smallest one, the characters after the sign are the digits of the
    absolute value, or of the value as an unsigned int when no sign is asked
    for; and they fit into the buffer of 16 characters. *)
Theorem uprintint_value xx base sgn :
  base = 10 \/ base = 16 -> - 2 ^ 31 <= xx < 2 ^ 31 ->
  exists ds, uprintint xx base sgn = (if sgn && (xx <? 0) then 45 :: ds else ds) /\
    num_val base ds = (if sgn then Z.abs xx else u32 xx) /\
    (length (uprintint_buf xx base sgn) <= 16)%nat.
Proof.
  intros Hb Hx. unfold uprintint, uprintint_buf. rewrite i32_small by done.
  set (neg := sgn && (xx <? 0)). set (x := if neg then u32 (- xx) else u32 xx).
  assert (0 <= x < 2 ^ 32 /\ x = (if sgn then Z.abs xx else u32 xx)) as [Hxr Hxe].
  { unfold x, neg. split; [case_if; apply u32_range|]. destruct sgn; [|done]. cbn [andb].
    case_if; rewrite u32_small by lia; lia. }
  assert (2 <= base <= 16) as Hb2 by lia.
  destruct (uprintint_digits_val base 31 x) as [Hv Hl]; [done| |].
  { split; [lia|]. destruct Hb as [-> | ->]; (eapply Z.lt_le_trans; [apply Hxr|]); by vm_compute. }
  assert (length (uprintint_digits 31 x base) <= 10)%nat as Hlen.
  { apply (Hl 9%nat). destruct Hb as [-> | ->]; (eapply Z.lt_le_trans; [apply Hxr|]); by vm_compute. }
  exists (rev (uprintint_digits 31 x base)). rewrite <- Hxe. split_and!; [|done|].
  - rewrite rev_app_distr. by destruct neg.
  - rewrite length_app. destruct neg; cbn [length]; lia.
Qed.

Lemma uprintint_value_witness : exists ds, uprintint (- 2 ^ 31) 10 true = 45 :: ds /\ num_val 10 ds = 2 ^ 31.
Proof.
  destruct (uprintint_value (- 2 ^ 31) 10 true) as (ds & E & V & _); [by left|lia|]. by exists ds.
Defined.

(** ** atoi() *)

Lemma atoi_digits n : forall x acc rest,
  0 <= x < 10 ^ (Z.of_nat n + 1) -> 0 <= acc ->
  acc * 10 ^ Z.of_nat (length (uprintint_digits n x 10)) + x < 2 ^ 31 ->
  atoi_loop (rev (uprintint_digits n x 10) ++ rest) acc =
    atoi_loop rest (acc * 10 ^ Z.of_nat (length (uprintint_digits n x 10)) + x).
Proof.
  assert (forall d acc rest, 0 <= d < 10 -> 0 <= acc -> acc * 10 + d < 2 ^ 31 ->
    atoi_loop (udigits.[d] :: rest) acc = atoi_loop rest (acc * 10 + d)) as Hone.
  { intros d acc rest Hd Ha Hlt. cbn [atoi_loop]. rewrite udigits_dec by done.
    rewrite (proj2 (Z.leb_le _ _)), (proj2 (Z.leb_le _ _)) by lia. cbn [andb]. f_equal. rewrite i32_small; lia. }
  induction n as [|n IH]; intros x acc rest Hx Hacc Hlt; cbn [uprintint_digits] in *.
  - rewrite Z.mod_small in * by lia. cbn [rev length app] in *. rewrite Hone by lia. f_equal; lia.
  - pose proof (Z.mod_pos_bound x 10 ltac:(lia)) as Hm. pose proof (Z.div_mod x 10 ltac:(lia)) as Hd.
    destruct (Z.eqb_spec (x / 10) 0) as [E|E]; cbn [rev length app] in *.
    + rewrite Hone by lia. f_equal; lia.
    + rewrite Nat2Z.inj_succ, Z.pow_succ_r in * by lia. rewrite <- (assoc_L (++)). cbn [app].
      assert (0 <= 10 ^ Z.of_nat (length (uprintint_digits n (x / 10) 10))) by (apply Z.pow_nonneg; lia).
      rewrite IH; [|split; [zdm|]|done|nia].
      * rewrite Hone by nia. f_equal. nia.
      * apply Z.div_lt_upper_bound; [lia|]. rewrite <- Z.pow_succ_r by lia.
        replace (Z.succ (Z.of_nat n + 1)) with (Z.of_nat (S n) + 1) by lia. lia.
Qed.

(** C40: atoi() reads back what printf() prints with %d, for every int that is
    not negative. *)
Theorem printf_atoi n : 0 <= n < 2 ^ 31 ->
  exists out, fprintf "%d" [U_int n] = Some out /\ atoi out = n.
Proof.
  intros Hn. exists (uprintint n 10 true). split; [cbn; by rewrite app_nil_r|].
  unfold uprintint, uprintint_buf. rewrite i32_small by lia.
  rewrite (proj2 (Z.ltb_ge _ _)) by lia. cbn [andb]. rewrite app_nil_r, u32_small by lia.
  unfold atoi. rewrite <- (app_nil_r (rev _)).
  rewrite atoi_digits; [cbn; lia|split; [lia|]|lia|lia].
  eapply Z.lt_le_trans; [apply Hn|]. by vm_compute.
Qed.

Lemma printf_atoi_witness : exists out, fprintf "%d" [U_int 1024] = Some out /\ atoi out = 1024.
Proof. apply (printf_atoi 1024). lia. Defined.
