(* ===== verification/Usys.v ===== *)
(** System calls as the user programs make them (user/user.h, user/usys.pl).

    A program is a tree of system calls: after each call it continues with what
    the call returns - its result and, for read(), pipe() and fstat(), what is
    stored through the pointer.  A program has no other effect, so a run of it
    is a path through the tree, which an operating system chooses.  [os] is
    an operating system for a program that only reads and writes files. *)
From S2P Require Import Prelude CInt KString KState Ulib.

(** * Programs *)

Inductive call :=
  | C_fork | C_wait | C_pipe | C_getpid | C_uptime
  | C_write (fd : Z) (bs : list Z)
  | C_read (fd n : Z)
  | C_close (fd : Z)
  | C_kill (pid : Z)
  | C_exec (path : list Z) (argv : list (list Z))
  | C_open (path : list Z) (mode : Z)
  | C_mknod (path : list Z) (major minor : Z)
  | C_unlink (path : list Z)
  | C_fstat (fd : Z)
  | C_link (old new : list Z)
  | C_mkdir (path : list Z)
  | C_chdir (path : list Z)
  | C_dup (fd : Z)
  | C_sbrk (n : Z)
  | C_sleep (n : Z).

(** [Stuck] is a program whose model has run out of fuel. *)
Inductive prog (A : Type) :=
  | Ret (a : A)
  | Sys (c : call) (k : Z * list Z -> prog A)
  | Exit (status : Z)
  | Stuck.
Arguments Ret {A}.
Arguments Sys {A}.
Arguments Exit {A}.
Arguments Stuck {A}.

Fixpoint pbind {A B} (p : prog A) (f : A -> prog B) : prog B :=
  match p with
  | Ret a => f a
  | Sys c k => Sys c (fun r => pbind (k r) f)
  | Exit st => Exit st
  | Stuck => Stuck
  end.

Declare Scope prog_scope.
Delimit Scope prog_scope with prog.
Notation "x <~ p ; q" := (pbind p (fun x => q)) (at level 60, p at next level, right associativity) : prog_scope.
Notation "p ~> q" := (pbind p (fun _ => q)) (at level 60, right associativity) : prog_scope.

Definition sys (c : call) : prog Z := Sys c (fun r => Ret r.1).
Definition sysd (c : call) : prog (Z * list Z) := Sys c Ret.

Section programs.
#[local] Open Scope prog_scope.

Definition open (path : list Z) (mode : Z) : prog Z := sys (C_open path mode).
Definition close (fd : Z) : prog Z := sys (C_close fd).
Definition write (fd : Z) (bs : list Z) : prog Z := sys (C_write fd bs).
Definition read (fd n : Z) : prog (Z * list Z) := sysd (C_read fd n).

(** putc() of user/printf.c writes every character by itself. *)
Fixpoint putcs (fd : Z) (bs : list Z) : prog unit :=
  match bs with
  | [] => Ret tt
  | c :: bs' => write fd [c] ~> putcs fd bs'
  end.

Definition printf (fd : Z) (fmt : string) (ap : list uarg) : prog unit :=
  match fprintf fmt ap with
  | Some out => putcs fd out
  | None => Stuck
  end.

(** user/ulib.c: stat() *)
Definition stat (n : list Z) : prog (Z * list Z) :=
  fd <~ open n O_RDONLY ;
  if fd <? 0 then Ret (-1, [])
  else
    r <~ sysd (C_fstat fd) ;
    close fd ~>
    Ret r.

(** The loops over the arguments that the small programs have. *)
Fixpoint pfor {X} (f : X -> prog unit) (l : list X) : prog unit :=
  match l with
  | [] => Ret tt
  | x :: l' => f x ~> pfor f l'
  end.
End programs.

(** * Runs *)

(** Files that the program can open, open files with the rest to be read, and
    what the program has written.  [o_chunk] is how much a read() gives, [o_call]
    the result of every other call; these are recorded in [o_trace]. *)
Record os := mk_os {
  o_files : list Z -> option (list Z);
  o_fds : list (option (list Z));
  o_out : list Z;
  o_err : list Z;
  o_trace : list call;
  o_chunk : nat -> nat;
  o_call : call -> Z * list Z
}.

Definition set_fds (f : list (option (list Z))) (o : os) : os :=
  mk_os (o_files o) f (o_out o) (o_err o) (o_trace o) (o_chunk o) (o_call o).
Definition set_out (x : list Z) (o : os) : os :=
  mk_os (o_files o) (o_fds o) x (o_err o) (o_trace o) (o_chunk o) (o_call o).
Definition set_err (x : list Z) (o : os) : os :=
  mk_os (o_files o) (o_fds o) (o_out o) x (o_trace o) (o_chunk o) (o_call o).
Definition set_trace (x : list call) (o : os) : os :=
  mk_os (o_files o) (o_fds o) (o_out o) (o_err o) x (o_chunk o) (o_call o).

(** The lowest free descriptor. *)
Fixpoint lowest (i : nat) (fds : list (option (list Z))) : nat :=
  match fds with
  | Some _ :: fds' => lowest (S i) fds'
  | _ => i
  end.

Definition os_call (c : call) (o : os) : (Z * list Z) * os :=
  match c with
  | C_read fd n =>
      match o_fds o !! Z.to_nat fd with
      | Some (Some file) =>
          let k := Nat.min (S (o_chunk o (length file))) (Z.to_nat n) in
          ((Z.of_nat (length (take k file)), take k file),
           set_fds (<[Z.to_nat fd := Some (drop k file)]> (o_fds o)) o)
      | _ => ((-1, []), o)
      end
  | C_write fd bs =>
      if fd =? 1 then ((Z.of_nat (length bs), []), set_out (o_out o ++ bs) o)
      else if fd =? 2 then ((Z.of_nat (length bs), []), set_err (o_err o ++ bs) o)
      else ((-1, []), o)
  | C_open path _ =>
      match o_files o path with
      | None => ((-1, []), o)
      | Some file =>
          let fd := lowest 0 (o_fds o) in
          ((Z.of_nat fd, []), set_fds (take fd (o_fds o) ++ Some file :: drop (S fd) (o_fds o)) o)
      end
  | C_close fd => ((0, []), set_fds (<[Z.to_nat fd := None]> (o_fds o)) o)
  | c => (o_call o c, set_trace (o_trace o ++ [c]) o)
  end.

Inductive outcome (A : Type) := O_ret (a : A) | O_exit (status : Z) | O_stuck.
Arguments O_ret {A}.
Arguments O_exit {A}.
Arguments O_stuck {A}.

Fixpoint run {A} (p : prog A) (o : os) : outcome A * os :=
  match p with
  | Ret a => (O_ret a, o)
  | Sys c k => let '(r, o') := os_call c o in run (k r) o'
  | Exit st => (O_exit st, o)
  | Stuck => (O_stuck, o)
  end.

Lemma run_bind {A B} (p : prog A) (f : A -> prog B) o :
  run (pbind p f) o =
    match run p o with
    | (O_ret a, o') => run (f a) o'
    | (O_exit st, o') => (O_exit st, o')
    | (O_stuck, o') => (O_stuck, o')
    end.
Proof.
  revert o. induction p as [a|c k IH|st|]; intros o; cbn [pbind run]; [done| |done..].
  destruct (os_call c o) as [r o']. apply IH.
Qed.

Lemma run_putcs bs o : run (putcs 1 bs) o = (O_ret tt, set_out (o_out o ++ bs) o).
Proof.
  revert o. induction bs as [|c bs IH]; intros o; cbn.
  - rewrite app_nil_r. by destruct o.
  - rewrite IH. cbn. by rewrite <- (assoc_L (++)).
Qed.
