(* ===== verification/Programs.v ===== *)
(** The small user programs: user/cat.c, echo.c, wc.c, kill.c, ln.c, mkdir.c,
    rm.c, sleep.c, zombie.c, pingpong.c, primes.c, init.c, ls.c, find.c, xargs.c,
    forktest.c and stressfs.c, as programs of system calls.

    main() of each program is named after it.  A loop that ends when a system
    call says so takes fuel, and [Stuck] is its end; the loops over arguments are
    over the list argv. *)
From S2P Require Import Prelude CInt KString KState Ulib Usys.

Section programs.
#[local] Open Scope prog_scope.

(** [fprintf(fd, fmt, ...)] of a string that ends a line. *)
Definition line (fd : Z) (fmt : string) (ap : list uarg) : prog unit := printf fd (fmt +:+ nl) ap.

(** * cat.c *)

Fixpoint cat (fuel : nat) (fd : Z) : prog unit :=
  match fuel with
  | O => Stuck
  | S fuel' =>
      r <~ read fd 512 ;
      let '(n, buf) := r in
      if 0 <? n then
        w <~ write 1 buf ;
        if negb (w =? n) then line 2 "cat: write error" [] ~> Exit 1
        else cat fuel' fd
      else if n <? 0 then line 2 "cat: read error" [] ~> Exit 1
      else Ret tt
  end.

Definition cat_main (fuel : nat) (argv : list (list Z)) : prog unit :=
  if (length argv <=? 1)%nat then cat fuel 0 ~> Exit 0
  else
    pfor (fun a =>
      fd <~ open a 0 ;
      if fd <? 0 then line 2 "cat: cannot open %s" [U_str (Some a)] ~> Exit 1
      else cat fuel fd ~> close fd ~> Ret tt) (tail argv) ~>
    Exit 0.

(** * echo.c *)

Fixpoint echo_args (args : list (list Z)) : prog unit :=
  match args with
  | [] => Ret tt
  | a :: args' =>
      write 1 a ~>
      write 1 (match args' with [] => [10] | _ => [32] end) ~>
      echo_args args'
  end.

Definition echo_main (argv : list (list Z)) : prog unit := echo_args (tail argv) ~> Exit 0.

(** * wc.c *)

(** The counters: lines, words, characters, and inword. *)
Record counts := mk_counts { wc_l : Z; wc_w : Z; wc_c : Z; inword : bool }.

Definition wc_space (ch : Z) : bool := bool_decide (is_Some (strchr [32; 13; 9; 10; 11] ch)).

Definition wc_char (s : counts) (ch : Z) : counts :=
  let c := i32 (wc_c s + 1) in
  let l := if ch =? 10 then i32 (wc_l s + 1) else wc_l s in
  if wc_space ch then mk_counts l (wc_w s) c false
  else if negb (inword s) then mk_counts l (i32 (wc_w s + 1)) c true
  else mk_counts l (wc_w s) c true.

Fixpoint wc_loop (fuel : nat) (fd : Z) (s : counts) : prog counts :=
  match fuel with
  | O => Stuck
  | S fuel' =>
      r <~ read fd 512 ;
      let '(n, buf) := r in
      if 0 <? n then wc_loop fuel' fd (foldl wc_char s buf)
      else if n <? 0 then line 1 "wc: read error" [] ~> Exit 1
      else Ret s
  end.

Definition wc (fuel : nat) (fd : Z) (name : list Z) : prog unit :=
  s <~ wc_loop fuel fd (mk_counts 0 0 0 false) ;
  line 1 "%d %d %d %s" [U_int (wc_l s); U_int (wc_w s); U_int (wc_c s); U_str (Some name)].

Definition wc_main (fuel : nat) (argv : list (list Z)) : prog unit :=
  if (length argv <=? 1)%nat then wc fuel 0 [] ~> Exit 0
  else
    pfor (fun a =>
      fd <~ open a 0 ;
      if fd <? 0 then line 1 "wc: cannot open %s" [U_str (Some a)] ~> Exit 1
      else wc fuel fd a ~> close fd ~> Ret tt) (tail argv) ~>
    Exit 0.

(** * kill.c, ln.c, mkdir.c, rm.c, sleep.c, zombie.c *)

Definition kill_main (argv : list (list Z)) : prog unit :=
  if (length argv <? 2)%nat then line 2 "usage: kill pid..." [] ~> Exit 1
  else pfor (fun a => sys (C_kill (atoi a)) ~> Ret tt) (tail argv) ~> Exit 0.

Definition ln_main (argv : list (list Z)) : prog unit :=
  match argv with
  | [_; old; new] =>
      r <~ sys (C_link old new) ;
      (if r <? 0 then line 2 "link %s %s: failed" [U_str (Some old); U_str (Some new)] else Ret tt) ~>
      Exit 0
  | _ => line 2 "Usage: ln old new" [] ~> Exit 1
  end.

Fixpoint mkdir_args (args : list (list Z)) : prog unit :=
  match args with
  | [] => Ret tt
  | a :: args' =>
      r <~ sys (C_mkdir a) ;
      if r <? 0 then line 2 "mkdir: %s failed to create" [U_str (Some a)]
      else mkdir_args args'
  end.

Definition mkdir_main (argv : list (list Z)) : prog unit :=
  if (length argv <? 2)%nat then line 2 "Usage: mkdir files..." [] ~> Exit 1
  else mkdir_args (tail argv) ~> Exit 0.

Fixpoint rm_args (args : list (list Z)) : prog unit :=
  match args with
  | [] => Ret tt
  | a :: args' =>
      r <~ sys (C_unlink a) ;
      if r <? 0 then line 2 "rm: %s failed to delete" [U_str (Some a)]
      else rm_args args'
  end.

Definition rm_main (argv : list (list Z)) : prog unit :=
  if (length argv <? 2)%nat then line 2 "Usage: rm files..." [] ~> Exit 1
  else rm_args (tail argv) ~> Exit 0.

Definition sleep_main (argv : list (list Z)) : prog unit :=
  match argv with
  | _ :: a :: _ =>
      r <~ sys (C_sleep (atoi a)) ;
      if r =? -1 then Exit 1 else Exit 0
  | _ => line 2 "usage: sheep [seconds]" [] ~> Exit 1
  end.

Definition zombie_main : prog unit :=
  pid <~ sys C_fork ;
  (* Let child exit before parent. *)
  (if 0 <? pid then sys (C_sleep 5) ~> Ret tt else Ret tt) ~>
  Exit 0.
(** * pingpong.c *)

Definition pingpong_main : prog unit :=
  r1 <~ sysd C_pipe ;
  r2 <~ sysd C_pipe ;
  let p1 := r1.2 in let p2 := r2.2 in
  pid <~ sys C_fork ;
  (if pid =? 0 then
     close p1.[1] ~>
     close p2.[0] ~>
     read p1.[0] 1 ~>
     me <~ sys C_getpid ;
     line 1 "%d: received ping" [U_int me] ~>
     write p2.[1] [97] ~>
     close p1.[0] ~>
     close p2.[1] ~> Ret tt
   else
     close p1.[0] ~>
     close p2.[1] ~>
     write p1.[1] [97] ~>
     read p2.[0] 1 ~>
     me <~ sys C_getpid ;
     line 1 "%d: received pong" [U_int me] ~>
     close p1.[1] ~>
     close p2.[0] ~> Ret tt) ~>
  Exit 0.

(** * primes.c *)

(** The array p[2][2], indexed modulo 2. *)
Definition pipes : Type := list Z * list Z.
Definition pipe_at (p : pipes) (d : Z) : list Z := if Z.rem d 2 =? 0 then p.1 else p.2.
Definition pipe_put (p : pipes) (d : Z) (fds : list Z) : pipes := if Z.rem d 2 =? 0 then (fds, p.2) else (p.1, fds).

Definition read_int (fd : Z) : prog (option Z) :=
  r <~ read fd 4 ;
  if r.1 =? 0 then Ret None
  else if r.1 <? 4 then Stuck (* the variable is not initialised *)
  else Ret (Some (i32 (ldl32 r.2 0))).

Definition write_int (fd v : Z) : prog Z := write fd (le_bytes 4 v).

(** The second loop: filter the numbers into the next pipe. *)
Fixpoint primes_filter (fuel : nat) (p : pipes) (d prime : Z) : prog unit :=
  match fuel with
  | O => Stuck
  | S fuel' =>
      num <~ read_int (pipe_at p (d - 1)).[0] ;
      match num with
      | None =>
          close (pipe_at p d).[1] ~>
          close (pipe_at p (d - 1)).[0] ~>
          sys C_wait ~>
          Exit 0
      | Some num =>
          (if negb (Z.rem num prime =? 0) then write_int (pipe_at p d).[1] num ~> Ret tt else Ret tt) ~>
          primes_filter fuel' p d prime
      end
  end.

(** The first loop: the first number that passes starts the next process, which
    goes on in the same loop. *)
Fixpoint primes_scan (fuel : nat) (p : pipes) (d prime : Z) : prog unit :=
  match fuel with
  | O => Stuck
  | S fuel' =>
      num <~ read_int (pipe_at p (d - 1)).[0] ;
      match num with
      | None =>
          close (pipe_at p (d - 1)).[0] ~>
          sys C_wait ~>
          Exit 0
      | Some num =>
          if negb (Z.rem num prime =? 0) then
            r <~ sysd C_pipe ;
            let p := pipe_put p d r.2 in
            pid <~ sys C_fork ;
            if pid =? 0 then
              let d := d + 1 in
              close (pipe_at p (d - 1)).[1] ~>
              first <~ read_int (pipe_at p (d - 1)).[0] ;
              match first with
              | None => close (pipe_at p (d - 1)).[0] ~> Exit 0
              | Some prime => line 1 "prime %d" [U_int prime] ~> primes_scan fuel' p d prime
              end
            else
              close (pipe_at p d).[0] ~>
              write_int (pipe_at p d).[1] num ~>
              primes_filter fuel' p d prime
          else primes_scan fuel' p d prime
      end
  end.

Definition primes_main (fuel : nat) : prog unit :=
  r <~ sysd C_pipe ;
  let p := (r.2, []) in
  pid <~ sys C_fork ;
  if pid =? 0 then
    let d := 1 in
    close (pipe_at p (d - 1)).[1] ~>
    prime <~ read_int (pipe_at p (d - 1)).[0] ;
    match prime with
    | None => Stuck
    | Some prime => line 1 "prime %d" [U_int prime] ~> primes_scan fuel p d prime
    end
  else
    close (pipe_at p 0).[0] ~>
    pfor (fun i => write_int (pipe_at p 0).[1] (Z.of_nat i) ~> Ret tt) (seq 2 34) ~>
    close (pipe_at p 0).[1] ~>
    sys C_wait ~>
    Exit 0.

(** * init.c *)

Definition CONSOLE : Z := 1.

(** The inner loop: [true] when the shell has exited. *)
Fixpoint init_wait (fuel : nat) (pid : Z) : prog unit :=
  match fuel with
  | O => Stuck
  | S fuel' =>
      wpid <~ sys C_wait ;
      if wpid =? pid then Ret tt
      else if wpid <? 0 then line 1 "init: wait returned an error" [] ~> Exit 1
      else init_wait fuel' pid
  end.

Fixpoint init_loop (fuel : nat) : prog unit :=
  match fuel with
  | O => Stuck
  | S fuel' =>
      line 1 "init: starting sh" [] ~>
      pid <~ sys C_fork ;
      if pid <? 0 then line 1 "init: fork failed" [] ~> Exit 1
      else if pid =? 0 then
        sys (C_exec (bstr "sh") [bstr "sh"]) ~>
        line 1 "init: exec sh failed" [] ~>
        Exit 1
      else init_wait fuel pid ~> init_loop fuel'
  end.

Definition init_main (fuel : nat) : prog unit :=
  fd <~ open (bstr "console") O_RDWR ;
  (if fd <? 0 then
     sys (C_mknod (bstr "console") CONSOLE 0) ~>
     open (bstr "console") O_RDWR ~> Ret tt
   else Ret tt) ~>
  sys (C_dup 0) ~> (* stdout *)
  sys (C_dup 0) ~> (* stderr *)
  init_loop fuel.
(** * ls.c *)

(** The fields of struct stat and struct dirent. *)
Definition st_ino (st : list Z) : Z := ldl32 st 4.
Definition st_type (st : list Z) : Z := i16 (ldl16 st 8).
Definition st_size (st : list Z) : Z := le_val (ldl st 16 8).
Definition de_inum (de : list Z) : Z := ldl16 de 0.
Definition de_name (de : list Z) : list Z := ldl de 2 DIRSIZ.

(** The loop from the end of the path back to the last slash. *)
Fixpoint after_slash (path : list Z) : list Z :=
  match path with
  | [] => []
  | c :: path' => if existsb (Z.eqb 47) path then after_slash path' else path
  end.

Definition fmtname (path : list Z) : list Z :=
  let p := after_slash path in
  if DIRSIZ <=? Z.of_nat (length p) then p
  else p ++ replicate (Z.to_nat DIRSIZ - length p) 32.

Fixpoint ls_entries (fuel : nat) (fd : Z) (path : list Z) : prog unit :=
  match fuel with
  | O => Stuck
  | S fuel' =>
      r <~ read fd 16 ;
      let '(n, de) := r in
      if negb (n =? 16) then Ret tt
      else if de_inum de =? 0 then ls_entries fuel' fd path
      else
        let buf := path ++ [47] ++ cstring_at (de_name de) in
        rs <~ stat buf ;
        let '(e, st) := rs in
        (if e <? 0 then line 1 "ls: cannot stat %s" [U_str (Some buf)]
         else line 1 "%s %d %d %d" [U_str (Some (fmtname buf)); U_int (st_type st); U_int (st_ino st); U_int (st_size st)]) ~>
        ls_entries fuel' fd path
  end.

Definition ls (fuel : nat) (path : list Z) : prog unit :=
  fd <~ open path 0 ;
  if fd <? 0 then line 2 "ls: cannot open %s" [U_str (Some path)]
  else
    rs <~ sysd (C_fstat fd) ;
    let '(e, st) := rs in
    if e <? 0 then line 2 "ls: cannot stat %s" [U_str (Some path)] ~> close fd ~> Ret tt
    else
      (if (st_type st =? T_DEVICE) || (st_type st =? T_FILE) then
         line 1 "%s %d %d %l" [U_str (Some (fmtname path)); U_int (st_type st); U_int (st_ino st); U_long (st_size st)]
       else if st_type st =? T_DIR then
         if 512 <? Z.of_nat (length path) + 1 + DIRSIZ + 1 then line 1 "ls: path too long" []
         else ls_entries fuel fd path
       else Ret tt) ~>
      close fd ~> Ret tt.

Definition ls_main (fuel : nat) (argv : list (list Z)) : prog unit :=
  if (length argv <? 2)%nat then ls fuel [46] ~> Exit 0
  else pfor (ls fuel) (tail argv) ~> Exit 0.

(** * find.c

    buf[512] is not initialised, nor is the memory behind the entry de: [junk]
    and [behind] are what they hold.  A name of DIRSIZ characters has no NUL, and
    find() adds none. *)
Section find.
Context (junk behind : list Z).

(** [find] with the calls for the subdirectories as an argument; [buf] is the
    array, [p] the place behind the slash. *)
Fixpoint find_entries (fuel : nat) (rec : list Z -> prog unit) (fd : Z) (buf : list Z) (p : nat) (tarFile : list Z) : prog unit :=
  match fuel with
  | O => Stuck
  | S fuel' =>
      r <~ read fd 16 ;
      let '(n, de) := r in
      if negb (n =? 16) then Ret tt
      else if de_inum de =? 0 then find_entries fuel' rec fd buf p tarFile
      else if (512 <? p + Z.to_nat DIRSIZ)%nat then Stuck
      else
        let buf := stl buf (Z.of_nat p) (de_name de) in
        rs <~ stat (cstring_at buf) ;
        let '(e, st) := rs in
        (if e <? 0 then line 1 "find: cannot stat %s" [U_str (Some (cstring_at buf))]
         else if st_type st =? T_DIR then
           if negb (strcmp (de_name de ++ behind) [46] =? 0) && negb (strcmp (de_name de ++ behind) [46; 46] =? 0)
           then rec (cstring_at buf)
           else Ret tt
         else if strcmp (de_name de ++ behind) tarFile =? 0 then line 1 "%s" [U_str (Some (cstring_at buf))]
         else Ret tt) ~>
        find_entries fuel' rec fd buf p tarFile
  end.

Fixpoint find (fuel : nat) (tarFile path : list Z) : prog unit :=
  match fuel with
  | O => Stuck
  | S fuel' =>
      fd <~ open path 0 ;
      if fd <? 0 then line 2 "find: cannot open %s" [U_str (Some path)]
      else
        rs <~ sysd (C_fstat fd) ;
        let '(e, st) := rs in
        if e <? 0 then line 2 "find: cannot stat %s" [U_str (Some path)] ~> close fd ~> Ret tt
        else if (st_type st =? T_DEVICE) || (st_type st =? T_FILE) then
          line 2 "find: %s is not a dirctory" [U_str (Some path)]
        else if st_type st =? T_DIR then
          if (512 <? length path + 1)%nat then Stuck
          else find_entries fuel (find fuel' tarFile) fd (stl junk 0 (path ++ [47])) (length path + 1) tarFile
        else Ret tt
  end.

Definition find_main (fuel : nat) (argv : list (list Z)) : prog unit :=
  match argv with
  | [_; file] => find fuel file [46] ~> Exit 0
  | _ :: dir :: file :: _ => find fuel file dir ~> Exit 0
  | _ => line 2 "usage: find [dir] [file]" [] ~> Exit 1
  end.
End find.

(** * xargs.c

    execArgv[] is not initialised and main() does not end it: [rest] are the
    arguments that exec() finds behind the last one. *)

Fixpoint xargs_loop (fuel : nat) (rest : list (list Z)) (command : list Z) (args : list (list Z)) (buf : list Z) : prog unit :=
  match fuel with
  | O => Stuck
  | S fuel' =>
      r <~ read 0 1 ;
      let '(n, chs) := r in
      if n =? 0 then Exit 0
      else if n <? 0 then Stuck (* ch is not initialised *)
      else if (512 <=? length buf)%nat then Stuck
      else if chs.[0] =? 10 then
        pid <~ sys C_fork ;
        if pid =? 0 then
          sys (C_exec command (command :: args ++ [cstring_at buf] ++ rest)) ~>
          Exit 0
        else sys C_wait ~> xargs_loop fuel' rest command args []
      else xargs_loop fuel' rest command args (buf ++ [chs.[0]])
  end.

Definition xargs_main (fuel : nat) (rest : list (list Z)) (argv : list (list Z)) : prog unit :=
  match argv with
  | _ :: command :: args => xargs_loop fuel rest command args []
  | _ => line 2 "usage: xargs [command]" [] ~> Exit 1
  end.

(** * forktest.c, stressfs.c *)

(** The first loop of forktest(), [m] turns before N: how many children there
    are. *)
Fixpoint forktest_fork (m : nat) (n : nat) : prog nat :=
  match m with
  | O => Ret n
  | S m' =>
      pid <~ sys C_fork ;
      if pid <? 0 then Ret n
      else if pid =? 0 then Exit 0
      else forktest_fork m' (S n)
  end.

Fixpoint forktest_wait (n : nat) : prog unit :=
  match n with
  | O => Ret tt
  | S n' =>
      r <~ sys C_wait ;
      if r <? 0 then write 1 (bstr ("wait stopped early" +:+ nl)) ~> Exit 1
      else forktest_wait n'
  end.

Definition forktest_main : prog unit :=
  write 1 (bstr ("fork test" +:+ nl)) ~>
  n <~ forktest_fork 1000 0 ;
  (if (n =? 1000)%nat then write 1 (bstr ("fork claimed to work N times!" +:+ nl)) ~> Exit 1 else Ret tt) ~>
  forktest_wait n ~>
  r <~ sys C_wait ;
  (if negb (r =? -1) then write 1 (bstr ("wait got too many" +:+ nl)) ~> Exit 1 else Ret tt) ~>
  write 1 (bstr ("fork test OK" +:+ nl)) ~>
  Exit 0.

(** The loop that forks: the value of i after it. *)
Fixpoint stressfs_fork (m : nat) (i : Z) : prog Z :=
  match m with
  | O => Ret i
  | S m' =>
      pid <~ sys C_fork ;
      if 0 <? pid then Ret i else stressfs_fork m' (i + 1)
  end.

Definition stressfs_main : prog unit :=
  line 1 "stressfs starting" [] ~>
  let data := replicate 512 97 in
  i <~ stressfs_fork 4 0 ;
  line 1 "write %d" [U_int i] ~>
  let path := bstr "stressfs" ++ [48 + i] in
  fd <~ open path (Z.lor O_CREATE O_RDWR) ;
  pfor (fun _ => write fd data ~> Ret tt) (seq 0 20) ~>
  close fd ~>
  line 1 "read" [] ~>
  fd <~ open path O_RDONLY ;
  pfor (fun _ => read fd 512 ~> Ret tt) (seq 0 20) ~>
  close fd ~>
  sys C_wait ~>
  Exit 0.
End programs.

(** * Runs of cat and wc *)

(** What the system calls do to the descriptors. *)
Lemma os_read o fd file : o_fds o !! fd = Some (Some file) ->
  exists k, (0 < k)%nat /\ os_call (C_read (Z.of_nat fd) 512) o =
    ((Z.of_nat (length (take k file)), take k file), set_fds (<[fd := Some (drop k file)]> (o_fds o)) o).
Proof.
  intros H. cbn [os_call]. rewrite Nat2Z.id, H. eexists. split; [|reflexivity]. lia.
Qed.

Lemma set_fds_again fds fds' o : set_fds fds (set_fds fds' o) = set_fds fds o.
Proof. done. Qed.

(** However read() divides the file, the characters are counted in order. *)
Lemma wc_loop_run fd : forall fuel file s o, o_fds o !! fd = Some (Some file) -> (length file < fuel)%nat ->
  run (wc_loop fuel (Z.of_nat fd) s) o = (O_ret (foldl wc_char s file), set_fds (<[fd := Some []]> (o_fds o)) o).
Proof.
  induction fuel as [|fuel IH]; intros file s o Hfd Hf; [lia|].
  destruct (os_read o fd file Hfd) as (k & Hk & E). cbn [wc_loop]. rewrite run_bind. unfold read, sysd. cbn [run]. rewrite E.
  cbn [run]. destruct (Z.ltb_spec 0 (Z.of_nat (length (take k file)))) as [H|H].
  - rewrite length_take in H.
    rewrite (IH (drop k file)); [|cbn; rewrite list_lookup_insert, decide_True; [done|]|].
    + rewrite <- foldl_app, take_drop. cbn [o_fds set_fds]. by rewrite set_fds_again, list_insert_insert, decide_True by done.
    + split; [done|]. by eapply lookup_lt_Some.
    + rewrite length_drop. lia.
  - rewrite (proj2 (Z.ltb_ge _ _)) by lia. rewrite length_take in H.
    assert (file = []) as -> by (apply nil_length_inv; lia). by rewrite drop_nil.
Qed.

(** ** What wc counts *)

Definition lines (f : list Z) : Z := Z.of_nat (length (filter (fun c => c = 10) f)).

(** The file, divided at every white space. *)
Fixpoint pieces (f : list Z) : list (list Z) :=
  match f with
  | [] => [[]]
  | c :: f' =>
      if wc_space c then [] :: pieces f'
      else match pieces f' with [] => [[c]] | p :: ps => (c :: p) :: ps end
  end.

Definition words (ps : list (list Z)) : Z := Z.of_nat (length (filter (fun p => p <> []) ps)).

Lemma words_cons p ps : words (p :: ps) = (if decide (p <> []) then 1 else 0) + words ps.
Proof. unfold words. rewrite filter_cons. case_decide; cbn [length]; lia. Qed.

Lemma wc_counts_fold f : forall l w c b,
  0 <= l -> 0 <= w -> 0 <= c -> l <= c -> w <= c -> c + Z.of_nat (length f) < 2 ^ 31 ->
  exists b', foldl wc_char (mk_counts l w c b) f =
    mk_counts (l + lines f) (w + words (if b then tail (pieces f) else pieces f)) (c + Z.of_nat (length f)) b'.
Proof.
  induction f as [|x f IH]; intros l w c b Hl Hw Hc Hlc Hwc Hb.
  { exists b. cbn. by destruct b; cbn; rewrite !Z.add_0_r. }
  cbn [length] in Hb. cbn [foldl].
  assert (pieces f <> []) as Hne by (destruct f as [|y f']; cbn; [done|]; destruct (wc_space y); [done|]; by destruct (pieces f')).
  assert (lines (x :: f) = (if x =? 10 then 1 else 0) + lines f) as El.
  { unfold lines. rewrite filter_cons. destruct (Z.eqb_spec x 10); [rewrite decide_True by done|rewrite decide_False by done]; cbn [length]; lia. }
  set (l' := l + if x =? 10 then 1 else 0).
  assert (forall w' b0, wc_char (mk_counts l w c b) x = mk_counts l' w' (c + 1) b0 -> w <= w' <= w + 1 ->
    w + words (if b then tail (pieces (x :: f)) else pieces (x :: f)) = w' + words (if b0 then tail (pieces f) else pieces f) ->
    exists b', foldl wc_char (wc_char (mk_counts l w c b) x) f =
      mk_counts (l + lines (x :: f)) (w + words (if b then tail (pieces (x :: f)) else pieces (x :: f)))
        (c + Z.of_nat (length (x :: f))) b') as Hstep.
  { intros w' b0 -> Hw' Ew. destruct (IH l' w' (c + 1) b0) as [b' ->]; [unfold l'; destruct (x =? 10); lia..|]. exists b'.
    rewrite El, Ew. f_equal; [unfold l'; lia|cbn [length]; lia]. }
  unfold wc_char in *. cbn [wc_l wc_w wc_c inword] in *. rewrite (i32_small (c + 1)) in * by lia.
  replace (if x =? 10 then i32 (l + 1) else l) with l' in *
    by (unfold l'; destruct (x =? 10); [rewrite i32_small|]; lia).
  cbn [pieces] in *. destruct (wc_space x) eqn:Ex; [|destruct (pieces f) as [|p ps]; [done|]; destruct b; cbn [negb] in *].
  - apply (Hstep w false); [done|lia|]. destruct b; cbn [tail]; [done|]. by rewrite words_cons, decide_False by tauto.
  - apply (Hstep w true); [done|lia|done].
  - rewrite (i32_small (w + 1)) in * by lia. apply (Hstep (w + 1) true); [done|lia|].
    rewrite words_cons, decide_True by done. cbn [tail]. lia.
Qed.

(** ** wc *)

Lemma lowest_le i fds : (i <= lowest i fds <= i + length fds)%nat.
Proof.
  revert i. induction fds as [|[f|] fds IH]; intros i; cbn [lowest length]; [lia| |lia]. specialize (IH (S i)). lia.
Qed.

(** open() of a file that is there gives a descriptor for it. *)
Lemma os_open o path mode file : o_files o path = Some file ->
  exists fd fds, os_call (C_open path mode) o = ((Z.of_nat fd, []), set_fds fds o) /\ fds !! fd = Some (Some file).
Proof.
  intros H. cbn [os_call]. rewrite H. eexists _, _. split; [reflexivity|].
  pose proof (lowest_le 0 (o_fds o)). rewrite lookup_app_r; rewrite length_take_le by lia; [|done]. by rewrite Nat.sub_diag.
Qed.

Definition num (z : Z) : list Z := uprintint z 10 true.

Definition wc_line (nf : list Z * list Z) : list Z :=
  num (lines nf.2) ++ [32] ++ num (words (pieces nf.2)) ++ [32] ++ num (Z.of_nat (length nf.2)) ++ [32] ++ nf.1 ++ [10].

Lemma run_line fmt ap out o : fprintf (fmt +:+ nl) ap = Some out ->
  run (line 1 fmt ap) o = (O_ret tt, set_out (o_out o ++ out) o).
Proof. intros E. unfold line, printf. rewrite E. apply run_putcs. Qed.

Lemma wc_format l w c name : fprintf ("%d %d %d %s" +:+ nl) [U_int l; U_int w; U_int c; U_str (Some name)] =
  Some (num l ++ [32] ++ num w ++ [32] ++ num c ++ [32] ++ name ++ [10]).
Proof. done. Qed.

Lemma wc_file_run fuel name file o :
  o_files o name = Some file -> (length file < fuel)%nat -> Z.of_nat (length file) < 2 ^ 31 ->
  exists o', run (fd <~ open name 0 ;
      if fd <? 0 then line 1 "wc: cannot open %s" [U_str (Some name)] ~> Exit 1
      else wc fuel fd name ~> close fd ~> Ret tt)%prog o = (O_ret tt, o') /\
    o_files o' = o_files o /\ o_err o' = o_err o /\ o_out o' = o_out o ++ wc_line (name, file).
Proof.
  intros Hf Hfu Hl. destruct (os_open o name 0 file Hf) as (fd & fds & E & Hfd).
  rewrite run_bind. unfold open, sys. cbn [run]. rewrite E. cbn [run fst]. rewrite (proj2 (Z.ltb_ge _ _)) by lia.
  unfold wc. rewrite run_bind, run_bind. rewrite (wc_loop_run fd fuel file) by done.
  destruct (wc_counts_fold file 0 0 0 false) as [b' ->]; [lia..|]. cbn [wc_l wc_w wc_c Z.add].
  rewrite (run_line _ _ _ _ (wc_format _ _ _ _)). eexists. split; [reflexivity|]. by split_and!.
Qed.

(** C34: wc prints, for every file and in the order of the arguments, the number
    of newlines, of words (the runs of characters that are not white space) and
    of characters, and the name, however read() divides the files; and exits with
    0. *)
Theorem wc_correct fuel arg0 nfs o :
  nfs <> [] ->
  Forall (fun nf => o_files o nf.1 = Some nf.2 /\ (length nf.2 < fuel)%nat /\ Z.of_nat (length nf.2) < 2 ^ 31) nfs ->
  exists o', run (wc_main fuel (arg0 :: nfs.*1)) o = (O_exit 0, o') /\
    o_err o' = o_err o /\ o_out o' = o_out o ++ concat (wc_line <$> nfs).
Proof.
  intros Hne Hall. unfold wc_main. cbn [length]. rewrite length_fmap.
  destruct (Nat.leb_spec (S (length nfs)) 1); [destruct nfs; [done|cbn in *; lia]|]. cbn [tail]. rewrite run_bind.
  clear Hne H. set (p := pfor _ _).
  assert (exists o', run p o = (O_ret tt, o') /\ o_err o' = o_err o /\ o_out o' = o_out o ++ concat (wc_line <$> nfs))
    as (o' & -> & He & Ho); [|by exists o'].
  unfold p. clear p. revert o Hall. induction nfs as [|[name file] nfs IH]; intros o Hall.
  { exists o. cbn. by rewrite (right_id_L [] (++)). }
  apply list.Forall_cons in Hall as [(Hf & Hfu & Hl) Hall]. cbn [fst snd] in *.
  destruct (wc_file_run fuel name file o Hf Hfu Hl) as (o1 & E1 & F1 & R1 & W1).
  change ((name, file) :: nfs).*1 with (name :: nfs.*1). cbn [pfor]. rewrite run_bind, E1.
  destruct (IH o1) as (o2 & E2 & R2 & W2).
  - eapply list.Forall_impl; [exact Hall|]. intros nf. cbn. by rewrite F1.
  - exists o2. split_and!; [done|by rewrite R2|]. rewrite W2, W1, fmap_cons. cbn [concat]. by rewrite <- (assoc_L (++)).
Qed.

(** One file, "a b" and a newline, read a byte at a time. *)
Definition wc_os : os := mk_os (fun n => if decide (n = [102]) then Some [97; 32; 98; 10] else None)
  [Some []; Some []; Some []] [] [] [] (fun _ => 0%nat) (fun _ => (0, [])).

Lemma wc_correct_witness : exists o',
  run (wc_main 5 [bstr "wc"; [102]]) wc_os = (O_exit 0, o') /\ o_out o' = bstr ("1 2 4 f" +:+ nl).
Proof.
  destruct (wc_correct 5 (bstr "wc") [([102], [97; 32; 98; 10])] wc_os) as (o' & E & _ & Ho); [done| |].
  - repeat constructor.
  - exists o'. split; [exact E|]. rewrite Ho. reflexivity.
Defined.
