(* ===== verification/Umalloc.v ===== *)
(** user/umalloc.c: malloc() and free().

    Memory is counted in units of a Header, 16 bytes: [p + 1] is the next header,
    as in C.  The state are the two fields of the headers and the pointer freep,
    0 if it is null.  What lies between the headers belongs to the program and
    is not in the model.  sbrk() is an argument: it gives the place of the new
    memory, or nothing. *)
From S2P Require Import Prelude CInt.

Definition sizeof_Header : Z := 16.

(** The address of the static variable base. *)
Section umalloc.
Context (base : Z).

Record heap := mk_heap { h_ptr : Z -> Z; h_size : Z -> Z; freep : Z }.

Definition upd (f : Z -> Z) (a v : Z) : Z -> Z := fun x => if x =? a then v else f x.
Definition set_ptr (p v : Z) (h : heap) : heap := mk_heap (upd (h_ptr h) p v) (h_size h) (freep h).
Definition set_size (p v : Z) (h : heap) : heap := mk_heap (h_ptr h) (upd (h_size h) p v) (freep h).
Definition set_freep (p : Z) (h : heap) : heap := mk_heap (h_ptr h) (h_size h) p.

(** The loop of free(): the block after which [bp] belongs. *)
Fixpoint free_find (fuel : nat) (h : heap) (bp p : Z) : option Z :=
  match fuel with
  | O => None
  | S fuel' =>
      if (bp >? p) && (bp <? h_ptr h p) then Some p
      else if (p >=? h_ptr h p) && ((bp >? p) || (bp <? h_ptr h p)) then Some p
      else free_find fuel' h bp (h_ptr h p)
  end.

Definition free (fuel : nat) (ap : Z) (h : heap) : option heap :=
  let bp := ap - 1 in
  match free_find fuel h bp (freep h) with
  | None => None
  | Some p =>
      let h :=
        if bp + h_size h bp =? h_ptr h p then
          let h1 := set_size bp (u32 (h_size h bp + h_size h (h_ptr h p))) h in
          set_ptr bp (h_ptr h1 (h_ptr h1 p)) h1
        else set_ptr bp (h_ptr h p) h in
      let h :=
        if p + h_size h p =? bp then
          let h1 := set_size p (u32 (h_size h p + h_size h bp)) h in
          set_ptr p (h_ptr h1 bp) h1
        else set_ptr p bp h in
      Some (set_freep p h)
  end.

(** morecore(): the new freep, 0 when there is no more memory.  sbrk() takes an
    int. *)
Definition morecore (fuel : nat) (sbrk : Z -> option Z) (nu : Z) (h : heap) : option (Z * heap) :=
  let nu := if nu <? 4096 then 4096 else nu in
  match sbrk (i32 (nu * sizeof_Header)) with
  | None => Some (0, h)
  | Some hp =>
      let h := set_size hp nu h in
      match free fuel (hp + 1) h with
      | None => None
      | Some h => Some (freep h, h)
      end
  end.

(** The loop of malloc(): the address it returns, 0 for none. *)
Fixpoint malloc_loop (fuel : nat) (sbrk : Z -> option Z) (nunits prevp p : Z) (h : heap) : option (Z * heap) :=
  match fuel with
  | O => None
  | S fuel' =>
      if h_size h p >=? nunits then
        if h_size h p =? nunits then
          let h := set_ptr prevp (h_ptr h p) h in
          Some (p + 1, set_freep prevp h)
        else
          let h := set_size p (h_size h p - nunits) h in
          let p := p + h_size h p in
          let h := set_size p nunits h in
          Some (p + 1, set_freep prevp h)
      else if p =? freep h then
        match morecore fuel' sbrk nunits h with
        | None => None
        | Some (p, h) =>
            if p =? 0 then Some (0, h)
            else malloc_loop fuel' sbrk nunits p (h_ptr h p) h
        end
      else malloc_loop fuel' sbrk nunits p (h_ptr h p) h
  end.

Definition malloc (fuel : nat) (sbrk : Z -> option Z) (nbytes : Z) (h : heap) : option (Z * heap) :=
  let nunits := u32 ((nbytes + sizeof_Header - 1) / sizeof_Header + 1) in
  let h :=
    if freep h =? 0 then set_size base 0 (set_ptr base base (set_freep base h)) else h in
  let prevp := freep h in
  malloc_loop fuel sbrk nunits prevp (h_ptr h prevp) h.

(** * The free list *)

(** A block: its address and its size. *)
Abbreviation block := (Z * Z)%type.

Definition first (e : Z) (l : list block) : Z := match l with (x, _) :: _ => x | [] => e end.

(** The blocks are linked in this order, the last one to [e]. *)
Fixpoint chain (h : heap) (l : list block) (e : Z) : Prop :=
  match l with
  | [] => True
  | (x, n) :: l' => h_ptr h x = first e l' /\ h_size h x = n /\ chain h l' e
  end.

(** The blocks come in the order of their addresses, are not empty, and there
    is a gap between any two. *)
Fixpoint apart_from (lo : Z) (l : list block) : Prop :=
  match l with
  | [] => True
  | (x, n) :: l' => lo < x /\ 0 < n /\ apart_from (x + n) l'
  end.

(** The invariant: the circular list is base and the blocks of [fl].  All are in
    an area whose size in units is a uint. *)
Record heap_inv (fl : list block) (h : heap) : Prop := {
  hi_base : 0 < base;
  hi_links : chain h ((base, 0) :: fl) base;
  hi_apart : apart_from base fl;
  hi_top : forall x n, (x, n) ∈ fl -> x + n <= base + 2 ^ 32;
  hi_freep : exists n, (freep h, n) ∈ (base, 0) :: fl
}.

(** The units of a list of blocks. *)
Definition covers (fl : list block) (u : Z) : Prop := exists x n, (x, n) ∈ fl /\ x <= u < x + n.

(** ** Lists of blocks *)

Lemma chain_app h l1 l2 e : chain h (l1 ++ l2) e <-> chain h l1 (first e l2) /\ chain h l2 e.
Proof.
  induction l1 as [|[x n] l1 IH]; cbn; [naive_solver|]. rewrite IH.
  assert (first e (l1 ++ l2) = first (first e l2) l1) as -> by (by destruct l1 as [|[]]). naive_solver.
Qed.

Fixpoint end_of (lo : Z) (l : list block) : Z := match l with (x, n) :: l' => end_of (x + n) l' | [] => lo end.

Lemma apart_app lo l1 l2 : apart_from lo (l1 ++ l2) <-> apart_from lo l1 /\ apart_from (end_of lo l1) l2.
Proof.
  revert lo. induction l1 as [|[x n] l1 IH]; intros lo; cbn [app apart_from end_of]; [naive_solver|]. rewrite IH.
  naive_solver.
Qed.

Lemma apart_bound lo l x n : apart_from lo l -> (x, n) ∈ l -> lo < x /\ 0 < n.
Proof.
  revert lo. induction l as [|[y k] l IH]; intros lo; cbn; [by intros _ ?%not_elem_of_nil|].
  intros (H1 & H2 & H3) [[= -> ->]|Hx]%elem_of_cons; [done|]. destruct (IH _ H3 Hx). split; [lia|done].
Qed.

Lemma apart_weaken lo lo' l : lo' <= lo -> apart_from lo l -> apart_from lo' l.
Proof. destruct l as [|[x n] l]; cbn; [done|]. intros ? (? & ? & ?). split_and!; [lia|done|done]. Qed.

Lemma end_of_ge lo l : apart_from lo l -> lo <= end_of lo l.
Proof.
  revert lo. induction l as [|[x n] l IH]; intros lo; cbn; [lia|]. intros (? & ? & H). apply IH in H. lia.
Qed.

Lemma end_of_bound lo l x n : apart_from lo l -> (x, n) ∈ l -> x + n <= end_of lo l.
Proof.
  revert lo. induction l as [|[y k] l IH]; intros lo; cbn; [by intros _ ?%not_elem_of_nil|].
  intros (_ & _ & H) [[= -> ->]|Hx]%elem_of_cons; [by apply end_of_ge in H|by apply IH].
Qed.

(** Fields of other blocks can change. *)
Lemma chain_ext h h' l e :
  (forall x n, (x, n) ∈ l -> h_ptr h' x = h_ptr h x /\ h_size h' x = h_size h x) -> chain h l e -> chain h' l e.
Proof.
  induction l as [|[x n] l IH]; cbn; [done|]. intros H (H1 & H2 & H3).
  destruct (H x n ltac:(set_solver)) as [-> ->]. split_and!; [done..|]. apply IH; [|done].
  intros y k Hy. apply (H y k). set_solver.
Qed.

(** ** The place of a block *)

(** The block [bp, bp+n) is above base and overlaps no free block. *)
Definition fresh (fl : list block) (bp n : Z) : Prop :=
  base < bp /\ 0 < n /\ bp + n <= base + 2 ^ 32 /\ forall x k, (x, k) ∈ fl -> bp + n <= x \/ x + k <= bp.

Definition below (bp : Z) (l : list block) : Prop := forall x k, (x, k) ∈ l -> x < bp /\ x + k <= bp.
Definition above (bp : Z) (l : list block) : Prop := forall x k, (x, k) ∈ l -> bp <= x.

Lemma split_blocks bp n l : forall lo, apart_from lo l -> 0 < n ->
  (forall x k, (x, k) ∈ l -> bp + n <= x \/ x + k <= bp) ->
  exists l1 l2, l = l1 ++ l2 /\ below bp l1 /\ above (bp + n) l2.
Proof.
  induction l as [|[x k] l IH]; intros lo Ha Hn Hd.
  - exists [], []. split_and!; [done|by intros ? ? ?%not_elem_of_nil..].
  - cbn in Ha. destruct Ha as (H1 & H2 & H3). destruct (Hd x k ltac:(set_solver)) as [Hlo|Hhi].
    + exists [], ((x, k) :: l). split_and!; [done|by intros ? ? ?%not_elem_of_nil|].
      intros y j [[= -> ->]|Hy]%elem_of_cons; [done|]. destruct (apart_bound _ _ _ _ H3 Hy). lia.
    + destruct (IH _ H3 Hn) as (l1 & l2 & -> & Hb & Hab); [intros y j Hy; apply Hd; set_solver|].
      exists ((x, k) :: l1), l2. split_and!; [done| |done]. intros y j [[= -> ->]|Hy]%elem_of_cons; [lia|by apply Hb].
Qed.

(** The circular list around the place of the block. *)
Lemma find_place fl h bp n : heap_inv fl h -> fresh fl bp n ->
  exists A p np B, (base, 0) :: fl = A ++ (p, np) :: B /\ below bp (A ++ [(p, np)]) /\ above (bp + n) B.
Proof.
  intros I (Hb & Hn & _ & Hd). destruct (split_blocks bp n fl base (hi_apart _ _ I) Hn Hd) as (l1 & l2 & -> & H1 & H2).
  destruct (exists_last (l := (base, 0) :: l1)) as (A & [p np] & E); [done|].
  exists A, p, np, l2. split_and!; [|rewrite <- E|done].
  - by rewrite cons_middle, (assoc_L (++)), <- E.
  - intros x k [[= -> ->]|Hx]%elem_of_cons; [lia|by apply H1].
Qed.

(** Addresses ascend. *)
Fixpoint asc (l : list block) : Prop :=
  match l with
  | (x, _) :: (((y, _) :: _) as l') => x < y /\ asc l'
  | _ => True
  end.

Lemma asc_app_r l1 l2 : asc (l1 ++ l2) -> asc l2.
Proof.
  induction l1 as [|[x n] l1 IH]; [done|]. intros H. apply IH. cbn in H.
  destruct (l1 ++ l2) as [|[]]; [done|by destruct H].
Qed.

Lemma apart_asc lo n l : 0 <= n -> apart_from (lo + n) l -> asc ((lo, n) :: l).
Proof.
  revert lo n. induction l as [|[x k] l IH]; intros lo n Hn; [done|]. intros (H1 & H2 & H3). split; [lia|].
  apply IH; [lia|done].
Qed.

Lemma asc_head x m l y k l2 : asc ((x, m) :: l ++ (y, k) :: l2) -> x < y.
Proof.
  revert x m. induction l as [|[z j] l IH]; intros x m; cbn [app].
  - by intros [? _].
  - intros [? H]. apply IH in H. lia.
Qed.

Lemma asc_before L y k R z j : asc (L ++ (y, k) :: R) -> (z, j) ∈ L -> z < y.
Proof.
  intros Hs Hz. apply list_elem_of_split in Hz as (A1 & A2 & ->). rewrite <- (assoc_L (++)) in Hs.
  apply asc_app_r in Hs. by eapply asc_head.
Qed.

Lemma asc_after L y k R z j : asc (L ++ (y, k) :: R) -> (z, j) ∈ R -> y < z.
Proof. intros Hs Hz. apply list_elem_of_split in Hz as (A1 & A2 & ->). apply asc_app_r in Hs. by eapply asc_head. Qed.

Lemma inv_asc fl h : heap_inv fl h -> asc ((base, 0) :: fl).
Proof. intros I. apply apart_asc; [done|]. rewrite Z.add_0_r. apply I. Qed.

(** Behind the place it goes on to base. *)
Lemma find_behind h bp B1 x m k : base < bp ->
  chain h ((x, m) :: B1) base -> asc ((x, m) :: B1) -> (forall y j, (y, j) ∈ (x, m) :: B1 -> bp < y) ->
  free_find (S (length B1) + k) h bp x = free_find k h bp base.
Proof.
  intros Hbase. revert x m. induction B1 as [|[y j] B1 IH]; intros x m HlB HsB HB1; cbn [length Nat.add free_find];
    destruct HlB as (-> & _ & HlB); cbn [first]; pose proof (HB1 x m ltac:(set_solver)).
  - destruct (_ && (bp <? base)) eqn:E1; [lia|]. destruct (_ && (_ || _)) eqn:E2; [lia|]. done.
  - pose proof (HB1 y j ltac:(set_solver)). cbn in HsB. destruct HsB as [Hxy HsB].
    destruct (_ && (bp <? y)) eqn:E1; [lia|]. destruct (_ && (_ || _)) eqn:E2; [lia|].
    apply (IH y j); [done|done|]. intros z i Hz. apply (HB1 z i). set_solver.
Qed.
Section find.
Context (h : heap) (bp p np : Z) (B : list block).
Hypothesis Hp : base <= p < bp.
Hypothesis HB : forall x k, (x, k) ∈ B -> bp < x.
Hypothesis Hl : chain h ((p, np) :: B) base.

(** The loop stops at [p]. *)
Lemma find_stop k : free_find (S k) h bp p = Some p.
Proof.
  cbn [free_find]. destruct Hl as (-> & _ & _). destruct (_ && (bp <? first base B)) eqn:E1; [done|].
  destruct (_ && (_ || _)) eqn:E2; [done|]. exfalso. destruct B as [|[q nq] B']; cbn [first] in *; [lia|].
  pose proof (HB q nq ltac:(set_solver)). lia.
Qed.

(** Before [p] it goes on. *)
Lemma find_before A k :
  chain h (A ++ (p, np) :: B) base -> asc (A ++ (p, np) :: B) -> (forall x j, (x, j) ∈ A -> x < bp) ->
  free_find (length A + S k) h bp (first p A) = Some p.
Proof.
  induction A as [|[x m] A IH]; intros HlA HsA HA; [apply find_stop|].
  cbn [length Nat.add free_find app chain first] in *. destruct HlA as (-> & _ & HlA).
  assert (first base (A ++ (p, np) :: B) = first p A) as E by (by destruct A as [|[]]). rewrite E.
  assert (x < first p A < bp) as Hy.
  { destruct A as [|[y j] A]; cbn in *; [lia|]. pose proof (HA y j ltac:(set_solver)). lia. }
  pose proof (HA x m ltac:(set_solver)).
  destruct (_ && (bp <? first p A)) eqn:E1; [lia|]. destruct (_ && (_ || _)) eqn:E2; [lia|].
  apply IH; [done|by eapply (asc_app_r [_])|]. intros y j Hy'. apply (HA y j). set_solver.
Qed.

End find.

(** The loop of free() finds the place, from wherever freep is. *)
Lemma free_find_run fl h bp n A p np B fuel :
  heap_inv fl h -> fresh fl bp n -> (base, 0) :: fl = A ++ (p, np) :: B ->
  below bp (A ++ [(p, np)]) -> above (bp + n) B -> (length fl + 2 <= fuel)%nat ->
  free_find fuel h bp (freep h) = Some p.
Proof.
  intros I (Hb & Hn & _) E HA HB Hf. pose proof (hi_links _ _ I) as Hl. pose proof (inv_asc _ _ I) as Hs.
  rewrite E in Hl, Hs. pose proof (f_equal length E) as El. rewrite length_app in El. cbn in El.
  assert (base <= p < bp) as Hp.
  { split; [|by apply (HA p np); set_solver]. assert ((p, np) ∈ (base, 0) :: fl) as [[= -> ->]|Hin]%elem_of_cons by (rewrite E; set_solver); [lia|].
    destruct (apart_bound _ _ _ _ (hi_apart _ _ I) Hin). lia. }
  assert (forall x k, (x, k) ∈ B -> bp < x) as HB' by (intros x k Hx; pose proof (HB x k Hx); lia).
  assert (forall x j, (x, j) ∈ A -> x < bp) as HA' by (intros x j Hx; apply (HA x j); set_solver).
  pose proof (proj2 (proj1 (chain_app _ _ _ _) Hl)) as HlB.
  destruct (hi_freep _ _ I) as [m Hm]. rewrite E in Hm. apply elem_of_app in Hm as [Hm|[Hm|Hm]%elem_of_cons].
  - apply list_elem_of_split in Hm as (A1 & A2 & ->). rewrite <- (assoc_L (++)) in Hl, Hs.
    apply chain_app in Hl as [_ Hl]. apply asc_app_r in Hs.
    replace fuel with (length ((freep h, m) :: A2) + S (fuel - S (S (length A2))))%nat
      by (rewrite length_app in El; cbn [length] in El |- *; lia).
    apply (find_before h bp p np B Hp HB' HlB ((freep h, m) :: A2)); [done|done|].
    intros x j Hx. apply (HA' x j). set_solver.
  - injection Hm as -> ->. destruct fuel as [|fuel]; [lia|]. by eapply find_stop.
  - apply list_elem_of_split in Hm as (B1 & B2 & ->).
    assert (chain h ((freep h, m) :: B2) base /\ asc ((freep h, m) :: B2)) as [HlF HsF].
    { split; [|apply asc_app_r in Hs; by apply (asc_app_r ((p, np) :: B1))].
      destruct HlB as (_ & _ & HlB). by apply chain_app in HlB as [_ HlB]. }
    replace fuel with (S (length B2) + (fuel - S (length B2)))%nat by (rewrite length_app in El; cbn [length] in El |- *; lia).
    rewrite (find_behind h bp B2 (freep h) m) by (done || (intros y j Hy; apply (HB' y j); set_solver)).
    assert (base = first p A) as E0 by (destruct A as [|[]]; injection E; by intros). rewrite E0.
    replace (fuel - S (length B2))%nat with (length A + S (fuel - S (length B2) - S (length A)))%nat
      by (rewrite length_app in El; cbn [length] in El |- *; lia).
    by eapply find_before.
Qed.

(** ** Joining blocks *)

(** Put the block [b] in front of [l], and join it with the first one of [l] if
    they touch: on the list, and on the headers. *)
Definition join (b : block) (l : list block) : list block :=
  match l with
  | (q, k) :: l' => if b.1 + b.2 =? q then (b.1, b.2 + k) :: l' else b :: l
  | [] => [b]
  end.

Definition link (a f : Z) (h : heap) : heap :=
  if a + h_size h a =? f then set_ptr a (h_ptr h f) (set_size a (u32 (h_size h a + h_size h f)) h)
  else set_ptr a f h.

Lemma free_link fuel ap h p : free_find fuel h (ap - 1) (freep h) = Some p ->
  free fuel ap h = Some (set_freep p (link p (ap - 1) (link (ap - 1) (h_ptr h p) h))).
Proof. unfold free. by intros ->. Qed.

Lemma link_other a f h x : x <> a -> h_ptr (link a f h) x = h_ptr h x /\ h_size (link a f h) x = h_size h x.
Proof. intros Hx. unfold link. destruct (_ =? f); cbn; unfold upd; by rewrite (proj2 (Z.eqb_neq x a) Hx). Qed.

Lemma link_join h a n l :
  chain h l base -> h_size h a = n -> (forall q k, (q, k) ∈ l -> q <> a /\ (a + n = q -> 0 <= n + k < 2 ^ 32)) ->
  (l = [] -> a + n <> base) -> chain (link a (first base l) h) (join (a, n) l) base.
Proof.
  intros Hl Hn Ho He.
  assert (forall l', (forall b, b ∈ l' -> b ∈ l) -> chain h l' base -> chain (link a (first base l) h) l' base) as Hk.
  { intros l' Hs. apply chain_ext. intros x k Hx. apply link_other. by apply (Ho x k), Hs. }
  destruct l as [|[q k] l]; cbn [join first fst snd] in *.
  - unfold link. rewrite Hn, (proj2 (Z.eqb_neq _ _) (He eq_refl)). cbn. unfold upd. rewrite Z.eqb_refl. done.
  - destruct (Ho q k ltac:(set_solver)) as [Hq Hr]. destruct (a + n =? q) eqn:E; cbn [chain].
    + split_and!; [| |apply Hk; [set_solver|by destruct Hl as (_ & _ & Hl)]];
        unfold link; rewrite Hn, E; cbn; unfold upd; rewrite Z.eqb_refl; destruct Hl as (H1 & H2 & _).
      * done.
      * rewrite H2. unfold u32. rewrite Z.mod_small; [done|]. apply Hr. lia.
    + change (h_ptr (link a q h) a = q /\ h_size (link a q h) a = n /\ chain (link a q h) ((q, k) :: l) base).
      split; [|split; [|by apply Hk]]; unfold link; rewrite Hn, E; cbn; [|done]. unfold upd. by rewrite Z.eqb_refl.
Qed.

Lemma join_covers b l u : 0 <= b.2 -> (forall q k, (q, k) ∈ l -> 0 <= k) -> covers (join b l) u <-> covers (b :: l) u.
Proof.
  intros Hb Hl. destruct b as [a n], l as [|[q k] l]; cbn in *; [done|]. destruct (a + n =? q) eqn:E; [|done].
  pose proof (Hl q k ltac:(set_solver)). unfold covers. split.
  - intros (x & m & [[= -> ->]|Hx]%elem_of_cons & Hu); [|exists x, m; split; [set_solver|done]].
    destruct (decide (u < a + n)); [exists a, n|exists q, k]; (split; [set_solver|lia]).
  - intros (x & m & [[= -> ->]|[[= -> ->]|Hx]%elem_of_cons]%elem_of_cons & Hu).
    + exists a, (n + k). split; [set_solver|lia].
    + exists a, (n + k). split; [set_solver|lia].
    + exists x, m. split; [set_solver|done].
Qed.

Lemma join_apart lo lo' a n l : lo < a -> 0 < n -> apart_from lo' l -> above (a + n) l -> apart_from lo (join (a, n) l).
Proof.
  intros H1 H2 Hl Ha. destruct l as [|[q k] l]; cbn in *; [done|]. destruct Hl as (H3 & H4 & H5).
  pose proof (Ha q k ltac:(set_solver)). destruct (a + n =? q) eqn:E; cbn.
  - split_and!; [done|lia|]. by replace (a + (n + k)) with (q + k) by lia.
  - split_and!; [done..|lia|done|done].
Qed.

Lemma join_elem x k b l : (x, k) ∈ join b l ->
  (x, k) ∈ b :: l \/ exists q j, (q, j) ∈ l /\ x = b.1 /\ q = b.1 + b.2 /\ x + k = q + j.
Proof.
  destruct b as [a n], l as [|[q j] l]; cbn; [by left|]. destruct (a + n =? q) eqn:E; [|by left].
  intros [[= -> ->]|Hx]%elem_of_cons; [|left; set_solver]. right. exists q, j. split_and!; [set_solver|done|lia|lia].
Qed.

Lemma join_top T b l :
  (forall x k, (x, k) ∈ b :: l -> x + k <= T) -> forall x k, (x, k) ∈ join b l -> x + k <= T.
Proof.
  intros H x k [Hx|(q & j & Hq & _ & _ & ->)]%join_elem; [by apply H|]. apply H. set_solver.
Qed.

Lemma join_above lo a n l : lo <= a -> above lo l -> above lo (join (a, n) l).
Proof.
  intros Ha Hl x k [[[= -> ->]|Hx]%elem_of_cons|(q & j & _ & -> & _)]%join_elem; [done|by apply (Hl x k)|done].
Qed.

Lemma join_first a n l : exists m l', join (a, n) l = (a, m) :: l'.
Proof. destruct l as [|[q k] l]; cbn; [by eexists _, _|]. by destruct (_ =? q); eexists _, _. Qed.

Lemma join_length b l : (length (join b l) <= S (length l))%nat.
Proof. destruct l as [|[q k] l]; cbn; [lia|]. destruct (_ =? q); cbn; lia. Qed.

Lemma covers_app l1 l2 u : covers (l1 ++ l2) u <-> covers l1 u \/ covers l2 u.
Proof.
  unfold covers. split.
  - intros (x & n & [Hx|Hx]%elem_of_app & Hu); [left|right]; by exists x, n.
  - intros [(x & n & Hx & Hu)|(x & n & Hx & Hu)]; exists x, n; (split; [|done]); apply elem_of_app; auto.
Qed.

Lemma covers_cons x n l u : covers ((x, n) :: l) u <-> x <= u < x + n \/ covers l u.
Proof.
  unfold covers. split.
  - intros (y & k & [[= -> ->]|Hy]%elem_of_cons & Hu); [by left|right; by exists y, k].
  - intros [Hu|(y & k & Hy & Hu)]; [exists x, n|exists y, k]; (split; [|done]); set_solver.
Qed.

Lemma above_apart lo l : apart_from lo l -> above lo l.
Proof. intros Ha x k Hx. destruct (apart_bound _ _ _ _ Ha Hx). lia. Qed.

(** Where the block goes in, as a list. *)
Lemma join_list fl h bp n A p np B :
  heap_inv fl h -> fresh fl bp n -> (base, 0) :: fl = A ++ (p, np) :: B ->
  below bp (A ++ [(p, np)]) -> above (bp + n) B ->
  exists fl', A ++ join (p, np) (join (bp, n) B) = (base, 0) :: fl' /\ apart_from base fl' /\
    (forall x k, (x, k) ∈ fl' -> x + k <= base + 2 ^ 32) /\
    (forall u, covers fl' u <-> covers fl u \/ bp <= u < bp + n) /\ (length fl' <= S (length fl))%nat.
Proof.
  intros I (Hb & Hn & Ht & _) E HA HB. pose proof (hi_apart _ _ I) as Ha. pose proof (hi_top _ _ I) as Htop.
  destruct (HA p np ltac:(set_solver)) as [_ Hpb].
  assert (forall lo lo', apart_from lo B -> lo' < bp -> apart_from lo' (join (bp, n) B)) as HaJ
    by (intros lo lo' ??; by eapply join_apart).
  assert (forall lo, apart_from lo B -> forall q k, (q, k) ∈ join (bp, n) B -> 0 <= k) as HJ0.
  { intros lo Hlo q k Hq. destruct (apart_bound _ _ _ _ (HaJ _ (bp - 1) Hlo ltac:(lia)) Hq). lia. }
  assert (forall lo, apart_from lo B -> forall u, covers (join (bp, n) B) u <-> bp <= u < bp + n \/ covers B u) as HcJ.
  { intros lo Hlo u. rewrite join_covers, covers_cons; [done|cbn; lia|].
    intros q k Hq. destruct (apart_bound _ _ _ _ Hlo Hq). lia. }
  assert ((forall x k, (x, k) ∈ B -> x + k <= base + 2 ^ 32) ->
    forall x k, (x, k) ∈ join (bp, n) B -> x + k <= base + 2 ^ 32) as HtJ.
  { intros HtB. apply join_top. intros x k [[= -> ->]|Hx]%elem_of_cons; [done|by apply HtB]. }
  destruct A as [|a A]; cbn [app] in E.
  - injection E as <- <- <-. destruct (join_first bp n fl) as (m & l' & EJ). exists (join (bp, n) fl). split_and!.
    + rewrite EJ. cbn -[Z.add]. destruct (base + 0 =? bp) eqn:E; [lia|done].
    + by eapply HaJ.
    + by apply HtJ.
    + intros u. rewrite (HcJ base Ha). naive_solver.
    + apply join_length.
  - injection E as <- ->. apply apart_app in Ha as [HaA (Hp & Hnp & HaB)]. exists (A ++ join (p, np) (join (bp, n) B)). split_and!.
    + done.
    + apply apart_app. split; [done|]. apply (join_apart _ (bp - 1)); [done..|apply (HaJ _ _ HaB); lia|].
      apply join_above; [lia|]. intros x k Hx. pose proof (HB x k Hx). lia.
    + intros x k [Hx|Hx]%elem_of_app; [apply Htop; set_solver|]. revert x k Hx. apply join_top.
      intros x k [Hx|Hx]%elem_of_cons; [apply Htop; set_solver|]. revert x k Hx. apply HtJ.
      intros x k Hx. apply Htop. set_solver.
    + intros u. rewrite !covers_app, join_covers, !covers_cons, (HcJ _ HaB); [naive_solver|cbn; lia|by apply (HJ0 _ HaB)].
    + rewrite !length_app. pose proof (join_length (p, np) (join (bp, n) B)). pose proof (join_length (bp, n) B). cbn. lia.
Qed.

(** The headers of the blocks that are neither base nor free. *)
Definition kept (fl : list block) (h h' : heap) : Prop :=
  forall x, x <> base -> ~ covers fl x -> h_ptr h' x = h_ptr h x /\ h_size h' x = h_size h x.

Lemma inv_covers fl h x n : heap_inv fl h -> (x, n) ∈ (base, 0) :: fl -> x = base \/ covers fl x.
Proof.
  intros I [[= -> ->]|Hx]%elem_of_cons; [by left|right]. exists x, n. split; [done|].
  destruct (apart_bound _ _ _ _ (hi_apart _ _ I) Hx). lia.
Qed.

Lemma place_rest fl A p np B : (base, 0) :: fl = A ++ (p, np) :: B ->
  (forall b, b ∈ B -> b ∈ fl) /\ (p = base /\ np = 0 \/ (p, np) ∈ fl).
Proof.
  destruct A as [|a A]; cbn [app]; [by intros [= <- <- <-]; auto|]. intros [= _ ->]. split; [set_solver|].
  right. set_solver.
Qed.

(** The headers after free(). *)
Lemma free_headers fl h bp n A p np B :
  heap_inv fl h -> fresh fl bp n -> h_size h bp = n -> (base, 0) :: fl = A ++ (p, np) :: B ->
  below bp (A ++ [(p, np)]) -> above (bp + n) B ->
  chain (link p bp (link bp (first base B) h)) (A ++ join (p, np) (join (bp, n) B)) base.
Proof.
  intros I (Hb & Hn & Ht & _) Hsz E HA HB. pose proof (hi_links _ _ I) as Hl. pose proof (inv_asc _ _ I) as Hs.
  destruct (place_rest _ _ _ _ _ E) as [HBf Hp]. rewrite E in Hl, Hs. apply chain_app in Hl as [HlA (_ & Hps & HlB)].
  destruct (HA p np ltac:(set_solver)) as [Hpb Hpe].
  assert (forall q k, (q, k) ∈ B -> bp + n <= q /\ 0 < k /\ q + k <= base + 2 ^ 32) as HBq.
  { intros q k Hq. pose proof (HB q k Hq). destruct (apart_bound _ _ _ _ (hi_apart _ _ I) (HBf _ Hq)).
    pose proof (hi_top _ _ I q k (HBf _ Hq)). lia. }
  assert (chain (link bp (first base B) h) (join (bp, n) B) base) as C1.
  { apply link_join; [done|done| |lia]. intros q k Hq. pose proof (HBq q k Hq). lia. }
  set (h1 := link bp (first base B) h) in *.
  assert (first base (join (bp, n) B) = bp) as Ebp by (by destruct (join_first bp n B) as (? & ? & ->)).
  assert (forall x k, (x, k) ∈ A -> x < p) as HAp.
  { intros x k. by eapply asc_before. }
  assert (chain (link p bp h1) (join (p, np) (join (bp, n) B)) base) as C2.
  { rewrite <- Ebp at 1. apply link_join; [done| | |].
    - unfold h1. destruct (link_other bp (first base B) h p) as [_ ->]; [lia|done].
    - intros q k Hq.
      assert (bp <= q /\ 0 < k /\ q + k <= base + 2 ^ 32) as (Hq1 & Hq2 & Hq3).
      { apply join_elem in Hq as [[[= -> ->]|Hq]%elem_of_cons|(q' & j & Hq & -> & Hq2 & Hq3)]; cbn in *;
          [lia|pose proof (HBq _ _ Hq); lia..]. }
      split; [lia|]. intros Hpq. destruct Hp as [[-> ->]|Hp]; [lia|].
      destruct (apart_bound _ _ _ _ (hi_apart _ _ I) Hp). lia.
    - by destruct (join_first bp n B) as (? & ? & ->). }
  apply chain_app. destruct (join_first p np (join (bp, n) B)) as (m & l' & Ej). rewrite Ej in C2 |- *. split; [|done].
  revert HlA. apply chain_ext. intros x k Hx. pose proof (HAp x k Hx).
  destruct (link_other p bp h1 x ltac:(lia)) as [-> ->]. by apply link_other; lia.
Qed.

Lemma free_run fl h bp n fuel :
  heap_inv fl h -> fresh fl bp n -> h_size h bp = n -> (length fl + 2 <= fuel)%nat ->
  exists h' fl', free fuel (bp + 1) h = Some h' /\ heap_inv fl' h' /\
    (forall u, covers fl' u <-> covers fl u \/ bp <= u < bp + n) /\ kept fl' h h' /\
    (length fl' <= S (length fl))%nat.
Proof.
  intros I Hf Hsz Hfu. destruct (find_place fl h bp n I Hf) as (A & p & np & B & E & HA & HB).
  pose proof (free_find_run fl h bp n A p np B fuel I Hf E HA HB Hfu) as Ef.
  destruct (join_list fl h bp n A p np B I Hf E HA HB) as (fl' & E' & Ha' & Ht' & Hc & Hlen).
  pose proof (free_headers fl h bp n A p np B I Hf Hsz E HA HB) as C. rewrite E' in C.
  assert (h_ptr h p = first base B) as Hpp.
  { pose proof (hi_links _ _ I) as Hl. rewrite E in Hl. apply chain_app in Hl as [_ Hl]. apply Hl. }
  exists (set_freep p (link p bp (link bp (first base B) h))), fl'. split_and!; [|split|done| |done].
  - replace bp with (bp + 1 - 1) in Ef by lia. rewrite (free_link _ _ _ _ Ef), Hpp. by replace (bp + 1 - 1) with bp by lia.
  - apply I.
  - revert C. by apply chain_ext.
  - done.
  - done.
  - destruct (join_first p np (join (bp, n) B)) as (m & l' & Ej). exists m. cbn [freep set_freep]. rewrite <- E', Ej. set_solver.
  - intros x Hx Hn. assert (x <> bp) as Hxb by (intros ->; apply Hn, Hc; destruct Hf; lia).
    assert (x <> p) as Hxp.
    { intros ->. destruct (inv_covers fl h p np I) as [?|?]; [rewrite E; set_solver|done|]. apply Hn, Hc. by left. }
    cbn [h_ptr h_size set_freep]. destruct (link_other p bp (link bp (first base B) h) x Hxp) as [-> ->]. by apply link_other.
Qed.

(** ** Taking a block *)

(** malloc() takes [nunits] units of the block [p] behind [prevp]: all of it, or
    its tail. *)
Definition take_block (nunits prevp p : Z) (h : heap) : Z * heap :=
  if h_size h p =? nunits then (p + 1, set_freep prevp (set_ptr prevp (h_ptr h p) h))
  else
    let h1 := set_size p (h_size h p - nunits) h in
    (p + h_size h1 p + 1, set_freep prevp (set_size (p + h_size h1 p) nunits h1)).

(** The list of the block's predecessor. *)
Lemma behind fl h y x : heap_inv fl h -> (exists k, (y, k) ∈ (base, 0) :: fl) -> h_ptr h y = x -> x <> base ->
  exists A k m B P, (base, 0) :: fl = A ++ (y, k) :: (x, m) :: B /\ fl = P ++ (x, m) :: B /\
    (base, 0) :: P = A ++ [(y, k)] /\ h_size h x = m.
Proof.
  intros I [k Hy] Hx Hxb. apply list_elem_of_split in Hy as (A & B' & E).
  pose proof (hi_links _ _ I) as Hl. rewrite E in Hl. apply chain_app in Hl as [_ (Hp & _ & Hl)].
  destruct B' as [|[x' m] B]; cbn [first] in Hp; [congruence|]. assert (x' = x) as -> by congruence.
  destruct Hl as (_ & Hm & _).
  exists A, k, m, B. destruct A as [|a A]; cbn [app] in *.
  - exists []. by injection E as <- <- ->.
  - exists (A ++ [(y, k)]). injection E as <- ->. by rewrite <- (assoc_L (++)).
Qed.

Section take.
Context (fl : list block) (h : heap) (y x m k : Z) (A B P : list block).
Hypothesis I : heap_inv fl h.
Hypothesis E : (base, 0) :: fl = A ++ (y, k) :: (x, m) :: B.
Hypothesis EP : fl = P ++ (x, m) :: B.
Hypothesis EA : (base, 0) :: P = A ++ [(y, k)].

Lemma take_apart : apart_from base P /\ end_of base P < x /\ 0 < m /\ apart_from (x + m) B.
Proof. pose proof (hi_apart _ _ I) as Ha. rewrite EP in Ha. by apply apart_app in Ha. Qed.

Lemma take_fresh bp n : x <= bp -> 0 < n -> bp + n = x + m ->
  base < bp /\ bp + n <= base + 2 ^ 32 /\ forall z j, (z, j) ∈ P ++ B -> bp + n <= z \/ z + j <= x.
Proof.
  intros Hb Hn He. destruct take_apart as (HP & Hx & Hm & HB).
  assert ((x, m) ∈ fl) as Hxf by (rewrite EP; set_solver).
  destruct (apart_bound _ _ _ _ (hi_apart _ _ I) Hxf). pose proof (hi_top _ _ I x m Hxf). split_and!; [lia..|].
  intros z j [Hz|Hz]%elem_of_app.
  - right. pose proof (end_of_bound _ _ _ _ HP Hz). lia.
  - left. destruct (apart_bound _ _ _ _ HB Hz). lia.
Qed.

Lemma take_chain : chain h A y /\ h_size h y = k /\ h_ptr h x = first base B /\ h_ptr h y = x /\ h_size h x = m /\ chain h B base.
Proof.
  pose proof (hi_links _ _ I) as Hl. rewrite E in Hl. apply chain_app in Hl as [HlA (Hy & Hk & Hx & Hm & HlB)].
  by split_and!.
Qed.

Lemma take_order :
  (forall z j, (z, j) ∈ A -> z < y) /\ y < x /\ (forall z j, (z, j) ∈ B -> x + m < z) /\
  (y = base \/ covers fl y) /\ x <> base /\ forall u, x <= u < x + m -> covers fl u /\ u <> base.
Proof.
  pose proof (inv_asc _ _ I) as Hs. rewrite E in Hs. destruct take_apart as (HP & Hx & Hm & HB). split_and!.
  - intros z j. by eapply asc_before.
  - apply asc_app_r in Hs. by destruct Hs.
  - intros z j Hz. by destruct (apart_bound _ _ _ _ HB Hz).
  - apply (inv_covers fl h y k I). rewrite E. set_solver.
  - pose proof (end_of_ge _ _ HP). lia.
  - intros u Hu. split; [exists x, m; split; [rewrite EP; set_solver|done]|]. pose proof (end_of_ge _ _ HP). lia.
Qed.

Lemma take_exact : let h' := set_freep y (set_ptr y (h_ptr h x) h) in
  heap_inv (P ++ B) h' /\ kept fl h h'.
Proof.
  intros h'. destruct take_apart as (HP & Hx & Hm & HB). destruct take_chain as (HlA & Hk & Hpx & _ & _ & HlB).
  destruct take_order as (HAy & Hyx & HBx & Hyc & _).
  assert (forall z, z <> y -> h_ptr h' z = h_ptr h z /\ h_size h' z = h_size h z) as Hk'.
  { intros z Hz. cbn. unfold upd. by rewrite (proj2 (Z.eqb_neq _ _) Hz). }
  split; [split|].
  - apply I.
  - change ((base, 0) :: P ++ B) with (((base, 0) :: P) ++ B). rewrite EA, <- (assoc_L (++)). apply chain_app.
    cbn [app first chain]. split_and!.
    + revert HlA. apply chain_ext. intros z j Hz. apply Hk'. pose proof (HAy z j Hz). lia.
    + cbn. unfold upd. by rewrite Z.eqb_refl.
    + done.
    + revert HlB. apply chain_ext. intros z j Hz. apply Hk'. pose proof (HBx z j Hz). lia.
  - apply apart_app. split; [done|]. revert HB. apply apart_weaken. lia.
  - intros z j Hz. apply (hi_top _ _ I). rewrite EP. set_solver.
  - exists k. change ((base, 0) :: P ++ B) with (((base, 0) :: P) ++ B). rewrite EA. cbn. set_solver.
  - intros z Hz Hzc. apply Hk'. intros ->. by destruct Hyc.
Qed.

Lemma take_tail n : 0 < n < m -> let h' := set_freep y (set_size (x + (m - n)) n (set_size x (m - n) h)) in
  heap_inv (P ++ (x, m - n) :: B) h' /\ kept fl h h'.
Proof.
  intros Hn h'. destruct take_apart as (HP & Hx & Hm & HB). destruct take_chain as (HlA & Hk & Hpx & Hpy & _ & HlB).
  destruct take_order as (HAy & Hyx & HBx & Hyc & _ & Hcov).
  assert (forall z, z < x \/ x + m <= z -> h_ptr h' z = h_ptr h z /\ h_size h' z = h_size h z) as Hk'.
  { intros z Hz. cbn. unfold upd. split; [done|]. by rewrite !(proj2 (Z.eqb_neq _ _)) by lia. }
  split; [split|].
  - apply I.
  - change ((base, 0) :: P ++ (x, m - n) :: B) with (((base, 0) :: P) ++ (x, m - n) :: B).
    rewrite EA, <- (assoc_L (++)). apply chain_app. cbn [app first chain]. split_and!.
    + revert HlA. apply chain_ext. intros z j Hz. apply Hk'. pose proof (HAy z j Hz). lia.
    + done.
    + rewrite <- Hk. apply Hk'. lia.
    + done.
    + cbn. unfold upd. rewrite (proj2 (Z.eqb_neq _ _)) by lia. by rewrite Z.eqb_refl.
    + revert HlB. apply chain_ext. intros z j Hz. apply Hk'. pose proof (HBx z j Hz). lia.
  - apply apart_app. split; [done|]. cbn. split_and!; [done|lia|]. revert HB. apply apart_weaken. lia.
  - intros z j [Hz|[[= -> ->]|Hz]%elem_of_cons]%elem_of_app; [apply (hi_top _ _ I); rewrite EP; set_solver| |
      apply (hi_top _ _ I); rewrite EP; set_solver].
    pose proof (hi_top _ _ I x m ltac:(rewrite EP; set_solver)). lia.
  - exists k. change ((base, 0) :: P ++ (x, m - n) :: B) with (((base, 0) :: P) ++ (x, m - n) :: B). rewrite EA. cbn. set_solver.
  - intros z Hz Hzc. apply Hk'. destruct (decide (x <= z < x + m)) as [Hu|]; [|lia]. by destruct (Hcov z Hu).
Qed.
End take.

Lemma take_run fl h nunits y x : heap_inv fl h -> (exists k, (y, k) ∈ (base, 0) :: fl) -> h_ptr h y = x -> x <> base ->
  0 < nunits <= h_size h x ->
  exists bp h' fl', take_block nunits y x h = (bp + 1, h') /\ heap_inv fl' h' /\ h_size h' bp = nunits /\
    fresh fl' bp nunits /\ (forall u, covers fl u <-> covers fl' u \/ bp <= u < bp + nunits) /\ kept fl h h'.
Proof.
  intros I Hy Hx Hxb Hn. destruct (behind fl h y x I Hy Hx Hxb) as (A & k & m & B & P & E & EP & EA & Hm).
  unfold take_block. rewrite Hm in Hn |- *. destruct (Z.eqb_spec m nunits) as [->|Hne].
  - destruct (take_exact fl h y x nunits k A B P I E EP EA) as [I' Hk].
    destruct (take_fresh fl h y x nunits k A B P I E EP EA x nunits) as (F1 & F2 & F3); [lia..|].
    eexists x, _, (P ++ B). split_and!; [done|done|done|by split_and!; [|lia| |]| |done].
    intros u. rewrite EP, !covers_app, covers_cons. tauto.
  - destruct (take_tail fl h y x m k A B P I E EP EA nunits) as [I' Hk]; [lia|].
    destruct (take_fresh fl h y x m k A B P I E EP EA (x + (m - nunits)) nunits) as (F1 & F2 & F3); [lia..|].
    cbn [h_size set_size]. unfold upd at 1 2. rewrite Z.eqb_refl.
    eexists (x + (m - nunits)), _, (P ++ (x, m - nunits) :: B). split_and!; [done|done| | | |done].
    + cbn. unfold upd. by rewrite Z.eqb_refl.
    + split_and!; [done|lia|done|]. intros z j [Hz|[[= -> ->]|Hz]%elem_of_cons]%elem_of_app; [|lia|];
        (destruct (F3 z j); [set_solver|lia..]).
    + intros u. rewrite EP, !covers_app, !covers_cons. assert (x <= u < x + m <-> x <= u < x + (m - nunits) \/
        x + (m - nunits) <= u < x + (m - nunits) + nunits) as -> by lia. tauto.
Qed.

(** ** The walk around the circular list *)

Section walk.
Context (fl : list block) (h : heap) (sbrk : Z -> option Z) (nunits : Z).
Hypothesis I : heap_inv fl h.

Definition node (y : Z) : Prop := exists k, (y, k) ∈ (base, 0) :: fl.

(** What the loop does when it is back at freep. *)
Definition grow (k : nat) : option (Z * heap) :=
  match morecore k sbrk nunits h with
  | None => None
  | Some (p, h) => if p =? 0 then Some (0, h) else malloc_loop k sbrk nunits p (h_ptr h p) h
  end.

Lemma walk_ring W : forall y, node y -> h_ptr h y = first (freep h) W -> chain h W (freep h) ->
  (forall x m, (x, m) ∈ W -> node x /\ x <> freep h) ->
  (exists y' x, node y' /\ h_ptr h y' = x /\ nunits <= h_size h x /\
     forall k, malloc_loop (S (length W) + k) sbrk nunits y (first (freep h) W) h = Some (take_block nunits y' x h)) \/
  ((forall x m, (x, m) ∈ (freep h, h_size h (freep h)) :: W -> m < nunits) /\
   forall k, malloc_loop (S (length W) + k) sbrk nunits y (first (freep h) W) h = grow k).
Proof.
  assert (forall k y x, nunits <= h_size h x ->
    malloc_loop (S k) sbrk nunits y x h = Some (take_block nunits y x h)) as Hhit.
  { intros k y x Hx. cbn [malloc_loop]. unfold take_block. rewrite Z.geb_leb, (proj2 (Z.leb_le _ _)) by lia.
    by destruct (_ =? nunits). }
  induction W as [|[x m] W IH]; intros y Hy Hp Hc HW; cbn [first length] in *.
  - destruct (decide (nunits <= h_size h (freep h))).
    + left. exists y, (freep h). split_and!; [done..|]. intros k. by apply Hhit.
    + right. split; [|].
      { intros x m [[= -> ->]|?%not_elem_of_nil]%elem_of_cons; [lia|done]. }
      intros k. cbn [malloc_loop Nat.add]. rewrite Z.geb_leb, (proj2 (Z.leb_gt _ _)), Z.eqb_refl by lia. done.
  - destruct Hc as (Hpx & Hm & Hc). destruct (HW x m ltac:(set_solver)) as [Hx Hxf].
    destruct (decide (nunits <= h_size h x)).
    + left. exists y, x. split_and!; [done..|]. intros k. by apply Hhit.
    + assert (forall k, malloc_loop (S (S (length W)) + k) sbrk nunits y x h =
        malloc_loop (S (length W) + k) sbrk nunits x (first (freep h) W) h) as Hskip.
      { intros k. cbn [Nat.add]. remember (S (length W + k)) as j. cbn [malloc_loop].
        rewrite Z.geb_leb, (proj2 (Z.leb_gt _ _)), (proj2 (Z.eqb_neq _ _) Hxf), Hpx by lia. done. }
      destruct (IH x Hx Hpx Hc) as [(y' & x' & H1 & H2 & H3 & H4)|[H1 H2]].
      * intros z j Hz. apply (HW z j). set_solver.
      * left. exists y', x'. split_and!; [done..|]. intros k. by rewrite Hskip.
      * right. split; [|intros k; by rewrite Hskip].
        intros z j [Hz|[[= -> ->]|Hz]%elem_of_cons]%elem_of_cons; [apply (H1 z j); set_solver|lia|apply (H1 z j); set_solver].
Qed.

Lemma ring_run :
  (exists y x, node y /\ h_ptr h y = x /\ nunits <= h_size h x /\
     forall k, malloc_loop (S (length fl) + k) sbrk nunits (freep h) (h_ptr h (freep h)) h = Some (take_block nunits y x h)) \/
  ((forall x m, (x, m) ∈ fl -> m < nunits) /\
   forall k, malloc_loop (S (length fl) + k) sbrk nunits (freep h) (h_ptr h (freep h)) h = grow k).
Proof.
  destruct (hi_freep _ _ I) as [n Hn]. pose proof Hn as (L & R & E)%list_elem_of_split.
  pose proof (hi_links _ _ I) as Hl. pose proof (inv_asc _ _ I) as Hs. rewrite E in Hl, Hs.
  apply chain_app in Hl as [HlL (Hp & Hsz & HlR)]. cbn [first] in HlL.
  assert (first (freep h) L = base) as Eb by (destruct L as [|[]]; injection E; by intros).
  assert (first (freep h) (R ++ L) = h_ptr h (freep h)) as Ef by (rewrite Hp; by destruct R as [|[]]).
  assert (length (R ++ L) = length fl) as El.
  { pose proof (f_equal length E) as El. rewrite length_app in *. cbn in El. lia. }
  destruct (walk_ring (R ++ L) (freep h)) as [(y & x & H1 & H2 & H3 & H4)|[H1 H2]].
  - by exists n.
  - done.
  - apply chain_app. split; [|done]. by rewrite Eb.
  - intros x m Hx. split; [exists m; rewrite E; set_solver|].
    apply elem_of_app in Hx as [Hx|Hx]; [pose proof (asc_after _ _ _ _ _ _ Hs Hx); lia|].
    pose proof (asc_before _ _ _ _ _ _ Hs Hx). lia.
  - left. exists y, x. rewrite El, Ef in H4. done.
  - right. rewrite El, Ef in H2. split; [|done]. intros x m Hx. apply (H1 x m).
    assert ((x, m) ∈ (base, 0) :: fl) as Hx' by set_solver. rewrite E in Hx'. rewrite Hsz. set_solver.
Qed.
End walk.

(** ** malloc() *)

(** Units that are all free lie in one block. *)
Lemma covers_interval fl lo a n : apart_from lo fl -> 0 < n -> (forall u, a <= u < a + n -> covers fl u) ->
  exists x m, (x, m) ∈ fl /\ n <= m.
Proof.
  intros Ha Hn Hc. destruct (Hc a ltac:(lia)) as (x & m & Hx & Hu). exists x, m. split; [done|].
  destruct (decide (x + m < a + n)) as [Hlt|]; [|lia]. exfalso.
  destruct (Hc (x + m) ltac:(lia)) as (z & j & Hz & Hv).
  apply list_elem_of_split in Hx as (l1 & l2 & ->). apply apart_app in Ha as [H1 (H2 & H3 & H4)].
  apply elem_of_app in Hz as [Hz|[[= -> ->]|Hz]%elem_of_cons]; [|lia|].
  - pose proof (end_of_bound _ _ _ _ H1 Hz). lia.
  - destruct (apart_bound _ _ _ _ H4 Hz). lia.
Qed.

(** The header of an area that is not free can be written. *)
Lemma inv_header fl h a n v : heap_inv fl h -> fresh fl a n -> heap_inv fl (set_size a v h).
Proof.
  intros I (Hb & Hn & _ & Hd). split; [apply I| |apply I|apply I|apply I].
  generalize (hi_links _ _ I). apply chain_ext. intros x k Hx. split; [done|]. cbn. unfold upd.
  rewrite (proj2 (Z.eqb_neq _ _)); [done|].
  apply elem_of_cons in Hx as [[= -> ->]|Hx]; [lia|]. destruct (apart_bound _ _ _ _ (hi_apart _ _ I) Hx).
  destruct (Hd x k Hx); lia.
Qed.

Lemma inv_pos fl h x k : heap_inv fl h -> (x, k) ∈ (base, 0) :: fl -> 0 < x.
Proof.
  intros I Hx. pose proof (hi_base _ _ I). apply elem_of_cons in Hx as [[= -> ->]|Hx]; [done|].
  destruct (apart_bound _ _ _ _ (hi_apart _ _ I) Hx). lia.
Qed.

Lemma inv_size0 fl h : heap_inv fl h -> h_size h base = 0.
Proof. intros I. apply (hi_links _ _ I). Qed.

Lemma inv_block fl h x m : heap_inv fl h -> (x, m) ∈ fl -> h_size h x = m.
Proof.
  intros I Hx. pose proof (hi_links _ _ I) as (_ & _ & Hl). apply list_elem_of_split in Hx as (l1 & l2 & ->).
  apply chain_app in Hl as [_ Hl]. apply Hl.
Qed.

(** [n] units at [bp] go from the free list [fl] to the caller. *)
Definition taken (fl fl' : list block) (h h' : heap) (bp n : Z) : Prop :=
  heap_inv fl' h' /\ h_size h' bp = n /\ fresh fl' bp n /\
  (forall u, covers fl u <-> covers fl' u \/ bp <= u < bp + n) /\ kept fl h h'.

Lemma walk_takes fl h nunits y x : heap_inv fl h -> node fl y -> h_ptr h y = x -> 0 < nunits <= h_size h x ->
  exists bp h' fl', take_block nunits y x h = (bp + 1, h') /\ taken fl fl' h h' bp nunits.
Proof.
  intros I Hy Hx Hn. destruct (take_run fl h nunits y x I Hy Hx) as (bp & h' & fl' & H); [|done|].
  - intros ->. rewrite (inv_size0 fl h I) in Hn. lia.
  - exists bp, h', fl'. unfold taken. naive_solver.
Qed.

(** The area malloc() asks of the kernel. *)
Definition area (nunits : Z) : Z := if nunits <? 4096 then 4096 else nunits.

Lemma malloc_loop_run fl h sbrk nunits k :
  heap_inv fl h -> 0 < nunits -> i32 (area nunits * sizeof_Header) = area nunits * sizeof_Header ->
  (forall hp, sbrk (area nunits * sizeof_Header) = Some hp -> fresh fl hp (area nunits)) ->
  exists r, malloc_loop (S (length fl) + (length fl + 3 + k)) sbrk nunits (freep h) (h_ptr h (freep h)) h = Some r /\
    ((exists bp h' fl', r = (bp + 1, h') /\ taken fl fl' h h' bp nunits) \/
     (forall x m, (x, m) ∈ fl -> m < nunits) /\
     match sbrk (area nunits * sizeof_Header) with
     | None => r = (0, h)
     | Some hp => exists bp h' fl' h1 fl1, r = (bp + 1, h') /\ taken fl1 fl' h1 h' bp nunits /\
         (forall u, covers fl1 u <-> covers fl u \/ hp <= u < hp + area nunits) /\ kept fl1 h h1
     end).
Proof.
  intros I Hn Hi Hsb. destruct (ring_run fl h sbrk nunits I) as [(y & x & Hy & Hx & Hm & E)|[Hsm E]]; rewrite E.
  - destruct (walk_takes fl h nunits y x I Hy Hx) as (bp & h' & fl' & Et & Ht); [done|]. rewrite Et.
    eexists. split; [done|]. left. by exists bp, h', fl'.
  - unfold grow, morecore. fold (area nunits). rewrite Hi.
    destruct (sbrk (area nunits * sizeof_Header)) as [hp|] eqn:Es; [|eexists; split; [done|]; by right].
    specialize (Hsb hp eq_refl).
    destruct (free_run fl (set_size hp (area nunits) h) hp (area nunits) (length fl + 3 + k))
      as (h1 & fl1 & -> & I1 & Hc1 & Hk1 & Hlen); [by eapply inv_header|done| |lia|].
    { cbn. unfold upd. by rewrite Z.eqb_refl. }
    destruct (hi_freep _ _ I1) as [nf Hf]. pose proof (inv_pos _ _ _ _ I1 Hf).
    rewrite (proj2 (Z.eqb_neq _ _)) by lia.
    assert (0 < area nunits /\ nunits <= area nunits) as Har by (unfold area; destruct (Z.ltb_spec nunits 4096); lia).
    destruct (covers_interval fl1 base hp (area nunits) (hi_apart _ _ I1)) as (x & m & Hx & Hm); [lia|naive_solver|].
    replace (length fl + 3 + k)%nat with (S (length fl1) + (length fl + 3 + k - S (length fl1)))%nat by lia.
    destruct (ring_run fl1 h1 sbrk nunits I1) as [(y & x' & Hy & Hx' & Hm' & E1)|[Hsm1 _]];
      [|pose proof (Hsm1 x m Hx); lia]. rewrite E1.
    destruct (walk_takes fl1 h1 nunits y x' I1 Hy Hx') as (bp & h' & fl' & Et & Ht); [done|]. rewrite Et.
    eexists. split; [done|]. right. split; [done|]. exists bp, h', fl', h1, fl1. split_and!; [done..|].
    intros z Hz Hzc. destruct (Hk1 z Hz Hzc) as [-> ->]. split; [done|]. cbn. unfold upd.
    rewrite (proj2 (Z.eqb_neq _ _)); [done|]. intros ->. apply Hzc, Hc1. right. lia.
Qed.

(** Before the first malloc() the list is not made yet. *)
Definition heap_ok (fl : list block) (h : heap) : Prop := heap_inv fl h \/ freep h = 0 /\ fl = [] /\ 0 < base.

Definition units (nbytes : Z) : Z := (nbytes + 15) / 16 + 1.

Lemma units_range nbytes : 0 <= nbytes <= 2 ^ 31 - 32 -> 0 < units nbytes /\ units nbytes * 16 < 2 ^ 31 /\
  u32 ((nbytes + sizeof_Header - 1) / sizeof_Header + 1) = units nbytes /\ nbytes <= (units nbytes - 1) * 16.
Proof.
  intros Hn. unfold units, sizeof_Header. replace (nbytes + 16 - 1) with (nbytes + 15) by lia.
  assert (u32 ((nbytes + 15) / 16 + 1) = (nbytes + 15) / 16 + 1) as -> by (unfold u32; rewrite Z.mod_small; zdm). zdm.
Qed.

(** What a call of malloc() that returns [a] does: no memory is lost or shared,
    and no header of the caller's other blocks changes. *)
Definition malloc_gives (fl : list block) (sbrk : Z -> option Z) (nunits a : Z) (h h' : heap) : Prop :=
  exists fl' got, heap_inv fl' h' /\ h_size h' (a - 1) = nunits /\ fresh fl' (a - 1) nunits /\
    (got = [] \/ (forall x m, (x, m) ∈ fl -> m < nunits) /\
       exists hp, sbrk (area nunits * sizeof_Header) = Some hp /\ got = [(hp, area nunits)]) /\
    (forall u, covers (fl ++ got) u <-> covers fl' u \/ a - 1 <= u < a - 1 + nunits) /\
    kept (fl ++ got) h h'.

Lemma kept_iff fl fl' h h' : (forall u, covers fl u <-> covers fl' u) -> kept fl h h' <-> kept fl' h h'.
Proof. intros H. unfold kept. by setoid_rewrite H. Qed.

Lemma malloc_run fl h sbrk nbytes fuel :
  heap_ok fl h -> 0 <= nbytes <= 2 ^ 31 - 32 ->
  (forall hp, sbrk (area (units nbytes) * sizeof_Header) = Some hp -> fresh fl hp (area (units nbytes))) ->
  (2 * length fl + 4 <= fuel)%nat ->
  exists a h', malloc fuel sbrk nbytes h = Some (a, h') /\
    (a = 0 /\ sbrk (area (units nbytes) * sizeof_Header) = None /\ (forall x m, (x, m) ∈ fl -> m < units nbytes) /\
       heap_inv fl h' /\ kept fl h h' \/
     a <> 0 /\ malloc_gives fl sbrk (units nbytes) a h h').
Proof.
  intros Hok Hn Hs Hf. destruct (units_range nbytes Hn) as (Hu & Hu2 & Eu & _). unfold malloc. rewrite Eu.
  set (h0 := if freep h =? 0 then _ else h).
  assert (heap_inv fl h0 /\ kept fl h h0) as [I Hk].
  { unfold h0. destruct Hok as [I|(-> & -> & Hb)].
    - destruct (hi_freep _ _ I) as [n Hin]. pose proof (inv_pos _ _ _ _ I Hin). by rewrite (proj2 (Z.eqb_neq _ _)) by lia.
    - cbn -[upd]. split; [split; [done|cbn; unfold upd; by rewrite Z.eqb_refl|done|by intros ? ? ?%not_elem_of_nil|exists 0; cbn; set_solver]|].
      intros x Hx _. cbn. unfold upd. by rewrite (proj2 (Z.eqb_neq _ _) Hx). }
  replace fuel with (S (length fl) + (length fl + 3 + (fuel - 2 * length fl - 4)))%nat by lia.
  destruct (malloc_loop_run fl h0 sbrk (units nbytes) (fuel - 2 * length fl - 4) I Hu) as ([a h'] & -> & Hr); [|done|].
  { unfold area, sizeof_Header. apply i32_small. destruct (Z.ltb_spec (units nbytes) 4096); lia. }
  assert (forall fl0 fl1 bp h1 hh, (forall u, covers fl u -> covers fl0 u) -> (forall u, covers fl1 u <-> covers fl0 u) ->
    kept fl1 h0 h1 -> kept fl1 h1 hh -> kept fl0 h hh /\ bp + 1 - 1 = bp) as Hkk.
  { intros fl0 fl1 bp h1 hh Hsub Hiff K1 K2. split; [|lia]. apply (kept_iff _ _ _ _ Hiff) in K1, K2. intros z Hz Hzc.
    destruct (Hk z Hz ltac:(naive_solver)), (K1 z Hz Hzc), (K2 z Hz Hzc). split; congruence. }
  exists a, h'. split; [done|].
  destruct Hr as [(bp & h'' & fl' & [= -> ->] & I' & Hz & Hfr & Hc & Hk')|[Hsm Hr]].
  - right. split; [destruct Hfr; pose proof (hi_base _ _ I); lia|].
    destruct (Hkk fl fl bp h0 h'') as [K Eb]; [done..|]. exists fl', []. rewrite (right_id_L [] (++)), Eb. auto 7.
  - destruct (sbrk _) as [hp|] eqn:Es; [|injection Hr as -> ->; by left].
    destruct Hr as (bp & h'' & fl' & h1 & fl1 & [= -> ->] & (I' & Hz & Hfr & Hc & Hk') & Hc1 & Hk1).
    right. split; [destruct Hfr; pose proof (hi_base _ _ I); lia|].
    assert (forall u, covers fl1 u <-> covers (fl ++ [(hp, area (units nbytes))]) u) as Hiff.
    { intros u. rewrite Hc1, covers_app, covers_cons. split; [tauto|].
      intros [?|[?|(? & ? & ?%not_elem_of_nil & _)]]; tauto. }
    destruct (Hkk (fl ++ [(hp, area (units nbytes))]) fl1 bp h1 h'') as [K Eb]; [intros u; rewrite covers_app; tauto|done..|].
    exists fl', [(hp, area (units nbytes))]. rewrite Eb. split_and!; [done..| |by setoid_rewrite <- Hiff|done]. right.
    split; [done|]. by exists hp.
Qed.

(** ** More fuel does not change a result *)

Lemma free_find_mono fuel fuel' h bp p r : (fuel <= fuel')%nat -> free_find fuel h bp p = Some r -> free_find fuel' h bp p = Some r.
Proof.
  revert fuel' p. induction fuel as [|fuel IH]; intros [|fuel'] p Hf; cbn [free_find]; [done..|lia|].
  destruct (_ && _); [done|]. destruct (_ && _); [done|]. apply IH. lia.
Qed.

Lemma free_mono fuel fuel' ap h r : (fuel <= fuel')%nat -> free fuel ap h = Some r -> free fuel' ap h = Some r.
Proof.
  intros Hf. unfold free. destruct (free_find fuel h _ _) as [p|] eqn:E; [|done].
  by rewrite (free_find_mono _ _ _ _ _ _ Hf E).
Qed.

Lemma morecore_mono fuel fuel' sbrk nu h r :
  (fuel <= fuel')%nat -> morecore fuel sbrk nu h = Some r -> morecore fuel' sbrk nu h = Some r.
Proof.
  intros Hf. unfold morecore. destruct (sbrk _) as [hp|]; [|done].
  destruct (free fuel _ _) as [h'|] eqn:E; [|done]. by rewrite (free_mono _ _ _ _ _ Hf E).
Qed.

Lemma malloc_loop_mono fuel fuel' sbrk nunits y p h r : (fuel <= fuel')%nat ->
  malloc_loop fuel sbrk nunits y p h = Some r -> malloc_loop fuel' sbrk nunits y p h = Some r.
Proof.
  revert fuel' y p h. induction fuel as [|fuel IH]; intros [|fuel'] y p h Hf; cbn [malloc_loop]; [done..|lia|].
  destruct (_ >=? _); [done|]. destruct (p =? freep h); [|apply IH; lia].
  destruct (morecore fuel sbrk nunits h) as [[q h']|] eqn:E; [|done].
  rewrite (morecore_mono _ _ _ _ _ _ (le_S_n _ _ Hf) E). destruct (q =? 0); [done|]. apply IH. lia.
Qed.

(** ** A program that uses the heap *)

Definition disjoint (a b : block) : Prop := a.1 + a.2 <= b.1 \/ b.1 + b.2 <= a.1.

Fixpoint separate (l : list block) : Prop :=
  match l with [] => True | b :: l' => (forall c, c ∈ l' -> disjoint b c) /\ separate l' end.

(** The kernel gives memory that the program does not have yet. *)
Definition sbrk_new (h : heap) (used : list block) (n : Z) (sbrk : Z -> option Z) : Prop :=
  forall hp, sbrk (n * sizeof_Header) = Some hp -> forall fl, heap_ok fl h -> fresh (fl ++ used) hp n.

(** The program calls malloc(), calls free() on a block it has, and writes to
    its blocks behind their headers. *)
Inductive mstep : heap * list block -> heap * list block -> Prop :=
| ms_malloc h used fuel sbrk nbytes a h' :
    0 <= nbytes <= 2 ^ 31 - 32 -> sbrk_new h used (area (units nbytes)) sbrk -> malloc fuel sbrk nbytes h = Some (a, h') ->
    mstep (h, used) (h', if a =? 0 then used else (a - 1, units nbytes) :: used)
| ms_free h used1 bp n used2 fuel h' :
    free fuel (bp + 1) h = Some h' -> mstep (h, used1 ++ (bp, n) :: used2) (h', used1 ++ used2)
| ms_write h used h' :
    freep h' = freep h ->
    (forall u, (forall bp n, (bp, n) ∈ used -> ~ bp < u < bp + n) -> h_ptr h' u = h_ptr h u /\ h_size h' u = h_size h u) ->
    mstep (h, used) (h', used).

Definition owned (fl : list block) (h : heap) (used : list block) : Prop :=
  separate used /\ forall x n, (x, n) ∈ used -> fresh fl x n /\ h_size h x = n.

Definition client_inv (h : heap) (used : list block) : Prop :=
  exists fl, (heap_inv fl h \/ freep h = 0 /\ fl = [] /\ 0 < base /\ used = []) /\ owned fl h used.

Lemma separate_middle l1 b l2 : separate (l1 ++ b :: l2) ->
  separate (l1 ++ l2) /\ forall c, c ∈ l1 ++ l2 -> disjoint b c.
Proof.
  induction l1 as [|a l1 IH]; cbn; [tauto|]. intros [Ha Hs]. destruct (IH Hs) as [H1 H2]. split_and!; [|done|].
  - intros c Hc. apply Ha. set_solver.
  - intros c [->|Hc]%elem_of_cons; [|by apply H2]. destruct (Ha b ltac:(set_solver)); [by right|by left].
Qed.

(** A block of the caller's is neither base nor in the free list. *)
Lemma fresh_uncovered fl x n : fresh fl x n -> x <> base /\ forall u, x <= u < x + n -> ~ covers fl u.
Proof.
  intros (Hb & Hn & _ & Hd). split; [lia|]. intros u Hu (y & k & Hy & Hyu). destruct (Hd y k Hy); lia.
Qed.

Lemma uncovered_fresh fl h x n :
  heap_inv fl h -> base < x -> 0 < n -> x + n <= base + 2 ^ 32 -> (forall u, x <= u < x + n -> ~ covers fl u) -> fresh fl x n.
Proof.
  intros I Hb Hn Ht Hd. split_and!; [done..|]. intros y k Hy. destruct (apart_bound _ _ _ _ (hi_apart _ _ I) Hy).
  destruct (decide (x + n <= y)); [by left|]. destruct (decide (y + k <= x)); [by right|]. exfalso.
  apply (Hd (Z.max x y)); [lia|]. exists y, k. split; [done|lia].
Qed.

(** The caller's blocks stay the caller's when the free units change outside of
    them. *)
Lemma owned_keep fl fl' h h' used : owned fl h used -> heap_inv fl' h' ->
  (forall x n u, (x, n) ∈ used -> x <= u < x + n -> ~ covers fl' u) ->
  (forall x n, (x, n) ∈ used -> h_size h' x = h_size h x) -> owned fl' h' used.
Proof.
  intros [Hs Ho] I Hc Hk. split; [done|]. intros x n Hx. destruct (Ho x n Hx) as [(F1 & F2 & F3 & _) <-]. split.
  - eapply uncovered_fresh; eauto.
  - by apply (Hk x (h_size h x)).
Qed.

Lemma units_disjoint x n y k : 0 < n -> 0 < k -> (forall u, x <= u < x + n -> ~ y <= u < y + k) -> disjoint (x, n) (y, k).
Proof. intros Hn Hk H. unfold disjoint. cbn. pose proof (H (Z.max x y)). lia. Qed.

Lemma step_malloc h used fuel sbrk nbytes a h' : client_inv h used ->
  0 <= nbytes <= 2 ^ 31 - 32 -> sbrk_new h used (area (units nbytes)) sbrk -> malloc fuel sbrk nbytes h = Some (a, h') ->
  client_inv h' (if a =? 0 then used else (a - 1, units nbytes) :: used).
Proof.
  intros (fl & Hok & Ho) Hn Hs E.
  assert (heap_ok fl h) as Hok' by (destruct Hok as [?|(? & ? & ? & _)]; [by left|by right]).
  destruct (malloc_run fl h sbrk nbytes (Nat.max fuel (2 * length fl + 4)) Hok' Hn) as (a' & h'' & E' & Hr); [|lia|].
  { intros hp Ehp. destruct (Hs hp Ehp fl Hok') as (F1 & F2 & F3 & F4). split_and!; [done..|].
    intros x k Hx. apply F4. set_solver. }
  unfold malloc in E, E'. rewrite (malloc_loop_mono _ _ _ _ _ _ _ _ (Nat.le_max_l _ _) E) in E'. injection E' as <- <-.
  destruct Hr as [(-> & _ & _ & I & Hk)|(Ha & fl' & got & I & Hz & Hf & Hg & Hc & Hk)].
  - exists fl. split; [by left|]. eapply owned_keep; [done|done|..].
    + intros x n u Hx Hu. destruct Ho as [_ Ho]. destruct (Ho x n Hx) as [F _]. by apply (fresh_uncovered _ _ _ F).
    + intros x n Hx. destruct Ho as [_ Ho]. destruct (Ho x n Hx) as [F _]. pose proof F as (_ & ? & _).
      apply (Hk x); [apply (fresh_uncovered _ _ _ F)|]. apply (fresh_uncovered _ _ _ F). lia.
  - rewrite (proj2 (Z.eqb_neq _ _) Ha). exists fl'. split; [by left|].
    assert (forall x n u, (x, n) ∈ used -> x <= u < x + n -> ~ covers (fl ++ got) u) as Hun.
    { intros x n u Hx Hu [Hcu|(y & k & Hy & Hyu)]%covers_app.
      - destruct Ho as [_ Ho]. destruct (Ho x n Hx) as [F _]. by apply (fresh_uncovered _ _ _ F) in Hcu.
      - destruct Hg as [->|(_ & hp & Ehp & ->)]; [by apply not_elem_of_nil in Hy|].
        apply list_elem_of_singleton in Hy as [= -> ->]. destruct (Hs hp Ehp fl Hok') as (_ & _ & _ & F).
        destruct (F x n); [set_solver|lia..]. }
    assert (owned fl' h' used) as [Hsp Ho'].
    { eapply owned_keep; [done|done|..].
      - intros x n u Hx Hu Hcu. apply (Hun x n u Hx Hu), Hc. by left.
      - intros x n Hx. destruct Ho as [_ Ho]. destruct (Ho x n Hx) as [(? & ? & _) _].
        apply (Hk x); [lia|]. apply (Hun x n x Hx). lia. }
    split; [split; [|done]|].
    + intros [x n] Hx. destruct (Ho' x n Hx) as [(_ & ? & _) _]. apply units_disjoint; [by destruct Hf as (_ & ? & _)|done|].
      intros u Hu Hxu. apply (Hun x n u Hx Hxu), Hc. by right.
    + intros x n [[= -> ->]|Hx]%elem_of_cons; [done|by apply Ho'].
Qed.

Lemma step_free h used1 bp n used2 fuel h' : client_inv h (used1 ++ (bp, n) :: used2) ->
  free fuel (bp + 1) h = Some h' -> client_inv h' (used1 ++ used2).
Proof.
  intros (fl & [I|(_ & _ & _ & ?)] & Hs & Ho) E; [|by destruct used1]. destruct (Ho bp n ltac:(set_solver)) as [Hf Hz].
  destruct (free_run fl h bp n (Nat.max fuel (length fl + 2)) I Hf Hz) as (h'' & fl' & E' & I' & Hc & Hk & _); [lia|].
  rewrite (free_mono _ _ _ _ _ (Nat.le_max_l _ _) E) in E'. injection E' as <-.
  apply separate_middle in Hs as [Hs Hd].
  assert (forall x m u, (x, m) ∈ used1 ++ used2 -> x <= u < x + m -> ~ covers fl' u) as Hun.
  { intros x m u Hx Hu [Hcu|Hu']%Hc.
    - destruct (Ho x m) as [F _]; [set_solver|]. by apply (fresh_uncovered _ _ _ F) in Hcu.
    - destruct (Hd _ Hx); cbn in *; lia. }
  exists fl'. split; [by left|]. eapply (owned_keep fl fl' h); [|done|done|].
  - split; [done|]. intros x m Hx. apply Ho. set_solver.
  - intros x m Hx. destruct (Ho x m) as [(? & ? & _) _]; [set_solver|]. apply (Hk x); [lia|]. apply (Hun x m x Hx). lia.
Qed.

Lemma step_write h used h' : client_inv h used -> freep h' = freep h ->
  (forall u, (forall bp n, (bp, n) ∈ used -> ~ bp < u < bp + n) -> h_ptr h' u = h_ptr h u /\ h_size h' u = h_size h u) ->
  client_inv h' used.
Proof.
  intros (fl & Hok & Hs & Ho) Ef Hw. exists fl. split; [|split; [done|]].
  - destruct Hok as [I|?]; [left|right; by rewrite Ef]. split; [apply I| |apply I|apply I|rewrite Ef; apply I].
    generalize (hi_links _ _ I). apply chain_ext. intros x k Hx. apply Hw. intros bp n Hb Hin.
    destruct (Ho bp n Hb) as [(F1 & F2 & F3 & F4) _]. apply elem_of_cons in Hx as [[= -> ->]|Hx]; [lia|].
    destruct (apart_bound _ _ _ _ (hi_apart _ _ I) Hx). destruct (F4 x k Hx); lia.
  - intros x n Hx. destruct (Ho x n Hx) as [F E]. split; [done|]. rewrite <- E. apply Hw. intros bp m Hb Hin.
    apply list_elem_of_split in Hb as (u1 & u2 & ->). apply separate_middle in Hs as [_ Hd].
    apply elem_of_app in Hx as [Hx|[[= -> ->]|Hx]%elem_of_cons]; [|lia|];
      (destruct (Hd (x, n)); [set_solver|cbn in *; pose proof F as (_ & ? & _); lia..]).
Qed.

Lemma steps_inv s t : rtc mstep s t -> client_inv s.1 s.2 -> client_inv t.1 t.2.
Proof.
  induction 1 as [|s t v Hst _ IH]; [done|]. intros Hi. apply IH. destruct Hst; cbn in *;
    eauto using step_malloc, step_free, step_write.
Qed.

(** ** The theorems *)

(** C32: free() puts the block back.  From a heap whose free list is in order, and
    for a block that overlaps no free one, the search for the block's place ends
    within one round of the circular list; the list is in order again, without
    two blocks that touch; the free units are the old ones and the block's; and
    no header outside of the free list changes. *)
Theorem free_correct fl h ap n fuel :
  heap_inv fl h -> fresh fl (ap - 1) n -> h_size h (ap - 1) = n -> (length fl + 2 <= fuel)%nat ->
  exists h' fl', free fuel ap h = Some h' /\ heap_inv fl' h' /\
    (forall u, covers fl' u <-> covers fl u \/ ap - 1 <= u < ap - 1 + n) /\ kept fl' h h'.
Proof.
  intros I Hf Hz Hfu. destruct (free_run fl h (ap - 1) n fuel I Hf Hz Hfu) as (h' & fl' & E & I' & Hc & Hk & _).
  exists h', fl'. by replace (ap - 1 + 1) with ap in E by lia.
Qed.

(** malloc() returns.  Either it gives a block of as many units as the bytes
    and a header need, which were all free before or come with the new area from
    sbrk(), and exactly those units leave the free list; or no free block is
    large enough, sbrk() has no memory, and malloc() returns 0 with the free list
    as it was.  It asks sbrk() only if no free block is large enough.  No header
    of the caller's other blocks changes. *)
Theorem malloc_correct fl h sbrk nbytes fuel :
  heap_ok fl h -> 0 <= nbytes <= 2 ^ 31 - 32 ->
  (forall hp, sbrk (area (units nbytes) * sizeof_Header) = Some hp -> fresh fl hp (area (units nbytes))) ->
  (2 * length fl + 4 <= fuel)%nat ->
  nbytes <= (units nbytes - 1) * sizeof_Header /\
  exists a h', malloc fuel sbrk nbytes h = Some (a, h') /\
    (a = 0 /\ sbrk (area (units nbytes) * sizeof_Header) = None /\ (forall x m, (x, m) ∈ fl -> m < units nbytes) /\
       heap_inv fl h' /\ kept fl h h' \/
     a <> 0 /\ malloc_gives fl sbrk (units nbytes) a h h').
Proof. intros Hok Hn Hs Hf. split; [by apply units_range|by apply malloc_run]. Qed.

(** C31: a program that uses the heap as it may - it calls malloc() and free() in
    any order, asks for at most 2^31 - 32 bytes at a time, frees blocks it has, and writes what it likes behind the headers
    of its blocks - never has two blocks that overlap or a block that overlaps
    the free list; the sizes in the headers of its blocks stay; and every further
    call of free() on one of its blocks and of malloc() returns. *)
Theorem heap_client_safe h0 h used :
  0 < base -> freep h0 = 0 -> rtc mstep (h0, []) (h, used) ->
  client_inv h used /\
  (forall bp n, (bp, n) ∈ used -> exists fuel h', free fuel (bp + 1) h = Some h') /\
  (forall nbytes sbrk, 0 <= nbytes <= 2 ^ 31 - 32 -> sbrk_new h used (area (units nbytes)) sbrk ->
     exists fuel a h', malloc fuel sbrk nbytes h = Some (a, h')).
Proof.
  intros Hb H0 Hr. assert (client_inv h used) as Hi.
  { apply (steps_inv _ _ Hr). exists []. split; [by right|]. split; [done|]. by intros ? ? ?%not_elem_of_nil. }
  split; [done|]. destruct Hi as (fl & Hok & Ho). split.
  - intros bp n Hx. destruct Hok as [I|(_ & _ & _ & ->)]; [|by apply not_elem_of_nil in Hx].
    destruct Ho as [_ Ho]. destruct (Ho bp n Hx) as [Hf Hz].
    destruct (free_run fl h bp n (length fl + 2) I Hf Hz) as (h' & _ & E & _); [lia|]. by exists (length fl + 2)%nat, h'.
  - intros nbytes sbrk Hn Hs. assert (heap_ok fl h) as Hok' by (destruct Hok as [?|(? & ? & ? & _)]; [by left|by right]).
    destruct (malloc_run fl h sbrk nbytes (2 * length fl + 4) Hok' Hn) as (a & h' & E & _); [|lia|eauto].
    intros hp Ehp. destruct (Hs hp Ehp fl Hok') as (F1 & F2 & F3 & F4). split_and!; [done..|].
    intros x k Hx. apply F4. set_solver.
Qed.

End umalloc.

(** * Witnesses *)

(** base is at 1; sbrk() has memory at 100. *)
Definition heap0 : heap := mk_heap (fun _ => 0) (fun _ => 0) 0.
Definition sbrk100 : Z -> option Z := fun _ => Some 100.

(** Two blocks, and a block between that touches both. *)
Definition heap1 : heap :=
  mk_heap (fun x => if x =? 1 then 100 else if x =? 100 then 150 else 1)
    (fun x => if x =? 1 then 0 else if x =? 100 then 20 else 30) 1.

Lemma heap1_inv : heap_inv 1 [(100, 20); (150, 30)] heap1.
Proof.
  split; [done|done|done| |exists 0; set_solver].
  intros x n [[= -> ->]|[[= -> ->]|?%not_elem_of_nil]%elem_of_cons]%elem_of_cons; done.
Qed.

Lemma free_correct_witness :
  exists h' fl', free 4 121 heap1 = Some h' /\ heap_inv 1 fl' h' /\
    (forall u, covers fl' u <-> covers [(100, 20); (150, 30)] u \/ 120 <= u < 150) /\ kept 1 fl' heap1 h'.
Proof.
  apply (free_correct 1 [(100, 20); (150, 30)] heap1 121 30 4); [apply heap1_inv| |done|cbn; lia].
  split_and!; [done..|]. intros x n [[= -> ->]|[[= -> ->]|?%not_elem_of_nil]%elem_of_cons]%elem_of_cons; [lia..|done].
Defined.

Lemma fresh100 : fresh 1 [] 100 4096.
Proof. split_and!; [done..|]. by intros ? ? ?%not_elem_of_nil. Qed.

Lemma malloc_correct_witness :
  exists a h', malloc 1 4 sbrk100 10 heap0 = Some (a, h') /\ malloc_gives 1 [] sbrk100 (units 10) a heap0 h'.
Proof.
  destruct (malloc_correct 1 [] heap0 sbrk100 10 4) as (_ & a & h' & E & Hr); [by right|done| |cbn; lia|].
  - intros hp [= <-]. apply fresh100.
  - exists a, h'. split; [exact E|]. destruct Hr as [(_ & Hn & _)|[_ Hr]]; [discriminate Hn|exact Hr].
Defined.

(** malloc(10), then free() of the block. *)
Lemma heap_client_safe_witness : exists h,
  rtc (mstep 1) (heap0, []) (h, []) /\ client_inv 1 h [].
Proof.
  destruct (malloc 1 4 sbrk100 10 heap0) as [[a h1]|] eqn:E1; [|by vm_compute in E1].
  assert (a = 4195) as -> by (by vm_compute in E1; injection E1 as <- _).
  destruct (free 4 4195 h1) as [h2|] eqn:E2; [|by vm_compute in E1; injection E1 as <-; vm_compute in E2].
  assert (rtc (mstep 1) (heap0, []) (h2, [])) as Hr.
  { eapply rtc_l; [eapply (ms_malloc 1 heap0 [] 4 sbrk100 10); [done| |exact E1]|].
    - intros hp [= <-] fl [I|(_ & -> & _)]; [|apply fresh100]. destruct (hi_freep _ _ _ I) as [n Hn].
      by apply (inv_pos _ _ _ _ _ I) in Hn.
    - apply rtc_once. by apply (ms_free 1 h1 [] 4194 2 [] 4). }
  exists h2. split; [exact Hr|]. by apply (heap_client_safe 1 heap0 h2 []).
Defined.
