(* ===== verification/Grep.v ===== *)
(** user/grep.c: the matcher of regular expressions, and the loop that prints
    the matching lines of a file.

    A C string is the list of its characters without the final NUL; a pointer
    into it is the rest of the string from there, so that the character that a
    pointer to the end points to is the NUL. *)
From S2P Require Import Prelude CInt KString Ulib.


(** ** The matcher *)

Definition STAR : Z := 42.
Definition DOT : Z := 46.
Definition CARET : Z := 94.
Definition DOLLAR : Z := 36.
Definition NL : Z := 10.

(** matchstar(); [mh] is matchhere() with the rest of the pattern. *)
Fixpoint matchstar (mh : list Z -> bool) (c : Z) (text : list Z) : bool :=
  if mh text then true
  else
    match text with
    | [] => false
    | x :: text' => if (x =? c) || (c =? DOT) then matchstar mh c text' else false
    end.

Fixpoint matchhere (re text : list Z) : bool :=
  match re with
  | [] => true
  | c :: re1 =>
      match re1 with
      | d :: re2 =>
          if d =? STAR then matchstar (matchhere re2) c text
          else
            match text with
            | [] => false
            | x :: text' => if (c =? DOT) || (c =? x) then matchhere re1 text' else false
            end
      | [] =>
          if c =? DOLLAR then match text with [] => true | _ => false end
          else
            match text with
            | [] => false
            | x :: text' => if (c =? DOT) || (c =? x) then matchhere re1 text' else false
            end
      end
  end.

(** The do-while loop of match(). *)
Fixpoint match_loop (re text : list Z) : bool :=
  if matchhere re text then true
  else match text with [] => false | _ :: text' => match_loop re text' end.

Definition match_ (re text : list Z) : bool :=
  match re with
  | c :: re1 => if c =? CARET then matchhere re1 text else match_loop re text
  | [] => match_loop re text
  end.

(** ** The loop over the lines *)

(** The inner loop: [p] is the buffer from p on, the result what is written to
    standard output and the buffer from the last p on.  Every turn moves p. *)
Fixpoint grep_lines (fuel : nat) (pattern p : list Z) : list Z * list Z :=
  match fuel with
  | O => ([], p)
  | S fuel' =>
      match strchr p NL with
      | None => ([], p)
      | Some q =>
          let out := if match_ pattern (take q p) then take (q + 1) p else [] in
          let '(out', p') := grep_lines fuel' pattern (drop (q + 1) p) in
          (out ++ out', p')
      end
  end.

Definition sizeof_buf : Z := 1024.

(** read(): at most [n] bytes of the rest of the file.  [chunk] tells how many
    arrive, for a pipe or the console need not give all. *)
Definition read (chunk : nat -> nat) (n : Z) (file : list Z) : list Z * list Z :=
  let k := Nat.min (S (chunk (length file))) (Z.to_nat n) in
  (take k file, drop k file).

(** The outer loop: [buf] are the [m] bytes at the start of buf. *)
Fixpoint grep_loop (fuel : nat) (chunk : nat -> nat) (pattern buf file : list Z) : list Z :=
  match fuel with
  | O => []
  | S fuel' =>
      let m := Z.of_nat (length buf) in
      let '(got, file') := read chunk (sizeof_buf - m - 1) file in
      if (0 <? Z.of_nat (length got)) then
        let buf1 := buf ++ got in
        let '(out, p) := grep_lines (length buf1) pattern buf1 in
        out ++ grep_loop fuel' chunk pattern p file'
      else []
  end.

(** Every turn but the last reads a byte. *)
Definition grep (chunk : nat -> nat) (pattern file : list Z) : list Z :=
  grep_loop (S (length file)) chunk pattern [] file.

(** main(): the exit status, and what is written to the standard output and to
    the standard error.  [opens] is the file that open() gives, [stdin] what is
    read from descriptor 0. *)
Fixpoint main_files (chunk : nat -> nat) (opens : list Z -> option (list Z)) (pattern : list Z) (args : list (list Z))
    : Z * list Z * list Z :=
  match args with
  | [] => (0, [], [])
  | a :: args' =>
      match opens a with
      | None => (1, bstr "grep: cannot open " ++ a ++ [NL], [])
      | Some file =>
          let out := grep chunk pattern file in
          let '(st, out', err) := main_files chunk opens pattern args' in
          (st, out ++ out', err)
      end
  end.

Definition main (chunk : nat -> nat) (opens : list Z -> option (list Z)) (stdin : list Z) (argv : list (list Z))
    : Z * list Z * list Z :=
  match argv with
  | _ :: pattern :: [] => (0, grep chunk pattern stdin, [])
  | _ :: pattern :: args => main_files chunk opens pattern args
  | _ => (1, [], bstr "usage: grep pattern [file ...]" ++ [NL])
  end.

(** ** What a pattern means *)

Inductive item := Chr (c : Z) | Star (c : Z) | Eol.

Fixpoint items (re : list Z) : list item :=
  match re with
  | [] => []
  | c :: re1 =>
      match re1 with
      | d :: re2 => if d =? STAR then Star c :: items re2 else Chr c :: items re1
      | [] => if c =? DOLLAR then [Eol] else [Chr c]
      end
  end.

Definition fits (c x : Z) : Prop := c = DOT \/ c = x.

(** [means its u v]: the text [u], followed by [v], is an instance of [its]. *)
Inductive means : list item -> list Z -> list Z -> Prop :=
  | M_nil v : means [] [] v
  | M_chr c x its u v : fits c x -> means its u v -> means (Chr c :: its) (x :: u) v
  | M_star c its u1 u2 v : Forall (fits c) u1 -> means its u2 v -> means (Star c :: its) (u1 ++ u2) v
  | M_eol : means [Eol] [] [].

(** A pattern that begins with a caret is about the beginning of the text, any
    other one about any part of it. *)
Definition denotes (re text : list Z) : Prop :=
  match re with
  | c :: re1 =>
      if c =? CARET then exists u v, text = u ++ v /\ means (items re1) u v
      else exists s u v, text = s ++ u ++ v /\ means (items re) u v
  | [] => True
  end.

(** ** Lemmas *)

Lemma fits_spec c x : (c =? DOT) || (c =? x) = true <-> fits c x.
Proof. unfold fits. rewrite orb_true_iff, !Z.eqb_eq. done. Qed.

Lemma matchstar_spec mh c its text :
  (forall t, mh t = true <-> exists u v, t = u ++ v /\ means its u v) ->
  matchstar mh c text = true <-> exists u v, text = u ++ v /\ means (Star c :: its) u v.
Proof.
  intros Hmh. induction text as [|x text IH]; cbn [matchstar].
  - destruct (mh []) eqn:E.
    + split; [|done]. intros _. apply Hmh in E as (u & v & E & Hm). exists u, v. split; [done|].
      by apply (M_star c its [] u v).
    + split; [done|]. intros (u & v & E' & Hm). inversion Hm as [| |? ? u1 u2 ? HF Hm'|]; subst.
      destruct u1; [|done]. assert (mh [] = true); [|congruence]. apply Hmh. eauto.
  - destruct (mh (x :: text)) eqn:E.
    + split; [|done]. intros _. apply Hmh in E as (u & v & E & Hm). exists u, v. split; [done|].
      by apply (M_star c its [] u v).
    + assert ((x =? c) || (c =? DOT) = (c =? DOT) || (c =? x)) as -> by (rewrite orb_comm; f_equal; apply Z.eqb_sym).
      destruct ((c =? DOT) || (c =? x)) eqn:Ef.
      * rewrite IH. apply fits_spec in Ef. split.
        -- intros (u & v & -> & Hm). inversion Hm as [| |? ? u1 u2 ? HF Hm'|]; subst.
           exists (x :: u1 ++ u2), v. split; [done|]. apply (M_star c its (x :: u1)); [by constructor|done].
        -- intros (u & v & E' & Hm). inversion Hm as [| |? ? u1 u2 ? HF Hm'|]; subst.
           destruct u1 as [|y u1]; cbn in E'.
           ++ assert (mh (x :: text) = true); [|congruence]. apply Hmh. eauto.
           ++ injection E' as <- ->. exists (u1 ++ u2), v. split; [done|]. apply list.Forall_cons in HF as [_ HF].
              by apply M_star.
      * split; [done|]. intros (u & v & E' & Hm). inversion Hm as [| |? ? u1 u2 ? HF Hm'|]; subst.
        destruct u1 as [|y u1]; cbn in E'.
        -- assert (mh (x :: text) = true); [|congruence]. apply Hmh. eauto.
        -- injection E' as <- ->. apply list.Forall_cons in HF as [HF _]. apply fits_spec in HF. congruence.
Qed.

Lemma matchchr_spec mh c its text :
  (forall t, mh t = true <-> exists u v, t = u ++ v /\ means its u v) ->
  match text with [] => false | x :: text' => if (c =? DOT) || (c =? x) then mh text' else false end = true <->
  exists u v, text = u ++ v /\ means (Chr c :: its) u v.
Proof.
  intros Hmh. destruct text as [|x text].
  - split; [done|]. intros (u & v & E & Hm). inversion Hm; subst. done.
  - destruct ((c =? DOT) || (c =? x)) eqn:Ef.
    + rewrite Hmh. apply fits_spec in Ef. split.
      * intros (u & v & -> & Hm). exists (x :: u), v. split; [done|]. by constructor.
      * intros (u & v & E & Hm). inversion Hm; subst. injection E as <- ->. eauto.
    + split; [done|]. intros (u & v & E & Hm). inversion Hm as [|? ? ? ? ? Hf| |]; subst.
      injection E as <- ->. apply fits_spec in Hf. congruence.
Qed.

Lemma matchhere_spec re : forall text,
  matchhere re text = true <-> exists u v, text = u ++ v /\ means (items re) u v.
Proof.
  induction re as [re IH] using (induction_ltof1 _ (@length Z)); unfold ltof in IH.
  intros text. destruct re as [|c [|d re]]; cbn [matchhere items].
  - split; [|done]. intros _. exists [], text. split; [done|constructor].
  - destruct (c =? DOLLAR); [|apply (matchchr_spec (fun t => true)); intros t; split; [|done]].
    + destruct text as [|x text].
      * split; [|done]. intros _. exists [], []. split; [done|constructor].
      * split; [done|]. intros (u & v & E & Hm). by inversion Hm; subst.
    + intros _. exists [], t. split; [done|constructor].
  - destruct (d =? STAR) eqn:Ed.
    + apply matchstar_spec. intros t. apply IH. cbn. lia.
    + rewrite (matchchr_spec (matchhere (d :: re)) c (items (d :: re))); [|intros t; apply IH; cbn; lia].
      cbn [items]. done.
Qed.

Lemma match_loop_spec re text :
  match_loop re text = true <-> exists s u v, text = s ++ u ++ v /\ means (items re) u v.
Proof.
  induction text as [|x text IH]; cbn [match_loop]; destruct (matchhere re _) eqn:E.
  - split; [|done]. intros _. apply matchhere_spec in E as (u & v & E & Hm). by exists [], u, v.
  - split; [done|]. intros (s & u & v & E' & Hm). assert (matchhere re [] = true); [|congruence].
    apply matchhere_spec. destruct s; [|done]. by exists u, v.
  - split; [|done]. intros _. apply matchhere_spec in E as (u & v & E & Hm). by exists [], u, v.
  - rewrite IH. split.
    + intros (s & u & v & -> & Hm). by exists (x :: s), u, v.
    + intros ([|y s] & u & v & E' & Hm).
      * assert (matchhere re (x :: text) = true); [|congruence]. apply matchhere_spec. by exists u, v.
      * injection E' as <- ->. by exists s, u, v.
Qed.

(** C38: the matcher decides the meaning of the pattern.  The recursive search
    of match(), matchhere() and matchstar() returns true exactly when the text
    has a part - at its beginning, if the pattern starts with a caret - that is
    an instance of the pattern: a plain character stands for itself, a dot for
    any character, a starred character for any number of instances of it, and
    a dollar at the end of the pattern for the end of the text. *)
Theorem match_denotes re text : match_ re text = true <-> denotes re text.
Proof.
  destruct re as [|c re]; cbn [match_ denotes].
  - split; [done|]. intros _. destruct text; done.
  - destruct (c =? CARET); [apply matchhere_spec|apply match_loop_spec].
Qed.

(** ** Lines *)

(** A line, without its newline. *)
Definition is_line (l : list Z) : Prop := Forall (fun x => x <> 0 /\ x <> NL) l.

Definition unlines (ls : list (list Z)) : list Z := concat (map (fun l => l ++ [NL]) ls).

Lemma strchr_line l rest : is_line l -> strchr (l ++ NL :: rest) NL = Some (length l).
Proof.
  induction 1 as [|x l [Hx0 Hxn] Hl IH]; [done|]. cbn [app strchr length].
  rewrite !(proj2 (Z.eqb_neq _ _)) by done. by rewrite IH.
Qed.

Lemma strchr_none l : is_line l -> strchr l NL = None.
Proof.
  induction 1 as [|x l [Hx0 Hxn] Hl IH]; [done|]. cbn [strchr].
  rewrite !(proj2 (Z.eqb_neq _ _)) by done. by rewrite IH.
Qed.

(** The inner loop prints the matching lines and stops at the rest. *)
Lemma grep_lines_run pattern ls rest : forall fuel,
  Forall is_line ls -> is_line rest -> (length ls <= fuel)%nat ->
  grep_lines fuel pattern (unlines ls ++ rest) = (unlines (filter (fun l => match_ pattern l = true) ls), rest).
Proof.
  induction ls as [|l ls IH]; intros fuel Hls Hr Hf.
  - destruct fuel; [done|]. cbn. by rewrite strchr_none.
  - destruct fuel as [|fuel]; [cbn in Hf; lia|]. apply list.Forall_cons in Hls as [Hl Hls]. cbn in Hf.
    change (unlines (l :: ls)) with ((l ++ [NL]) ++ unlines ls). rewrite <- !(assoc_L (++)). cbn [app grep_lines].
    rewrite strchr_line by done. rewrite take_app_length.
    replace (l ++ NL :: unlines ls ++ rest) with ((l ++ [NL]) ++ unlines ls ++ rest) by (by rewrite <- (assoc_L (++))).
    replace (length l + 1)%nat with (length (l ++ [NL])) by (by rewrite length_app).
    rewrite take_app_length, drop_app_length, IH by (done || lia). rewrite filter_cons.
    destruct (match_ pattern l) eqn:Em; [by rewrite decide_True|by rewrite decide_False].
Qed.

Lemma unlines_cons l ls : unlines (l :: ls) = l ++ NL :: unlines ls.
Proof. unfold unlines. cbn. by rewrite <- (assoc_L (++)). Qed.

Lemma length_unlines ls : (length ls <= length (unlines ls))%nat.
Proof. induction ls as [|l ls IH]; [done|]. rewrite unlines_cons, length_app. cbn. lia. Qed.

(** A prefix of the file is some lines and a part of the next one. *)
Lemma prefix_lines ls last : forall pre post,
  Forall is_line ls -> is_line last -> pre ++ post = unlines ls ++ last ->
  exists ls1 ls2 r, ls = ls1 ++ ls2 /\ pre = unlines ls1 ++ r /\ is_line r /\ r ++ post = unlines ls2 ++ last.
Proof.
  induction ls as [|l ls IH]; intros pre post Hls Hlast E.
  - exists [], [], pre. split_and!; [done..| |done]. cbn in E. subst last. by apply Forall_app in Hlast as [? _].
  - apply list.Forall_cons in Hls as [Hl Hls]. rewrite unlines_cons, <- (assoc_L (++)) in E. cbn in E.
    destruct (decide (length pre <= length l)%nat) as [Hle|Hgt].
    + exists [], (l :: ls), pre. split_and!; [done|done| |by rewrite unlines_cons, <- (assoc_L (++))].
      apply (f_equal (take (length pre))) in E. rewrite take_app_length, take_app_le in E by done.
      rewrite E. by apply Forall_take.
    + rewrite cons_middle, (assoc_L (++)) in E.
      assert (exists pre', pre = (l ++ [NL]) ++ pre') as [pre' ->].
      { exists (drop (length (l ++ [NL])) pre). rewrite <- (take_drop (length (l ++ [NL])) pre) at 1. f_equal.
        rewrite <- (take_app_le pre post), E by (rewrite length_app; cbn; lia). apply take_app_length. }
      rewrite <- !(assoc_L (++)) in E. apply app_inv_head in E. injection E as E.
      destruct (IH pre' post Hls Hlast E) as (ls1 & ls2 & r & -> & -> & Hr & E').
      exists (l :: ls1), ls2, r. split_and!; [done| |done|done]. by rewrite unlines_cons, <- !(assoc_L (++)).
Qed.

Definition short (l : list Z) : Prop := is_line l /\ Z.of_nat (length l) < sizeof_buf - 1.

(** A part of a short line is short. *)
Lemma short_part ls last r post :
  Forall short ls -> short last -> is_line r -> r ++ post = unlines ls ++ last -> short r.
Proof.
  intros Hls Hlast Hr E. split; [done|]. destruct ls as [|l ls].
  - cbn in E. destruct Hlast as [_ Hlast]. subst last. rewrite length_app in Hlast. lia.
  - apply list.Forall_cons in Hls as [[_ Hl] _]. rewrite unlines_cons, <- (assoc_L (++)) in E. cbn in E.
    destruct (decide (length r <= length l)%nat) as [Hle|Hgt]; [lia|exfalso].
    assert (r !! length l = Some NL) as Hc.
    { rewrite <- (lookup_app_l r post), E by lia. by rewrite list_lookup_middle. }
    unfold is_line in Hr. rewrite Forall_lookup in Hr. by destruct (Hr _ _ Hc).
Qed.

Lemma grep_loop_run chunk pattern : forall fuel part file ls last,
  part ++ file = unlines ls ++ last -> Forall short ls -> short last -> short part -> (length file < fuel)%nat ->
  grep_loop fuel chunk pattern part file = unlines (filter (fun l => match_ pattern l = true) ls).
Proof.
  induction fuel as [|fuel IH]; intros part file ls last E Hls Hlast [Hp Hpl] Hf; [lia|]. cbn [grep_loop read].
  assert (Forall is_line ls) as Hls' by (eapply list.Forall_impl; [exact Hls|]; by intros ? []).
  set (k := Nat.min _ _). assert (0 < k)%nat as Hk by (unfold k, sizeof_buf in *; lia). clearbody k.
  destruct (decide (file = [])) as [->|Hne].
  - rewrite take_nil, app_nil_r in *. cbn. destruct ls as [|l ls]; [done|exfalso].
    rewrite unlines_cons, <- (assoc_L (++)) in E. subst part.
    apply Forall_app in Hp as [_ Hp]. apply list.Forall_cons in Hp as [[_ Hp] _]. done.
  - assert (0 < length (take k file))%nat as Hpos.
    { rewrite length_take. assert (length file <> 0)%nat by (by rewrite length_zero_iff_nil). lia. }
    rewrite (proj2 (Z.ltb_lt _ _)) by lia.
    rewrite <- (take_drop k file), (assoc_L (++)) in E.
    destruct (prefix_lines ls last _ _ Hls' (proj1 Hlast) E) as (ls1 & ls2 & r & -> & Epre & Hr & E').
    apply Forall_app in Hls as [Hls1 Hls2]. apply Forall_app in Hls' as [Hls1' Hls2'].
    rewrite Epre, grep_lines_run; [|done|done|rewrite length_app; pose proof (length_unlines ls1); lia].
    rewrite (IH r (drop k file) ls2 last); [|done..| |].
    + rewrite list.filter_app. unfold unlines. by rewrite map_app, concat_app.
    + by eapply short_part.
    + rewrite length_take in Hpos. rewrite length_drop. lia.
Qed.

(** C39: grep prints the matching lines, in order and unchanged, whatever the
    sizes of the pieces in which the file is read: for a file whose lines have
    no NUL and fit into the buffer with their newline and a NUL, the output is
    the lines that match.  What follows the last newline is not printed. *)
Theorem grep_filters chunk pattern ls last :
  Forall short ls -> short last ->
  grep chunk pattern (unlines ls ++ last) = unlines (filter (fun l => match_ pattern l = true) ls).
Proof. intros Hls Hlast. eapply grep_loop_run; [done|done|done| |lia]. split; [constructor|done]. Qed.

Lemma grep_filters_witness :
  grep (fun n => 2%nat) (bstr "aa*$") (unlines [bstr "xy"; bstr "baa"; bstr "ab"] ++ bstr "a") =
    unlines [bstr "baa"].
Proof.
  rewrite (grep_filters (fun n => 2%nat) (bstr "aa*$") [bstr "xy"; bstr "baa"; bstr "ab"] (bstr "a")).
  - reflexivity.
  - repeat constructor; discriminate.
  - repeat constructor; discriminate.
Defined.

