(* ===== verification/Grind.v ===== *)
(** user/grind.c: the random system-call tester, its random number generator
    and what one turn of its loop does to descriptors and child processes. *)
From S2P Require Import Prelude CInt KString KState Ulib Usys Programs.

(** * Random numbers *)

(** do_rand(): the result, which is also the new *ctx. *)
Definition do_rand (ctx : Z) : Z :=
  (* Transform to [1, 0x7ffffffe] range. *)
  let x := ctx mod 0x7ffffffe + 1 in
  let hi := Z.quot x 127773 in
  let lo := Z.rem x 127773 in
  let x := 16807 * lo - 2836 * hi in
  let x := if x <? 0 then x + 0x7fffffff else x in
  (* Transform to [0, 0x7ffffffd] range. *)
  x - 1.

(** rand(): the result and the new rand_next. *)
Definition rand (rand_next : Z) : Z * Z :=
  let x := do_rand rand_next in (i32 x, u64 x).

(** * go() *)

Section grind.
#[local] Open Scope prog_scope.

Definition O_CR : Z := Z.lor O_CREATE O_RDWR.
Definition dquote : string := String (Ascii.ascii_of_nat 34) EmptyString.

Definition mkdir (path : string) : prog Z := sys (C_mkdir (bstr path)).
Definition chdir (path : string) : prog Z := sys (C_chdir (bstr path)).
Definition unlink (path : string) : prog Z := sys (C_unlink (bstr path)).
Definition link (old new : string) : prog Z := sys (C_link (bstr old) (bstr new)).
Definition openf (path : string) : prog Z := open (bstr path) O_CR.

(** close(open(path, O_CREATE|O_RDWR)) *)
Definition touch (path : string) : prog Z := fd <~ openf path ; close fd.

Definition die {A} (fd : Z) (msg : string) (status : Z) : prog A := line fd msg [] ~> Exit status.

Definition BUFSIZE : Z := 999.

(** what = 1 .. 12: files; the result is the new fd and the new contents of the
    static buffer, of which read() overwrites what it reads. *)
Definition turn_files (buf : list Z) (what fd : Z) : prog (Z * list Z) :=
  if what =? 1 then
    touch "grindir/../a" ~> Ret (fd, buf)
  else if what =? 2 then
    touch "grindir/../grindir/../b" ~> Ret (fd, buf)
  else if what =? 3 then
    unlink "grindir/../a" ~> Ret (fd, buf)
  else if what =? 4 then
    r <~ chdir "grindir" ;
    if negb (r =? 0) then die 1 "grind: chdir grindir failed" 1
    else
      unlink "../b" ~>
      chdir "/" ~> Ret (fd, buf)
  else if what =? 5 then
    close fd ~> fd <~ openf "/grindir/../a" ; Ret (fd, buf)
  else if what =? 6 then
    close fd ~> fd <~ openf "/./grindir/./../b" ; Ret (fd, buf)
  else if what =? 7 then
    write fd buf ~> Ret (fd, buf)
  else if what =? 8 then
    r <~ read fd BUFSIZE ; Ret (fd, stl buf 0 r.2)
  else if what =? 9 then
    mkdir "grindir/../a" ~>
    touch "a/../a/./a" ~>
    unlink "a/a" ~> Ret (fd, buf)
  else if what =? 10 then
    mkdir "/../b" ~>
    touch "grindir/../b/b" ~>
    unlink "b/b" ~> Ret (fd, buf)
  else if what =? 11 then
    unlink "b" ~>
    link "../grindir/./../a" "../b" ~> Ret (fd, buf)
  else
    unlink "../grindir/../a" ~>
    link ".././b" "/grindir/../a" ~> Ret (fd, buf).

(** what = 13 .. 18: processes and memory. *)
Definition turn_procs (what break0 fd : Z) : prog Z :=
  if what =? 13 then
    pid <~ sys C_fork ;
    if pid =? 0 then Exit 0
    else if pid <? 0 then die 1 "grind: fork failed" 1
    else sys C_wait ~> Ret fd
  else if what =? 14 then
    pid <~ sys C_fork ;
    if pid =? 0 then sys C_fork ~> sys C_fork ~> Exit 0
    else if pid <? 0 then die 1 "grind: fork failed" 1
    else sys C_wait ~> Ret fd
  else if what =? 15 then
    sys (C_sbrk 6011) ~> Ret fd
  else if what =? 16 then
    b <~ sys (C_sbrk 0) ;
    if break0 <? u64 b then
      b' <~ sys (C_sbrk 0) ;
      sys (C_sbrk (i32 (- (u64 b' - break0)))) ~> Ret fd
    else Ret fd
  else if what =? 17 then
    pid <~ sys C_fork ;
    if pid =? 0 then touch "a" ~> Exit 0
    else if pid <? 0 then die 1 "grind: fork failed" 1
    else
      r <~ chdir "../grindir/.." ;
      if negb (r =? 0) then die 1 "grind: chdir failed" 1
      else sys (C_kill pid) ~> sys C_wait ~> Ret fd
  else if what =? 18 then
    pid <~ sys C_fork ;
    if pid =? 0 then me <~ sys C_getpid ; sys (C_kill me) ~> Exit 0
    else if pid <? 0 then die 1 "grind: fork failed" 1
    else sys C_wait ~> Ret fd
  else
    Ret fd.

(** what = 20: a child that works in a directory it has removed. *)
Definition turn_child (fd : Z) : prog Z :=
  pid <~ sys C_fork ;
  if pid =? 0 then
    unlink "a" ~>
    mkdir "a" ~>
    chdir "a" ~>
    unlink "../a" ~>
    openf "x" ~>
    unlink "x" ~>
    Exit 0
  else if pid <? 0 then die 1 "grind: fork failed" 1
  else sys C_wait ~> Ret fd.

(** what = 19: a pipe that several children share. *)
Definition turn_pipe (fd : Z) : prog Z :=
  r <~ sysd C_pipe ;
  let fds := r.2 in
  if r.1 <? 0 then die 1 "grind: pipe failed" 1
  else
    pid <~ sys C_fork ;
    if pid =? 0 then
      sys C_fork ~>
      sys C_fork ~>
      w <~ write fds.[1] (bstr "x") ;
      (if negb (w =? 1) then line 1 "grind: pipe write failed" [] else Ret tt) ~>
      c <~ read fds.[0] 1 ;
      (if negb (c.1 =? 1) then line 1 "grind: pipe read failed" [] else Ret tt) ~>
      Exit 0
    else if pid <? 0 then die 1 "grind: fork failed" 1
    else
      close fds.[0] ~>
      close fds.[1] ~>
      sys C_wait ~> Ret fd.

(** what = 21: check that there are free i-nodes, file descriptors, blocks. *)
Definition turn_create (fd : Z) : prog Z :=
  unlink "c" ~>
  fd1 <~ openf "c" ;
  if fd1 <? 0 then die 1 "grind: create c failed" 1
  else
    w <~ write fd1 (bstr "x") ;
    if negb (w =? 1) then die 1 "grind: write c failed" 1
    else
      s <~ sysd (C_fstat fd1) ;
      if negb (s.1 =? 0) then die 1 "grind: fstat failed" 1
      else if negb (st_size s.2 =? 1) then
        line 1 "grind: fstat reports wrong size %d" [U_int (i32 (st_size s.2))] ~> Exit 1
      else if 200 <? st_ino s.2 then
        line 1 "grind: fstat reports crazy i-number %d" [U_int (i32 (st_ino s.2))] ~> Exit 1
      else
        close fd1 ~>
        unlink "c" ~> Ret fd.

(** The children of what = 22: echo hi, and cat. *)
Definition child_echo (aa bb : list Z) : prog Z :=
  close bb.[0] ~>
  close bb.[1] ~>
  close aa.[0] ~>
  close 1 ~>
  d <~ sys (C_dup aa.[1]) ;
  if negb (d =? 1) then die 2 "grind: dup failed" 1
  else
    close aa.[1] ~>
    sys (C_exec (bstr "grindir/../echo") [bstr "echo"; bstr "hi"]) ~>
    die 2 "grind: echo: not found" 2.

Definition child_cat (aa bb : list Z) : prog Z :=
  close aa.[1] ~>
  close bb.[0] ~>
  close 0 ~>
  d <~ sys (C_dup aa.[0]) ;
  if negb (d =? 0) then die 2 "grind: dup failed" 4
  else
    close aa.[0] ~>
    close 1 ~>
    d <~ sys (C_dup bb.[1]) ;
    if negb (d =? 1) then die 2 "grind: dup failed" 5
    else
      close bb.[1] ~>
      sys (C_exec (bstr "/cat") [bstr "cat"]) ~>
      die 2 "grind: cat: not found" 6.

(** One byte read to where a zero byte was. *)
Definition read_byte (fd : Z) : prog Z := r <~ read fd 1 ; Ret (r.2.[0]).

(** what = 22: echo hi | cat.  What wait() stores is the status of the child. *)
Definition turn_pipeline (fd : Z) : prog Z :=
  ra <~ sysd C_pipe ;
  if ra.1 <? 0 then die 2 "grind: pipe failed" 1
  else
    rb <~ sysd C_pipe ;
    if rb.1 <? 0 then die 2 "grind: pipe failed" 1
    else
      let aa := ra.2 in let bb := rb.2 in
      pid1 <~ sys C_fork ;
      if pid1 =? 0 then child_echo aa bb
      else if pid1 <? 0 then die 2 "grind: fork failed" 3
      else
        pid2 <~ sys C_fork ;
        if pid2 =? 0 then child_cat aa bb
        else if pid2 <? 0 then die 2 "grind: fork failed" 7
        else
          close aa.[0] ~>
          close aa.[1] ~>
          close bb.[1] ~>
          b0 <~ read_byte bb.[0] ;
          b1 <~ read_byte bb.[0] ;
          b2 <~ read_byte bb.[0] ;
          close bb.[0] ~>
          w1 <~ sysd C_wait ;
          w2 <~ sysd C_wait ;
          let st1 := w1.2.[0] in let st2 := w2.2.[0] in
          let buf := [b0; b1; b2; 0] in
          if negb (st1 =? 0) || negb (st2 =? 0) || negb (strcmp buf (bstr ("hi" +:+ nl) ++ [0]) =? 0) then
            line 1 ("grind: exec pipeline failed %d %d " +:+ dquote +:+ "%s" +:+ dquote)
              [U_int st1; U_int st2; U_str (Some buf)] ~> Exit 1
          else Ret fd.

(** The body of the loop, for a random [what]. *)
Definition turn (what break0 fd : Z) (buf : list Z) : prog (Z * list Z) :=
  if (1 <=? what) && (what <=? 12) then turn_files buf what fd
  else
    fd <~ (if (13 <=? what) && (what <=? 18) then turn_procs what break0 fd
           else if what =? 19 then turn_pipe fd
           else if what =? 20 then turn_child fd
           else if what =? 21 then turn_create fd
           else if what =? 22 then turn_pipeline fd
           else Ret fd) ;
    Ret (fd, buf).

(** while(1) *)
Fixpoint go_loop (fuel : nat) (which_child : Z) (buf : list Z) (break0 iters fd rand_next : Z) : prog unit :=
  match fuel with
  | O => Stuck
  | S fuel' =>
      let iters := u64 (iters + 1) in
      (if iters mod 500 =? 0 then write 1 (if which_child =? 0 then bstr "A" else bstr "B") ~> Ret tt
       else Ret tt) ~>
      let '(r, rand_next) := rand rand_next in
      fb <~ turn (Z.rem r 23) break0 fd buf ;
      go_loop fuel' which_child fb.2 break0 iters fb.1 rand_next
  end.

Definition go (fuel : nat) (which_child : Z) (buf : list Z) (rand_next : Z) : prog unit :=
  break0 <~ sys (C_sbrk 0) ;
  mkdir "grindir" ~>
  r <~ chdir "grindir" ;
  if negb (r =? 0) then die 1 "grind: chdir grindir failed" 1
  else
    chdir "/" ~>
    go_loop fuel which_child buf (u64 break0) 0 (-1) rand_next.

(** * iter() and main() *)

Definition iter (fuel : nat) (buf : list Z) (rand_next : Z) : prog unit :=
  unlink "a" ~>
  unlink "b" ~>
  pid1 <~ sys C_fork ;
  if pid1 <? 0 then die 1 "grind: fork failed" 1
  else if pid1 =? 0 then go fuel 0 buf (Z.lxor rand_next 31) ~> Exit 0
  else
    pid2 <~ sys C_fork ;
    if pid2 <? 0 then die 1 "grind: fork failed" 1
    else if pid2 =? 0 then go fuel 1 buf (Z.lxor rand_next 7177) ~> Exit 0
    else
      w1 <~ sysd C_wait ;
      let st1 := if w1.1 <? 0 then -1 else w1.2.[0] in
      (if negb (st1 =? 0) then sys (C_kill pid1) ~> sys (C_kill pid2) ~> Ret tt else Ret tt) ~>
      sys C_wait ~>
      Exit 0.

Fixpoint grind_main (fuel : nat) (buf : list Z) (rand_next : Z) : prog unit :=
  match fuel with
  | O => Stuck
  | S fuel' =>
      pid <~ sys C_fork ;
      if pid =? 0 then iter fuel' buf rand_next ~> Exit 0
      else
        (if 0 <? pid then sys C_wait ~> Ret tt else Ret tt) ~>
        sys (C_sleep 20) ~>
        grind_main fuel' buf (u64 (rand_next + 1))
  end.

End grind.

(** * The generator *)

(** C37: do_rand() is the generator x -> 7^5 x mod (2^31 - 1) that its comment
    names, on the range 1 .. 2^31 - 2, shifted down by one; Schrage's
    decomposition computes it with every intermediate value, the two products and
    their difference, inside a long of 33 bits. *)
Theorem do_rand_correct ctx : 0 <= ctx < 2 ^ 64 ->
  let x := ctx mod 0x7ffffffe + 1 in
  do_rand ctx + 1 = 16807 * x mod (2 ^ 31 - 1) /\
  0 <= do_rand ctx <= 0x7ffffffd /\
  rand ctx = (do_rand ctx, do_rand ctx) /\
  0 <= 16807 * Z.rem x 127773 < 2 ^ 32 /\ 0 <= 2836 * Z.quot x 127773 < 2 ^ 32 /\
  - 2 ^ 32 < 16807 * Z.rem x 127773 - 2836 * Z.quot x 127773 < 2 ^ 32.
Proof.
  intros Hc. cbv zeta. set (x := ctx mod 0x7ffffffe + 1).
  assert (1 <= x <= 0x7ffffffe) as Hx.
  { subst x. pose proof (Z.mod_pos_bound ctx 0x7ffffffe ltac:(lia)). lia. }
  assert (do_rand ctx + 1 = 16807 * x mod (2 ^ 31 - 1)) as E.
  { unfold do_rand. cbv zeta. fold x. rewrite Z.quot_div_nonneg, Z.rem_mod_nonneg by lia.
    assert (x = 127773 * (x / 127773) + x mod 127773) as D by (apply Z.div_mod; lia).
    pose proof (Z.mod_pos_bound x 127773 ltac:(lia)) as M.
    set (q := x / 127773) in *. set (r := x mod 127773) in *.
    assert (0 <= q <= 16807) as Q by lia.
    destruct (16807 * r - 2836 * q <? 0) eqn:Eb; [apply Z.ltb_lt in Eb|apply Z.ltb_ge in Eb];
      [apply (Z.mod_unique_pos _ _ (q - 1))|apply (Z.mod_unique_pos _ _ q)]; lia. }
  pose proof (Z.mod_pos_bound (16807 * x) (2 ^ 31 - 1) ltac:(lia)) as B.
  assert (16807 * x mod (2 ^ 31 - 1) <> 0) as N.
  { intros H. apply Z.mod_divide in H; [|lia]. apply Z.gauss in H; [|by vm_compute].
    apply Z.divide_pos_le in H; lia. }
  split; [exact E|]. split; [lia|]. split.
  - unfold rand. rewrite i32_small, u64_small by lia. done.
  - rewrite Z.quot_div_nonneg, Z.rem_mod_nonneg by lia. split_and!; zdm.
Qed.

(** * What a turn leaves behind *)

(** Descriptors and children through a program: [O] are the open descriptors,
    [n] is the number of children not waited for. A call that opens
    descriptors fails or gives fresh ones; a child starts with a copy of the
    descriptors and no children, and must not come back from the program. *)
Fixpoint tracks {A} (p : prog A) (O : gset Z) (n : nat) (Q : A -> gset Z -> nat -> Prop) : Prop :=
  match p with
  | Ret a => Q a O n
  | Exit _ => True
  | Stuck => False
  | Sys c k =>
      match c with
      | C_open _ _ | C_dup _ => forall r d,
          (r < 0 -> tracks (k (r, d)) O n Q) /\
          (0 <= r -> r ∉ O -> tracks (k (r, d)) ({[r]} ∪ O) n Q)
      | C_pipe =>
          (forall r d, r < 0 -> tracks (k (r, d)) O n Q) /\
          (forall r f g, 0 <= r -> 0 <= f -> 0 <= g -> f <> g -> f ∉ O -> g ∉ O ->
             tracks (k (r, [f; g])) ({[f; g]} ∪ O) n Q)
      | C_close fd => forall r d, tracks (k (r, d)) (O ∖ {[fd]}) n Q
      | C_fork => forall r d,
          (r < 0 -> tracks (k (r, d)) O n Q) /\
          (0 < r -> tracks (k (r, d)) O (S n) Q) /\
          tracks (k (0, d)) O 0 (fun _ _ _ => False)
      | C_wait => forall r d, tracks (k (r, d)) O (pred n) Q
      | _ => forall r d, tracks (k (r, d)) O n Q
      end
  end.

Lemma tracks_putcs {B} fd bs (p : prog B) O n Q :
  tracks p O n Q -> tracks (pbind (putcs fd bs) (fun _ => p)) O n Q.
Proof. intros H. induction bs as [|c bs IH]; cbn; [done|]. intros r d. exact IH. Qed.

Lemma tracks_line {B} fd fmt ap out (p : prog B) O n Q :
  fprintf (fmt +:+ nl) ap = Some out -> tracks p O n Q -> tracks (pbind (line fd fmt ap) (fun _ => p)) O n Q.
Proof. intros E H. unfold line, printf. rewrite E. by apply tracks_putcs. Qed.

Lemma tracks_mono {A} (p : prog A) : forall O n (Q R : A -> gset Z -> nat -> Prop),
  (forall a O n, Q a O n -> R a O n) -> tracks p O n Q -> tracks p O n R.
Proof.
  induction p as [a|c k IH|st|]; intros O n Q R HQ H; [by apply HQ| |done|done].
  destruct c; cbn in *; naive_solver.
Qed.

Lemma tracks_bind {A B} (f : A -> prog B) Q (p : prog A) : forall O n,
  tracks p O n (fun a O n => tracks (f a) O n Q) -> tracks (pbind p f) O n Q.
Proof.
  revert Q. induction p as [a|c k IH|st|]; intros Q O n H; [done| |done|done].
  destruct c; cbn in *; try (intros r d; apply IH; exact (H r d)); [|naive_solver..].
  intros r d. destruct (H r d) as (H1 & H2 & H3). split_and!; [naive_solver..|].
  apply IH. eapply tracks_mono; [|exact H3]. done.
Qed.

Definition nonneg (O : gset Z) : Prop := forall x, x ∈ O -> 0 <= x.

(** The caller's descriptors are open as before, but for its [fd], which may
    have been replaced, and all children have been waited for. *)
Definition balanced (fd : Z) (O : gset Z) (n : nat) (fd' : Z) (O' : gset Z) (n' : nat) : Prop :=
  n' = n /\ O' ∖ {[fd']} = O ∖ {[fd]} /\ nonneg O'.

Lemma close_fresh (O : gset Z) f : f ∉ O -> ({[f]} ∪ O) ∖ {[f]} = O.
Proof. set_solver. Qed.

Lemma close_none (O : gset Z) f : nonneg O -> f < 0 -> O ∖ {[f]} = O.
Proof.
  intros H Hf. apply set_eq. intros x. rewrite elem_of_difference, elem_of_singleton. split; [tauto|].
  intros Hx. split; [done|]. intros ->. specialize (H _ Hx). lia.
Qed.

Lemma close_pipe (O : gset Z) f g : f ∉ O -> g ∉ O -> ({[f; g]} ∪ O) ∖ {[f]} ∖ {[g]} = O.
Proof. set_solver. Qed.

Lemma nonneg_add (O : gset Z) f : nonneg O -> 0 <= f -> nonneg ({[f]} ∪ O).
Proof. intros H Hf x [->%elem_of_singleton|Hx]%elem_of_union; [done|by apply H]. Qed.

Lemma nonneg_close (O : gset Z) f : nonneg O -> nonneg (O ∖ {[f]}).
Proof. intros H x [Hx _]%elem_of_difference. by apply H. Qed.

Lemma balanced_refl fd O n : nonneg O -> balanced fd O n fd O n.
Proof. by split. Qed.

Lemma balanced_closed fd fd' O n : nonneg O -> fd' < 0 -> balanced fd O n fd' (O ∖ {[fd]}) n.
Proof. intros H Hf. pose proof (nonneg_close O fd H). split_and!; [done|by apply close_none|done]. Qed.

Lemma balanced_reopened fd fd' O n :
  nonneg O -> 0 <= fd' -> fd' ∉ O ∖ {[fd]} -> balanced fd O n fd' ({[fd']} ∪ O ∖ {[fd]}) n.
Proof.
  intros H Hf Hn. split_and!; [done|by apply close_fresh|]. by apply nonneg_add, Hf; apply nonneg_close.
Qed.

Lemma tracks_touch {B} path (p : prog B) O n Q :
  nonneg O -> tracks p O n Q -> tracks (pbind (touch path) (fun _ => p)) O n Q.
Proof.
  intros HO H. cbn. intros r d. split; intros Hr.
  - intros _ _. by rewrite close_none.
  - intros Hn _ _. by rewrite close_fresh.
Qed.

Create HintDb grind.
#[local] Hint Resolve balanced_refl balanced_closed balanced_reopened : grind.

(** One step through the program text. *)
Ltac track :=
  lazymatch goal with
  | |- forall _, _ => intro
  | |- tracks (pbind (touch _) _) _ _ _ => apply tracks_touch; [assumption|]
  | |- tracks (die _ _ _) _ _ _ => eapply tracks_line; [reflexivity|exact I]
  | |- tracks (pbind (line _ _ _) _) _ _ _ => eapply tracks_line; [reflexivity|]
  | |- tracks (Exit _) _ _ _ => exact I
  | |- tracks (if ?b then _ else _) _ _ _ => destruct b eqn:?; try (exfalso; cbn [fst snd] in *; b2p; lia)
  | |- tracks (pbind (if ?b then _ else _) _) _ _ _ => destruct b eqn:?; try (exfalso; cbn [fst snd] in *; b2p; lia)
  | |- tracks (Sys (C_open _ _) _) _ _ _ => intros ? ?; split; intros
  | |- tracks (Sys (C_dup _) _) _ _ _ => intros ? ?; split; intros
  | |- tracks (Sys C_pipe _) _ _ _ => split; intros
  | |- tracks (Sys C_fork _) _ _ _ => intros ? ?; split; [intro|split; [intro|]]
  | |- tracks (Sys _ _) _ _ _ => intros ? ?
  | |- tracks _ _ _ _ =>
      progress cbn [pbind sys sysd open close write read mkdir chdir unlink link openf read_byte fst snd]
  end; cbn beta.

Lemma turn_files_ok buf what fd O n : nonneg O ->
  tracks (turn_files buf what fd) O n (fun fb => balanced fd O n fb.1).
Proof. intros HO. unfold turn_files. repeat track; cbn; auto with grind. Qed.

Lemma turn_procs_ok what break0 fd O n : nonneg O ->
  tracks (turn_procs what break0 fd) O n (balanced fd O n).
Proof. intros HO. unfold turn_procs. repeat track; cbn; auto with grind. Qed.

Lemma turn_child_ok fd O n : nonneg O -> tracks (turn_child fd) O n (balanced fd O n).
Proof. intros HO. unfold turn_child. repeat track; cbn; auto with grind. Qed.

Lemma turn_pipe_ok fd O n : nonneg O -> tracks (turn_pipe fd) O n (balanced fd O n).
Proof.
  intros HO. unfold turn_pipe. repeat track. cbn. rewrite close_pipe by done. auto with grind.
Qed.

Lemma turn_create_ok fd O n : nonneg O -> tracks (turn_create fd) O n (balanced fd O n).
Proof.
  intros HO. unfold turn_create. repeat track. cbn. rewrite close_fresh by done. auto with grind.
Qed.

Lemma child_echo_ok aa bb O n : tracks (child_echo aa bb) O n (fun _ _ _ => False).
Proof. unfold child_echo. repeat track. Qed.

Lemma child_cat_ok aa bb O n : tracks (child_cat aa bb) O n (fun _ _ _ => False).
Proof. unfold child_cat. repeat track. Qed.

Lemma close_pipes (O : gset Z) a b c d :
  a ∉ O -> b ∉ O -> c ∉ {[a; b]} ∪ O -> d ∉ {[a; b]} ∪ O ->
  ({[c; d]} ∪ ({[a; b]} ∪ O)) ∖ {[a]} ∖ {[b]} ∖ {[d]} ∖ {[c]} = O.
Proof. set_solver. Qed.

Lemma turn_pipeline_ok fd O n : nonneg O -> tracks (turn_pipeline fd) O n (balanced fd O n).
Proof.
  intros HO. unfold turn_pipeline. repeat track; [|apply child_cat_ok|apply child_echo_ok].
  cbn. rewrite close_pipes by done. auto with grind.
Qed.

(** C36: No turn of go()'s loop leaks: whatever the system calls answer, a turn
    that comes back has closed every descriptor it opened, apart from the one
    it keeps in fd in place of the old one, and has waited for every child it
    made; and no child comes back into the loop. *)
Theorem turn_balanced what break0 fd buf O n : nonneg O ->
  tracks (turn what break0 fd buf) O n (fun fb => balanced fd O n fb.1).
Proof.
  intros HO. unfold turn. case_if; [by apply turn_files_ok|].
  apply (tracks_bind _ (fun fb => balanced fd O n fb.1)). cbn [tracks fst].
  repeat case_if;
    auto using turn_procs_ok, turn_child_ok, turn_pipe_ok, turn_create_ok, turn_pipeline_ok.
  by apply balanced_refl.
Qed.

Lemma turn_balanced_witness :
  tracks (turn 19 0 3 []) {[0; 1; 2; 3]} 0 (fun fb => balanced 3 {[0; 1; 2; 3]} 0 fb.1).
Proof. apply (turn_balanced 19 0 3 []). intros x Hx. set_unfold. lia. Defined.

Lemma do_rand_correct_witness : 0 <= 1 < 2 ^ 64 /\ do_rand 1 = 33613 /\ do_rand 1 + 1 = 16807 * (1 mod 0x7ffffffe + 1) mod (2 ^ 31 - 1).
Proof. split; [lia|]. split; [reflexivity|]. apply (do_rand_correct 1). lia. Defined.
