(* ===== verification/Sh.v ===== *)
(** user/sh.c: the shell.

    The command line is the string [b] in buf[]; a pointer into it is the rest
    of the string from there, and the pointer es to its end is the empty string.
    The parser leaves its words in the line and only notes where they start and
    end; nulterminate() then writes a NUL behind each of them, into the line
    that they share. *)
From S2P Require Import Prelude CInt KString KState Ulib Usys.

(** * Commands *)

Definition MAXARGS : nat := 10.

(** A counted string: from the first pointer to the second. *)
Definition span : Type := list Z * list Z.

(** struct cmd and its kinds. *)
Inductive cmd :=
  | EXEC (argv : list span)
  | REDIR (c : cmd) (file : span) (mode fd : Z)
  | PIPE (l r : cmd)
  | LIST (l r : cmd)
  | BACK (c : cmd).

(** The commands after nulterminate(), with the strings that argv and file
    point to. *)
Inductive scmd :=
  | S_exec (argv : list (list Z))
  | S_redir (c : scmd) (file : list Z) (mode fd : Z)
  | S_pipe (l r : scmd)
  | S_list (l r : scmd)
  | S_back (c : scmd).

(** * Running a command *)

Section runcmd.
#[local] Open Scope prog_scope.

Definition panic {A} (s : string) : prog A :=
  printf 2 ("%s" +:+ nl) [U_str (Some (bstr s))] ~> Exit 1.

Definition fork1 : prog Z :=
  pid <~ sys C_fork ;
  if pid =? -1 then panic "fork" else Ret pid.

Fixpoint runcmd (c : scmd) : prog unit :=
  match c with
  | S_exec [] => Exit 1
  | S_exec (a :: argv) =>
      sys (C_exec a (a :: argv)) ~>
      printf 2 ("exec %s failed" +:+ nl) [U_str (Some a)] ~>
      Exit 0
  | S_redir c file mode fd =>
      close fd ~>
      fd' <~ open file mode ;
      if fd' <? 0 then printf 2 ("open %s failed" +:+ nl) [U_str (Some file)] ~> Exit 1
      else runcmd c
  | S_list l r =>
      pid <~ fork1 ;
      if pid =? 0 then runcmd l
      else sys C_wait ~> runcmd r
  | S_pipe l r =>
      rp <~ sysd C_pipe ;
      if rp.1 <? 0 then panic "pipe"
      else
        let p0 := rp.2.[0] in let p1 := rp.2.[1] in
        pid <~ fork1 ;
        if pid =? 0 then close 1 ~> sys (C_dup p1) ~> close p0 ~> close p1 ~> runcmd l
        else
          pid <~ fork1 ;
          if pid =? 0 then close 0 ~> sys (C_dup p0) ~> close p0 ~> close p1 ~> runcmd r
          else close p0 ~> close p1 ~> sys C_wait ~> sys C_wait ~> Exit 0
  | S_back c =>
      pid <~ fork1 ;
      if pid =? 0 then runcmd c else Exit 0
  end.
End runcmd.

(** * Parsing *)

(** What a parsing function returns, or how it stops; [P_left] when parsecmd()
    finds something behind the command. *)
Inductive pres (A : Type) := P_ok (a : A) | P_panic (msg : string) | P_left (s : list Z) | P_fuel.
Arguments P_ok {A}.
Arguments P_left {A}.
Arguments P_panic {A}.
Arguments P_fuel {A}.

Definition presbind {A B} (r : pres A) (f : A -> pres B) : pres B :=
  match r with P_ok a => f a | P_panic m => P_panic m | P_left s => P_left s | P_fuel => P_fuel end.
Notation "'let?' x := r 'in' q" := (presbind r (fun x => q)) (at level 10, x pattern, r at level 200, q at level 200).

Definition whitespace : list Z := [32; 9; 13; 10; 11].
Definition symbols : list Z := bstr "<|>&;()".

Definition in_chars (l : list Z) (c : Z) : bool := match strchr l c with Some _ => true | None => false end.

#[global] Arguments in_chars : simpl never.

Definition ch (s : list Z) : Z := match s with c :: _ => c | [] => 0 end.

Fixpoint skip (s : list Z) : list Z :=
  match s with
  | c :: s' => if in_chars whitespace c then skip s' else s
  | [] => []
  end.

Fixpoint word_end (s : list Z) : list Z :=
  match s with
  | c :: s' => if negb (in_chars whitespace c) && negb (in_chars symbols c) then word_end s' else s
  | [] => []
  end.

(** gettoken(): what it returns, q and eq, and the new *ps. *)
Definition gettoken (ps : list Z) : Z * span * list Z :=
  let s := skip ps in
  let q := s in
  let '(ret, s) :=
    if ch s =? 0 then (0, s)
    else if in_chars (bstr "|();&<") (ch s) then (ch s, tail s)
    else if ch s =? 62 (* > *) then
      let s := tail s in
      if ch s =? 62 then (43 (* + *), tail s) else (62, s)
    else (97 (* a *), word_end s) in
  let eq := s in
  (ret, (q, eq), skip s).

(** peek(): what it returns, and the new *ps. *)
Definition peek (ps : list Z) (toks : list Z) : bool * list Z :=
  let s := skip ps in
  (negb (ch s =? 0) && in_chars toks (ch s), s).

(** A redirection: redircmd() without its command. *)
Definition redir : Type := span * Z * Z.
Definition redircmd (c : cmd) (r : redir) : cmd := let '(file, mode, fd) := r in REDIR c file mode fd.

(** parseredirs() wraps its command into one redircmd() after the other: [rs] are
    the ones so far.  Every turn moves ps. *)
Fixpoint parseredirs (fuel : nat) (rs : list redir) (ps : list Z) : pres (list redir * list Z) :=
  match fuel with
  | O => P_fuel
  | S fuel' =>
      let '(more, ps) := peek ps (bstr "<>") in
      if more then
        let '(tok, _, ps) := gettoken ps in
        let '(tok2, file, ps) := gettoken ps in
        if negb (tok2 =? 97) then P_panic "missing file for redirection"
        else
          let rs' :=
            if tok =? 60 (* < *) then rs ++ [(file, O_RDONLY, 0)]
            else if tok =? 62 (* > *) then rs ++ [(file, Z.lor (Z.lor O_WRONLY O_CREATE) O_TRUNC, 1)]
            else if tok =? 43 (* + *) then rs ++ [(file, Z.lor O_WRONLY O_CREATE, 1)]
            else rs in
          parseredirs fuel' rs' ps
      else P_ok (rs, ps)
  end.

Definition wrap (c : cmd) (rs : list redir) : cmd := foldl redircmd c rs.

(** The loop of parseexec(), after parseredirs(): the words and the
    redirections so far.  The command has the words, through cmd, whatever is
    wrapped around it in ret. *)
Fixpoint parseexec_loop (fuel : nat) (argv : list span) (rs : list redir) (ps : list Z) : pres (cmd * list Z) :=
  match fuel with
  | O => P_fuel
  | S fuel' =>
      let '(stop, ps) := peek ps (bstr "|)&;") in
      if stop then P_ok (wrap (EXEC argv) rs, ps)
      else
        let '(tok, q, ps) := gettoken ps in
        if tok =? 0 then P_ok (wrap (EXEC argv) rs, ps)
        else if negb (tok =? 97) then P_panic "syntax"
        else
          let argv := argv ++ [q] in
          if (MAXARGS <=? length argv)%nat then P_panic "too many args"
          else
            let? (rs, ps) := parseredirs (S (length ps)) rs ps in
            parseexec_loop fuel' argv rs ps
  end.

(** The loop of parseline(). *)
Fixpoint parseback (fuel : nat) (c : cmd) (ps : list Z) : pres (cmd * list Z) :=
  match fuel with
  | O => P_fuel
  | S fuel' =>
      let '(more, ps) := peek ps (bstr "&") in
      if more then
        let '(_, _, ps) := gettoken ps in
        parseback fuel' (BACK c) ps
      else P_ok (c, ps)
  end.

(** The recursive functions: [n] bounds the depth of the recursion. *)
Fixpoint parseline (n : nat) (ps : list Z) : pres (cmd * list Z) :=
  match n with
  | O => P_fuel
  | S n' =>
      let? (c, ps) := parsepipe n' ps in
      let? (c, ps) := parseback (S (length ps)) c ps in
      let '(more, ps) := peek ps (bstr ";") in
      if more then
        let '(_, _, ps) := gettoken ps in
        let? (c', ps) := parseline n' ps in
        P_ok (LIST c c', ps)
      else P_ok (c, ps)
  end
with parsepipe (n : nat) (ps : list Z) : pres (cmd * list Z) :=
  match n with
  | O => P_fuel
  | S n' =>
      let? (c, ps) := parseexec n' ps in
      let '(more, ps) := peek ps (bstr "|") in
      if more then
        let '(_, _, ps) := gettoken ps in
        let? (c', ps) := parsepipe n' ps in
        P_ok (PIPE c c', ps)
      else P_ok (c, ps)
  end
with parseexec (n : nat) (ps : list Z) : pres (cmd * list Z) :=
  match n with
  | O => P_fuel
  | S n' =>
      let '(block, ps) := peek ps (bstr "(") in
      if block then parseblock n' ps
      else
        let? (rs, ps) := parseredirs (S (length ps)) [] ps in
        parseexec_loop (S (length ps)) [] rs ps
  end
with parseblock (n : nat) (ps : list Z) : pres (cmd * list Z) :=
  match n with
  | O => P_fuel
  | S n' =>
      let '(block, ps) := peek ps (bstr "(") in
      if negb block then P_panic "parseblock"
      else
        let '(_, _, ps) := gettoken ps in
        let? (c, ps) := parseline n' ps in
        let '(close, ps) := peek ps (bstr ")") in
        if negb close then P_panic "syntax - missing )"
        else
          let '(_, _, ps) := gettoken ps in
          let? (rs, ps) := parseredirs (S (length ps)) [] ps in
          P_ok (wrap c rs, ps)
  end.

(** Four calls deep, the recursion has consumed a character. *)
Definition parse_depth (b : list Z) : nat := 4 * S (length b).

(** parsecmd() before nulterminate(). *)
Definition parse (b : list Z) : pres cmd :=
  let? (c, ps) := parseline (parse_depth b) b in
  let '(_, ps) := peek ps [] in
  if negb (length ps =? 0)%nat then P_left ps else P_ok c.

(** * nulterminate() *)

(** The place of a pointer into the line [b]. *)
Definition at_ (b s : list Z) : nat := length b - length s.

(** [m] is the line with its NUL, as memory. *)
Fixpoint nulterminate (b : list Z) (c : cmd) (m : list Z) : list Z :=
  match c with
  | EXEC argv => foldl (fun m a => <[at_ b a.2 := 0]> m) m argv
  | REDIR c file _ _ => <[at_ b file.2 := 0]> (nulterminate b c m)
  | PIPE l r | LIST l r => nulterminate b r (nulterminate b l m)
  | BACK c => nulterminate b c m
  end.

Fixpoint strings (f : span -> list Z) (c : cmd) : scmd :=
  match c with
  | EXEC argv => S_exec (map f argv)
  | REDIR c file mode fd => S_redir (strings f c) (f file) mode fd
  | PIPE l r => S_pipe (strings f l) (strings f r)
  | LIST l r => S_list (strings f l) (strings f r)
  | BACK c => S_back (strings f c)
  end.

Definition parsecmd (b : list Z) : pres scmd :=
  let? c := parse b in
  let m := nulterminate b c (b ++ [0]) in
  P_ok (strings (fun a => cstring_at (drop (at_ b a.1) m)) c).

(** * The main loop *)

(** main(), from the first prompt on; [n] bounds the number of lines. *)
Section main.
#[local] Open Scope prog_scope.

(** gets() on the standard input. *)
Fixpoint gets_in (n : nat) : prog (list Z) :=
  match n with
  | O => Ret []
  | S n' =>
      r <~ read 0 1 ;
      if r.1 <? 1 then Ret []
      else
        let c := r.2.[0] in
        if (c =? 10) || (c =? 13) then Ret [c]
        else bs <~ gets_in n' ; Ret (c :: bs)
  end.

(** getcmd(): the line, [None] for the end of the input. *)
Definition getcmd (nbuf : Z) : prog (option (list Z)) :=
  write 2 (bstr "$ ") ~>
  bs <~ gets_in (Z.to_nat (nbuf - 1)) ;
  let buf := cstring_at bs in
  if (length buf =? 0)%nat then Ret None else Ret (Some buf).

Fixpoint main_loop (n : nat) : prog unit :=
  match n with
  | O => Stuck
  | S n' =>
      line <~ getcmd 100 ;
      match line with
      | None => Exit 0
      | Some buf =>
          if (buf.[0] =? 99) && (buf.[1] =? 100) && (buf.[2] =? 32) then
            (* chop \n *)
            let dir := drop 3 (take (length buf - 1) buf) in
            r <~ sys (C_chdir dir) ;
            (if r <? 0 then printf 2 ("cannot cd %s" +:+ nl) [U_str (Some dir)] else Ret tt) ~>
            main_loop n'
          else
            pid <~ fork1 ;
            if pid =? 0 then
              match parsecmd buf with
              | P_ok c => runcmd c
              | P_panic s => panic s
              | P_left s => printf 2 ("leftovers: %s" +:+ nl) [U_str (Some s)] ~> panic "syntax"
              | P_fuel => Stuck
              end
            else sys C_wait ~> main_loop n'
      end
  end.

Fixpoint open_console (n : nat) : prog unit :=
  match n with
  | O => Stuck
  | S n' =>
      fd <~ open (bstr "console") O_RDWR ;
      if 0 <=? fd then
        if 3 <=? fd then close fd ~> Ret tt else open_console n'
      else Ret tt
  end.

(** Four descriptors are enough for open() to return 3. *)
Definition main (n : nat) : prog unit := open_console 4 ~> main_loop n.
End main.

(** * The parser reads the line to its end *)

Definition is_word (w : list Z) : Prop :=
  Forall (fun c => c <> 0 /\ in_chars whitespace c = false /\ in_chars symbols c = false) w.

(** A pointer to the end of a word. *)
Definition stops (s : list Z) : Prop :=
  match s with
  | [] => True
  | c :: _ => in_chars whitespace c = true \/ in_chars symbols c = true
  end.

(** A word of the line [b]. *)
Definition span_ok (b : list Z) (a : span) : Prop :=
  exists pre w, b = pre ++ w ++ a.2 /\ a.1 = w ++ a.2 /\ w <> [] /\ is_word w /\ stops a.2.

Fixpoint cmd_ok (b : list Z) (c : cmd) : Prop :=
  match c with
  | EXEC argv => Forall (span_ok b) argv
  | REDIR c file _ _ => cmd_ok b c /\ span_ok b file
  | PIPE l r | LIST l r => cmd_ok b l /\ cmd_ok b r
  | BACK c => cmd_ok b c
  end.

(** [ps'] is reached from [ps] in the line [b]. *)
Definition behind (ps ps' : list Z) : Prop := exists pre, ps = pre ++ ps'.

#[export] Instance behind_preorder : PreOrder behind.
Proof.
  split; [intros s; by exists []|]. intros s1 s2 s3 [p ->] [q ->]. exists (p ++ q). by rewrite (assoc_L (++)).
Qed.

Lemma behind_length ps ps' : behind ps ps' -> (length ps' <= length ps)%nat.
Proof. intros [pre ->]. rewrite length_app. lia. Qed.

Lemma skip_behind s : behind s (skip s).
Proof.
  induction s as [|c s [pre E]]; cbn; [done|]. destruct (in_chars whitespace c); [|by exists []].
  exists (c :: pre). cbn. by rewrite <- E.
Qed.

Definition no_nul (s : list Z) : Prop := Forall (fun c => c <> 0) s.

Lemma behind_no_nul s s' : behind s s' -> no_nul s -> no_nul s'.
Proof. intros [pre ->] H. by apply Forall_app in H as [_ ?]. Qed.

Lemma word_end_spec s : no_nul s -> exists w, s = w ++ word_end s /\ is_word w /\ stops (word_end s).
Proof.
  induction 1 as [|c s Hc Hs (w & E & Hw & Hst)]; cbn [word_end].
  - exists []. split_and!; [done|constructor|done].
  - destruct (in_chars whitespace c) eqn:E1; cbn [negb andb].
    { exists []. split_and!; [done|constructor|by left]. }
    destruct (in_chars symbols c) eqn:E2; cbn [negb andb].
    { exists []. split_and!; [done|constructor|by right]. }
    exists (c :: w). split_and!; [cbn; by rewrite <- E|by constructor|done].
Qed.

Lemma skip_head s c s' : skip s = c :: s' -> in_chars whitespace c = false.
Proof.
  induction s as [|x s IH]; cbn; [done|]. destruct (in_chars whitespace x) eqn:E; [done|]. by intros [= <- _].
Qed.

Lemma symbols_split c : in_chars symbols c = in_chars (bstr "|();&<") c || (c =? 62).
Proof.
  unfold in_chars. cbn. repeat (case_match; b2p; subst; try done); lia.
Qed.

(** gettoken() moves, and gives a word of the line for 'a'. *)
Lemma gettoken_spec ps tok q ps' : no_nul ps -> gettoken ps = (tok, q, ps') ->
  behind ps ps' /\ (tok <> 0 -> (length ps' < length ps)%nat) /\ (tok = 97 -> span_ok ps q).
Proof.
  intros Hn. unfold gettoken. pose proof (skip_behind ps) as Hb. pose proof (behind_length _ _ Hb) as Hl.
  pose proof (behind_no_nul _ _ Hb Hn) as Hns.
  destruct (skip ps) as [|c s] eqn:Es; cbn [ch tail].
  { intros [= <- <- <-]. split_and!; [by etrans; [exact Hb|apply skip_behind]|done|done]. }
  assert (forall s', behind (c :: s) s' -> behind ps (skip s')) as Hbs.
  { intros s' H. etrans; [exact Hb|]. etrans; [exact H|apply skip_behind]. }
  assert (forall s', behind s s' -> (length (skip s') < length ps)%nat) as Hls.
  { intros s' H%behind_length. pose proof (behind_length _ _ (skip_behind s')). cbn in Hl. lia. }
  assert (behind (c :: s) s) as Hcs by (by exists [c]).
  destruct (c =? 0) eqn:E0; [b2p; by apply list.Forall_cons in Hns as [? _]|].
  destruct (in_chars (bstr "|();&<") c) eqn:E1.
  { intros [= <- <- <-]. split_and!; [by apply Hbs|intros _; by apply Hls|intros ->; done]. }
  destruct (c =? 62) eqn:E2.
  { destruct (ch s =? 62); intros [= <- <- <-].
    - assert (behind s (tail s)) as Ht by (destruct s; [done|by eexists [_]]).
      split_and!; [apply Hbs; by etrans|intros _; by apply Hls|done].
    - split_and!; [by apply Hbs|intros _; by apply Hls|done]. }
  intros [= <- <- <-]. destruct (word_end_spec (c :: s) Hns) as (w & Ew & Hw & Hst).
  assert (w <> []) as Hne.
  { intros ->. cbn [app word_end] in Ew. rewrite (skip_head _ _ _ Es), symbols_split, E1, E2 in Ew. cbn in Ew.
    destruct (word_end_spec s) as (w & Ew' & _); [by apply list.Forall_cons in Hns as [_ ?]|].
    apply (f_equal length) in Ew, Ew'. rewrite length_app in Ew'. cbn in Ew. lia. }
  split_and!.
  - apply Hbs. by exists w.
  - intros _. apply Hls. destruct w as [|x w]; [done|]. injection Ew as _ Ew. by exists w.
  - intros _. destruct Hb as [pre ->]. exists pre, w. split_and!; [exact (f_equal (app pre) Ew)|exact Ew|done..].
Qed.

(** What holds of a result: the functions have moved in the line, and the
    command has only words of the line. *)
Definition post (b ps : list Z) (r : pres (cmd * list Z)) : Prop :=
  match r with
  | P_ok (c, ps') => behind ps ps' /\ cmd_ok b c
  | P_fuel => False
  | _ => True
  end.

Lemma span_ok_behind b ps a : behind b ps -> span_ok ps a -> span_ok b a.
Proof. intros [p ->] (pre & w & -> & H). exists (p ++ pre), w. by rewrite <- (assoc_L (++)). Qed.

Lemma wrap_ok b rs : forall c, cmd_ok b c -> Forall (fun r => span_ok b r.1.1) rs -> cmd_ok b (wrap c rs).
Proof.
  induction rs as [|[[file mode] fd] rs IH]; intros c Hc Hrs; [done|]. apply list.Forall_cons in Hrs as [Hr Hrs].
  apply IH; done.
Qed.

Lemma peek_spec ps toks more ps' : peek ps toks = (more, ps') ->
  behind ps ps' /\ (more = true -> ch ps' <> 0 /\ in_chars toks (ch ps') = true) /\ ps' = skip ps'.
Proof.
  unfold peek. intros [= <- <-]. split_and!; [apply skip_behind| |].
  - intros [H1 H2]%andb_prop. apply negb_true_iff, Z.eqb_neq in H1. done.
  - induction ps as [|c ps IH]; [done|]. cbn. destruct (in_chars whitespace c) eqn:E; [done|]. cbn. by rewrite E.
Qed.

(** After a successful peek() the next token is not the end of the line. *)
Lemma gettoken_peeked ps tok q ps' :
  ch ps <> 0 -> ps = skip ps -> gettoken ps = (tok, q, ps') -> tok <> 0.
Proof.
  intros Hc Hs. unfold gettoken. rewrite <- Hs. rewrite (proj2 (Z.eqb_neq _ _)) by done.
  destruct (in_chars (bstr "|();&<") (ch ps)); [by intros [= <- _ _]|].
  destruct (ch ps =? 62); [destruct (ch (tail ps) =? 62)|]; by intros [= <- _ _].
Qed.

Lemma parseredirs_spec b fuel : forall rs ps,
  no_nul b -> behind b ps -> (length ps < fuel)%nat -> Forall (fun r => span_ok b r.1.1) rs ->
  match parseredirs fuel rs ps with
  | P_ok (rs', ps') => behind ps ps' /\ Forall (fun r => span_ok b r.1.1) rs'
  | P_fuel => False
  | _ => True
  end.
Proof.
  induction fuel as [|fuel IH]; intros rs ps Hn Hb Hf Hrs; [lia|]. cbn [parseredirs].
  destruct (peek ps _) as [more ps1] eqn:Ep. apply peek_spec in Ep as (Hb1 & Hm & Hs1).
  destruct more; [|done]. destruct (Hm eq_refl) as [Hc _].
  destruct (gettoken ps1) as [[tok q1] ps2] eqn:E1. pose proof (gettoken_peeked _ _ _ _ Hc Hs1 E1) as Ht.
  assert (no_nul ps1) as Hn1 by (eapply behind_no_nul; [|exact Hn]; by etrans).
  apply gettoken_spec in E1 as (Hb2 & Hl2 & _); [|done].
  destruct (gettoken ps2) as [[tok2 file] ps3] eqn:E2.
  apply gettoken_spec in E2 as (Hb3 & _ & Hsp); [|by eapply behind_no_nul].
  destruct (tok2 =? 97) eqn:E97; cbn [negb]; [|done]. b2p.
  assert (behind b ps2) as Hb02 by (do 2 (etrans; [eassumption|]); done).
  assert (span_ok b file) as Hfile by (eapply span_ok_behind; [exact Hb02|by apply Hsp]).
  specialize (Hl2 Ht). pose proof (behind_length _ _ Hb1). pose proof (behind_length _ _ Hb3).
  assert (behind ps ps3) as Hb03 by (do 2 (etrans; [eassumption|]); done).
  match goal with |- context [parseredirs fuel ?rs' ps3] => specialize (IH rs' ps3 Hn) end.
  destruct (parseredirs _ _ _) as [[rs' ps']|m|l|]; [|done..|].
  - destruct IH as [IH1 IH2]; [by etrans|lia| |split; [by etrans|done]].
    repeat case_match; try done; (apply Forall_app; split; [done|by constructor]).
  - apply IH; [by etrans|lia|]. repeat case_match; try done; (apply Forall_app; split; [done|by constructor]).
Qed.

Section parsing.
Context (b : list Z).
Hypothesis Hn : no_nul b.

(** The pointers of the line. *)
Lemma line_no_nul ps : behind b ps -> no_nul ps.
Proof. intros H. by eapply behind_no_nul. Qed.

Lemma post_behind ps ps' r : behind ps ps' -> post b ps' r -> post b ps r.
Proof. intros Hb. destruct r as [[c ps'']|m|l|]; cbn; try done. intros [H1 H2]. split; [by etrans|done]. Qed.

(** peek() and then gettoken(). *)
Lemma peek_token ps toks ps1 tok q ps2 :
  behind b ps -> peek ps toks = (true, ps1) -> gettoken ps1 = (tok, q, ps2) ->
  behind ps ps2 /\ (length ps2 < length ps)%nat.
Proof.
  intros Hb Ep Eg. apply peek_spec in Ep as (Hb1 & Hm & Hs1). destruct (Hm eq_refl) as [Hc _].
  pose proof (gettoken_peeked _ _ _ _ Hc Hs1 Eg) as Ht.
  apply gettoken_spec in Eg as (Hb2 & Hl2 & _); [|apply line_no_nul; by etrans].
  split; [by etrans|]. pose proof (behind_length _ _ Hb1). specialize (Hl2 Ht). lia.
Qed.

Lemma parseexec_loop_spec fuel : forall argv rs ps,
  behind b ps -> (length ps < fuel)%nat -> Forall (span_ok b) argv -> Forall (fun r => span_ok b r.1.1) rs ->
  post b ps (parseexec_loop fuel argv rs ps).
Proof.
  induction fuel as [|fuel IH]; intros argv rs ps Hb Hf Ha Hrs; [lia|]. cbn [parseexec_loop].
  destruct (peek ps _) as [stop ps1] eqn:Ep. apply peek_spec in Ep as (Hb1 & _ & _).
  destruct stop; [split; [done|by apply wrap_ok]|].
  destruct (gettoken ps1) as [[tok q] ps2] eqn:Eg.
  apply gettoken_spec in Eg as (Hb2 & Hl2 & Hsp); [|apply line_no_nul; by etrans].
  destruct (tok =? 0) eqn:E0; [split; [by etrans|by apply wrap_ok]|].
  destruct (tok =? 97) eqn:E97; cbn [negb]; [|done]. b2p. specialize (Hl2 E0).
  assert (Forall (span_ok b) (argv ++ [q])) as Ha'.
  { apply Forall_app. split; [done|]. constructor; [|constructor]. eapply span_ok_behind; [|by apply Hsp]. by etrans. }
  destruct (MAXARGS <=? length (argv ++ [q]))%nat; [done|].
  assert (behind ps ps2) as Hb02 by (by etrans).
  pose proof (parseredirs_spec b (S (length ps2)) rs ps2 Hn ltac:(by etrans) ltac:(lia) Hrs) as Hr.
  destruct (parseredirs _ _ _) as [[rs' ps3]|m|l|]; cbn [presbind]; [|done..]. destruct Hr as [Hb3 Hrs'].
  pose proof (behind_length _ _ Hb1). pose proof (behind_length _ _ Hb3).
  apply (post_behind _ ps3); [by etrans|]. apply IH; [by do 2 (etrans; [eassumption|])|lia|done|done].
Qed.

Lemma parseback_spec fuel : forall c ps,
  behind b ps -> (length ps < fuel)%nat -> cmd_ok b c -> post b ps (parseback fuel c ps).
Proof.
  induction fuel as [|fuel IH]; intros c ps Hb Hf Hc; [lia|]. cbn [parseback].
  destruct (peek ps _) as [[] ps1] eqn:Ep; [|apply peek_spec in Ep as (Hb1 & _ & _); done].
  destruct (gettoken ps1) as [[tok q] ps2] eqn:Eg.
  destruct (peek_token _ _ _ _ _ _ Hb Ep Eg) as [Hb2 Hl2].
  apply (post_behind _ ps2); [done|]. apply IH; [by etrans|lia|done].
Qed.

(** The recursive functions, with enough fuel for a line of this length. *)
Definition parses (slack : nat) (f : nat -> list Z -> pres (cmd * list Z)) (n : nat) : Prop :=
  forall ps, behind b ps -> (4 * length ps + slack <= n)%nat -> post b ps (f n ps).

Lemma parseline_step n : parses 3 parsepipe n -> parses 4 parseline n -> parses 4 parseline (S n).
Proof.
  intros IHp IHl ps Hb Hf. cbn [parseline].
  pose proof (IHp ps Hb ltac:(lia)) as H. destruct (parsepipe n ps) as [[c ps1]|m|l|]; cbn [presbind]; [|done..].
  destruct H as [Hb1 Hc]. pose proof (parseback_spec (S (length ps1)) c ps1 ltac:(by etrans) ltac:(lia) Hc) as H.
  destruct (parseback _ _ _) as [[c2 ps2]|m|l|]; cbn [presbind]; [|done..]. destruct H as [Hb2 Hc2].
  destruct (peek ps2 _) as [[] ps3] eqn:Ep.
  2:{ apply peek_spec in Ep as (Hb3 & _ & _). split; [by do 2 (etrans; [eassumption|])|done]. }
  destruct (gettoken ps3) as [[tok q] ps4] eqn:Eg.
  assert (behind b ps2) as Hbb by (by do 2 (etrans; [eassumption|])).
  destruct (peek_token _ _ _ _ _ _ Hbb Ep Eg) as [Hb4 Hl4].
  pose proof (behind_length _ _ Hb1). pose proof (behind_length _ _ Hb2).
  pose proof (IHl ps4 ltac:(by etrans) ltac:(lia)) as H1. destruct (parseline n ps4) as [[c' ps5]|m|l|]; cbn [presbind]; [|done..].
  destruct H1 as [Hb5 Hc']. split; [by do 3 (etrans; [eassumption|])|done].
Qed.

Lemma parsepipe_step n : parses 2 parseexec n -> parses 3 parsepipe n -> parses 3 parsepipe (S n).
Proof.
  intros IHe IHp ps Hb Hf. cbn [parsepipe].
  pose proof (IHe ps Hb ltac:(lia)) as H. destruct (parseexec n ps) as [[c ps1]|m|l|]; cbn [presbind]; [|done..].
  destruct H as [Hb1 Hc]. destruct (peek ps1 _) as [[] ps2] eqn:Ep.
  2:{ apply peek_spec in Ep as (Hb2 & _ & _). split; [by etrans|done]. }
  destruct (gettoken ps2) as [[tok q] ps3] eqn:Eg.
  assert (behind b ps1) as Hbb by (by etrans).
  destruct (peek_token _ _ _ _ _ _ Hbb Ep Eg) as [Hb3 Hl3]. pose proof (behind_length _ _ Hb1).
  pose proof (IHp ps3 ltac:(by etrans) ltac:(lia)) as H1. destruct (parsepipe n ps3) as [[c' ps4]|m|l|]; cbn [presbind]; [|done..].
  destruct H1 as [Hb4 Hc']. split; [by do 2 (etrans; [eassumption|])|done].
Qed.

Lemma parseexec_step n : parses 1 parseblock n -> parses 2 parseexec (S n).
Proof.
  intros IHb ps Hb Hf. cbn [parseexec].
  destruct (peek ps _) as [[] ps1] eqn:Ep; apply peek_spec in Ep as (Hb1 & _ & _); pose proof (behind_length _ _ Hb1).
  { apply (post_behind _ ps1); [done|]. apply IHb; [by etrans|lia]. }
  assert (behind b ps1) as Hbb by (by etrans).
  pose proof (parseredirs_spec b (S (length ps1)) [] ps1 Hn Hbb ltac:(lia) ltac:(constructor)) as Hr.
  destruct (parseredirs _ _ _) as [[rs ps2]|m|l|]; cbn [presbind]; [|done..]. destruct Hr as [Hb2 Hrs].
  apply (post_behind _ ps2); [by etrans|]. apply parseexec_loop_spec; [by etrans|lia|constructor|done].
Qed.

Lemma parseblock_step n : parses 4 parseline n -> parses 1 parseblock (S n).
Proof.
  intros IHl ps Hb Hf. cbn [parseblock].
  destruct (peek ps _) as [[] ps1] eqn:Ep; cbn [negb]; [|done].
  destruct (gettoken ps1) as [[tok q] ps2] eqn:Eg.
  destruct (peek_token _ _ _ _ _ _ Hb Ep Eg) as [Hb2 Hl2].
  pose proof (IHl ps2 ltac:(by etrans) ltac:(lia)) as H. destruct (parseline n ps2) as [[c ps3]|m|l|]; cbn [presbind]; [|done..].
  destruct H as [Hb3 Hc]. destruct (peek ps3 _) as [[] ps4] eqn:Ep'; cbn [negb]; [|done].
  destruct (gettoken ps4) as [[tok' q'] ps5] eqn:Eg'.
  assert (behind b ps3) as Hbb by (by do 2 (etrans; [eassumption|])).
  destruct (peek_token _ _ _ _ _ _ Hbb Ep' Eg') as [Hb5 Hl5].
  pose proof (parseredirs_spec b (S (length ps5)) [] ps5 Hn ltac:(by etrans) ltac:(lia) ltac:(constructor)) as Hr.
  destruct (parseredirs _ _ _) as [[rs ps6]|m|l|]; cbn [presbind]; [|done..]. destruct Hr as [Hb6 Hrs].
  split; [by do 3 (etrans; [eassumption|])|by apply wrap_ok].
Qed.

Lemma parse_all n : parses 4 parseline n /\ parses 3 parsepipe n /\ parses 2 parseexec n /\ parses 1 parseblock n.
Proof.
  induction n as [|n (IHl & IHp & IHe & IHb)]; [split_and!; intros ps Hb Hf; exfalso; lia|].
  split_and!; [by apply parseline_step|by apply parsepipe_step|by apply parseexec_step|by apply parseblock_step].
Qed.

Lemma parse_spec : match parse b with P_ok c => cmd_ok b c | P_fuel => False | _ => True end.
Proof.
  unfold parse, parse_depth. destruct (parse_all (4 * S (length b))) as [H _].
  specialize (H b ltac:(done) ltac:(lia)). destruct (parseline _ b) as [[c ps]|m|l|]; cbn [presbind]; [|done..].
  destruct H as [_ Hc]. destruct (peek ps []) as [x ps']. by destruct (length ps' =? 0)%nat.
Qed.
End parsing.

(** C33: the parser terminates on every line: four calls of the recursive
    functions consume a character, so it never needs more depth than it is
    given, and it returns a command or stops with an error message. *)
Theorem parse_terminates b : no_nul b -> parse b <> P_fuel.
Proof. intros Hn. pose proof (parse_spec b Hn) as H. by destruct (parse b). Qed.

Lemma parse_terminates_witness : parse (bstr "(a;b)|c>d &") <> P_fuel.
Proof. apply (parse_terminates (bstr "(a;b)|c>d &")). repeat constructor; discriminate. Defined.

(** * nulterminate() *)

(** The word itself. *)
Definition span_str (a : span) : list Z := take (length a.1 - length a.2) a.1.

Fixpoint spans (c : cmd) : list span :=
  match c with
  | EXEC argv => argv
  | REDIR c file _ _ => spans c ++ [file]
  | PIPE l r | LIST l r => spans l ++ spans r
  | BACK c => spans c
  end.

Definition end_words (b : list Z) (l : list span) (m : list Z) : list Z :=
  foldl (fun m a => <[at_ b a.2 := 0]> m) m l.

Lemma nulterminate_spans b c : forall m, nulterminate b c m = end_words b (spans c) m.
Proof.
  induction c; intros m; cbn; unfold end_words in *; rewrite ?foldl_app; [done|by rewrite IHc|by rewrite IHc1, IHc2..|done].
Qed.

Lemma cmd_ok_spans b c : cmd_ok b c -> Forall (span_ok b) (spans c).
Proof.
  induction c; cbn; [done|intros [? ?]; apply Forall_app; split; [auto|by constructor]|
    intros [? ?]; apply Forall_app; auto..|done].
Qed.

Lemma end_words_keep b l i : forall m, (forall a, a ∈ l -> at_ b a.2 <> i) -> end_words b l m !! i = m !! i.
Proof.
  induction l as [|a l IH]; intros m H; [done|].
  change (end_words b (a :: l) m) with (end_words b l (<[at_ b a.2 := 0]> m)). rewrite IH by (intros; apply H; set_solver).
  apply list_lookup_insert_ne. apply H. set_solver.
Qed.

Lemma end_words_zero b l i : forall m, (i < length m)%nat ->
  m !! i = Some 0 \/ (exists a, a ∈ l /\ at_ b a.2 = i) -> end_words b l m !! i = Some 0.
Proof.
  induction l as [|a l IH]; intros m Hi H.
  - destruct H as [H|(a & Ha & _)]; [done|by apply not_elem_of_nil in Ha].
  - change (end_words b (a :: l) m) with (end_words b l (<[at_ b a.2 := 0]> m)).
    apply IH; [by rewrite length_insert|]. rewrite list_lookup_insert. destruct H as [H|(x & Hx & E)].
    + left. case_decide; done.
    + apply elem_of_cons in Hx as [->|Hx]; [left|right; eauto].
      by rewrite decide_True by (split; [congruence|lia]).
Qed.

Lemma cstring_at_prefix w rest : no_nul w -> cstring_at (w ++ 0 :: rest) = w.
Proof. induction 1 as [|c w Hc Hw IH]; cbn; [done|]. rewrite (proj2 (Z.eqb_neq _ _)) by done. by rewrite IH. Qed.

(** The NULs are written at ends of words, and none of these is in a word. *)
Lemma end_words_span b l a : Forall (span_ok b) l -> a ∈ l ->
  cstring_at (drop (at_ b a.1) (end_words b l (b ++ [0]))) = span_str a.
Proof.
  intros Hl Ha. pose proof Hl as Hl'. rewrite list.Forall_forall in Hl'.
  destruct (Hl' a Ha) as (pre & w & Eb & Eq & Hne & Hw & Hst).
  assert (at_ b a.1 = length pre /\ at_ b a.2 = length pre + length w)%nat as [E1 E2].
  { unfold at_. rewrite Eq, Eb, !length_app. lia. }
  assert (span_str a = w) as ->. { unfold span_str. rewrite Eq, length_app, Nat.add_sub. apply take_app_length. }
  set (m := end_words b l (b ++ [0])).
  assert (forall i c, w !! i = Some c -> m !! (length pre + i)%nat = Some c) as Hin.
  { intros i c Hi. pose proof (lookup_lt_Some _ _ _ Hi) as Hil. unfold m. rewrite end_words_keep.
    - rewrite Eb, <- !(assoc_L (++)), lookup_app_r by lia. replace (length pre + i - length pre)%nat with i by lia.
      by rewrite lookup_app_l by lia.
    - intros x Hx Ex. destruct (Hl' x Hx) as (pre' & w' & Eb' & _ & _ & _ & Hst').
      assert (b !! (length pre + i)%nat = Some c) as Hbi.
      { rewrite Eb, lookup_app_r by lia. replace (length pre + i - length pre)%nat with i by lia. by rewrite lookup_app_l by lia. }
      assert (b !! at_ b x.2 = x.2 !! 0%nat) as Hbx.
      { unfold at_. rewrite Eb' at 1 2. rewrite (assoc_L (++)), length_app, Nat.add_sub, lookup_app_r by done.
        by rewrite Nat.sub_diag. }
      rewrite Ex, Hbi in Hbx. unfold is_word in Hw. rewrite Forall_lookup in Hw. destruct (Hw i c Hi) as (_ & Hc1 & Hc2).
      destruct x as [xq [|c' s]]; [done|]. injection Hbx as ->.
      change (in_chars whitespace c' = true \/ in_chars symbols c' = true) in Hst'. destruct Hst'; congruence. }
  assert (m !! (length pre + length w)%nat = Some 0) as Hz.
  { apply end_words_zero; [rewrite Eb, !length_app; cbn; lia|]. right. by exists a. }
  rewrite E1. assert (exists rest, drop (length pre) m = w ++ 0 :: rest) as [rest ->].
  { exists (drop (S (length w)) (drop (length pre) m)).
    rewrite <- (take_drop (S (length w)) (drop (length pre) m)) at 1. rewrite cons_middle, (assoc_L (++)). f_equal.
    rewrite (take_S_r _ _ 0) by (by rewrite lookup_drop). f_equal.
    apply list_eq. intros i. destruct (decide (i < length w)%nat) as [Hi|Hi].
    - rewrite lookup_take_lt, lookup_drop by done. destruct (lookup_lt_is_Some_2 w i Hi) as [c Hc].
      by rewrite (Hin i c Hc).
    - rewrite lookup_take_ge by lia. by rewrite lookup_ge_None_2 by lia. }
  apply cstring_at_prefix. eapply list.Forall_impl; [exact Hw|]. by intros ? (? & _).
Qed.

Lemma parsecmd_strings_run b c : no_nul b -> parse b = P_ok c -> parsecmd b = P_ok (strings span_str c).
Proof.
  intros Hn E. unfold parsecmd. rewrite E. cbn [presbind]. f_equal.
  pose proof (parse_spec b Hn) as Hok. rewrite E in Hok. apply cmd_ok_spans in Hok.
  rewrite nulterminate_spans. set (l := spans c) in *.
  assert (forall c', (forall a, a ∈ spans c' -> a ∈ l) ->
    strings (fun a => cstring_at (drop (at_ b a.1) (end_words b l (b ++ [0])))) c' = strings span_str c') as H;
    [|by apply H].
  induction c'; cbn; intros Hs.
  - f_equal. apply map_ext_in. intros a Ha. apply end_words_span; [done|]. apply Hs. by apply list_elem_of_In.
  - rewrite IHc' by (intros; apply Hs; set_solver). f_equal. apply end_words_span; [done|]. apply Hs. set_solver.
  - rewrite IHc'1, IHc'2 by (intros; apply Hs; set_solver). done.
  - rewrite IHc'1, IHc'2 by (intros; apply Hs; set_solver). done.
  - by rewrite IHc'.
Qed.

(** nulterminate() is safe although all the words lie in one line and it
    overwrites the line: the strings that the command then has are the words
    that the parser has found, for every line that it accepts. *)
Theorem parsecmd_strings b c : no_nul b -> parse b = P_ok c -> parsecmd b = P_ok (strings span_str c).
Proof. apply parsecmd_strings_run. Qed.

Lemma parsecmd_strings_witness : parsecmd (bstr "cat<a|wc>b") =
  P_ok (S_pipe (S_redir (S_exec [bstr "cat"]) (bstr "a") 0 0) (S_redir (S_exec [bstr "wc"]) (bstr "b") 1537 1)).
Proof.
  erewrite (parsecmd_strings (bstr "cat<a|wc>b")); [|repeat constructor; discriminate|reflexivity]. reflexivity.
Defined.

(** * The language of the shell *)

(** A redirection, and the grammar of command lines. *)
Inductive rd := R_in | R_out | R_app.
Definition rdir : Type := rd * list Z.

Inductive sline :=
  | L_one (p : spipe) (k : nat)
  | L_seq (p : spipe) (k : nat) (l : sline)
with spipe :=
  | P_one (e : sexec)
  | P_bar (e : sexec) (p : spipe)
with sexec :=
  | E_simple (rs : list rdir) (args : list (list Z * list rdir))
  | E_block (l : sline) (rs : list rdir).

Scheme line_ind2 := Induction for sline Sort Prop
  with pipe_ind2 := Induction for spipe Sort Prop
  with exec_ind2 := Induction for sexec Sort Prop.
Combined Scheme syntax_ind from line_ind2, pipe_ind2, exec_ind2.

(** How a command is written: every token is followed by a space. *)
Definition tok (t : list Z) : list Z := t ++ [32].

Definition rd_symbol (r : rd) : list Z := match r with R_in => [60] | R_out => [62] | R_app => [62; 62] end.
Definition rd_mode (r : rd) : Z :=
  match r with
  | R_in => O_RDONLY
  | R_out => Z.lor (Z.lor O_WRONLY O_CREATE) O_TRUNC
  | R_app => Z.lor O_WRONLY O_CREATE
  end.
Definition rd_fd (r : rd) : Z := match r with R_in => 0 | _ => 1 end.

Definition show_rd (r : rdir) : list Z := tok (rd_symbol r.1) ++ tok r.2.
Definition show_rds (rs : list rdir) : list Z := concat (map show_rd rs).
Definition show_args (args : list (list Z * list rdir)) : list Z :=
  concat (map (fun a => tok a.1 ++ show_rds a.2) args).
Definition show_back (k : nat) : list Z := concat (replicate k (tok [38])).

Fixpoint show_line (l : sline) : list Z :=
  match l with
  | L_one p k => show_pipe p ++ show_back k
  | L_seq p k l => show_pipe p ++ show_back k ++ tok [59] ++ show_line l
  end
with show_pipe (p : spipe) : list Z :=
  match p with
  | P_one e => show_exec e
  | P_bar e p => show_exec e ++ tok [124] ++ show_pipe p
  end
with show_exec (e : sexec) : list Z :=
  match e with
  | E_simple rs args => show_rds rs ++ show_args args
  | E_block l rs => tok [40] ++ show_line l ++ tok [41] ++ show_rds rs
  end.

(** What it stands for. *)
Definition tree_rd (c : scmd) (r : rdir) : scmd := S_redir c r.2 (rd_mode r.1) (rd_fd r.1).
Definition tree_rds (c : scmd) (rs : list rdir) : scmd := foldl tree_rd c rs.

Fixpoint tree_line (l : sline) : scmd :=
  match l with
  | L_one p k => Nat.iter k S_back (tree_pipe p)
  | L_seq p k l => S_list (Nat.iter k S_back (tree_pipe p)) (tree_line l)
  end
with tree_pipe (p : spipe) : scmd :=
  match p with
  | P_one e => tree_exec e
  | P_bar e p => S_pipe (tree_exec e) (tree_pipe p)
  end
with tree_exec (e : sexec) : scmd :=
  match e with
  | E_simple rs args => tree_rds (S_exec (map fst args)) (rs ++ concat (map snd args))
  | E_block l rs => tree_rds (tree_line l) rs
  end.

(** Words are not empty, and a command has fewer than MAXARGS of them. *)
Definition word_ok (w : list Z) : Prop := w <> [] /\ is_word w.
Definition rds_ok (rs : list rdir) : Prop := Forall (fun r => word_ok r.2) rs.

Fixpoint line_ok (l : sline) : Prop :=
  match l with
  | L_one p k => pipe_ok p
  | L_seq p k l => pipe_ok p /\ line_ok l
  end
with pipe_ok (p : spipe) : Prop :=
  match p with
  | P_one e => exec_ok e
  | P_bar e p => exec_ok e /\ pipe_ok p
  end
with exec_ok (e : sexec) : Prop :=
  match e with
  | E_simple rs args => rds_ok rs /\ Forall (fun a => word_ok a.1 /\ rds_ok a.2) args /\ (length args < MAXARGS)%nat
  | E_block l rs => line_ok l /\ rds_ok rs
  end.

(** ** Tokens *)

(** What follows begins with a token that is one of [cs], or is the end. *)
Definition next (cs : list Z) (rest : list Z) : Prop := skip rest = rest /\ (ch rest = 0 \/ ch rest ∈ cs).

Lemma skip_tok w rest : is_word w -> w <> [] -> skip (w ++ rest) = w ++ rest.
Proof.
  intros Hw Hne. destruct w as [|c w]; [done|]. apply list.Forall_cons in Hw as [(_ & Hc & _) _]. cbn. by rewrite Hc.
Qed.

Lemma word_end_tok w rest : is_word w -> word_end (w ++ 32 :: rest) = 32 :: rest.
Proof.
  induction 1 as [|c w (_ & H1 & H2) Hw IH]; [done|]. cbn [app word_end]. rewrite H1, H2. done.
Qed.

Lemma gettoken_word w rest : word_ok w -> skip rest = rest ->
  exists a, gettoken (tok w ++ rest) = (97, a, rest) /\ span_str a = w.
Proof.
  intros [Hne Hw] Hs. unfold tok. rewrite <- (assoc_L (++)). cbn [app].
  exists (w ++ 32 :: rest, 32 :: rest). split.
  - unfold gettoken. rewrite skip_tok, word_end_tok by done. destruct w as [|c w]; [done|].
    apply list.Forall_cons in Hw as [(Hc0 & Hc1 & Hc2) Hw]. cbn [app ch].
    rewrite symbols_split in Hc2. apply orb_false_elim in Hc2 as [E1 E2].
    rewrite E1, E2, (proj2 (Z.eqb_neq _ _)) by done. cbn [skip]. change (in_chars whitespace 32) with true. cbn iota.
    by rewrite Hs.
  - unfold span_str. cbn [fst snd]. rewrite length_app, Nat.add_sub. apply take_app_length.
Qed.

Lemma in_chars_elem l c : Forall (fun x => x <> 0) l -> in_chars l c = true <-> c ∈ l.
Proof.
  unfold in_chars. induction 1 as [|x l Hx Hl IH]; cbn [strchr].
  - split; [done|]. by intros ?%not_elem_of_nil.
  - rewrite (proj2 (Z.eqb_neq x 0)) by done. rewrite elem_of_cons. destruct (Z.eqb_spec x c) as [->|Hne].
    + split; [by left|done].
    + rewrite <- IH. destruct (strchr l c); cbn; split; try done; [by right|by intros [->|?]].
Qed.

Lemma symbol_char c : in_chars symbols c = true -> in_chars whitespace c = false /\ c <> 0.
Proof.
  intros Hc%in_chars_elem; [|repeat constructor; discriminate]. revert c Hc. apply list.Forall_forall.
  repeat constructor; discriminate.
Qed.

Lemma skip_symbol c rest : in_chars symbols c = true -> skip (tok [c] ++ rest) = tok [c] ++ rest.
Proof. intros Hs. destruct (symbol_char c Hs) as [H1 _]. cbn. by rewrite H1. Qed.

Lemma gettoken_symbol c rest : in_chars (bstr "|();&<") c = true -> skip rest = rest ->
  exists a, gettoken (tok [c] ++ rest) = (c, a, rest).
Proof.
  intros Hc Hs. destruct (symbol_char c) as [H1 H2]; [by rewrite symbols_split, Hc|].
  eexists. unfold gettoken, tok. cbn [app skip]. rewrite H1. cbn [ch tail]. rewrite Hc, (proj2 (Z.eqb_neq _ _)) by done.
  cbn [skip]. change (in_chars whitespace 32) with true. cbn iota. rewrite Hs. done.
Qed.

Lemma peek_next cs toks rest : next cs rest -> Forall (fun c => in_chars toks c = false) cs -> peek rest toks = (false, rest).
Proof.
  intros [Hs Hc] Hcs. unfold peek. rewrite Hs. f_equal. rewrite list.Forall_forall in Hcs.
  destruct Hc as [-> |Hc]; [done|]. rewrite (Hcs _ Hc). apply andb_false_r.
Qed.

Lemma peek_word w rest toks : word_ok w -> Forall (fun c => c <> 0 /\ in_chars symbols c = true) toks ->
  peek (w ++ rest) toks = (false, w ++ rest).
Proof.
  intros [Hne Hw] Ht. unfold peek. rewrite skip_tok by done. f_equal. destruct w as [|c w]; [done|].
  apply list.Forall_cons in Hw as [(_ & _ & Hc) _]. cbn [app ch].
  destruct (in_chars toks c) eqn:E; [|apply andb_false_r]. exfalso.
  apply in_chars_elem in E; [|eapply list.Forall_impl; [exact Ht|]; by intros ? []].
  rewrite list.Forall_forall in Ht. destruct (Ht _ E) as [_ E']. congruence.
Qed.

Lemma peek_rd r rest : peek (tok (rd_symbol r) ++ rest) (bstr "<>") = (true, tok (rd_symbol r) ++ rest).
Proof. by destruct r. Qed.

Lemma gettoken_rd r rest : skip rest = rest ->
  exists a, gettoken (tok (rd_symbol r) ++ rest) = (match r with R_in => 60 | R_out => 62 | R_app => 43 end, a, rest).
Proof.
  intros Hs. destruct r; [by apply gettoken_symbol|..].
  - exists (62 :: 32 :: rest, 32 :: rest). transitivity (62, (62 :: 32 :: rest, 32 :: rest), skip rest); [done|by rewrite Hs].
  - exists (62 :: 62 :: 32 :: rest, 32 :: rest).
    transitivity (43, (62 :: 62 :: 32 :: rest, 32 :: rest), skip rest); [done|by rewrite Hs].
Qed.

Lemma skip_rds rs rest : skip rest = rest -> skip (show_rds rs ++ rest) = show_rds rs ++ rest.
Proof. intros H. destruct rs as [|[[] w] rs]; done. Qed.

Lemma parseredirs_show rs : forall fuel acc rest,
  rds_ok rs -> peek rest (bstr "<>") = (false, rest) ->
  (length (show_rds rs ++ rest) < fuel)%nat ->
  exists rs', parseredirs fuel acc (show_rds rs ++ rest) = P_ok (acc ++ rs', rest) /\
    forall c, strings span_str (wrap c rs') = tree_rds (strings span_str c) rs.
Proof.
  induction rs as [|[r w] rs IH]; intros fuel acc rest Hrs Hnx Hf; (destruct fuel as [|fuel]; [lia|]).
  { exists []. rewrite app_nil_r. cbn [show_rds map concat app parseredirs]. by rewrite Hnx. }
  apply list.Forall_cons in Hrs as [Hw Hrs]. cbn [snd] in Hw.
  change (show_rds ((r, w) :: rs)) with (show_rd (r, w) ++ show_rds rs) in *. unfold show_rd in *. cbn [fst snd] in *.
  rewrite <- !(assoc_L (++)) in *. set (rest1 := show_rds rs ++ rest) in *.
  assert (skip rest1 = rest1) as Hs1 by (apply skip_rds; exact (f_equal snd Hnx)).
  destruct (gettoken_word w rest1 Hw Hs1) as (a & Ea & Sa).
  destruct (gettoken_rd r (tok w ++ rest1)) as (x & Eg).
  { unfold tok. rewrite <- (assoc_L (++)). apply skip_tok; apply Hw. }
  cbn [parseredirs]. rewrite peek_rd, Eg, Ea. cbn [negb Z.eqb].
  destruct (IH fuel (acc ++ [(a, rd_mode r, rd_fd r)]) rest Hrs Hnx) as (rs' & E & Hw').
  { fold rest1. unfold tok in Hf. rewrite !length_app in Hf. cbn in Hf. lia. }
  exists ((a, rd_mode r, rd_fd r) :: rs'). split.
  { etrans; [|etrans; [exact E|by rewrite <- (assoc_L (++))]]. by destruct r. }
  intros c. change (wrap c ((a, rd_mode r, rd_fd r) :: rs')) with (wrap (REDIR c a (rd_mode r) (rd_fd r)) rs').
  rewrite Hw'. cbn. by rewrite Sa.
Qed.

(** ** Commands *)

(** What may follow a simple command. *)
Lemma exec_next args rest : next (bstr "|)&;") rest -> Forall (fun a => word_ok a.1 /\ rds_ok a.2) args ->
  peek (show_args args ++ rest) (bstr "<>") = (false, show_args args ++ rest).
Proof.
  intros Hnx Hargs. destruct args as [|[w ds] args].
  - apply (peek_next (bstr "|)&;")); [done|]. repeat constructor.
  - apply list.Forall_cons in Hargs as [[Hw _] _]. unfold show_args, tok. cbn. rewrite <- !(assoc_L (++)).
    apply peek_word; [done|]. repeat constructor; discriminate.
Qed.

Lemma parseexec_show args : forall fuel argv rs rest acc,
  Forall (fun a => word_ok a.1 /\ rds_ok a.2) args -> (length argv + length args < MAXARGS)%nat ->
  next (bstr "|)&;") rest -> (length (show_args args ++ rest) < fuel)%nat ->
  (forall c, strings span_str (wrap c rs) = tree_rds (strings span_str c) acc) ->
  exists c, parseexec_loop fuel argv rs (show_args args ++ rest) = P_ok (c, rest) /\
    strings span_str c = tree_rds (S_exec (map span_str argv ++ map fst args)) (acc ++ concat (map snd args)).
Proof.
  induction args as [|[w ds] args IH]; intros fuel argv rs rest acc Hargs Hlen Hnx Hf Hacc; (destruct fuel as [|fuel]; [lia|]).
  - cbn [show_args map concat app parseexec_loop]. rewrite !app_nil_r. exists (wrap (EXEC argv) rs).
    split; [|by rewrite Hacc]. destruct Hnx as [Hs Hc]. unfold peek. rewrite Hs.
    destruct (ch rest =? 0) eqn:E0; cbn [negb andb].
    + unfold gettoken. rewrite Hs, E0. cbn [Z.eqb]. by rewrite Hs.
    + destruct Hc as [Hc|Hc]; [b2p; done|]. apply in_chars_elem in Hc; [|repeat constructor; discriminate].
      by rewrite Hc.
  - apply list.Forall_cons in Hargs as [[Hw Hds] Hargs]. cbn [fst snd length] in *.
    change (show_args ((w, ds) :: args)) with ((tok w ++ show_rds ds) ++ show_args args) in *.
    rewrite <- !(assoc_L (++)) in *. set (rest1 := show_args args ++ rest) in *.
    pose proof (exec_next args rest Hnx Hargs) as Hn1. fold rest1 in Hn1.
    destruct (gettoken_word w (show_rds ds ++ rest1) Hw) as (a & Ea & Sa); [apply skip_rds; exact (f_equal snd Hn1)|].
    destruct (parseredirs_show ds (S (length (show_rds ds ++ rest1))) rs rest1 Hds Hn1 ltac:(lia)) as (rs' & Er & Hr).
    destruct (IH fuel (argv ++ [a]) (rs ++ rs') rest (acc ++ ds)) as (c & Ec & Hc); [done|rewrite length_app; cbn; lia|done|..].
    { fold rest1. unfold tok in Hf. rewrite !length_app in Hf. cbn [length] in Hf. lia. }
    { intros c. unfold wrap, tree_rds in *. rewrite !foldl_app. rewrite Hr. f_equal. apply Hacc. }
    exists c. split.
    + cbn [parseexec_loop]. unfold tok at 1. rewrite <- (assoc_L (++)), peek_word by (first [done|repeat constructor; discriminate]).
      rewrite (assoc_L (++)). fold (tok w). rewrite Ea. cbn [Z.eqb negb].
      rewrite (proj2 (Nat.leb_gt _ _)) by (rewrite length_app; cbn; lia). rewrite Er. cbn [presbind]. exact Ec.
    + rewrite Hc, map_app, <- !(assoc_L (++)). cbn. by rewrite Sa.
Qed.

Lemma length_tok c (x : list Z) : length (tok [c] ++ x) = S (S (length x)).
Proof. done. Qed.

Lemma peek_symbol c toks rest : in_chars symbols c = true -> in_chars toks c = true ->
  peek (tok [c] ++ rest) toks = (true, tok [c] ++ rest).
Proof.
  intros Hs Hc. destruct (symbol_char c Hs) as [H1 H2]. unfold peek, tok. cbn [app skip]. rewrite H1. cbn [ch]. rewrite Hc, (proj2 (Z.eqb_neq _ _)) by done. done.
Qed.

Lemma next_symbol c cs rest : in_chars symbols c = true -> c ∈ cs -> next cs (tok [c] ++ rest).
Proof.
  intros Hs Hc. split; [|by right]. by apply skip_symbol.
Qed.

Lemma next_mono cs cs' rest : cs ⊆ cs' -> next cs rest -> next cs' rest.
Proof. intros H [Hs [Hc|Hc]]; split; [done|by left|done|right; by apply H]. Qed.

Lemma parseback_show k : forall fuel c rest,
  peek rest (bstr "&") = (false, rest) -> (length (show_back k ++ rest) < fuel)%nat ->
  exists c', parseback fuel c (show_back k ++ rest) = P_ok (c', rest) /\
    strings span_str c' = Nat.iter k S_back (strings span_str c).
Proof.
  induction k as [|k IH]; intros fuel c rest Hp Hf; (destruct fuel as [|fuel]; [lia|]).
  - exists c. cbn [show_back replicate concat app parseback]. by rewrite Hp.
  - change (show_back (S k)) with (tok [38] ++ show_back k) in *. rewrite <- (assoc_L (++)) in *.
    cbn [parseback]. rewrite peek_symbol by done.
    destruct (gettoken_symbol 38 (show_back k ++ rest)) as (a & Ea); [done| |].
    { destruct k; [exact (f_equal snd Hp)|done]. }
    rewrite Ea. destruct (IH fuel (BACK c) rest Hp) as (c' & E & Hc); [rewrite length_tok in Hf; lia|].
    exists c'. split; [done|]. rewrite Hc. cbn. by rewrite Nat.iter_swap.
Qed.

Lemma peek_exec rs args rest : next (bstr "|)&;") rest -> Forall (fun a => word_ok a.1 /\ rds_ok a.2) args ->
  peek (show_rds rs ++ show_args args ++ rest) (bstr "(") = (false, show_rds rs ++ show_args args ++ rest).
Proof.
  intros Hnx Hargs. destruct rs as [|[[] w] rs]; [|done..]. cbn [show_rds map concat app].
  destruct args as [|[w ds] args].
  - apply (peek_next (bstr "|)&;")); [done|]. repeat constructor.
  - apply list.Forall_cons in Hargs as [[Hw _] _]. unfold show_args, tok. cbn. rewrite <- !(assoc_L (++)).
    apply peek_word; [done|]. repeat constructor; discriminate.
Qed.

(** What is written begins with a token. *)
Lemma skip_back k rest : skip rest = rest -> skip (show_back k ++ rest) = show_back k ++ rest.
Proof. by destruct k. Qed.

Lemma skip_args args rest : skip rest = rest -> Forall (fun a => word_ok a.1 /\ rds_ok a.2) args ->
  skip (show_args args ++ rest) = show_args args ++ rest.
Proof.
  intros Hs Hargs. destruct args as [|[w ds] args]; [done|]. apply list.Forall_cons in Hargs as [[[Hw1 Hw2] _] _].
  unfold show_args, tok. cbn. rewrite <- !(assoc_L (++)). by apply skip_tok.
Qed.

Lemma skip_show :
  (forall l rest, line_ok l -> skip rest = rest -> skip (show_line l ++ rest) = show_line l ++ rest) /\
  (forall p rest, pipe_ok p -> skip rest = rest -> skip (show_pipe p ++ rest) = show_pipe p ++ rest) /\
  (forall e rest, exec_ok e -> skip rest = rest -> skip (show_exec e ++ rest) = show_exec e ++ rest).
Proof.
  apply syntax_ind; cbn [line_ok pipe_ok exec_ok show_line show_pipe show_exec]; intros; rewrite <- ?(assoc_L (++)).
  - apply H; [done|]. by apply skip_back.
  - destruct H1. apply H; [done|]. apply skip_back. by apply skip_symbol.
  - by apply H.
  - destruct H1. apply H; [done|]. by apply skip_symbol.
  - destruct H as (? & ? & ?). apply skip_rds. by apply skip_args.
  - by apply skip_symbol.
Qed.

(** Each function parses what is written for its part of the grammar. *)
Definition line_parses (l : sline) : Prop := forall n rest, line_ok l -> next [41] rest ->
  (4 * length (show_line l ++ rest) + 4 <= n)%nat ->
  exists c, parseline n (show_line l ++ rest) = P_ok (c, rest) /\ strings span_str c = tree_line l.
Definition pipe_parses (p : spipe) : Prop := forall n rest, pipe_ok p -> next (bstr ")&;") rest ->
  (4 * length (show_pipe p ++ rest) + 3 <= n)%nat ->
  exists c, parsepipe n (show_pipe p ++ rest) = P_ok (c, rest) /\ strings span_str c = tree_pipe p.
Definition exec_parses (e : sexec) : Prop := forall n rest, exec_ok e -> next (bstr "|)&;") rest ->
  (4 * length (show_exec e ++ rest) + 2 <= n)%nat ->
  exists c, parseexec n (show_exec e ++ rest) = P_ok (c, rest) /\ strings span_str c = tree_exec e.

Lemma simple_parses rs args : exec_parses (E_simple rs args).
Proof.
  intros n rest (Hrs & Hargs & Hlen) Hnx Hf. destruct n as [|n]; [lia|]. cbn [parseexec show_exec tree_exec] in *.
  rewrite <- (assoc_L (++)) in *. rewrite peek_exec by done.
  destruct (parseredirs_show rs (S (length (show_rds rs ++ show_args args ++ rest))) [] (show_args args ++ rest) Hrs)
    as (rs' & Er & Hr); [by apply exec_next|lia|].
  rewrite Er. cbn [presbind app].
  destruct (parseexec_show args (S (length (show_args args ++ rest))) [] rs' rest rs) as (c & Ec & Hc);
    [done|done|done|lia|done|]. by exists c.
Qed.

Lemma block_parses l rs : line_parses l -> exec_parses (E_block l rs).
Proof.
  intros IH n rest (Hl & Hrs) Hnx Hf. destruct n as [|[|n]]; [lia..|]. cbn [show_exec tree_exec] in *.
  rewrite <- !(assoc_L (++)) in *. cbn [parseexec]. rewrite peek_symbol by done. cbn [parseblock].
  rewrite peek_symbol by done. cbn [negb].
  set (rest1 := tok [41] ++ show_rds rs ++ rest) in *.
  destruct (gettoken_symbol 40 (show_line l ++ rest1)) as (a & Ea); [done|apply skip_show; [done|by apply skip_symbol]|]. rewrite Ea.
  destruct (IH n rest1 Hl) as (c & Ec & Hc); [by apply next_symbol; [done|set_solver]| |].
  { rewrite length_tok in Hf. lia. }
  rewrite Ec. cbn [presbind]. unfold rest1. rewrite peek_symbol by done. cbn [negb].
  destruct (gettoken_symbol 41 (show_rds rs ++ rest)) as (a' & Ea'); [done|apply skip_rds, Hnx|]. rewrite Ea'.
  destruct (parseredirs_show rs (S (length (show_rds rs ++ rest))) [] rest Hrs) as (rs' & Er & Hr);
    [by apply (exec_next [])|lia|].
  rewrite Er. cbn [presbind app]. exists (wrap c rs'). split; [done|]. by rewrite Hr, Hc.
Qed.

Lemma pipe_one_parses e : exec_parses e -> pipe_parses (P_one e).
Proof.
  intros IH n rest Hok Hnx Hf. destruct n as [|n]; [lia|]. cbn [parsepipe show_pipe tree_pipe] in *.
  destruct (IH n rest Hok) as (c & E & Hc); [eapply next_mono, Hnx; set_solver|lia|].
  rewrite E. cbn [presbind]. rewrite (peek_next (bstr ")&;")) by (first [done|repeat constructor]). by exists c.
Qed.

Lemma pipe_bar_parses e p : exec_parses e -> pipe_parses p -> pipe_parses (P_bar e p).
Proof.
  intros IHe IHp n rest [He Hp] Hnx Hf. destruct n as [|n]; [lia|]. cbn [parsepipe show_pipe tree_pipe] in *.
  rewrite <- !(assoc_L (++)) in *. set (rest1 := show_pipe p ++ rest) in *.
  destruct (IHe n (tok [124] ++ rest1) He) as (c & E & Hc); [apply next_symbol; [done|set_solver]|lia|].
  rewrite E. cbn [presbind]. rewrite peek_symbol by done.
  destruct (gettoken_symbol 124 rest1) as (a & Ea); [done|apply skip_show; [done|apply Hnx]|]. rewrite Ea.
  destruct (IHp n rest Hp Hnx) as (c' & E' & Hc'); [fold rest1; rewrite !length_app in Hf; unfold tok in Hf; cbn [length app] in Hf; lia|].
  fold rest1 in E'. rewrite E'. cbn [presbind]. exists (PIPE c c'). split; [done|]. cbn. by rewrite Hc, Hc'.
Qed.

Lemma line_one_parses p k : pipe_parses p -> line_parses (L_one p k).
Proof.
  intros IH n rest Hok Hnx Hf. destruct n as [|n]; [lia|]. cbn [parseline show_line tree_line] in *.
  rewrite <- !(assoc_L (++)) in *.
  destruct (IH n (show_back k ++ rest) Hok) as (c & E & Hc); [|lia|].
  { destruct k; [eapply next_mono, Hnx; set_solver|]. cbn. by split; [|right; set_solver]. }
  rewrite E. cbn [presbind].
  destruct (parseback_show k (S (length (show_back k ++ rest))) c rest) as (c' & E' & Hc');
    [apply (peek_next [41]); [done|repeat constructor]|lia|].
  rewrite E'. cbn [presbind]. rewrite (peek_next [41]) by (first [done|repeat constructor]).
  exists c'. split; [done|]. by rewrite Hc', Hc.
Qed.

Lemma line_seq_parses p k l : pipe_parses p -> line_parses l -> line_parses (L_seq p k l).
Proof.
  intros IHp IHl n rest [Hp Hl] Hnx Hf. destruct n as [|n]; [lia|]. cbn [parseline show_line tree_line] in *.
  rewrite <- !(assoc_L (++)) in *. set (rest1 := show_line l ++ rest) in *.
  destruct (IHp n (show_back k ++ tok [59] ++ rest1) Hp) as (c & E & Hc); [|lia|].
  { destruct k; [apply next_symbol; [done|set_solver]|]. cbn. by split; [|right; set_solver]. }
  rewrite E. cbn [presbind].
  destruct (parseback_show k (S (length (show_back k ++ tok [59] ++ rest1))) c (tok [59] ++ rest1)) as (c' & E' & Hc');
    [apply (peek_next [59]); [by apply next_symbol; [|set_solver]|repeat constructor]|lia|].
  rewrite E'. cbn [presbind]. rewrite peek_symbol by done.
  destruct (gettoken_symbol 59 rest1) as (a & Ea); [done|apply skip_show; [done|apply Hnx]|]. rewrite Ea.
  destruct (IHl n rest Hl Hnx) as (c2 & E2 & Hc2); [fold rest1; rewrite !length_app in Hf; unfold tok in Hf; cbn [length app] in Hf; lia|].
  fold rest1 in E2. rewrite E2. cbn [presbind]. exists (LIST c' c2). split; [done|]. cbn. by rewrite Hc', Hc, Hc2.
Qed.

Lemma syntax_parses : (forall l, line_parses l) /\ (forall p, pipe_parses p) /\ (forall e, exec_parses e).
Proof.
  apply syntax_ind; auto using line_one_parses, line_seq_parses, pipe_one_parses, pipe_bar_parses, simple_parses, block_parses.
Qed.

Lemma word_no_nul w : is_word w -> no_nul w.
Proof. intros H. eapply list.Forall_impl; [exact H|]. by intros ? (? & _). Qed.

Lemma tok_no_nul w : no_nul w -> no_nul (tok w).
Proof. intros H. apply Forall_app. split; [done|]. by repeat constructor. Qed.

Lemma rds_no_nul rs : rds_ok rs -> no_nul (show_rds rs).
Proof.
  induction 1 as [|[r w] rs [_ Hw] Hrs IH]; [constructor|]. apply Forall_app. split; [|done].
  apply Forall_app. split; apply tok_no_nul; [destruct r; repeat constructor; discriminate|by apply word_no_nul].
Qed.

Lemma args_no_nul args : Forall (fun a => word_ok a.1 /\ rds_ok a.2) args -> no_nul (show_args args).
Proof.
  induction 1 as [|[w ds] args [[_ Hw] Hds] Hargs IH]; [constructor|]. apply Forall_app. split; [|done].
  apply Forall_app. split; [by apply tok_no_nul, word_no_nul|by apply rds_no_nul].
Qed.

Lemma back_no_nul k : no_nul (show_back k).
Proof. induction k; [constructor|]. apply Forall_app. split; [by repeat constructor|done]. Qed.

Lemma show_no_nul : (forall l, line_ok l -> no_nul (show_line l)) /\ (forall p, pipe_ok p -> no_nul (show_pipe p)) /\
  (forall e, exec_ok e -> no_nul (show_exec e)).
Proof.
  assert (forall c, c <> 0 -> no_nul (tok [c])) as Ht by (intros; apply tok_no_nul; by repeat constructor).
  apply syntax_ind; cbn [line_ok pipe_ok exec_ok show_line show_pipe show_exec]; unfold no_nul in *; intros;
    rewrite ?Forall_app; destruct_and?; split_and?; 
    first [done|by apply back_no_nul|by apply rds_no_nul|by apply args_no_nul|by apply Ht|auto].
Qed.

(** C30: the parser understands the language.  For every command of the grammar
    - lists, pipes, background commands, blocks, redirections and words - what
    is written for it, with one space after every word and symbol, is parsed to
    the tree that it stands for, with all its words and files read back from the
    line after nulterminate(); each simple command has fewer than MAXARGS
    words. *)
Theorem parsecmd_show l : line_ok l -> parsecmd (show_line l) = P_ok (tree_line l).
Proof.
  intros Hok. destruct syntax_parses as [H _].
  destruct (H l (parse_depth (show_line l)) [] Hok) as (c & E & Hc); [split; [done|by left]| |].
  { unfold parse_depth. rewrite app_nil_r. lia. }
  rewrite app_nil_r in E. rewrite <- Hc. apply parsecmd_strings_run; [by apply show_no_nul|].
  unfold parse. rewrite E. done.
Qed.

Lemma parsecmd_show_witness :
  parsecmd (bstr "( ls ; echo a b > f ) | wc & ") =
    P_ok (S_back (S_pipe
      (S_list (S_exec [bstr "ls"]) (S_redir (S_exec [bstr "echo"; bstr "a"; bstr "b"]) (bstr "f") 1537 1))
      (S_exec [bstr "wc"]))).
Proof.
  apply (parsecmd_show (L_one (P_bar
    (E_block (L_seq (P_one (E_simple [] [(bstr "ls", [])])) 0
       (L_one (P_one (E_simple [] [(bstr "echo", []); (bstr "a", []); (bstr "b", [(R_out, bstr "f")])])) 0)) [])
    (P_one (E_simple [] [(bstr "wc", [])]))) 1)).
  repeat first [discriminate|reflexivity|constructor].
Defined.
